(* ===== verification/_CoqProject ===== *)
-Q . S2P
Prelude.v
Text.v
Errors.v
Hash.v
Merkle.v
Json.v
Jcs.v
JcsFacts.v
Record.v
Chain.v
Recorder.v
Keys.v
Checkpoint.v
Revocation.v
Commitment.v
Projection.v
Certs.v
Bundle.v
Anchors.v
Report.v
Reader.v
Tsa.v
Ctx.v
Streams.v
Identity.v
Issue.v
Attest.v
Anchoring.v
Honest.v
Writer.v
Readback.v
Success.v
Delivery.v
Engine.v
Pass.v
Cli.v
Export.v
Scenarios.v
FormatTests.v
OpsTests.v
BundleTests.v
