(* ===== verification/Prelude.v ===== *)
(** * Verification of the Sealr evidence format and its offline verifier

    Sealr records what an agent did as an append-only stream of records, each
    carrying the hash of its predecessor, seals runs of records with signed
    Merkle checkpoints, anchors the checkpoints in time-stamp tokens, and exports
    all of it as a [.seal] bundle that anyone can verify offline. The repository
    has three crates: [evidence] (records, hashes, chain, checkpoints, keys,
    certificates), [bundle] (the container, its writer and its reader) and
    [verify] (the engine and the command line). This library models them in
    Rocq, translated from the Rust source, and proves what makes the verifier's
    verdict mean something.

    ** How the parts interact

    The recorder appends records to a [ChainHead] (chain.rs), which finalizes
    them over their RFC 8785 form (record.rs, jcs.rs, hash.rs). A checkpoint
    (checkpoint.rs) commits to a run of records by its Merkle root (merkle.rs),
    is signed with the recorder's key (keys.rs) and countersigned by the Console.
    The exporter drives a [BundleWriter] (write.rs) through its phases; the
    verifier opens the archive with a [BundleReader] (read.rs) and runs the seven
    phases of [verify_bundle] (engine.rs): container, trust (certs.rs,
    revocation.rs), chains, checkpoints, anchors (anchors.rs, tsa.rs), coverage
    and verdict (report.rs), which [main] (main.rs) turns into an exit code.

    ** Files

    - [Prelude]: results as an error monad, machine integers, bytes, lists,
      collision freedom, the hint database [sealr] and shared tactics.
    - [Text]: Rust's [char] and [String], UTF-8, UTF-16, decimal printing.
    - [Errors]: evidence/src/error.rs.
    - [Hash]: evidence/src/hash.rs, the hexadecimal codec and digest helpers.
    - [Merkle]: evidence/src/merkle.rs, with the RFC 6962 tree hash [mth].
    - [Json], [Jcs], [JcsFacts]: serde_json's [Value]; evidence/src/jcs.rs; the
      injectivity of the canonical form.
    - [Record]: evidence/src/record.rs, the schema, its JSON and its hash.
    - [Chain]: evidence/src/chain.rs, writer side and verifier side.
    - [Recorder]: when an append succeeds; the wall times and the sample records
      of record.rs.
    - [Keys], [Checkpoint], [Revocation], [Commitment], [Projection], [Certs]:
      the files of these names in evidence/src (projection.rs sends records to
      the Console; commitment.rs keeps payloads out of them).
    - [Issue]: the issuance half of certs.rs, and that what it issues validates,
      also from the PEM text of [Identity].
    - [Bundle], [Anchors]: bundle/src/types.rs, manifest.rs, error.rs; anchors.rs.
    - [Report]: verify/src/report.rs.
    - [Reader]: bundle/src/read.rs. [Writer]: bundle/src/write.rs.
    - [Tsa]: verify/src/tsa.rs.
    - [Ctx], [Streams], [Identity], [Attest], [Anchoring], [Engine]:
      verify/src/engine.rs, by phase: the accumulation of findings, phases 3 and
      4, phase 2, phase 5, phase 6, and [verify_bundle] itself with phases 1 and 7.
    - [Cli]: verify/src/main.rs.
    - [Honest]: what honest recorders, Consoles and authorities hand over, as
      specifications, and that the passes of the engine find it in order.
    - [Readback]: what the reader finds in a bundle of the writer, path by path.
    - [Success]: when the writer succeeds, its phases as a protocol. [Delivery]:
      the records that the reader delivers after any run of the writer.
    - [Pass]: when the verdict is Pass, without warnings.
    - [Export]: the components put together, from the recorder to the exit code.
    - [Scenarios], [FormatTests], [OpsTests], [BundleTests]: the tests of the
      repository as functions that pass or panic, with the facts on tampered
      streams that they are instances of.

    A struct is a Record, an enum an inductive type, and every function or
    handler a definition with the source's name. Fallible code returns [result].
    The mutable state of the engine's findings is the writer monad [Checked], the
    state of the bundle writer the monad [Wr]; a value that is borrowed mutably
    is passed and returned. A [BTreeMap] whose order is observable is a sorted
    association list, other maps are [gmap]s. [u64] arithmetic that can leave the
    range wraps as in the release profile; [u64_add] and [u64_sub] write it out.

    ** Parameters

    What is not in the repository is a class argument, with its documented
    behaviour, where a proof needs it, as a second class of laws: BLAKE3 and
    SHA-256 ([Blake3], [Blake3Len], [Sha256]), ed25519-dalek ([Ed25519],
    [Ed25519Laws], [KeyGen], [Pkcs8], [SpkiPem], [KeyPemLaws]), rand ([OsRng]),
    ulid ([UlidApi], [UlidLaws], [UlidParts]), chrono ([ChronoApi], [ChronoOrder],
    [ChronoFormat], [ChronoFormatLaws], [SystemClock]), x509-parser ([X509],
    [PemLaws]), rcgen ([Rcgen], [DnName], [RcgenLaws]),
    the CMS and RSA crates ([TsaApi]), zip ([ZipApi], [ZipWriterApi],
    [ZipWriterLaws]), zstd ([ZstdApi], [ZstdEncode], [ZstdLaws]), serde_json
    ([JsonParser], [ParserTypes], [JsonPrinter], [ReportPrinter]), the file system
    ([FileSystem]), and the roots and the version embedded at build time. Every
    law class has a concrete instance, and the witnesses of the theorems run on
    these instances.

    No digest is injective, so no theorem assumes it: a binding theorem assumes
    [collision_free_on blake3_hash l] for the finite list [l] of inputs that the
    computations in the statement hash. Authenticity likewise assumes, of the
    signatures in the statement only, that they are not forgeries.

    ** What is shown

    - The verdict ([Engine], [Cli]): [verdict_iff], the verdict is not Fail
      exactly if the bundle meets the declarative specification [bundle_ok], which
      is put together from those of the phases ([stream_intact],
      [checkpoints_ok], [anchors_ok], [trust_ok]); what that means for a reader of
      a report: contents intact, checkpoints signed, linked and without forks, no
      stream short of a pinned or countersigned extent; the totals are nested;
      the exit codes, that pins are enforced end to end, and what the text of a
      report always says ([Report]). [Pass.pass_iff] is the counterpart for the
      verdict Pass: beyond [bundle_ok], nothing is missing ([bundle_complete]).
    - The whole ([Export]): [honest_export_accepted], what an honest recorder
      and Console produce and the writer exports is accepted by [main], which
      exits with 0 if nothing is missing from the export ([complete_run]). It is
      the converse of the safety theorems above for the runs that [honest_run]
      describes; its proof composes those of [Honest], [Readback], [Issue],
      [Engine] and [Pass]. [honest_export_proven] says what its report counts.
    - Checkpoints and anchors ([Attest], [Anchoring], [Checkpoint]): which
      sequences are attested (a fork is an error of its own and does not count), that these are authentic, and which sequences are
      anchored; round trips from signing to verification.
    - The chain ([Chain], [Recorder], [Streams], [Record]): the streaming verifier refines the
      abstract chain [chain_ok]; a verified stream is tamper-evident; the
      invariant of a chain head under any sequence of calls; appending
      succeeds exactly for safe numbers, and what the recorder appends is
      accepted, also through the engine.
    - The container ([Writer], [Reader], [Bundle]): for every sequence of writer
      operations the result passes the reader and entries are in canonical order;
      records come back line by line across shards, except that a vault entry
      straight after them loses the index ([Delivery]); with libraries that do
      not fail, the operations that succeed are those in the order of the phases
      ([Success.writer_protocol]).
    - Data ([Jcs], [Merkle], [Hash], [Commitment]): canonicalization is injective
      up to member order and number spelling and rejects exactly unsafe numbers;
      roots agree with RFC 6962, bind their leaves, and proofs are sound and
      complete; commitments bind.
    - Tests ([Scenarios], [FormatTests], [OpsTests], [BundleTests]): the unit and
      property tests pass for every hash function, signature scheme, clock, ULID
      and certificate library with the documented laws. Where a test relies on
      two hashes to differ, on a signature not to verify, or on a library not to
      fail, its theorem says so. What is reported of a record that is changed,
      removed, swapped or added is shown for every stream and position.
    - Trust ([Certs], [Issue], [Identity], [Revocation], [Tsa]): path validation
      is sound and complete up to eight hops; issued chains validate; a Console key
      is supplied, attested by a root, or reported as unattested; revocation; what
      a verified token shows. The engine compares the time of a checkpoint with a
      revocation only where both parse, and the theorems say no more than that.

    ** Fuel

    Recursion follows the data, except: the Merkle recursions and the split loop
    carry the number of leaves ([Merkle.merkle_recursion_terminates]); the run of
    covered hashes carries one more than the size of the map, which it cannot
    exceed ([Attest.covered_spec]); PEM lines and base64 chunks carry the length
    of the text ([Identity.chunks_concat], [Identity.base64_round_fuel]); UTF-8
    decoding carries the number of bytes ([Text.from_utf8_spec]). The walk along a
    certificate path is bounded by eight in the source.

    ** Not modelled

    Message texts of findings and errors and their interpolated values (the text
    of a report takes the messages as an argument); [Debug] of the reader and the
    writer; the patterns of chrono's formatting; argument parsing by clap and
    what is printed on the standard error; the module declarations of the crate
    roots, which have no behaviour; of the tests, those whose subject is another
    crate: typed parsing by serde ([serde_round_trip_ndjson] and
    [unknown_fields_rejected_by_typed_parse_but_hashable_raw] in record.rs), the
    text that serde_json prints ([projection_excludes_sensitive_fields_structurally]
    in projection.rs) and the byte layout of a zip file
    ([tampered_entry_detected_by_content_hashes] in bundle/src/lib.rs). *)

From Stdlib Require Import Strings.Byte.
From stdpp Require Export prelude gmap strings list sorting.

Declare Scope sealr_scope.
Delimit Scope sealr_scope with sealr.
Global Open Scope sealr_scope.
Global Open Scope Z_scope.

(** ** The system's random source ([rand::rngs::OsRng]) *)

Class OsRng := {
  rng_state : Type;
  os_fill_bytes : nat → rng_state → list byte * rng_state;
}.

(** ** Results: Rust's [Result<A, E>] as an error monad *)

Inductive result (E A : Type) : Type :=
| Ok (a : A)
| Err (e : E).
Arguments Ok {E A} a.
Arguments Err {E A} e.

Global Instance result_ret E : MRet (result E) := λ A a, Ok a.
Global Instance result_bind E : MBind (result E) := λ A B f r,
  match r with Ok a => f a | Err e => Err e end.
Global Instance result_fmap E : FMap (result E) := λ A B f r,
  match r with Ok a => Ok (f a) | Err e => Err e end.

Global Instance result_eq_dec E A `{EqDecision E, EqDecision A} : EqDecision (result E A).
Proof. solve_decision. Defined.

(** [Result::ok], [Result::is_ok], [Result::map_err], [Option::ok_or]. *)
Definition res_ok {E A} (r : result E A) : option A :=
  match r with Ok a => Some a | Err _ => None end.

Definition is_ok {E A} (r : result E A) : bool :=
  match r with Ok _ => true | Err _ => false end.

Definition map_err {E F A} (f : E → F) (r : result E A) : result F A :=
  match r with Ok a => Ok a | Err e => Err (f e) end.

Definition ok_or {E A} (o : option A) (e : E) : result E A :=
  match o with Some a => Ok a | None => Err e end.

Lemma bind_Ok {E A B} (f : A → result E B) (r : result E A) b :
  (r ≫= f) = Ok b ↔ ∃ a, r = Ok a ∧ f a = Ok b.
Proof. destruct r; cbn; split; [eauto|by intros (?&[= ->]&?)|done|by intros (?&?&?)]. Qed.

Lemma fmap_Ok {E A B} (f : A → B) (r : result E A) b :
  f <$> r = Ok b ↔ ∃ a, r = Ok a ∧ b = f a.
Proof.
  destruct r; cbn; split; [intros [= <-]; eauto|by intros (?&[= ->]&->)|done|by intros (?&?&?)].
Qed.

Lemma map_err_Ok {E F A} (f : E → F) (r : result E A) a :
  map_err f r = Ok a ↔ r = Ok a.
Proof. destruct r; cbn; naive_solver. Qed.

Lemma ok_or_Ok {E A} (o : option A) (e : E) a : ok_or o e = Ok a ↔ o = Some a.
Proof. destruct o; cbn; naive_solver. Qed.

Lemma is_ok_true {E A} (r : result E A) : is_ok r = true ↔ ∃ a, r = Ok a.
Proof. destruct r; cbn; split; [eauto|done|done|by intros []]. Qed.

(** [iter().map(f).collect::<Result<Vec<_>>>()]: the first error wins. *)
Lemma mapM_Ok {E A B} (f : A → result E B) l k :
  mapM f l = Ok k ↔ Forall2 (λ a b, f a = Ok b) l k.
Proof.
  revert k; induction l as [|a l IH]; intros k; cbn.
  - split; [injection 1 as <-; constructor|by inversion 1].
  - rewrite bind_Ok; split.
    + intros (b & Hb & (bs & Hbs & [= <-])%bind_Ok). constructor; [done|]. by apply IH.
    + inversion 1 as [|? b ? bs Hb Hbs]; simplify_eq.
      exists b; split; [done|]. apply bind_Ok. exists bs. by rewrite IH.
Qed.

(** Case analysis of a chain of [?]s that succeeded. *)
Ltac ok_inv :=
  repeat match goal with
  | H : (_ ≫= _) = Ok _ |- _ => apply bind_Ok in H; destruct H as (? & ? & H)
  | H : _ <$> _ = Ok _ |- _ => apply fmap_Ok in H; destruct H as (? & H & ?)
  | H : map_err _ _ = Ok _ |- _ => apply map_err_Ok in H
  | H : ok_or _ _ = Ok _ |- _ => apply ok_or_Ok in H
  | H : Err _ = Ok _ |- _ => discriminate H
  | H : Ok _ = Ok _ |- _ => injection H as H
  | H : mret _ = Ok _ |- _ => injection H as H
  end.

(** ** Machine integers

    [u64] and [i64] values are integers of [Z]; arithmetic that can leave the
    range is written with the wrap-around of the release profile. *)

Definition u64_max : Z := 2 ^ 64 - 1.
Definition i64_min : Z := - 2 ^ 63.
Definition i64_max : Z := 2 ^ 63 - 1.
Definition is_u64 (z : Z) : bool := (0 <=? z) && (z <=? u64_max).
Definition is_i64 (z : Z) : bool := (i64_min <=? z) && (z <=? i64_max).
Definition wrap_u64 (z : Z) : Z := z mod 2 ^ 64.
Definition u64_add (a b : Z) : Z := wrap_u64 (a + b).
Definition u64_sub (a b : Z) : Z := wrap_u64 (a - b).

Lemma is_u64_spec z : is_u64 z = true ↔ 0 ≤ z ≤ u64_max.
Proof. unfold is_u64. lia. Qed.

Lemma wrap_u64_id z : is_u64 z = true → wrap_u64 z = z.
Proof. rewrite is_u64_spec. unfold u64_max, wrap_u64. intros. apply Z.mod_small. lia. Qed.

Lemma wrap_u64_range z : is_u64 (wrap_u64 z) = true.
Proof.
  rewrite is_u64_spec. unfold u64_max, wrap_u64.
  pose proof (Z.mod_pos_bound z (2 ^ 64) ltac:(lia)). lia.
Qed.

(** ** Bytes *)

Abbreviation byte := Byte.byte.
Abbreviation bytes := (list Byte.byte).

Definition b2z (b : byte) : Z := Z.of_N (Byte.to_N b).
(** The [as u8] cast. *)
Definition z2b (z : Z) : byte := default x00 (Byte.of_N (Z.to_N (z mod 256))).

Global Instance byte_eq_dec : EqDecision byte := Byte.byte_eq_dec.

Lemma b2z_range b : 0 ≤ b2z b < 256.
Proof. unfold b2z. pose proof (Byte.to_N_bounded b). lia. Qed.

Lemma z2b_b2z b : z2b (b2z b) = b.
Proof. by destruct b. Qed.

Lemma b2z_z2b z : b2z (z2b z) = z mod 256.
Proof.
  unfold b2z, z2b. pose proof (Z.mod_pos_bound z 256 ltac:(lia)).
  destruct (Byte.of_N (Z.to_N (z mod 256))) as [b|] eqn:Hb; cbn.
  - apply Byte.to_of_N in Hb. lia.
  - apply Byte.of_N_None_iff in Hb. lia.
Qed.

Lemma b2z_inj b c : b2z b = b2z c → b = c.
Proof. intros H. by rewrite <-(z2b_b2z b), H, z2b_b2z. Qed.

Lemma z2b_inj y z : 0 ≤ y < 256 → 0 ≤ z < 256 → z2b y = z2b z → y = z.
Proof. intros ?? H. apply (f_equal b2z) in H. rewrite !b2z_z2b, !Z.mod_small in H; lia. Qed.

(** A boolean property of every byte, by computation. *)
Lemma byte_forallb (f : byte → bool) :
  forallb (λ z, f (z2b z)) (seqZ 0 256) = true → ∀ b, f b = true.
Proof.
  intros Hall b. rewrite forallb_forall in Hall. rewrite <-(z2b_b2z b). apply Hall.
  apply list_elem_of_In, elem_of_seqZ. pose proof (b2z_range b). lia.
Qed.

(** ** Lists *)

Section list_facts.
Context {A : Type}.
Implicit Types (l r : list A).

(** Two maximal runs of elements of [P] that end at the same place are equal:
    this is how a tokenizer cuts a token. *)
Lemma span_unique (P : A → Prop) l1 l2 r1 r2 :
  Forall P l1 → Forall P l2 →
  (∀ x, head r1 = Some x → ¬ P x) → (∀ x, head r2 = Some x → ¬ P x) →
  l1 ++ r1 = l2 ++ r2 → l1 = l2 ∧ r1 = r2.
Proof.
  intros H1; revert l2; induction H1 as [|x l1 Hx H1 IH]; intros l2 H2 Hr1 Hr2 Heq.
  - destruct H2 as [|y l2 Hy H2]; [done|]. cbn in Heq. subst r1.
    exfalso. by eapply Hr1.
  - destruct H2 as [|y l2 Hy H2]; cbn in Heq.
    + subst r2. exfalso. by eapply Hr2.
    + injection Heq as -> Heq. destruct (IH l2) as [-> ->]; done.
Qed.

Lemma app_eq_same_length l1 l2 r1 r2 :
  length l1 = length l2 → l1 ++ r1 = l2 ++ r2 → l1 = l2 ∧ r1 = r2.
Proof. intros Hlen Heq. by apply app_inj_1. Qed.

Lemma last_cons_Some (x y : A) l : last (x :: l) = Some y → y = x ∨ last l = Some y.
Proof. destruct l; cbn; naive_solver. Qed.

Lemma Forall2_elem_l {B} (R : A → B → Prop) l (k : list B) x :
  Forall2 R l k → x ∈ l → ∃ y, y ∈ k ∧ R x y.
Proof.
  induction 1 as [|a b l k Hab _ IH]; intros Hx; [by apply not_elem_of_nil in Hx|].
  apply elem_of_cons in Hx as [->|Hx]; [exists b; by split; [left|]|].
  destruct (IH Hx) as (y & Hy & HR). exists y. by split; [right|].
Qed.
End list_facts.

(** ** Cryptographic hypotheses

    No hash with a fixed digest length is injective, so the binding theorems
    assume freedom from collisions only on the finite list of inputs that the
    computations in question hash. *)

Definition collision_free_on {A B} (h : A → B) (inputs : list A) : Prop :=
  ∀ x y, x ∈ inputs → y ∈ inputs → h x = h y → x = y.

Global Instance collision_free_on_dec {A B} `{EqDecision A, EqDecision B}
    (h : A → B) (inputs : list A) : Decision (collision_free_on h inputs).
Proof.
  (* The digests are computed once. *)
  destruct (decide (Forall (λ p, Forall (λ q, p.2 = q.2 → p.1 = q.1)
    ((λ x, (x, h x)) <$> inputs)) ((λ x, (x, h x)) <$> inputs))) as [Hall|Hn].
  - left. intros x y Hx Hy. rewrite Forall_fmap, Forall_forall in Hall. specialize (Hall x Hx).
    cbn in Hall. rewrite Forall_fmap, Forall_forall in Hall. exact (Hall y Hy).
  - right. intros Hcf. apply Hn. rewrite Forall_fmap. apply Forall_forall; intros x Hx. cbn.
    rewrite Forall_fmap. apply Forall_forall; intros y Hy. exact (Hcf x y Hx Hy).
Defined.

Lemma collision_free_mono {A B} (h : A → B) (xs ys : list A) :
  xs ⊆ ys → collision_free_on h ys → collision_free_on h xs.
Proof. intros Hsub Hcf x y Hx Hy. apply Hcf; auto. Qed.

Create HintDb sealr.
#[export] Hint Resolve b2z_range wrap_u64_range : sealr.

(** A decidable proposition about concrete data, by evaluation. *)
Ltac by_compute :=
  match goal with |- ?P => refine (bool_decide_eq_true_1 P _) end; vm_compute; reflexivity.
