(* ===== verification/Text.v ===== *)
(** * Text: Rust's [char] and [String], UTF-8, UTF-16 and decimal printing

    A [String] is the list of its Unicode scalar values ([s.chars()]); its
    bytes ([s.as_bytes()], [s.len()]) are the UTF-8 encoding of that list.
    Literals are written [str "..."]. *)

From Stdlib Require Import Strings.Byte Strings.Ascii Decimal DecimalZ.
From S2P Require Import Prelude.

Abbreviation char := Z.
Abbreviation rstring := (list Z).

(** The range of a Rust [char]: a code point that is no surrogate. *)
Definition valid_char (c : char) : bool :=
  (0 <=? c) && (c <? 0x110000) && negb ((0xD800 <=? c) && (c <=? 0xDFFF)).

Definition valid_str (s : rstring) : bool := forallb valid_char s.

Definition str (s : string) : rstring :=
  (λ a, Z.of_N (Ascii.N_of_ascii a)) <$> String.list_ascii_of_string s.

Definition byte_str (s : string) : bytes :=
  Ascii.byte_of_ascii <$> String.list_ascii_of_string s.

(** ** UTF-8 *)

(** [char::encode_utf8]. *)
Definition encode_utf8 (c : char) : bytes :=
  if c <? 0x80 then [z2b c]
  else if c <? 0x800 then
    [z2b (Z.lor 0xC0 (Z.shiftr c 6)); z2b (Z.lor 0x80 (Z.land c 0x3F))]
  else if c <? 0x10000 then
    [z2b (Z.lor 0xE0 (Z.shiftr c 12)); z2b (Z.lor 0x80 (Z.land (Z.shiftr c 6) 0x3F));
     z2b (Z.lor 0x80 (Z.land c 0x3F))]
  else
    [z2b (Z.lor 0xF0 (Z.shiftr c 18)); z2b (Z.lor 0x80 (Z.land (Z.shiftr c 12) 0x3F));
     z2b (Z.lor 0x80 (Z.land (Z.shiftr c 6) 0x3F)); z2b (Z.lor 0x80 (Z.land c 0x3F))].

(** [String::as_bytes] and [String::len]. *)
Definition as_bytes (s : rstring) : bytes := s ≫= encode_utf8.
Definition str_len (s : rstring) : Z := Z.of_nat (length (as_bytes s)).

(** ** UTF-16 *)

(** [str::encode_utf16], one character. *)
Definition encode_utf16_char (c : char) : list Z :=
  if c <? 0x10000 then [c]
  else [0xD800 + Z.shiftr (c - 0x10000) 10; 0xDC00 + Z.land (c - 0x10000) 0x3FF].

Definition encode_utf16 (s : rstring) : list Z := s ≫= encode_utf16_char.

(** [Ord::cmp] on slices: lexicographic. *)
Fixpoint slice_cmp (a b : list Z) : comparison :=
  match a, b with
  | [], [] => Eq
  | [], _ :: _ => Lt
  | _ :: _, [] => Gt
  | x :: a, y :: b => match x ?= y with Eq => slice_cmp a b | c => c end
  end.

(** [str::cmp] compares bytes; on valid UTF-8 this is the order of the
    scalar values. *)
Definition str_ltb (a b : rstring) : bool :=
  match slice_cmp (b2z <$> as_bytes a) (b2z <$> as_bytes b) with Lt => true | _ => false end.

(** ** Decimal numbers ([u64::to_string], [i64::to_string]) *)

Fixpoint uint_bytes (u : Decimal.uint) : bytes :=
  match u with
  | Decimal.Nil => []
  | Decimal.D0 u => "0"%byte :: uint_bytes u
  | Decimal.D1 u => "1"%byte :: uint_bytes u
  | Decimal.D2 u => "2"%byte :: uint_bytes u
  | Decimal.D3 u => "3"%byte :: uint_bytes u
  | Decimal.D4 u => "4"%byte :: uint_bytes u
  | Decimal.D5 u => "5"%byte :: uint_bytes u
  | Decimal.D6 u => "6"%byte :: uint_bytes u
  | Decimal.D7 u => "7"%byte :: uint_bytes u
  | Decimal.D8 u => "8"%byte :: uint_bytes u
  | Decimal.D9 u => "9"%byte :: uint_bytes u
  end.

Definition dec_bytes (z : Z) : bytes :=
  match Z.to_int z with
  | Decimal.Pos u => uint_bytes u
  | Decimal.Neg u => "-"%byte :: uint_bytes u
  end.

(** The bytes a decimal number is made of. *)
Definition dec_char (b : byte) : Prop :=
  b = "-"%byte ∨ 48 ≤ b2z b ≤ 57.

(** ** Facts: decimal printing is injective *)

Lemma uint_bytes_digits u : Forall (λ b, 48 ≤ b2z b ≤ 57) (uint_bytes u).
Proof. induction u; cbn; constructor; try done; by vm_compute. Qed.

Lemma uint_bytes_inj u v : uint_bytes u = uint_bytes v → u = v.
Proof.
  revert v; induction u; intros []; cbn; intros H; try discriminate; try done;
    injection H as H; f_equal; auto.
Qed.

Lemma dec_bytes_chars z : Forall dec_char (dec_bytes z).
Proof.
  unfold dec_bytes.
  assert (∀ u, Forall dec_char (uint_bytes u)) as Hu.
  { intros u. eapply Forall_impl; [apply uint_bytes_digits|]. intros b ?. by right. }
  destruct (Z.to_int z); [apply Hu|]. constructor; [by left|apply Hu].
Qed.

Lemma dec_bytes_inj y z : dec_bytes y = dec_bytes z → y = z.
Proof.
  unfold dec_bytes. intros H.
  assert (Z.to_int y = Z.to_int z) as Hi.
  { destruct (Z.to_int y) as [u|u], (Z.to_int z) as [v|v].
    - f_equal. by apply uint_bytes_inj.
    - exfalso. pose proof (uint_bytes_digits u) as Hd. rewrite H in Hd.
      apply Forall_inv in Hd. cbn in Hd. lia.
    - exfalso. pose proof (uint_bytes_digits v) as Hd. rewrite <-H in Hd.
      apply Forall_inv in Hd. cbn in Hd. lia.
    - injection H as H. f_equal. by apply uint_bytes_inj. }
  apply (f_equal Z.of_int) in Hi. by rewrite !DecimalZ.of_to in Hi.
Qed.

Lemma dec_bytes_nonempty z : dec_bytes z ≠ [].
Proof.
  unfold dec_bytes. intros H. destruct (Z.to_int z) as [u|u] eqn:Hz; [|done].
  assert (u = Decimal.Nil) as -> by (by apply uint_bytes_inj).
  pose proof (DecimalZ.of_to z) as Hof. rewrite Hz in Hof. cbn in Hof. subst z. discriminate.
Qed.

(** ** Facts: UTF-8 *)

(** A decidable property of the integers below a bound, by computation. *)
Lemma Z_below_forallb (n : Z) (f : Z → bool) :
  forallb f (seqZ 0 n) = true → ∀ z, 0 ≤ z < n → f z = true.
Proof.
  intros Hall z Hz. rewrite forallb_forall in Hall. apply Hall.
  apply list_elem_of_In. apply elem_of_seqZ. lia.
Qed.

Lemma lor_prefix (n m : Z) :
  forallb (λ x, Z.lor m x =? m + x) (seqZ 0 n) = true →
  ∀ x, 0 ≤ x < n → Z.lor m x = m + x.
Proof. intros Hall x Hx. apply Z.eqb_eq. by apply (Z_below_forallb n _ Hall). Qed.

Lemma encode_utf8_arith c :
  0 ≤ c < 0x110000 →
  encode_utf8 c =
    if c <? 0x80 then [z2b c]
    else if c <? 0x800 then [z2b (0xC0 + c / 64); z2b (0x80 + c mod 64)]
    else if c <? 0x10000 then
      [z2b (0xE0 + c / 4096); z2b (0x80 + (c / 64) mod 64); z2b (0x80 + c mod 64)]
    else
      [z2b (0xF0 + c / 262144); z2b (0x80 + (c / 4096) mod 64);
       z2b (0x80 + (c / 64) mod 64); z2b (0x80 + c mod 64)].
Proof.
  intros Hc. unfold encode_utf8.
  rewrite !Z.shiftr_div_pow2 by lia.
  change 0x3F with (Z.ones 6). rewrite !Z.land_ones by lia.
  change (2 ^ 6) with 64. change (2 ^ 12) with 4096. change (2 ^ 18) with 262144.
  rewrite !(lor_prefix 64 0x80) by (reflexivity || (apply Z.mod_pos_bound; lia)).
  destruct (Z.ltb_spec c 0x80); [done|].
  destruct (Z.ltb_spec c 0x800).
  { rewrite (lor_prefix 32 0xC0); [done|reflexivity|].
    pose proof (Z.div_lt_upper_bound c 64 32). pose proof (Z.div_pos c 64). lia. }
  destruct (Z.ltb_spec c 0x10000).
  { rewrite (lor_prefix 16 0xE0); [done|reflexivity|].
    pose proof (Z.div_lt_upper_bound c 4096 16). pose proof (Z.div_pos c 4096). lia. }
  rewrite (lor_prefix 8 0xF0); [done|reflexivity|].
  pose proof (Z.div_lt_upper_bound c 262144 8). pose proof (Z.div_pos c 262144). lia.
Qed.

(** Decoding one scalar value, the inverse of [encode_utf8]. *)
Definition decode_utf8 (bs : bytes) : option (char * bytes) :=
  match bs with
  | [] => None
  | a :: r =>
    if b2z a <? 0x80 then Some (b2z a, r)
    else if b2z a <? 0xE0 then
      match r with b :: r => Some ((b2z a - 0xC0) * 64 + (b2z b - 0x80), r) | _ => None end
    else if b2z a <? 0xF0 then
      match r with
      | b :: c :: r =>
        Some ((b2z a - 0xE0) * 4096 + (b2z b - 0x80) * 64 + (b2z c - 0x80), r)
      | _ => None
      end
    else
      match r with
      | b :: c :: d :: r =>
        Some ((b2z a - 0xF0) * 262144 + (b2z b - 0x80) * 4096
              + (b2z c - 0x80) * 64 + (b2z d - 0x80), r)
      | _ => None
      end
  end.

Lemma decode_encode_utf8 c r :
  valid_char c = true → decode_utf8 (encode_utf8 c ++ r) = Some (c, r).
Proof.
  unfold valid_char. intros Hv.
  assert (0 ≤ c < 0x110000) as Hc by lia. clear Hv.
  rewrite encode_utf8_arith by done.
  assert (∀ z, 0 ≤ z < 256 → b2z (z2b z) = z) as Hid.
  { intros z Hz. rewrite b2z_z2b. by apply Z.mod_small. }
  repeat case_match; cbn; rewrite ?Hid by (Z.div_mod_to_equations; lia);
    repeat (case_match; try (exfalso; Z.div_mod_to_equations; lia));
    do 2 f_equal; Z.div_mod_to_equations; lia.
Qed.

Lemma encode_utf8_unique c d r s :
  valid_char c = true → valid_char d = true →
  encode_utf8 c ++ r = encode_utf8 d ++ s → c = d ∧ r = s.
Proof.
  intros Hc Hd Heq. apply (f_equal decode_utf8) in Heq.
  rewrite !decode_encode_utf8 in Heq by done. by injection Heq as -> ->.
Qed.

(** The first byte of an encoding is the character itself when it is ASCII
    and a lead byte of at least 0x80 otherwise. *)
Lemma encode_utf8_head c :
  0 ≤ c < 0x110000 → ∃ b r, encode_utf8 c = b :: r ∧
    (if c <? 0x80 then b2z b = c ∧ r = [] else 0x80 ≤ b2z b).
Proof.
  intros Hc. rewrite encode_utf8_arith by done.
  repeat case_match; eexists _, _; (split; [done|]);
    rewrite b2z_z2b, Z.mod_small by (Z.div_mod_to_equations; lia);
    first [by split|Z.div_mod_to_equations; lia].
Qed.

Lemma as_bytes_app s t : as_bytes (s ++ t) = as_bytes s ++ as_bytes t.
Proof. apply bind_app. Qed.

Lemma as_bytes_inj s t :
  valid_str s = true → valid_str t = true → as_bytes s = as_bytes t → s = t.
Proof.
  unfold valid_str, as_bytes. revert t.
  induction s as [|c s IH]; intros [|d t]; cbn; rewrite ?andb_true_iff.
  - done.
  - intros _ [Hd _] H. exfalso.
    destruct (encode_utf8_head d) as (b & r & Hb & _); [unfold valid_char in Hd; lia|].
    by rewrite Hb in H.
  - intros [Hc _] _ H. exfalso.
    destruct (encode_utf8_head c) as (b & r & Hb & _); [unfold valid_char in Hc; lia|].
    by rewrite Hb in H.
  - intros [Hc Hs] [Hd Ht] H.
    apply encode_utf8_unique in H as [-> H]; [|done..]. f_equal. by apply IH.
Qed.

(** ** Facts: UTF-16 order *)

Lemma encode_utf16_char_inj c d r s :
  valid_char c = true → valid_char d = true →
  encode_utf16_char c ++ r = encode_utf16_char d ++ s → c = d ∧ r = s.
Proof.
  unfold valid_char, encode_utf16_char. intros Hc Hd.
  rewrite !Z.shiftr_div_pow2 by lia.
  change 0x3FF with (Z.ones 10). rewrite !Z.land_ones by lia.
  change (2 ^ 10) with 1024.
  repeat case_match; cbn; intros Heq; simplify_eq; try done.
  - exfalso. Z.div_mod_to_equations; lia.
  - exfalso. Z.div_mod_to_equations; lia.
  - split; [|done]. Z.div_mod_to_equations; lia.
Qed.

Lemma encode_utf16_inj s t :
  valid_str s = true → valid_str t = true → encode_utf16 s = encode_utf16 t → s = t.
Proof.
  unfold valid_str, encode_utf16. revert t.
  assert (∀ c, encode_utf16_char c ≠ []) as Hne
    by (intros c; unfold encode_utf16_char; by case_match).
  induction s as [|c s IH]; intros [|d t]; cbn; rewrite ?andb_true_iff; intros Hs Ht H.
  - done.
  - exfalso. symmetry in H. apply app_eq_nil in H as [H _]. by eapply Hne.
  - exfalso. apply app_eq_nil in H as [H _]. by eapply Hne.
  - destruct Hs, Ht. apply encode_utf16_char_inj in H as [-> H]; [|done..].
    f_equal. by apply IH.
Qed.

Lemma slice_cmp_eq a b : slice_cmp a b = Eq ↔ a = b.
Proof.
  revert b; induction a as [|x a IH]; intros [|y b]; cbn; try done.
  destruct (Z.compare_spec x y); subst.
  - rewrite IH. split; [by intros ->|by intros [= ->]].
  - split; [done|]. intros [= -> ->]. lia.
  - split; [done|]. intros [= -> ->]. lia.
Qed.

Lemma slice_cmp_antisym a b : slice_cmp b a = CompOpp (slice_cmp a b).
Proof.
  revert b; induction a as [|x a IH]; intros [|y b]; cbn; try done.
  rewrite (Z.compare_antisym x y). destruct (x ?= y); cbn; auto.
Qed.

Lemma slice_cmp_trans a b c :
  slice_cmp a b = Lt → slice_cmp b c = Lt → slice_cmp a c = Lt.
Proof.
  revert b c; induction a as [|x a IH]; intros [|y b] [|z c]; cbn; try done.
  destruct (Z.compare_spec x y), (Z.compare_spec y z), (Z.compare_spec x z);
    subst; try done; try lia; eauto.
Qed.

(** The order of the canonical form: [a16.cmp(&b16)] is not [Greater]. *)
Definition utf16_le (s t : rstring) : Prop :=
  slice_cmp (encode_utf16 s) (encode_utf16 t) ≠ Gt.

Global Instance utf16_le_dec s t : Decision (utf16_le s t) := _.

Global Instance utf16_le_total : Total utf16_le.
Proof.
  intros s t. unfold utf16_le. rewrite (slice_cmp_antisym (encode_utf16 s)).
  destruct (slice_cmp (encode_utf16 s) (encode_utf16 t)); cbn; naive_solver.
Qed.

Global Instance utf16_le_trans : Transitive utf16_le.
Proof.
  unfold utf16_le. intros s t u.
  destruct (slice_cmp (encode_utf16 s) _) eqn:Hst; [| |done];
  destruct (slice_cmp (encode_utf16 t) (encode_utf16 u)) eqn:Htu; try done; intros _ _.
  - apply slice_cmp_eq in Hst. rewrite Hst. by rewrite Htu.
  - apply slice_cmp_eq in Hst. rewrite Hst. by rewrite Htu.
  - apply slice_cmp_eq in Htu. rewrite <-Htu. by rewrite Hst.
  - by rewrite (slice_cmp_trans _ _ _ Hst Htu).
Qed.

Lemma utf16_le_antisym s t :
  valid_str s = true → valid_str t = true → utf16_le s t → utf16_le t s → s = t.
Proof.
  unfold utf16_le. intros Hs Ht. rewrite (slice_cmp_antisym (encode_utf16 s)).
  destruct (slice_cmp (encode_utf16 s) _) eqn:Hst; cbn; try done.
  intros _ _. apply slice_cmp_eq in Hst. by apply encode_utf16_inj.
Qed.

Arguments utf16_le : simpl never.
Arguments encode_utf8 : simpl never.
Arguments valid_char : simpl never.

(** ** [String::from_utf8]

    A character is accepted if it is a scalar value and its encoding is the
    bytes it was read from, which excludes overlong forms and surrogates. *)

Fixpoint from_utf8_fuel (fuel : nat) (bs : bytes) : option rstring :=
  match fuel, bs with
  | _, [] => Some []
  | O, _ => None
  | S fuel, _ =>
    '(c, r) ← decode_utf8 bs;
    if valid_char c && bool_decide (bs = encode_utf8 c ++ r) then cons c <$> from_utf8_fuel fuel r
    else None
  end.

Definition from_utf8 (bs : bytes) : option rstring := from_utf8_fuel (length bs) bs.

Lemma encode_utf8_cons c : ∃ b r, encode_utf8 c = b :: r.
Proof. unfold encode_utf8. repeat case_match; eauto. Qed.

Lemma from_utf8_fuel_spec fuel bs s :
  (length bs ≤ fuel)%nat →
  from_utf8_fuel fuel bs = Some s ↔ valid_str s = true ∧ as_bytes s = bs.
Proof.
  revert bs s; induction fuel as [|fuel IH]; intros bs s Hlen.
  - assert (bs = []) as -> by (by destruct bs; cbn in Hlen; [|lia]). cbn. split.
    + by intros [= <-].
    + intros [_ Hs]. destruct s as [|c s]; [done|]. unfold as_bytes in Hs. cbn in Hs.
      destruct (encode_utf8_cons c) as (b & r & Hb). by rewrite Hb in Hs.
  - destruct bs as [|b bs].
    + cbn. split; [by intros [= <-]|]. intros [_ Hs]. destruct s as [|c s]; [done|].
      unfold as_bytes in Hs. cbn in Hs. destruct (encode_utf8_cons c) as (b & r & Hb). by rewrite Hb in Hs.
    + cbn [from_utf8_fuel]. rewrite bind_Some. split.
      * intros ([c r] & Hd & Hs). case_match eqn:Hv; [|done].
        apply andb_true_iff in Hv as [Hc Hbs%bool_decide_eq_true].
        apply fmap_Some in Hs as (t & Ht & ->). apply IH in Ht as [Hvt <-].
        2: { destruct (encode_utf8_cons c) as (b' & r' & Hb). rewrite Hb in Hbs.
             apply (f_equal length) in Hbs. cbn in Hbs, Hlen. rewrite length_app in Hbs. lia. }
        split; [cbn; by rewrite Hc|]. by rewrite Hbs.
      * intros [Hv Hs]. destruct s as [|c s]; [done|]. cbn in Hv.
        apply andb_true_iff in Hv as [Hc Hv]. change (as_bytes (c :: s)) with (encode_utf8 c ++ as_bytes s) in Hs.
        exists (c, as_bytes s). rewrite <-Hs. split; [by apply decode_encode_utf8|].
        rewrite Hc, bool_decide_true by done. cbn. apply fmap_Some. exists s. split; [|done].
        apply IH; [|done]. apply (f_equal length) in Hs. rewrite length_app in Hs.
        destruct (encode_utf8_cons c) as (b' & r' & Hb). rewrite Hb in Hs. cbn in Hs, Hlen. lia.
Qed.

Lemma from_utf8_spec bs s : from_utf8 bs = Some s ↔ valid_str s = true ∧ as_bytes s = bs.
Proof. by apply from_utf8_fuel_spec. Qed.
