(* ===== verification/Errors.v ===== *)
(** * The error taxonomy of the evidence crate (evidence/src/error.rs)

    The constructors are those of [EvidenceError]. A [String] payload that the
    code builds with [format!] is represented by the constant part of the
    message; the interpolated values are display text that no code reads. *)

From S2P Require Import Prelude Text.

Inductive EvidenceError :=
| UnsafeNumber
| Json
| InvalidHex (field : string) (detail : string)
| RecordHashMismatchError (seq : Z) (expected computed : rstring)
| ChainLinkageBroken (seq : Z) (expected found : rstring)
| SequenceViolation (record_id : rstring) (expected found : Z)
| MonotonicRegression (seq prev_ns found_ns : Z)
| WallClockRegression (seq : Z) (detail : string)
| GenesisViolationError (stream_id : rstring) (detail : string)
| SignatureInvalid (context : string)
| Key (detail : string)
| Certificate (detail : string)
| Checkpoint (detail : string)
| MerkleProof (detail : string)
| Schema (detail : string).

Global Instance EvidenceError_eq_dec : EqDecision EvidenceError.
Proof. solve_decision. Defined.

(** [crate::error::Result]. *)
Abbreviation Result := (result EvidenceError).
