(* ===== verification/Hash.v ===== *)
(** * Hashing and hexadecimal (evidence/src/hash.rs)

    BLAKE3 and SHA-256 come from the crates [blake3] and [sha2] and are
    parameters: the classes [Blake3] and [Sha256] hold the functions, and the
    [Prop] classes their documented digest lengths. The hexadecimal codec is
    the crate's own code. *)

From Stdlib Require Import Strings.Byte.
From S2P Require Import Prelude Text Errors.

Definition DIGEST_LEN : nat := 32.

Class Blake3 := blake3_hash : bytes → bytes.
Class Blake3Len `{Blake3} : Prop :=
  blake3_length : ∀ bs, length (blake3_hash bs) = DIGEST_LEN.

Class Sha256 := sha256_digest : bytes → bytes.
Class Sha256Len `{Sha256} : Prop :=
  sha256_length : ∀ bs, length (sha256_digest bs) = 32%nat.

(** ** Operations *)

(** One digit of [{b:02x}]. *)
Definition hex_digit (n : Z) : char := if n <? 10 then 48 + n else 97 + (n - 10).

Definition hex_byte (b : byte) : rstring :=
  [hex_digit (b2z b / 16); hex_digit (b2z b mod 16)].

Definition hex_encode (bs : bytes) : rstring := bs ≫= hex_byte.

Definition hex_val (field : string) (c : byte) : Result byte :=
  let c := b2z c in
  if (48 <=? c) && (c <=? 57) then Ok (z2b (c - 48))
  else if (97 <=? c) && (c <=? 102) then Ok (z2b (c - 97 + 10))
  else if (65 <=? c) && (c <=? 70) then Ok (z2b (c - 65 + 10))
  else Err (InvalidHex field "invalid hex character").

(** The loop over [bytes.chunks_exact(2)]. *)
Fixpoint hex_decode_pairs (field : string) (bs : bytes) : Result bytes :=
  match bs with
  | b0 :: b1 :: rest =>
    hi ← hex_val field b0;
    lo ← hex_val field b1;
    out ← hex_decode_pairs field rest;
    mret (z2b (Z.lor (Z.shiftl (b2z hi) 4) (b2z lo)) :: out)
  | _ => Ok []
  end.

Definition hex_decode (field : string) (s : rstring) : Result bytes :=
  if negb (str_len s mod 2 =? 0) then Err (InvalidHex field "odd length")
  else hex_decode_pairs field (as_bytes s).

Definition hex_decode_digest (field : string) (s : rstring) : Result bytes :=
  v ← hex_decode field s;
  if decide (length v = DIGEST_LEN) then Ok v
  else Err (InvalidHex field "expected 32 bytes").

Section with_hash.
Context `{Blake3} `{Sha256}.

Definition blake3_hex (bs : bytes) : rstring := hex_encode (blake3_hash bs).
Definition blake3_raw (bs : bytes) : bytes := blake3_hash bs.
Definition sha256_hex (bs : bytes) : rstring := hex_encode (sha256_digest bs).
Definition sha256_raw (bs : bytes) : bytes := sha256_digest bs.
End with_hash.

(** The lowercase hexadecimal digits, and lowercasing of the uppercase ones. *)
Definition lower_hex (c : char) : char := if (65 <=? c) && (c <=? 70) then c + 32 else c.
Definition is_lower_hex (c : char) : bool :=
  ((48 <=? c) && (c <=? 57)) || ((97 <=? c) && (c <=? 102)).

(** ** Facts *)

Lemma hex_encode_length bs : length (hex_encode bs) = (2 * length bs)%nat.
Proof. induction bs as [|b bs IH]; cbn in *; [done|]. unfold hex_encode in IH. rewrite IH. lia. Qed.

Lemma hex_encode_cons b bs : hex_encode (b :: bs) = hex_byte b ++ hex_encode bs.
Proof. done. Qed.

Lemma hex_byte_ascii b : Forall (λ c, 0 ≤ c < 0x80 ∧ is_lower_hex c = true) (hex_byte b).
Proof.
  pose proof (byte_forallb (λ b, forallb (λ c, (0 <=? c) && (c <? 0x80) && is_lower_hex c)
    (hex_byte b)) eq_refl b) as Hb. cbn beta in Hb.
  apply Forall_forall. intros c Hc%list_elem_of_In. rewrite forallb_forall in Hb.
  specialize (Hb c Hc). apply andb_true_iff in Hb as [? ?]. split; [lia|done].
Qed.

Lemma hex_encode_ascii bs : Forall (λ c, 0 ≤ c < 0x80 ∧ is_lower_hex c = true) (hex_encode bs).
Proof. apply Forall_bind. apply Forall_true. apply hex_byte_ascii. Qed.

Lemma as_bytes_ascii s : Forall (λ c, 0 ≤ c < 0x80) s → as_bytes s = z2b <$> s.
Proof.
  unfold as_bytes. induction 1 as [|c s Hc Hs IH]; cbn; [done|].
  rewrite IH. unfold encode_utf8. by rewrite (proj2 (Z.ltb_lt c 0x80)) by lia.
Qed.

Lemma as_bytes_hex bs : as_bytes (hex_encode bs) = z2b <$> hex_encode bs.
Proof. apply as_bytes_ascii. eapply Forall_impl; [apply hex_encode_ascii|]. by intros ? [? _]. Qed.

Lemma valid_str_hex bs : valid_str (hex_encode bs) = true.
Proof.
  apply forallb_forall. intros c Hc%list_elem_of_In.
  pose proof (hex_encode_ascii bs) as Hall. rewrite Forall_forall in Hall.
  specialize (Hall c Hc). unfold valid_char. lia.
Qed.

Lemma hex_decode_pairs_encode field bs :
  hex_decode_pairs field (z2b <$> hex_encode bs) = Ok bs.
Proof.
  induction bs as [|b bs IH]; [done|].
  rewrite hex_encode_cons, fmap_app.
  generalize dependent (z2b <$> hex_encode bs). intros r Hr.
  destruct b; cbn; by rewrite Hr.
Qed.

(** Decoding what was encoded. *)
Lemma hex_decode_encode field bs : hex_decode field (hex_encode bs) = Ok bs.
Proof.
  unfold hex_decode, str_len. rewrite as_bytes_hex, length_fmap, hex_encode_length.
  rewrite (proj2 (Z.eqb_eq _ _)); [cbn; apply hex_decode_pairs_encode|].
  rewrite Nat2Z.inj_mul, Z.mul_comm. apply Z.mod_mul. lia.
Qed.

Lemma hex_encode_inj bs cs : hex_encode bs = hex_encode cs → bs = cs.
Proof.
  intros Heq. pose proof (hex_decode_encode "" bs) as H. rewrite Heq, hex_decode_encode in H.
  by injection H.
Qed.

Lemma hex_decode_digest_encode field bs :
  length bs = DIGEST_LEN → hex_decode_digest field (hex_encode bs) = Ok bs.
Proof.
  intros Hlen. unfold hex_decode_digest. rewrite hex_decode_encode. cbn. by rewrite decide_True.
Qed.

Lemma hex_decode_digest_length field s d :
  hex_decode_digest field s = Ok d → length d = DIGEST_LEN.
Proof. unfold hex_decode_digest. intros H. ok_inv. case_decide; by simplify_eq. Qed.

Lemma blake3_hex_inj `{Blake3} bs cs : blake3_hex bs = blake3_hex cs → blake3_hash bs = blake3_hash cs.
Proof. apply hex_encode_inj. Qed.

#[export] Hint Resolve valid_str_hex : sealr.

(** ** Facts: what a successful decoding read *)

Lemma hex_val_Ok field b v :
  hex_val field b = Ok v →
  b2z v < 16 ∧ hex_digit (b2z v) = lower_hex (b2z b) ∧ b2z b < 0x80.
Proof.
  intros Hval. pose proof (byte_forallb (λ b, match hex_val field b with
    | Ok v => (b2z v <? 16) && (hex_digit (b2z v) =? lower_hex (b2z b)) && (b2z b <? 0x80)
    | Err _ => true end) eq_refl b) as Hb. cbn beta in Hb. rewrite Hval in Hb. lia.
Qed.

Lemma hex_val_Err field b e :
  hex_val field b = Err e → e = InvalidHex field "invalid hex character".
Proof. unfold hex_val. repeat case_match; congruence. Qed.

Lemma hex_pair_encode hi lo :
  b2z hi < 16 → b2z lo < 16 →
  hex_byte (z2b (Z.lor (Z.shiftl (b2z hi) 4) (b2z lo))) =
  [hex_digit (b2z hi); hex_digit (b2z lo)].
Proof.
  intros Hhi Hlo. pose proof (b2z_range hi). pose proof (b2z_range lo).
  assert (Z.lor (Z.shiftl (b2z hi) 4) (b2z lo) = b2z hi * 16 + b2z lo) as ->.
  { apply Z.eqb_eq.
    apply (Z_below_forallb 16 (λ l, Z.lor (Z.shiftl (b2z hi) 4) l =? b2z hi * 16 + l)); [|lia].
    apply (Z_below_forallb 16
      (λ h, forallb (λ l, Z.lor (Z.shiftl h 4) l =? h * 16 + l) (seqZ 0 16))); [done|lia]. }
  unfold hex_byte. rewrite b2z_z2b, Z.mod_small by lia.
  do 2 f_equal; [|f_equal]; Z.div_mod_to_equations; lia.
Qed.

Lemma hex_decode_pairs_Ok field bs out n :
  length bs = (2 * n)%nat → hex_decode_pairs field bs = Ok out →
  hex_encode out = (λ b, lower_hex (b2z b)) <$> bs ∧ length out = n ∧
  Forall (λ b, b2z b < 0x80) bs.
Proof.
  revert bs out; induction n as [|n IH]; intros bs out Hlen Hdec.
  - destruct bs; [|done]. injection Hdec as <-. done.
  - destruct bs as [|b0 [|b1 bs]]; cbn in Hlen; [lia|lia|]. cbn in Hdec. ok_inv. subst out.
    destruct (hex_val_Ok field b0 x) as (?&?&?); [done|].
    destruct (hex_val_Ok field b1 x0) as (?&?&?); [done|].
    destruct (IH bs x1) as (Henc & Hl & Hall); [lia|done|].
    rewrite hex_encode_cons, hex_pair_encode, Henc by done.
    split_and!; [cbn; congruence|cbn; lia|auto].
Qed.

Lemma ascii_of_bytes s :
  valid_str s = true → Forall (λ b, b2z b < 0x80) (as_bytes s) → Forall (λ c, 0 ≤ c < 0x80) s.
Proof.
  unfold valid_str, as_bytes. induction s as [|c s IH]; cbn; [done|].
  rewrite andb_true_iff, Forall_app. intros [Hc Hs] [Hb Hbs]. constructor; [|auto].
  unfold valid_char in Hc.
  destruct (encode_utf8_head c) as (b & r & Henc & Hif); [lia|].
  rewrite Henc in Hb. apply Forall_inv in Hb. case_match; lia.
Qed.

Lemma hex_decode_Ok field s bs :
  valid_str s = true → hex_decode field s = Ok bs →
  hex_encode bs = lower_hex <$> s ∧ length s = (2 * length bs)%nat.
Proof.
  unfold hex_decode, str_len. intros Hv. case_match eqn:Hodd; [done|]. intros Hdec.
  destruct (Z.eqb_spec (Z.of_nat (length (as_bytes s)) mod 2) 0) as [Heven|]; [|done].
  assert (∃ n, length (as_bytes s) = (2 * n)%nat) as [n Hn].
  { exists (length (as_bytes s) / 2)%nat. apply (Nat2Z.inj_iff). 
    rewrite Nat2Z.inj_mul, Nat2Z.inj_div. Z.div_mod_to_equations. lia. }
  destruct (hex_decode_pairs_Ok field _ _ n Hn Hdec) as (Henc & Hl & Hall).
  pose proof (ascii_of_bytes s Hv Hall) as Hascii.
  rewrite as_bytes_ascii in * by done. rewrite length_fmap in Hn.
  split; [|lia]. rewrite Henc, <-list_fmap_compose. apply list_fmap_ext.
  intros i c Hc. cbn. rewrite b2z_z2b, Z.mod_small; [done|].
  rewrite Forall_lookup in Hascii. specialize (Hascii _ _ Hc). lia.
Qed.

(** ** A concrete hash

    A 32-byte polynomial hash, with which the theorems about arbitrary
    [Blake3] and [Sha256] are evaluated on examples. *)

Fixpoint z_to_be (n : nat) (z : Z) : bytes :=
  match n with
  | O => []
  | S n => z_to_be n (Z.shiftr z 8) ++ [z2b (Z.land z 255)]
  end.

Definition poly_hash (bs : bytes) : bytes :=
  z_to_be 32 (foldl (λ acc b, Z.land (acc * 31 + b2z b) (Z.ones 32)) 1 bs).

Lemma z_to_be_length n z : length (z_to_be n z) = n.
Proof. revert z; induction n as [|n IH]; intros z; cbn; [done|]. rewrite length_app, IH. cbn. lia. Qed.

Definition poly_blake3 : Blake3 := poly_hash.
Definition poly_sha256 : Sha256 := poly_hash.

Lemma poly_blake3_len : @Blake3Len poly_blake3.
Proof. intros bs. apply z_to_be_length. Qed.

Lemma poly_sha256_len : @Sha256Len poly_sha256.
Proof. intros bs. apply z_to_be_length. Qed.

(** ** Properties *)

(** Decoding is the inverse of encoding: [hex_decode] returns exactly the
    bytes that [hex_encode] printed, for every byte string. *)
Theorem hex_decode_of_encode field bs :
  hex_decode field (hex_encode bs) = Ok bs ∧
  length (hex_encode bs) = (2 * length bs)%nat ∧
  Forall (λ c, is_lower_hex c = true) (hex_encode bs).
Proof.
  split_and!; [apply hex_decode_encode|apply hex_encode_length|].
  eapply Forall_impl; [apply hex_encode_ascii|]. by intros ? [_ ?].
Qed.

(** [hex_decode] accepts a string exactly when it has even length and only
    hexadecimal digits, and what it returns prints back as the lowercase form
    of the input; a string it rejects yields an [InvalidHex] of the field. *)
Theorem hex_decode_spec field s :
  valid_str s = true →
  match hex_decode field s with
  | Ok bs => hex_encode bs = lower_hex <$> s ∧ length s = (2 * length bs)%nat
  | Err e => ∃ detail, e = InvalidHex field detail
  end.
Proof.
  intros Hv. destruct (hex_decode field s) as [bs|e] eqn:Hdec; [by apply (hex_decode_Ok field)|].
  unfold hex_decode in Hdec. case_match; [by simplify_eq; eauto|].
  revert e Hdec. generalize (as_bytes s). fix IH 1.
  intros [|b0 [|b1 bs]] e; cbn; [done..|].
  destruct (hex_val field b0) eqn:H0; cbn; [|intros [= <-]; eauto using hex_val_Err].
  destruct (hex_val field b1) eqn:H1; cbn; [|intros [= <-]; eauto using hex_val_Err].
  destruct (hex_decode_pairs field bs) eqn:H2; cbn; [done|]. intros [= <-]. eauto.
Qed.

Lemma hex_decode_spec_witness :
  hex_encode [x00; x01; xab; xff] = lower_hex <$> str "0001ABff".
Proof. exact (proj1 (hex_decode_spec "t" (str "0001ABff") eq_refl)). Defined.
