(* ===== verification/Merkle.v ===== *)
(** * RFC 6962 Merkle trees over BLAKE3 (evidence/src/merkle.rs)

    The operations are translated as written, on lists of leaves; recursion
    over sub-slices carries a fuel equal to the number of leaves, which
    [subtree_root_cons2] and [path_cons2] show never runs out. [mth] states the
    tree hash of RFC 6962 as a relation, and [subtree_inputs] lists what the
    computation hashes, for the binding theorems. *)

From Stdlib Require Import Strings.Byte.
From S2P Require Import Prelude Text Errors Hash.

Definition LEAF_PREFIX : byte := x00.
Definition NODE_PREFIX : byte := x01.

Section operations.
Context `{Blake3}.

Definition leaf_hash (leaf_bytes : bytes) : bytes := blake3_hash (LEAF_PREFIX :: leaf_bytes).

Definition node_hash (left right : bytes) : bytes :=
  blake3_hash (NODE_PREFIX :: left ++ right).

(** The loop [while k * 2 < n { k *= 2 }]. *)
Fixpoint split_loop (fuel k n : nat) : nat :=
  match fuel with
  | O => k
  | S fuel => if (k * 2 <? n)%nat then split_loop fuel (k * 2) n else k
  end.

Definition split_point (n : nat) : nat := split_loop n 1 n.

Fixpoint subtree_root_fuel (fuel : nat) (leaves : list bytes) : bytes :=
  match fuel with
  | O => []
  | S fuel =>
    match leaves with
    | [] => []
    | [leaf] => leaf_hash leaf
    | _ =>
      let k := split_point (length leaves) in
      let left := subtree_root_fuel fuel (take k leaves) in
      let right := subtree_root_fuel fuel (drop k leaves) in
      node_hash left right
    end
  end.

Definition subtree_root (leaves : list bytes) : bytes :=
  subtree_root_fuel (length leaves) leaves.

Definition merkle_root (leaves : list bytes) : bytes :=
  match length leaves with
  | O => blake3_hash []
  | _ => subtree_root leaves
  end.

Record ProofStep := { sibling : bytes; sibling_on_left : bool }.

Fixpoint path_fuel (fuel : nat) (leaves : list bytes) (index : nat)
    (proof : list ProofStep) : list ProofStep :=
  match fuel with
  | O => proof
  | S fuel =>
    let n := length leaves in
    if (n =? 1)%nat then proof
    else
      let k := split_point n in
      if (index <? k)%nat then
        path_fuel fuel (take k leaves) index proof ++
          [{| sibling := subtree_root (drop k leaves); sibling_on_left := false |}]
      else
        path_fuel fuel (drop k leaves) (index - k) proof ++
          [{| sibling := subtree_root (take k leaves); sibling_on_left := true |}]
  end.

Definition path (leaves : list bytes) (index : nat) (proof : list ProofStep) : list ProofStep :=
  path_fuel (length leaves) leaves index proof.

Definition inclusion_proof (leaves : list bytes) (index : nat) : Result (list ProofStep) :=
  if (length leaves <=? index)%nat then Err (MerkleProof "index out of range")
  else Ok (path leaves index []).

(** One iteration of the loop of [verify_inclusion]. *)
Definition fold_step (hash : bytes) (step : ProofStep) : bytes :=
  if sibling_on_left step then node_hash (sibling step) hash
  else node_hash hash (sibling step).

Definition verify_inclusion (leaf_bytes : bytes) (index tree_size : nat)
    (proof : list ProofStep) (root : bytes) : Result unit :=
  if (tree_size <=? index)%nat then Err (MerkleProof "index out of range")
  else
    let hash := foldl fold_step (leaf_hash leaf_bytes) proof in
    if decide (hash = root) then Ok tt
    else Err (MerkleProof "recomputed root does not match").
End operations.

Global Instance ProofStep_eq_dec : EqDecision ProofStep.
Proof. solve_decision. Defined.

(** ** The split point *)

Lemma split_loop_spec fuel k n j :
  k = (2 ^ j)%nat → (k < n)%nat → (n ≤ k + fuel)%nat →
  ∃ i, split_loop fuel k n = (2 ^ i)%nat ∧ (2 ^ i < n ≤ 2 ^ i * 2)%nat.
Proof.
  revert k j; induction fuel as [|fuel IH]; intros k j Hk Hlt Hfuel;
    cbn [split_loop]; [lia|].
  pose proof (Nat.pow_nonzero 2 j ltac:(lia)).
  destruct (Nat.ltb_spec (k * 2) n).
  - apply (IH _ (S j)); cbn [Nat.pow]; lia.
  - exists j. rewrite <-Hk. lia.
Qed.

(** [split_point n] is the largest power of two strictly below [n]. *)
Lemma split_point_pow n :
  (2 ≤ n)%nat → ∃ i, split_point n = (2 ^ i)%nat ∧ (2 ^ i < n ≤ 2 ^ i * 2)%nat.
Proof. intros Hn. apply (split_loop_spec n 1 n 0); cbn; lia. Qed.

Lemma split_point_bounds n : (2 ≤ n)%nat → (1 ≤ split_point n < n)%nat.
Proof.
  intros Hn. destruct (split_point_pow n Hn) as (i & -> & ?).
  pose proof (Nat.pow_nonzero 2 i). lia.
Qed.

(** The loop has ended before the fuel runs out. *)
Lemma split_loop_enough f1 f2 k n :
  (1 ≤ k)%nat → (n ≤ k + f1)%nat → (n ≤ k + f2)%nat → split_loop f1 k n = split_loop f2 k n.
Proof.
  revert f2 k; induction f1 as [|f1 IH]; intros [|f2] k Hk H1 H2; cbn [split_loop]; [done|..].
  - destruct (Nat.ltb_spec (k * 2) n); [lia|done].
  - destruct (Nat.ltb_spec (k * 2) n); [lia|done].
  - destruct (Nat.ltb_spec (k * 2) n); [apply IH; lia|done].
Qed.

(** ** Unfolding: the fuel is enough *)

Section unfolding.
Context `{Blake3}.

Lemma take_drop_fuel (leaves : list bytes) fuel :
  (2 ≤ length leaves)%nat → (length leaves ≤ S fuel)%nat →
  (length (take (split_point (length leaves)) leaves) ≤ fuel)%nat ∧
  (length (drop (split_point (length leaves)) leaves) ≤ fuel)%nat.
Proof.
  intros Hlen Hfuel. pose proof (split_point_bounds (length leaves) Hlen).
  rewrite length_take, length_drop. lia.
Qed.

Lemma subtree_root_fuel_S fuel leaves :
  (2 ≤ length leaves)%nat →
  subtree_root_fuel (S fuel) leaves =
    node_hash (subtree_root_fuel fuel (take (split_point (length leaves)) leaves))
              (subtree_root_fuel fuel (drop (split_point (length leaves)) leaves)).
Proof. destruct leaves as [|x [|y leaves]]; cbn [length]; [lia..|done]. Qed.

Lemma subtree_root_fuel_enough f1 f2 leaves :
  (length leaves ≤ f1)%nat → (length leaves ≤ f2)%nat →
  subtree_root_fuel f1 leaves = subtree_root_fuel f2 leaves.
Proof.
  revert f2 leaves; induction f1 as [|f1 IH]; intros [|f2] leaves H1 H2;
    destruct (decide (2 ≤ length leaves)%nat) as [Hlen|Hlen]; try lia.
  all: try solve [destruct leaves as [|x [|y leaves]]; cbn [length] in *; lia || done].
  pose proof (take_drop_fuel leaves f1 Hlen H1) as [? ?].
  pose proof (take_drop_fuel leaves f2 Hlen H2) as [? ?].
  rewrite !subtree_root_fuel_S by done. f_equal; by apply IH.
Qed.

Lemma subtree_root_cons2 leaves :
  (2 ≤ length leaves)%nat →
  subtree_root leaves =
    node_hash (subtree_root (take (split_point (length leaves)) leaves))
              (subtree_root (drop (split_point (length leaves)) leaves)).
Proof.
  intros Hlen. pose proof (take_drop_fuel leaves (pred (length leaves)) Hlen ltac:(lia)) as [Ht Hd].
  unfold subtree_root at 1. destruct (length leaves) as [|n] eqn:Hn; [lia|]. cbn [pred] in *.
  rewrite subtree_root_fuel_S, Hn by lia. unfold subtree_root.
  f_equal; by apply subtree_root_fuel_enough.
Qed.

Lemma path_fuel_enough f1 f2 leaves i p :
  (1 ≤ length leaves)%nat → (length leaves ≤ f1)%nat → (length leaves ≤ f2)%nat →
  path_fuel f1 leaves i p = path_fuel f2 leaves i p.
Proof.
  revert f2 leaves i p; induction f1 as [|f1 IH]; intros [|f2] leaves i p H0 H1 H2; try lia.
  cbn. destruct (Nat.eqb_spec (length leaves) 1); [done|].
  pose proof (take_drop_fuel leaves f1 ltac:(lia) ltac:(lia)) as [? ?].
  pose proof (take_drop_fuel leaves f2 ltac:(lia) ltac:(lia)) as [? ?].
  pose proof (split_point_bounds (length leaves) ltac:(lia)).
  case_match; f_equal; apply IH; auto; rewrite ?length_take, ?length_drop; lia.
Qed.

Lemma path_cons2 leaves i p :
  (2 ≤ length leaves)%nat →
  path leaves i p =
    let k := split_point (length leaves) in
    if (i <? k)%nat then
      path (take k leaves) i p ++
        [{| sibling := subtree_root (drop k leaves); sibling_on_left := false |}]
    else
      path (drop k leaves) (i - k) p ++
        [{| sibling := subtree_root (take k leaves); sibling_on_left := true |}].
Proof.
  intros Hlen. pose proof (take_drop_fuel leaves (pred (length leaves)) Hlen ltac:(lia)) as [Ht Hd].
  pose proof (split_point_bounds (length leaves) Hlen).
  unfold path at 1. destruct (length leaves) as [|n] eqn:Hn; [lia|]. cbn [path_fuel pred] in *.
  rewrite Hn. rewrite (proj2 (Nat.eqb_neq (S n) 1)) by lia. unfold path. cbn zeta.
  case_match; f_equal; apply path_fuel_enough; auto; rewrite ?length_take, ?length_drop; lia.
Qed.

Lemma path_one x i p : path [x] i p = p.
Proof. done. Qed.
End unfolding.

(** ** The specification: RFC 6962, section 2.1

    [mth D h]: [h] is the Merkle tree hash of the non-empty list [D]. A list
    of more than one element is cut at the largest power of two below its
    length. *)
Inductive mth `{Blake3} : list bytes → bytes → Prop :=
| mth_leaf d : mth [d] (blake3_hash (x00 :: d))
| mth_node l r j hl hr :
    length l = (2 ^ j)%nat → (0 < length r ≤ length l)%nat →
    mth l hl → mth r hr →
    mth (l ++ r) (blake3_hash (x01 :: hl ++ hr)).

(** Every input of [blake3_hash] in the computation of [subtree_root]. *)
Fixpoint subtree_inputs_fuel `{Blake3} (fuel : nat) (leaves : list bytes) : list bytes :=
  match fuel with
  | O => []
  | S fuel =>
    match leaves with
    | [] => []
    | [leaf] => [LEAF_PREFIX :: leaf]
    | _ =>
      let k := split_point (length leaves) in
      (NODE_PREFIX :: subtree_root (take k leaves) ++ subtree_root (drop k leaves)) ::
      subtree_inputs_fuel fuel (take k leaves) ++ subtree_inputs_fuel fuel (drop k leaves)
    end
  end.

Definition subtree_inputs `{Blake3} (leaves : list bytes) : list bytes :=
  subtree_inputs_fuel (length leaves) leaves.

Definition merkle_inputs `{Blake3} (leaves : list bytes) : list bytes :=
  match leaves with [] => [[]] | _ => subtree_inputs leaves end.

(** The inputs hashed by the loop of [verify_inclusion]. *)
Fixpoint fold_inputs `{Blake3} (hash : bytes) (proof : list ProofStep) : list bytes :=
  match proof with
  | [] => []
  | step :: proof =>
    (NODE_PREFIX :: (if sibling_on_left step then sibling step ++ hash
                     else hash ++ sibling step)) ::
    fold_inputs (fold_step hash step) proof
  end.

Definition verify_inputs `{Blake3} (leaf_bytes : bytes) (proof : list ProofStep) : list bytes :=
  (LEAF_PREFIX :: leaf_bytes) :: fold_inputs (leaf_hash leaf_bytes) proof.

Section spec.
Context `{Blake3}.

Lemma subtree_inputs_fuel_S fuel leaves :
  (2 ≤ length leaves)%nat →
  subtree_inputs_fuel (S fuel) leaves =
    (NODE_PREFIX :: subtree_root (take (split_point (length leaves)) leaves) ++
                    subtree_root (drop (split_point (length leaves)) leaves)) ::
    subtree_inputs_fuel fuel (take (split_point (length leaves)) leaves) ++
    subtree_inputs_fuel fuel (drop (split_point (length leaves)) leaves).
Proof. destruct leaves as [|x [|y leaves]]; cbn [length]; [lia..|done]. Qed.

Lemma subtree_inputs_fuel_enough f1 f2 leaves :
  (length leaves ≤ f1)%nat → (length leaves ≤ f2)%nat →
  subtree_inputs_fuel f1 leaves = subtree_inputs_fuel f2 leaves.
Proof.
  revert f2 leaves; induction f1 as [|f1 IH]; intros [|f2] leaves H1 H2;
    destruct (decide (2 ≤ length leaves)%nat) as [Hlen|Hlen]; try lia.
  all: try solve [destruct leaves as [|x [|y leaves]]; cbn [length] in *; lia || done].
  pose proof (take_drop_fuel leaves f1 Hlen H1) as [? ?].
  pose proof (take_drop_fuel leaves f2 Hlen H2) as [? ?].
  rewrite !subtree_inputs_fuel_S by done. do 2 f_equal; by apply IH.
Qed.

Lemma subtree_inputs_cons2 leaves :
  (2 ≤ length leaves)%nat →
  subtree_inputs leaves =
    let k := split_point (length leaves) in
    (NODE_PREFIX :: subtree_root (take k leaves) ++ subtree_root (drop k leaves)) ::
    subtree_inputs (take k leaves) ++ subtree_inputs (drop k leaves).
Proof.
  intros Hlen. pose proof (take_drop_fuel leaves (pred (length leaves)) Hlen ltac:(lia)) as [Ht Hd].
  unfold subtree_inputs at 1. destruct (length leaves) as [|n] eqn:Hn; [lia|]. cbn [pred] in *.
  rewrite subtree_inputs_fuel_S, Hn by lia. unfold subtree_inputs. cbn zeta.
  do 2 f_equal; by apply subtree_inputs_fuel_enough.
Qed.

(** The cut of a list, for induction on its length. *)
Lemma split_lengths (leaves : list bytes) :
  (2 ≤ length leaves)%nat →
  (1 ≤ length (take (split_point (length leaves)) leaves) < length leaves)%nat ∧
  (1 ≤ length (drop (split_point (length leaves)) leaves) < length leaves)%nat.
Proof.
  intros Hlen. pose proof (split_point_bounds _ Hlen). rewrite length_take, length_drop. lia.
Qed.

(** Induction over the recursion of [subtree_root]. *)
Lemma merkle_ind (P : list bytes → Prop) :
  (∀ d, P [d]) →
  (∀ leaves, (2 ≤ length leaves)%nat →
     P (take (split_point (length leaves)) leaves) →
     P (drop (split_point (length leaves)) leaves) → P leaves) →
  ∀ leaves, leaves ≠ [] → P leaves.
Proof.
  intros Hleaf Hnode leaves. remember (length leaves) as n eqn:Hn. revert leaves Hn.
  induction n as [n IH] using (well_founded_induction lt_wf). intros leaves -> Hne.
  destruct (decide (2 ≤ length leaves)%nat) as [Hlen|Hlen].
  - destruct (split_lengths leaves Hlen) as [Ht Hd].
    apply Hnode; [done| |]; (eapply IH; [|done|]); [lia| |lia|]; intros Hnil;
      rewrite Hnil in *; cbn in *; lia.
  - destruct leaves as [|d [|]]; cbn in *; [done|apply Hleaf|lia].
Qed.

Lemma subtree_root_mth leaves : leaves ≠ [] → mth leaves (subtree_root leaves).
Proof.
  revert leaves. apply merkle_ind.
  - intros d. apply mth_leaf.
  - intros leaves Hlen Hl Hr. rewrite subtree_root_cons2 by done.
    destruct (split_point_pow _ Hlen) as (i & Hk & Hi). rewrite Hk in *.
    rewrite <-(take_drop (2 ^ i) leaves) at 1.
    apply (mth_node _ _ i); rewrite ?length_take, ?length_drop; try lia; done.
Qed.

Lemma mth_nonempty leaves h : mth leaves h → (1 ≤ length leaves)%nat.
Proof. induction 1; rewrite ?length_app in *; cbn in *; lia. Qed.

Lemma pow2_split_unique i j n :
  (2 ^ i < n ≤ 2 ^ i * 2)%nat → (2 ^ j < n ≤ 2 ^ j * 2)%nat → i = j.
Proof.
  intros Hi Hj. destruct (Nat.lt_trichotomy i j) as [Hij|[Hij|Hij]]; [|done|].
  - pose proof (Nat.pow_le_mono_r 2 (S i) j). cbn in *. lia.
  - pose proof (Nat.pow_le_mono_r 2 (S j) i). cbn in *. lia.
Qed.

Lemma mth_subtree_root leaves h : mth leaves h → h = subtree_root leaves.
Proof.
  induction 1 as [d|l r j hl hr Hl Hr _ -> Hmr ->]; [done|].
  assert (length (l ++ r) = length l + length r)%nat as Hlen by apply length_app.
  pose proof (Nat.pow_nonzero 2 j ltac:(lia)).
  destruct (split_point_pow (length (l ++ r))) as (i & Hk & Hi); [lia|].
  assert (i = j) as ->. { eapply pow2_split_unique; [exact Hi|]. lia. }
  rewrite (subtree_root_cons2 (l ++ r)) by lia.
  rewrite Hk, <-Hl, take_app_length, drop_app_length. done.
Qed.
End spec.

(** ** Binding: the root determines the leaves *)

Section binding.
Context `{Blake3} `{!Blake3Len}.

Lemma subtree_root_length leaves : leaves ≠ [] → length (subtree_root leaves) = DIGEST_LEN.
Proof.
  revert leaves. apply merkle_ind; [intros d; apply blake3_length|].
  intros leaves Hlen _ _. rewrite subtree_root_cons2 by done. apply blake3_length.
Qed.

Lemma merkle_root_length leaves : length (merkle_root leaves) = DIGEST_LEN.
Proof. destruct leaves; [apply blake3_length|by apply subtree_root_length]. Qed.

Lemma split_nonempty (leaves : list bytes) :
  (2 ≤ length leaves)%nat →
  take (split_point (length leaves)) leaves ≠ [] ∧ drop (split_point (length leaves)) leaves ≠ [].
Proof.
  intros Hlen. destruct (split_lengths leaves Hlen).
  split; intros Hnil; rewrite Hnil in *; cbn in *; lia.
Qed.

(** Where [subtree_root] comes from: the last input it hashed. *)
Lemma subtree_root_input leaves :
  leaves ≠ [] → ∃ x, x ∈ subtree_inputs leaves ∧ subtree_root leaves = blake3_hash x ∧
    (x = [] → False) ∧
    (length leaves = 1%nat → ∃ d, leaves = [d] ∧ x = LEAF_PREFIX :: d) ∧
    ((2 ≤ length leaves)%nat → x = NODE_PREFIX ::
       subtree_root (take (split_point (length leaves)) leaves) ++
       subtree_root (drop (split_point (length leaves)) leaves)).
Proof.
  intros Hne. destruct (decide (2 ≤ length leaves)%nat) as [Hlen|Hlen].
  - rewrite subtree_inputs_cons2, subtree_root_cons2 by done. cbn zeta.
    eexists; split; [apply list_elem_of_here|]. split_and!; [done|done|lia|done].
  - destruct leaves as [|d [|]]; cbn in *; [done| |lia].
    exists (LEAF_PREFIX :: d). split_and!; [apply list_elem_of_here|done|done|eauto|lia].
Qed.

Lemma node_input_inj (a b c d : bytes) :
  length a = length c → NODE_PREFIX :: a ++ b = NODE_PREFIX :: c ++ d → a = c ∧ b = d.
Proof. intros Hlen [= Heq]. by apply app_eq_same_length. Qed.

Lemma subtree_root_inj l1 l2 :
  l1 ≠ [] → l2 ≠ [] →
  collision_free_on blake3_hash (subtree_inputs l1 ++ subtree_inputs l2) →
  subtree_root l1 = subtree_root l2 → l1 = l2.
Proof.
  intros H1; revert l1 H1 l2. apply (merkle_ind (λ l1, ∀ l2, l2 ≠ [] →
    collision_free_on blake3_hash (subtree_inputs l1 ++ subtree_inputs l2) →
    subtree_root l1 = subtree_root l2 → l1 = l2)).
  - intros d l2 Hne Hcf Heq.
    destruct (subtree_root_input l2 Hne) as (x & Hx & Hroot & _ & Hone & Htwo).
    assert (LEAF_PREFIX :: d = x) as <-.
    { apply Hcf; [cbn; set_solver|set_solver|]. by rewrite <-Hroot, <-Heq. }
    destruct (decide (2 ≤ length l2)%nat) as [Hl|Hl]; [by specialize (Htwo Hl)|].
    destruct Hone as (d' & -> & [= ->]); [|done]. destruct l2 as [|? [|]]; cbn in *; [done..|lia].
  - intros l1 Hlen IHl IHr l2 Hne Hcf Heq.
    destruct (subtree_root_input l2 Hne) as (x & Hx & Hroot & _ & Hone & Htwo).
    destruct (subtree_root_input l1) as (y & Hy & Hroot1 & _ & _ & Hy2);
      [by intros ->; cbn in *; lia|]. specialize (Hy2 Hlen).
    assert (y = x) as ->.
    { apply Hcf; [set_solver..|]. by rewrite <-Hroot, <-Hroot1. }
    destruct (decide (2 ≤ length l2)%nat) as [Hl|Hl].
    2:{ destruct Hone as (d & -> & ->); [|done]. destruct l2 as [|? [|]]; cbn in *; [done..|lia]. }
    specialize (Htwo Hl). rewrite Hy2 in Htwo.
    destruct (split_nonempty l1 Hlen), (split_nonempty l2 Hl).
    apply node_input_inj in Htwo as [Hleft Hright]; [|by rewrite !subtree_root_length].
    rewrite !subtree_inputs_cons2 in Hcf by done. cbn zeta in Hcf.
    rewrite <-(take_drop (split_point (length l1)) l1), <-(take_drop (split_point (length l2)) l2).
    f_equal; [apply IHl|apply IHr]; try done;
      (eapply collision_free_mono; [|exact Hcf]); set_solver.
Qed.

Lemma merkle_root_inj l1 l2 :
  collision_free_on blake3_hash (merkle_inputs l1 ++ merkle_inputs l2) →
  merkle_root l1 = merkle_root l2 → l1 = l2.
Proof.
  destruct l1 as [|d1 l1], l2 as [|d2 l2]; [done| | |].
  - intros Hcf Heq. exfalso.
    destruct (subtree_root_input (d2 :: l2)) as (x & Hx & Hroot & Hnil & _); [done|].
    apply Hnil. symmetry. apply Hcf; [set_solver..|]. by rewrite <-Hroot.
  - intros Hcf Heq. exfalso.
    destruct (subtree_root_input (d1 :: l1)) as (x & Hx & Hroot & Hnil & _); [done|].
    apply Hnil. apply Hcf; [set_solver..|]. by rewrite <-Hroot.
  - intros Hcf Heq. by apply subtree_root_inj.
Qed.
End binding.

(** ** Inclusion proofs *)

Section inclusion.
Context `{Blake3}.

(** The audit path of a position recomputes the root. *)
Lemma path_recomputes leaves i leaf :
  leaves !! i = Some leaf → foldl fold_step (leaf_hash leaf) (path leaves i []) = subtree_root leaves.
Proof.
  intros Hi. assert (leaves ≠ []) as Hne by (by intros ->).
  revert leaves Hne i Hi. apply (merkle_ind (λ leaves, ∀ i, leaves !! i = Some leaf →
    foldl fold_step (leaf_hash leaf) (path leaves i []) = subtree_root leaves)).
  - intros d [|i] Hi; [|done]. by injection Hi as ->.
  - intros leaves Hlen IHl IHr i Hi. rewrite path_cons2, subtree_root_cons2 by done. cbn zeta.
    destruct (Nat.ltb_spec i (split_point (length leaves))) as [Hlt|Hge]; rewrite foldl_app.
    + rewrite IHl by (by rewrite lookup_take_lt). done.
    + rewrite IHr; [done|]. rewrite lookup_drop. by rewrite Nat.add_comm, Nat.sub_add.
Qed.

Lemma path_verifies leaves i leaf :
  leaves !! i = Some leaf →
  verify_inclusion leaf i (length leaves) (path leaves i []) (merkle_root leaves) = Ok tt.
Proof.
  intros Hi. unfold verify_inclusion. rewrite (proj2 (Nat.leb_gt _ _)) by (by eapply lookup_lt_Some).
  rewrite (path_recomputes leaves i leaf Hi). cbn zeta. destruct leaves; [done|]. by rewrite decide_True.
Qed.

(** The input of the last hash of the loop. *)
Definition step_input (hash : bytes) (step : ProofStep) : bytes :=
  NODE_PREFIX :: (if sibling_on_left step then sibling step ++ hash else hash ++ sibling step).

Lemma fold_step_input hash step : fold_step hash step = blake3_hash (step_input hash step).
Proof. unfold fold_step, step_input. by case_match. Qed.

Lemma fold_inputs_snoc hash proof step :
  fold_inputs hash (proof ++ [step]) =
  fold_inputs hash proof ++ [step_input (foldl fold_step hash proof) step].
Proof.
  revert hash; induction proof as [|s proof IH]; intros hash; cbn; [done|]. by rewrite IH.
Qed.

Context `{!Blake3Len}.

Lemma fold_length leaf proof :
  length (foldl fold_step (leaf_hash leaf) proof) = DIGEST_LEN.
Proof.
  destruct proof as [|step proof] using rev_ind; [apply blake3_length|].
  rewrite foldl_app. cbn. rewrite fold_step_input. apply blake3_length.
Qed.

(** A proof that recomputes the root is the audit path of a position that
    holds the leaf. Siblings have the digest type [[u8; 32]]. *)
Lemma fold_sound leaves leaf proof :
  leaves ≠ [] →
  Forall (λ s, length (sibling s) = DIGEST_LEN) proof →
  collision_free_on blake3_hash (subtree_inputs leaves ++ verify_inputs leaf proof) →
  foldl fold_step (leaf_hash leaf) proof = subtree_root leaves →
  ∃ i, leaves !! i = Some leaf ∧ path leaves i [] = proof.
Proof.
  revert leaves; induction proof as [|step proof IH] using rev_ind; intros leaves Hne Hsib Hcf Heq.
  - destruct (subtree_root_input leaves Hne) as (x & Hx & Hroot & _ & Hone & Htwo).
    assert (LEAF_PREFIX :: leaf = x) as <-.
    { apply Hcf; [cbn; set_solver|set_solver|]. by rewrite <-Hroot, <-Heq. }
    destruct (decide (2 ≤ length leaves)%nat) as [Hl|Hl]; [by specialize (Htwo Hl)|].
    destruct Hone as (d & -> & [= ->]); [|by exists 0%nat].
    destruct leaves as [|? [|]]; cbn in *; [done..|lia].
  - rewrite Forall_app, Forall_singleton in Hsib. destruct Hsib as [Hsib Hstep].
    rewrite foldl_app in Heq. cbn in Heq. rewrite fold_step_input in Heq.
    unfold verify_inputs in Hcf. rewrite fold_inputs_snoc in Hcf.
    destruct (subtree_root_input leaves Hne) as (x & Hx & Hroot & _ & Hone & Htwo).
    assert (step_input (foldl fold_step (leaf_hash leaf) proof) step = x) as Hxs.
    { apply Hcf; [set_solver|set_solver|]. by rewrite <-Hroot, <-Heq. }
    destruct (decide (2 ≤ length leaves)%nat) as [Hlen|Hlen].
    2:{ destruct Hone as (d & -> & ->); [|done].
        destruct leaves as [|? [|]]; cbn in *; [done..|lia]. }
    specialize (Htwo Hlen). rewrite Htwo in Hxs. clear Htwo Hone.
    destruct (split_nonempty leaves Hlen) as [Hln Hrn].
    pose proof (split_point_bounds _ Hlen) as Hk.
    rewrite subtree_inputs_cons2 in Hcf by done. cbn zeta in Hcf.
    unfold step_input in Hxs. destruct step as [sib onleft]; cbn in *. destruct onleft.
    + apply node_input_inj in Hxs as [Hl Hr]; [|by rewrite subtree_root_length].
      destruct (IH (drop (split_point (length leaves)) leaves)) as (i & Hi & Hp); [done..| |done|].
      { eapply collision_free_mono; [|exact Hcf]. unfold verify_inputs. set_solver. }
      exists (split_point (length leaves) + i)%nat. rewrite lookup_drop in Hi. split; [done|].
      rewrite path_cons2 by done. cbn zeta.
      rewrite (proj2 (Nat.ltb_ge _ _)) by lia. by rewrite Nat.add_comm, Nat.add_sub, Hp, Hl.
    + apply node_input_inj in Hxs as [Hl Hr]; [|by rewrite subtree_root_length, fold_length].
      destruct (IH (take (split_point (length leaves)) leaves)) as (i & Hi & Hp); [done..| |done|].
      { eapply collision_free_mono; [|exact Hcf]. unfold verify_inputs. set_solver. }
      apply lookup_take_Some in Hi as [Hi Hik]. exists i. split; [done|].
      rewrite path_cons2 by done. cbn zeta. by rewrite (proj2 (Nat.ltb_lt _ _)), Hp, Hr by lia.
Qed.

Lemma verified_leaf leaves leaf index tree_size proof :
  leaves ≠ [] → Forall (λ s, length (sibling s) = DIGEST_LEN) proof →
  collision_free_on blake3_hash (merkle_inputs leaves ++ verify_inputs leaf proof) →
  verify_inclusion leaf index tree_size proof (merkle_root leaves) = Ok tt →
  ∃ i, leaves !! i = Some leaf ∧ path leaves i [] = proof.
Proof.
  intros Hne Hsib Hcf Hv. unfold verify_inclusion in Hv. repeat (case_match; try done).
  apply (fold_sound leaves leaf proof); [done..| |]; by destruct leaves.
Qed.

Lemma path_siblings leaves i :
  (i < length leaves)%nat →
  Forall (λ s, length (sibling s) = DIGEST_LEN) (path leaves i []).
Proof.
  intros Hi. assert (leaves ≠ []) as Hne by (intros ->; cbn in *; lia).
  revert leaves Hne i Hi. apply (merkle_ind (λ leaves, ∀ i, (i < length leaves)%nat →
    Forall (λ s, length (sibling s) = DIGEST_LEN) (path leaves i []))); [done|].
  intros leaves Hlen IHl IHr i Hi. rewrite path_cons2 by done. cbn zeta.
  destruct (split_nonempty leaves Hlen), (split_lengths leaves Hlen).
  rewrite length_take, length_drop in *.
  case_match eqn:Hlt; apply Forall_app; (split; [|apply Forall_singleton; by apply subtree_root_length]).
  - apply IHl. rewrite ?length_take. apply Nat.ltb_lt in Hlt. lia.
  - apply IHr. rewrite ?length_drop. apply Nat.ltb_ge in Hlt. lia.
Qed.
End inclusion.

(** ** Properties *)

(** C25: [merkle_root] is the RFC 6962 Merkle tree hash: on every non-empty
    list of leaves it returns the one value the specification [mth] relates to
    the list, and on the empty list the hash of the empty string. *)
Theorem merkle_root_is_mth `{Blake3} leaves h :
  (leaves ≠ [] → mth leaves h ↔ h = merkle_root leaves) ∧ merkle_root [] = blake3_hash [].
Proof.
  split; [|done]. intros Hne. assert (merkle_root leaves = subtree_root leaves) as ->.
  { by destruct leaves. }
  split; [apply mth_subtree_root|]. intros ->. by apply subtree_root_mth.
Qed.

(** C27: The recursions and the loop terminate. With any fuel from the number of
    leaves on, the root, the audit path and the split point are the same, so the
    fuel only bounds a recursion that ends by itself; and the root satisfies the
    equation of the source, both halves being shorter and not empty. *)
Theorem merkle_recursion_terminates `{Blake3} leaves i fuel :
  (1 ≤ length leaves ≤ fuel)%nat →
  subtree_root_fuel fuel leaves = subtree_root leaves ∧
  path_fuel fuel leaves i [] = path leaves i [] ∧
  split_loop fuel 1 (length leaves) = split_point (length leaves) ∧
  let k := split_point (length leaves) in
  subtree_root leaves =
    match leaves with
    | [leaf] => leaf_hash leaf
    | _ => node_hash (subtree_root (take k leaves)) (subtree_root (drop k leaves))
    end ∧
  ((2 ≤ length leaves)%nat → (1 ≤ length (take k leaves) < length leaves)%nat ∧
                             (1 ≤ length (drop k leaves) < length leaves)%nat).
Proof.
  intros [H1 Hf]. cbv zeta. split_and!.
  - by apply subtree_root_fuel_enough.
  - by apply path_fuel_enough.
  - apply split_loop_enough; lia.
  - destruct leaves as [|x [|y leaves]]; [cbn in H1; lia|done|]. apply subtree_root_cons2. cbn. lia.
  - intros H2. pose proof (split_point_bounds (length leaves) H2). rewrite length_take, length_drop. lia.
Qed.

Lemma merkle_recursion_terminates_witness :
  @subtree_root_fuel poly_blake3 7 [[x01]; [x02]; [x03]] =
    @subtree_root poly_blake3 [[x01]; [x02]; [x03]].
Proof. apply (@merkle_recursion_terminates poly_blake3 [[x01]; [x02]; [x03]] 0 7). cbn. lia. Defined.

(** C17: The root binds the leaves: two lists of leaves, of whatever lengths,
    with the same root are the same list, unless BLAKE3 collides on two of the
    inputs hashed while computing the two roots. *)
Theorem merkle_root_binds `{Blake3, !Blake3Len} l1 l2 :
  collision_free_on blake3_hash (merkle_inputs l1 ++ merkle_inputs l2) →
  merkle_root l1 = merkle_root l2 → l1 = l2.
Proof. apply merkle_root_inj. Qed.

Definition three_leaves : list bytes := [[x61]; [x62]; [x63; x64]].

Lemma merkle_root_binds_witness :
  three_leaves = [[x61]; [x62]] ++ [[x63; x64]].
Proof.
  apply (@merkle_root_binds poly_blake3 poly_blake3_len); [|reflexivity].
  by_compute.
Defined.

(** C26: Every inclusion proof the code builds is accepted: for each position
    of the tree [inclusion_proof] succeeds, and [verify_inclusion] accepts its
    result for the leaf at that position against [merkle_root]; outside the
    tree [inclusion_proof] is an error. *)
Theorem inclusion_proof_verifies `{Blake3} leaves i :
  match leaves !! i with
  | Some leaf => ∃ proof, inclusion_proof leaves i = Ok proof ∧
      verify_inclusion leaf i (length leaves) proof (merkle_root leaves) = Ok tt
  | None => inclusion_proof leaves i = Err (MerkleProof "index out of range")
  end.
Proof.
  unfold inclusion_proof. destruct (leaves !! i) as [leaf|] eqn:Hi.
  - pose proof (lookup_lt_Some _ _ _ Hi) as Hlt. rewrite (proj2 (Nat.leb_gt _ _)) by done.
    eexists; split; [done|]. by apply path_verifies.
  - apply lookup_ge_None in Hi. by rewrite (proj2 (Nat.leb_le _ _)).
Qed.

(** C18: An accepted inclusion proof proves membership: when [verify_inclusion]
    accepts a leaf and a proof against the root of a tree, some position of
    that tree holds the leaf and the proof is the audit path of that position,
    unless BLAKE3 collides on the inputs hashed. *)
Theorem verify_inclusion_sound `{Blake3, !Blake3Len} leaves leaf index tree_size proof :
  leaves ≠ [] →
  Forall (λ s, length (sibling s) = DIGEST_LEN) proof →
  collision_free_on blake3_hash (merkle_inputs leaves ++ verify_inputs leaf proof) →
  verify_inclusion leaf index tree_size proof (merkle_root leaves) = Ok tt →
  ∃ i, leaves !! i = Some leaf ∧ inclusion_proof leaves i = Ok proof.
Proof.
  intros Hne Hsib Hcf Hv. destruct (verified_leaf leaves leaf index tree_size proof) as (i & Hi & Hp); [done..|].
  exists i. split; [done|]. unfold inclusion_proof.
  rewrite (proj2 (Nat.leb_gt _ _)) by (by eapply lookup_lt_Some). by rewrite Hp.
Qed.

Lemma verify_inclusion_sound_witness :
  ∃ i, three_leaves !! i = Some [x62] ∧
    @inclusion_proof poly_blake3 three_leaves i = Ok (@path poly_blake3 three_leaves 1 []).
Proof.
  apply (@verify_inclusion_sound poly_blake3 poly_blake3_len _ _ 1 3).
  - discriminate.
  - by_compute.
  - by_compute.
  - vm_compute. reflexivity.
Defined.

(** [verify_inclusion] does not bind the position: a proof accepted for
    one index and tree size is accepted for every other index below every
    other tree size, because the loop follows the direction flags stored in
    the proof and never compares them with [index]. *)
Theorem verify_inclusion_ignores_index `{Blake3} leaf i n proof root :
  verify_inclusion leaf i n proof root = Ok tt →
  ∀ j m, (j < m)%nat → verify_inclusion leaf j m proof root = Ok tt.
Proof.
  unfold verify_inclusion. case_match; [done|]. intros Hv j m Hjm.
  by rewrite (proj2 (Nat.leb_gt _ _)).
Qed.

Lemma verify_inclusion_ignores_index_witness :
  @verify_inclusion poly_blake3 [x62] 7 9 (@path poly_blake3 three_leaves 1 [])
    (@merkle_root poly_blake3 three_leaves) = Ok tt.
Proof.
  apply (@verify_inclusion_ignores_index poly_blake3 [x62] 1 3); [|lia].
  vm_compute. reflexivity.
Defined.
