(* ===== verification/Json.v ===== *)
(** * The JSON data model ([serde_json::Value])

    The type that the crates pattern-match on and the documented behaviour of
    the accessors they call. [serde_json] is built with [preserve_order], so
    an object is the list of its entries in insertion order, with distinct
    keys, and [Map::remove] moves the last entry into the gap
    ([swap_remove]). Parsing and pretty-printing are parameters of the
    components that use them. *)

From Stdlib Require Import Floats.SpecFloat.
From S2P Require Import Prelude Text.

(** [serde_json::Number]: an integer between [i64::MIN] and [u64::MAX], or a
    finite [f64], in the representation of Stdlib's [spec_float]. *)
Inductive number :=
| Int (z : Z)
| Float (f : spec_float).

Global Instance spec_float_eq_dec : EqDecision spec_float.
Proof. solve_decision. Defined.
Global Instance number_eq_dec : EqDecision number.
Proof. solve_decision. Defined.

Unset Elimination Schemes.
Inductive value :=
| Null
| Bool (b : bool)
| Number (n : number)
| String (s : rstring)
| Array (items : list value)
| Object (map : list (rstring * value)).
Set Elimination Schemes.

Abbreviation jmap := (list (rstring * value)).

Section value_ind.
Variable P : value → Prop.
Hypothesis P_null : P Null.
Hypothesis P_bool : ∀ b, P (Bool b).
Hypothesis P_number : ∀ n, P (Number n).
Hypothesis P_string : ∀ s, P (String s).
Hypothesis P_array : ∀ items, Forall P items → P (Array items).
Hypothesis P_object : ∀ m : jmap, Forall (λ e, P e.2) m → P (Object m).

Fixpoint value_ind (v : value) : P v :=
  match v with
  | Null => P_null
  | Bool b => P_bool b
  | Number n => P_number n
  | String s => P_string s
  | Array items => P_array items
      ((fix go l : Forall P l :=
          match l with [] => Forall_nil_2 P | x :: l => Forall_cons_2 P _ _ (value_ind x) (go l) end)
       items)
  | Object m => P_object m
      ((fix go l : Forall (λ e : rstring * value, P e.2) l :=
          match l with
          | [] => Forall_nil_2 _
          | e :: l => Forall_cons_2 _ _ _ (value_ind e.2) (go l)
          end) m)
  end.
End value_ind.

Global Instance value_eq_dec : EqDecision value.
Proof.
  refine (fix go (v w : value) : Decision (v = w) :=
    match v, w with
    | Null, Null => left eq_refl
    | Bool a, Bool b => cast_if (decide (a = b))
    | Number a, Number b => cast_if (decide (a = b))
    | String a, String b => cast_if (decide (a = b))
    | Array a, Array b => cast_if (@decide (a = b) (@list_eq_dec _ go a b))
    | Object a, Object b =>
      cast_if (@decide (a = b) (@list_eq_dec _ (@prod_eq_dec _ _ _ go) a b))
    | _, _ => right _
    end); abstract congruence.
Defined.

(** ** Accessors *)

(** [Map::get]. *)
Fixpoint map_get {A} (k : rstring) (m : list (rstring * A)) : option A :=
  match m with
  | [] => None
  | (j, v) :: m => if decide (k = j) then Some v else map_get k m
  end.

(** [Map::remove] under [preserve_order]. *)
Fixpoint map_remove {A} (k : rstring) (m : list (rstring * A)) : list (rstring * A) :=
  match m with
  | [] => []
  | (j, v) :: m =>
    if decide (k = j) then
      match last m with None => [] | Some e => e :: take (pred (length m)) m end
    else (j, v) :: map_remove k m
  end.

Definition as_object (v : value) : option jmap :=
  match v with Object m => Some m | _ => None end.

Definition as_str (v : value) : option rstring :=
  match v with String s => Some s | _ => None end.

Definition num_as_u64 (n : number) : option Z :=
  match n with Int z => if is_u64 z then Some z else None | Float _ => None end.

Definition num_as_i64 (n : number) : option Z :=
  match n with Int z => if is_i64 z then Some z else None | Float _ => None end.

Definition num_as_f64 (n : number) : option spec_float :=
  match n with
  | Int z => Some (binary_normalize 53 1024 z 0 false)
  | Float f => Some f
  end.

Definition as_u64 (v : value) : option Z :=
  match v with Number n => num_as_u64 n | _ => None end.

(** [Value::get]: the member of an object. *)
Definition value_get (k : rstring) (v : value) : option value := as_object v ≫= map_get k.

(** The integers a [serde_json::Number] can hold. *)
Definition wf_number (n : number) : bool :=
  match n with Int z => (i64_min <=? z) && (z <=? u64_max) | Float _ => true end.

(** What every [serde_json::Value] satisfies: object keys are distinct,
    strings are sequences of [char]s and integers are in range. *)
Fixpoint wf_value (v : value) : bool :=
  match v with
  | Number n => wf_number n
  | String s => valid_str s
  | Array items => forallb wf_value items
  | Object m =>
    bool_decide (NoDup m.*1) && forallb (λ e, valid_str e.1 && wf_value e.2) m
  | _ => true
  end.

(** ** Facts about maps *)

Section maps.
Context {A : Type}.
Implicit Types m : list (rstring * A).

Lemma map_get_elem k v m : map_get k m = Some v → (k, v) ∈ m.
Proof.
  induction m as [|[j w] m IH]; cbn; [done|]. case_decide; intros ?; simplify_eq; set_solver.
Qed.

Lemma elem_map_get k v m : NoDup m.*1 → (k, v) ∈ m → map_get k m = Some v.
Proof.
  induction m as [|[j w] m IH]; cbn; [by intros _ ?%not_elem_of_nil|].
  rewrite NoDup_cons. intros [Hj Hnd] [[= -> ->]|Hin]%elem_of_cons; [by rewrite decide_True|].
  rewrite decide_False; [auto|]. intros ->. apply Hj. apply list_elem_of_fmap. by exists (j, v).
Qed.

Lemma map_get_None k m : map_get k m = None ↔ k ∉ m.*1.
Proof.
  induction m as [|[j w] m IH]; cbn; [split; [intros _; apply not_elem_of_nil|done]|].
  rewrite not_elem_of_cons. case_decide; [naive_solver|]. rewrite IH. naive_solver.
Qed.

Lemma map_get_perm k m1 m2 : NoDup m1.*1 → m1 ≡ₚ m2 → map_get k m1 = map_get k m2.
Proof.
  intros Hnd Hp. assert (NoDup m2.*1) as Hnd2 by (by rewrite <-Hp).
  destruct (map_get k m2) as [v|] eqn:H2.
  - apply elem_map_get; [done|]. rewrite Hp. by apply map_get_elem.
  - apply map_get_None. rewrite Hp. by apply map_get_None.
Qed.

Lemma map_remove_perm k v m : map_get k m = Some v → m ≡ₚ (k, v) :: map_remove k m.
Proof.
  induction m as [|[j w] m IH]; cbn; [done|]. case_decide as Hd.
  - intros [= ->]. subst j. constructor.
    destruct m as [|e m _] using rev_ind; [done|].
    rewrite last_snoc, length_app. cbn. rewrite Nat.add_1_r. cbn.
    rewrite take_app_length. rewrite Permutation_app_comm. done.
  - intros Hg. etransitivity; [apply Permutation_skip, (IH Hg)|apply Permutation_swap].
Qed.

Lemma map_remove_None k m : map_get k m = None → map_remove k m = m.
Proof.
  induction m as [|[j w] m IH]; cbn; [done|]. case_decide; [done|]. intros. f_equal. auto.
Qed.

Lemma map_remove_NoDup k m : NoDup m.*1 → NoDup (map_remove k m).*1.
Proof.
  destruct (map_get k m) as [v|] eqn:Hg; [|by rewrite map_remove_None].
  intros Hnd. rewrite (map_remove_perm _ _ _ Hg) in Hnd. by apply NoDup_cons in Hnd as [_ ?].
Qed.

Lemma map_get_remove j k m :
  NoDup m.*1 → map_get j (map_remove k m) = if decide (j = k) then None else map_get j m.
Proof.
  intros Hnd. destruct (map_get k m) as [v|] eqn:Hg.
  - pose proof (map_remove_perm _ _ _ Hg) as Hp.
    pose proof Hnd as Hnd'. rewrite Hp in Hnd'. cbn in Hnd'. apply NoDup_cons in Hnd' as [Hk _].
    rewrite (map_get_perm j _ _ Hnd Hp). cbn. case_decide; [subst; by apply map_get_None|done].
  - rewrite map_remove_None by done. case_decide; [by subst|done].
Qed.
End maps.

Lemma map_remove_fmap {A B} (f : A → B) k (m : list (rstring * A)) :
  (λ e, (e.1, f e.2)) <$> map_remove k m = map_remove k ((λ e, (e.1, f e.2)) <$> m).
Proof.
  set (g := λ e : rstring * A, (e.1, f e.2)). induction m as [|[j v] m IH]; [done|].
  change (g <$> (j, v) :: m) with ((j, f v) :: (g <$> m)). cbn [map_remove]. case_decide.
  - rewrite fmap_last, length_fmap. destruct (last m); [|done]. cbn. f_equal. symmetry. apply firstn_map.
  - by rewrite fmap_cons, IH.
Qed.
