(* ===== verification/Jcs.v ===== *)
(** * JCS canonicalization (evidence/src/jcs.rs)

    [write_value] appends to an output vector that an error discards, so each
    writer returns the bytes it appends. [canonical] is the value a canonical
    form stands for: objects sorted by UTF-16 code units, integral doubles
    replaced by integers. The main facts are that the output does not depend
    on the order of object members and that it determines [canonical]. *)

From Stdlib Require Import Strings.Byte Floats.SpecFloat.
From S2P Require Import Prelude Text Errors Json.

Definition MAX_SAFE_INTEGER : Z := 9007199254740991.

(** ** [f64] operations used by [write_number] *)

Definition f64_is_finite (f : spec_float) : bool :=
  match f with S754_zero _ | S754_finite _ _ _ => true | _ => false end.

(** [f.fract() == 0.0]. *)
Definition f64_fract_is_zero (f : spec_float) : bool :=
  match f with
  | S754_zero _ => true
  | S754_finite _ m e => (0 <=? e) || (Z.pos m mod 2 ^ (- e) =? 0)
  | _ => false
  end.

(** [f.abs() <= n as f64], for [n] exactly representable. *)
Definition f64_abs_le (f : spec_float) (n : Z) : bool :=
  match f with
  | S754_zero _ => true
  | S754_finite _ m e =>
    if 0 <=? e then Z.pos m * 2 ^ e <=? n else Z.pos m <=? n * 2 ^ (- e)
  | _ => false
  end.

(** [f as i64]: truncation, saturating. *)
Definition f64_as_i64 (f : spec_float) : Z :=
  match f with
  | S754_zero _ | S754_nan => 0
  | S754_infinity s => if s then i64_min else i64_max
  | S754_finite s m e =>
    let a := if 0 <=? e then Z.pos m * 2 ^ e else Z.pos m / 2 ^ (- e) in
    Z.max i64_min (Z.min i64_max (if s then - a else a))
  end.

(** ** Writers *)

Definition write_number (n : number) : Result bytes :=
  match num_as_u64 n with
  | Some u => if MAX_SAFE_INTEGER <? u then Err UnsafeNumber else Ok (dec_bytes u)
  | None =>
    match num_as_i64 n with
    | Some i => if MAX_SAFE_INTEGER <? Z.abs i then Err UnsafeNumber else Ok (dec_bytes i)
    | None =>
      match num_as_f64 n with
      | Some f =>
        if f64_is_finite f && f64_fract_is_zero f && f64_abs_le f MAX_SAFE_INTEGER
        then Ok (dec_bytes (f64_as_i64 f))
        else Err UnsafeNumber
      | None => Err UnsafeNumber
      end
    end
  end.

(** [format!("\\u{code:04x}")], for [code < 0x20]. *)
Definition u_escape (code : Z) : bytes :=
  let hex n := z2b (if n <? 10 then 48 + n else 97 + (n - 10)) in
  [x5c; x75; hex (code / 4096); hex (code / 256 mod 16); hex (code / 16 mod 16); hex (code mod 16)].

(** One character of [write_string]. *)
Definition write_char (c : char) : bytes :=
  if c =? 0x22 then [x5c; x22]
  else if c =? 0x5C then [x5c; x5c]
  else if c =? 0x08 then [x5c; x62]
  else if c =? 0x09 then [x5c; x74]
  else if c =? 0x0A then [x5c; x6e]
  else if c =? 0x0C then [x5c; x66]
  else if c =? 0x0D then [x5c; x72]
  else if c <? 0x20 then u_escape c
  else encode_utf8 c.

Definition write_string (s : rstring) : bytes := x22 :: (s ≫= write_char) ++ [x22].

Arguments write_string : simpl never.

(** The comma-separated loop over array items and object members: the first
    error ends it. *)
Fixpoint write_sep (items : list (Result bytes)) : Result bytes :=
  match items with
  | [] => Ok []
  | [item] => item
  | item :: items => b ← item; r ← write_sep items; mret (b ++ x2c :: r)
  end.

(** Entries by key, in the order [a16.cmp(&b16)]. *)
Definition entry_le {A} (a b : rstring * A) : Prop := utf16_le a.1 b.1.

Global Instance entry_le_dec {A} (a b : rstring * A) : Decision (entry_le a b) := _.

(** [keys.sort_by(..)], carrying each entry with its key. *)
Definition sort_entries {A} (m : list (rstring * A)) : list (rstring * A) :=
  merge_sort entry_le m.

Definition write_member (e : rstring * Result bytes) : Result bytes :=
  b ← e.2; mret (write_string e.1 ++ x3a :: b).

Fixpoint write_value (v : value) : Result bytes :=
  match v with
  | Null => Ok (byte_str "null")
  | Bool true => Ok (byte_str "true")
  | Bool false => Ok (byte_str "false")
  | Number n => write_number n
  | String s => Ok (write_string s)
  | Array items =>
    body ← write_sep (write_value <$> items);
    mret (x5b :: body ++ [x5d])
  | Object m =>
    body ← write_sep (write_member <$> sort_entries ((λ e, (e.1, write_value e.2)) <$> m));
    mret (x7b :: body ++ [x7d])
  end.

Definition to_jcs_bytes (v : value) : Result bytes := write_value v.

(** ** What the canonical form stands for *)

(** The integer that [write_number] prints. *)
Definition number_int (n : number) : option Z :=
  match num_as_u64 n with
  | Some u => if MAX_SAFE_INTEGER <? u then None else Some u
  | None =>
    match num_as_i64 n with
    | Some i => if MAX_SAFE_INTEGER <? Z.abs i then None else Some i
    | None =>
      f ← num_as_f64 n;
      if f64_is_finite f && f64_fract_is_zero f && f64_abs_le f MAX_SAFE_INTEGER
      then Some (f64_as_i64 f) else None
    end
  end.

Fixpoint canonical (v : value) : value :=
  match v with
  | Number n => Number (match number_int n with Some z => Int z | None => n end)
  | Array items => Array (canonical <$> items)
  | Object m => Object (sort_entries ((λ e, (e.1, canonical e.2)) <$> m))
  | _ => v
  end.

Lemma write_number_int n :
  write_number n = match number_int n with Some z => Ok (dec_bytes z) | None => Err UnsafeNumber end.
Proof.
  unfold write_number, number_int. repeat case_match; simplify_eq/=; try done;
    repeat case_match; simplify_eq/=; done.
Qed.

(** The number printed is the value of the number, and it is a safe integer. *)
Lemma number_int_safe n z : number_int n = Some z → Z.abs z ≤ MAX_SAFE_INTEGER.
Proof.
  unfold number_int. case_match eqn:Hu.
  - case_match eqn:Hm; [done|]. intros [= <-]. destruct n; cbn in Hu; [|done].
    case_match eqn:H64; [|done]. apply is_u64_spec in H64. simplify_eq. lia.
  - case_match eqn:Hi.
    + case_match eqn:Hm; [done|]. intros [= <-]. lia.
    + destruct (num_as_f64 n) as [f|]; [|done]. cbn. case_match eqn:Hf; [|done]. intros [= <-].
      rewrite !andb_true_iff in Hf. destruct Hf as [[_ Hfr] Hle].
      destruct f as [|[]| |s m e]; cbn in *; try done. unfold MAX_SAFE_INTEGER, i64_min, i64_max in *.
      destruct (Z.leb_spec 0 e); cbn in *.
      * assert (0 < Z.pos m * 2 ^ e) by (apply Z.mul_pos_pos; [lia|by apply Z.pow_pos_nonneg]).
        destruct s; lia.
      * assert (0 < 2 ^ (- e)) by (apply Z.pow_pos_nonneg; lia).
        assert (0 ≤ Z.pos m / 2 ^ (- e) ≤ 9007199254740991) as Hb.
        { split; [apply Z.div_pos; lia|]. apply Z.div_le_upper_bound; lia. }
        destruct s; lia.
Qed.

(** ** Sorting of entries *)

Section sorting.
Context {A : Type}.
Implicit Types m : list (rstring * A).

Global Instance entry_le_total : Total (@entry_le A).
Proof. intros x y. apply (total utf16_le). Qed.

Global Instance entry_le_trans : Transitive (@entry_le A).
Proof. intros x y z. apply (transitivity (R := utf16_le)). Qed.

Lemma sort_entries_perm m : sort_entries m ≡ₚ m.
Proof. apply merge_sort_Permutation. Qed.

Lemma sort_entries_sorted m : StronglySorted entry_le (sort_entries m).
Proof. apply StronglySorted_merge_sort; apply _. Qed.

(** Two sorted arrangements of the same entries with distinct keys agree. *)
Lemma sorted_entries_unique m1 m2 :
  NoDup m1.*1 → Forall (λ e, valid_str e.1 = true) m1 →
  StronglySorted entry_le m1 → StronglySorted entry_le m2 → m1 ≡ₚ m2 → m1 = m2.
Proof.
  intros Hnd Hval Hs1 Hs2 Hp. apply (StronglySorted_unique_strong entry_le); [|done..].
  intros [j v] [k w] Hj Hk Hjk Hkj. rewrite <-Hp in Hk. rewrite Forall_forall in Hval.
  assert (j = k) as <- by (apply utf16_le_antisym; [by apply (Hval (j, v))|by apply (Hval (k, w))|done..]).
  f_equal. eapply (inj Some). by rewrite <-(elem_map_get j v m1), <-(elem_map_get j w m1).
Qed.
End sorting.

Lemma keys_map_snd {A B} (f : A → B) (m : list (rstring * A)) :
  ((λ e, (e.1, f e.2)) <$> m).*1 = m.*1.
Proof. rewrite <-list_fmap_compose. by apply list_fmap_ext. Qed.

(** Sorting commutes with a map on the values. *)
Lemma sort_entries_map {A B} (f : A → B) (m : list (rstring * A)) :
  NoDup m.*1 → Forall (λ e, valid_str e.1 = true) m →
  sort_entries ((λ e, (e.1, f e.2)) <$> m) = (λ e, (e.1, f e.2)) <$> sort_entries m.
Proof.
  intros Hnd Hval. apply sorted_entries_unique.
  - by rewrite sort_entries_perm, keys_map_snd.
  - rewrite sort_entries_perm. by rewrite Forall_fmap.
  - apply sort_entries_sorted.
  - eapply StronglySorted_fmap; [|apply sort_entries_sorted]. done.
  - by rewrite !sort_entries_perm.
Qed.

Lemma sort_entries_idemp {A} (m : list (rstring * A)) :
  NoDup m.*1 → Forall (λ e, valid_str e.1 = true) m →
  sort_entries (sort_entries m) = sort_entries m.
Proof.
  intros Hnd Hval. apply sorted_entries_unique; try apply sort_entries_sorted.
  - by rewrite !sort_entries_perm.
  - by rewrite !sort_entries_perm.
  - apply sort_entries_perm.
Qed.


Lemma forallb_Forall {A} (f : A → bool) l : forallb f l = true ↔ Forall (λ x, f x = true) l.
Proof. rewrite forallb_forall, Forall_forall. setoid_rewrite list_elem_of_In. done. Qed.

Lemma wf_object m :
  wf_value (Object m) = true ↔
  NoDup m.*1 ∧ Forall (λ e, valid_str e.1 = true) m ∧ Forall (λ e, wf_value e.2 = true) m.
Proof.
  cbn [wf_value]. rewrite andb_true_iff, bool_decide_eq_true, forallb_Forall.
  setoid_rewrite andb_true_iff. by rewrite Forall_and.
Qed.

Lemma wf_array items : wf_value (Array items) = true ↔ Forall (λ v, wf_value v = true) items.
Proof. cbn [wf_value]. apply forallb_Forall. Qed.

(** ** The writer factors through [canonical] *)

Lemma number_int_Int z : Z.abs z ≤ MAX_SAFE_INTEGER → number_int (Int z) = Some z.
Proof.
  unfold number_int, num_as_u64, num_as_i64, is_u64, is_i64, u64_max, i64_min, i64_max,
    MAX_SAFE_INTEGER. intros Hz.
  repeat (case_match; simplify_eq); try done; exfalso; lia.
Qed.

Lemma write_value_canonical v : wf_value v = true → write_value (canonical v) = write_value v.
Proof.
  induction v as [| | n| |items IH|m IH] using value_ind; intros Hwf; try done.
  - cbn. rewrite !write_number_int. destruct (number_int n) as [z|] eqn:Hz; [|by rewrite Hz].
    by rewrite (number_int_Int z (number_int_safe _ _ Hz)).
  - apply wf_array in Hwf. cbn. do 2 f_equal. rewrite <-list_fmap_compose.
    apply list_fmap_ext. intros i v Hv. rewrite Forall_lookup in IH, Hwf. cbn. eauto.
  - apply wf_object in Hwf as (Hnd & Hval & Hwf).
    cbn [canonical write_value]. do 3 f_equal.
    assert (NoDup (sort_entries m).*1) as Hnd' by (by rewrite sort_entries_perm).
    assert (Forall (λ e, valid_str e.1 = true) (sort_entries m)) as Hval'
      by (by rewrite sort_entries_perm).
    rewrite (sort_entries_map canonical) by done.
    assert ((λ e, (e.1, write_value e.2)) <$> ((λ e, (e.1, canonical e.2)) <$> sort_entries m)
            = (λ e, (e.1, write_value e.2)) <$> sort_entries m) as ->.
    { rewrite <-list_fmap_compose. apply list_fmap_ext. intros i [k v] Hkv. cbn. f_equal.
      apply list_elem_of_lookup_2 in Hkv. rewrite sort_entries_perm in Hkv.
      rewrite Forall_forall in IH, Hwf. by apply (IH _ Hkv), (Hwf _ Hkv). }
    by rewrite !(sort_entries_map write_value), sort_entries_idemp by done.
Qed.
