(* ===== verification/JcsFacts.v ===== *)
(** * The canonical bytes determine the value

    Unique decodability of the output of [write_value]: a canonical form
    followed by a delimiter can be cut in one way only, and equal canonical
    forms stand for the same [canonical] value. *)

From Stdlib Require Import Strings.Byte Floats.SpecFloat.
From S2P Require Import Prelude Text Errors Json Jcs.

(** ** Strings *)

(** Value of one hexadecimal digit as printed by [u_escape]. *)
Definition unhex (b : byte) : Z := if b2z b <? 58 then b2z b - 48 else b2z b - 87.

(** Reads back one character written by [write_char]. *)
Definition read_char (bs : bytes) : option (char * bytes) :=
  match bs with
  | x5c :: x22 :: r => Some (0x22, r)
  | x5c :: x5c :: r => Some (0x5C, r)
  | x5c :: x62 :: r => Some (0x08, r)
  | x5c :: x74 :: r => Some (0x09, r)
  | x5c :: x6e :: r => Some (0x0A, r)
  | x5c :: x66 :: r => Some (0x0C, r)
  | x5c :: x72 :: r => Some (0x0D, r)
  | x5c :: x75 :: a :: b :: c :: d :: r =>
    Some (unhex a * 4096 + unhex b * 256 + unhex c * 16 + unhex d, r)
  | x5c :: _ => None
  | _ => decode_utf8 bs
  end.

Lemma read_char_utf8 b r : b ≠ x5c → read_char (b :: r) = decode_utf8 (b :: r).
Proof. by destruct b. Qed.


Lemma read_write_char c r :
  valid_char c = true → read_char (write_char c ++ r) = Some (c, r).
Proof.
  intros Hv. unfold write_char.
  repeat (match goal with |- context [if c =? ?k then _ else _] =>
    destruct (Z.eqb_spec c k) as [->|]; [reflexivity|] end).
  destruct (Z.ltb_spec c 0x20) as [Hlt|Hge].
  - unfold u_escape. cbn [app].
    assert (0 ≤ c < 0x20) as Hc by (unfold valid_char in Hv; lia).
    pose proof (Z_below_forallb 0x20 (λ c,
      let hex n := z2b (if n <? 10 then 48 + n else 97 + (n - 10)) in
      unhex (hex (c / 4096)) * 4096 + unhex (hex (c / 256 mod 16)) * 256 +
      unhex (hex (c / 16 mod 16)) * 16 + unhex (hex (c mod 16)) =? c) eq_refl c Hc) as Hu.
    apply Z.eqb_eq in Hu. cbn zeta in Hu. cbn [read_char]. by rewrite Hu.
  - pose proof (decode_encode_utf8 c r Hv) as Hdec.
    destruct (encode_utf8_head c) as (b & t & Henc & Hif); [unfold valid_char in Hv; lia|].
    rewrite Henc in *. cbn [app] in *. rewrite read_char_utf8; [done|].
    intros ->. case_match; cbn in Hif; lia.
Qed.

Lemma write_char_head c :
  valid_char c = true → ∃ b r, write_char c = b :: r ∧ b ≠ x22.
Proof.
  intros Hv. unfold write_char.
  repeat (match goal with |- context [if c =? ?k then _ else _] =>
    destruct (Z.eqb_spec c k) as [->|]; [by eexists _, _|] end).
  case_match; [by eexists _, _|].
  destruct (encode_utf8_head c) as (b & t & Henc & Hif); [unfold valid_char in Hv; lia|].
  exists b, t. split; [done|]. intros ->. case_match; cbn in Hif; lia.
Qed.

Lemma write_string_unique s t r1 r2 :
  valid_str s = true → valid_str t = true →
  write_string s ++ r1 = write_string t ++ r2 → s = t ∧ r1 = r2.
Proof.
  unfold write_string, valid_str. intros Hs Ht [= Heq]. rewrite <-!app_assoc in Heq.
  cbn [app] in Heq. revert t Ht Heq.
  induction s as [|c s IH]; intros [|d t]; cbn; rewrite ?andb_true_iff.
  - intros _ [= ->]. done.
  - intros [Hd _] Heq. destruct (write_char_head d Hd) as (b & r & Hb & Hne).
    rewrite Hb in Heq. cbn in Heq. congruence.
  - intros _ Heq. cbn in Hs. apply andb_true_iff in Hs as [Hc _].
    destruct (write_char_head c Hc) as (b & r & Hb & Hne).
    rewrite Hb in Heq. cbn in Heq. congruence.
  - intros [Hd Ht] Heq. cbn in Hs. apply andb_true_iff in Hs as [Hc Hs].
    rewrite <-!app_assoc in Heq. apply (f_equal read_char) in Heq.
    rewrite !read_write_char in Heq by done. injection Heq as -> Heq.
    by destruct (IH Hs t Ht Heq) as [-> ->].
Qed.

Lemma write_string_head s : ∃ r, write_string s = x22 :: r.
Proof. by eexists. Qed.

(** ** Canonical text has no control bytes, and is not short *)

Definition printable (b : byte) : Prop := 0x20 ≤ b2z b.

Lemma printable_lit z : 0x20 ≤ z < 0x100 → printable (z2b z).
Proof. intros Hz. unfold printable. rewrite b2z_z2b, Z.mod_small; lia. Qed.

Lemma encode_utf8_printable c : 0x20 ≤ c < 0x110000 → Forall printable (encode_utf8 c).
Proof.
  intros Hc. rewrite encode_utf8_arith by lia.
  assert (∀ a, 0 ≤ a → printable (z2b (0x80 + a mod 64))) as Hlow.
  { intros a Ha. apply printable_lit. pose proof (Z.mod_pos_bound a 64). lia. }
  destruct (Z.ltb_spec c 0x80); [repeat constructor; apply printable_lit; lia|].
  destruct (Z.ltb_spec c 0x800).
  { repeat constructor; [|by apply Hlow; lia]. apply printable_lit.
    pose proof (Z.div_lt_upper_bound c 64 32). pose proof (Z.div_pos c 64). lia. }
  destruct (Z.ltb_spec c 0x10000).
  - repeat constructor; try (apply Hlow; try apply Z.div_pos; lia). apply printable_lit.
    pose proof (Z.div_lt_upper_bound c 4096 16). pose proof (Z.div_pos c 4096). lia.
  - repeat constructor; try (apply Hlow; try apply Z.div_pos; lia). apply printable_lit.
    pose proof (Z.div_lt_upper_bound c 262144 5). pose proof (Z.div_pos c 262144). lia.
Qed.

Lemma u_escape_printable c : 0 ≤ c < 0x20 → Forall printable (u_escape c).
Proof.
  intros Hc. assert (forallb (λ c, forallb (λ b, 0x20 <=? b2z b) (u_escape c)) (seqZ 0 0x20) = true) as Hall
    by (vm_compute; reflexivity).
  rewrite forallb_forall in Hall. specialize (Hall c). rewrite <-list_elem_of_In, elem_of_seqZ in Hall.
  specialize (Hall ltac:(lia)). apply forallb_Forall in Hall. eapply Forall_impl; [exact Hall|].
  intros b Hb%Z.leb_le. done.
Qed.

Lemma write_char_printable c : valid_char c = true → Forall printable (write_char c).
Proof.
  unfold valid_char, write_char. intros Hc.
  repeat (case_match; [repeat constructor; by vm_compute|]). case_match.
  - apply u_escape_printable. lia.
  - apply encode_utf8_printable. lia.
Qed.

Lemma write_string_printable s : valid_str s = true → Forall printable (write_string s).
Proof.
  intros Hs%forallb_Forall. unfold write_string. constructor; [by vm_compute|]. apply Forall_app.
  split; [|repeat constructor; by vm_compute]. induction Hs as [|c s Hc _ IH]; [constructor|].
  cbn. apply Forall_app. split; [by apply write_char_printable|done].
Qed.

Lemma write_char_length c : (1 ≤ length (write_char c))%nat.
Proof.
  unfold write_char, encode_utf8, u_escape. repeat case_match; cbn; lia.
Qed.

Lemma write_string_length s : (length s + 2 ≤ length (write_string s))%nat.
Proof.
  unfold write_string. cbn. rewrite length_app. cbn.
  assert (length s ≤ length (s ≫= write_char))%nat; [|lia].
  induction s as [|c s IH]; [done|]. cbn. rewrite length_app. pose proof (write_char_length c). lia.
Qed.

#[local] Opaque write_string.

(** ** Numbers, and the delimiters that end them *)

Definition delim (r : bytes) : Prop := ∀ b, head r = Some b → ¬ dec_char b.

Lemma dec_char_range b : dec_char b → b2z b = 45 ∨ 48 ≤ b2z b ≤ 57.
Proof. intros [->|?]; [by left|by right]. Qed.

Lemma delim_cons b r :
  (b2z b =? 45) || ((48 <=? b2z b) && (b2z b <=? 57)) = false → delim (b :: r).
Proof. intros Hb c [= <-] Hc%dec_char_range. lia. Qed.

Lemma delim_nil : delim [].
Proof. by intros b. Qed.

#[export] Hint Resolve delim_nil : sealr.
#[export] Hint Extern 1 (delim (_ :: _)) => apply delim_cons; reflexivity : sealr.

Lemma dec_bytes_unique y z r1 r2 :
  delim r1 → delim r2 → dec_bytes y ++ r1 = dec_bytes z ++ r2 → y = z ∧ r1 = r2.
Proof.
  intros H1 H2 Heq. apply (span_unique dec_char) in Heq as [Heq ->];
    auto using dec_bytes_chars, dec_bytes_inj.
Qed.

(** ** The first byte tells the kind of the value *)

Definition head_byte (v : value) (b : byte) : Prop :=
  match v with
  | Null => b2z b = 110
  | Bool true => b2z b = 116
  | Bool false => b2z b = 102
  | Number _ => b2z b = 45 ∨ 48 ≤ b2z b ≤ 57
  | String _ => b2z b = 34
  | Array _ => b2z b = 91
  | Object _ => b2z b = 123
  end.

Lemma write_value_head v bs :
  write_value v = Ok bs → ∃ b r, bs = b :: r ∧ head_byte v b.
Proof.
  destruct v as [|[]|n|s|items|m]; cbn [write_value]; intros Hw; ok_inv; subst.
  1-3: by eexists _, _.
  - rewrite write_number_int in Hw. case_match; ok_inv; subst.
    pose proof (dec_bytes_chars z) as Hall. pose proof (dec_bytes_nonempty z) as Hne.
    destruct (dec_bytes z) as [|b r]; [done|]. exists b, r. split; [done|].
    apply Forall_inv in Hall. by apply dec_char_range.
  - destruct (write_string_head s) as [r ->]. by eexists _, _.
  - by eexists _, _.
  - by eexists _, _.
Qed.

(** ** Comma-separated sequences *)

Section sequences.
Context {A B : Type} (f : A → Result bytes) (g : A → B) (W : A → Prop) (close : byte).
Hypothesis close_delim : ∀ r, delim (close :: r).
Hypothesis close_comma : close ≠ x2c.
Hypothesis f_head : ∀ x bs, f x = Ok bs → ∃ b r, bs = b :: r ∧ b ≠ close.

(** What the elements of the sequence have to satisfy. *)
Definition unique_at (x : A) : Prop :=
  ∀ y b c r s, W y → f x = Ok b → f y = Ok c → delim r → delim s → b ++ r = c ++ s →
    g x = g y ∧ r = s.

Lemma write_sep_cons2 x y l bs :
  write_sep (f <$> x :: y :: l) = Ok bs ↔
  ∃ b r, f x = Ok b ∧ write_sep (f <$> y :: l) = Ok r ∧ bs = b ++ x2c :: r.
Proof.
  cbn [fmap list_fmap write_sep]. rewrite bind_Ok. split.
  - intros (b & Hb & Hbs). ok_inv. eauto 10.
  - intros (b & r & Hb & Hr & ->). exists b. split; [done|]. apply bind_Ok. eauto.
Qed.

Lemma write_sep_unique l1 l2 b1 b2 r1 r2 :
  Forall unique_at l1 → Forall W l2 →
  write_sep (f <$> l1) = Ok b1 → write_sep (f <$> l2) = Ok b2 →
  b1 ++ close :: r1 = b2 ++ close :: r2 → g <$> l1 = g <$> l2 ∧ r1 = r2.
Proof.
  assert (∀ r, delim (x2c :: r)) as Hcomma by (intros; auto with sealr).
  assert (∀ x l b, write_sep (f <$> x :: l) = Ok b → ∃ h t, b = h :: t ∧ h ≠ close) as Hhead.
  { intros x [|y l] b Hb; [exact (f_head x b Hb)|].
    apply write_sep_cons2 in Hb as (c & r & Hc & _ & ->).
    destruct (f_head x c Hc) as (h & t & -> & Hne). by eexists _, _. }
  intros Hu; revert l2 b1 b2. induction Hu as [|x l1 Hx Hu IH]; intros [|y l2] b1 b2 HW H1 H2 Heq.
  - injection H1 as <-. injection H2 as <-. by injection Heq as ->.
  - injection H1 as <-. apply Hhead in H2 as (h & t & -> & Hne). cbn in Heq. congruence.
  - injection H2 as <-. apply Hhead in H1 as (h & t & -> & Hne). cbn in Heq. congruence.
  - apply Forall_cons in HW as [Hy HW]. destruct l1 as [|x' l1], l2 as [|y' l2].
    + cbn in H1, H2. destruct (Hx y b1 b2 (close :: r1) (close :: r2)) as [Hg [= ->]]; auto.
      cbn. by rewrite Hg.
    + apply write_sep_cons2 in H2 as (c & t & Hc & _ & ->). rewrite <-app_assoc in Heq.
      destruct (Hx y b1 c (close :: r1) (x2c :: t ++ close :: r2)) as [_ [= ? _]]; auto. done.
    + apply write_sep_cons2 in H1 as (c & t & Hc & _ & ->). rewrite <-app_assoc in Heq.
      destruct (Hx y c b2 (x2c :: t ++ close :: r1) (close :: r2)) as [_ [= ? _]]; auto. done.
    + apply write_sep_cons2 in H1 as (c1 & t1 & Hc1 & Ht1 & ->).
      apply write_sep_cons2 in H2 as (c2 & t2 & Hc2 & Ht2 & ->).
      rewrite <-!app_assoc in Heq.
      destruct (Hx y c1 c2 _ _ Hy Hc1 Hc2 (Hcomma _) (Hcomma _) Heq) as [Hg [= Heq']].
      destruct (IH _ _ _ HW Ht1 Ht2 Heq') as [Hgs ->]. split; [|done].
      change (g x :: (g <$> x' :: l1) = g y :: (g <$> y' :: l2)). by rewrite Hg, Hgs.
Qed.
End sequences.

(** ** Values *)

Definition canon_entry (e : rstring * value) : rstring * value := (e.1, canonical e.2).
Definition write_entry_member (e : rstring * value) : Result bytes :=
  write_member (e.1, write_value e.2).

Lemma write_object m :
  wf_value (Object m) = true →
  write_value (Object m) =
    (body ← write_sep (write_entry_member <$> sort_entries m); mret (x7b :: body ++ [x7d])).
Proof.
  intros (Hnd & Hval & _)%wf_object. cbn [write_value].
  by rewrite sort_entries_map, <-list_fmap_compose.
Qed.

Lemma canonical_object m :
  wf_value (Object m) = true → canonical (Object m) = Object (canon_entry <$> sort_entries m).
Proof. intros (Hnd & Hval & _)%wf_object. cbn [canonical]. by rewrite sort_entries_map. Qed.

(** The members of an object inherit unique decodability from their values. *)
Lemma member_unique (e : rstring * value) :
  valid_str e.1 = true →
  unique_at write_value canonical (λ v, wf_value v = true) e.2 →
  unique_at write_entry_member canon_entry
    (λ e, valid_str e.1 = true ∧ wf_value e.2 = true) e.
Proof.
  intros Hk Hv [k' v'] b c r s [Hk' Hwf'] Hb Hc Hr Hs Heq. destruct e as [k v]. cbn in *.
  unfold write_entry_member, write_member in *. cbn in *. ok_inv. subst.
  rewrite <-!app_assoc in Heq. cbn [app] in Heq.
  apply write_string_unique in Heq as [-> Heq]; [|done..]. injection Heq as Heq.
  eapply Hv in Heq as [Hcan ->]; [|done..]. unfold canon_entry. cbn. by rewrite Hcan.
Qed.

Lemma write_value_unique v :
  wf_value v = true → unique_at write_value canonical (λ v, wf_value v = true) v.
Proof.
  induction v as [|x|n|s|items IH|m IH] using value_ind; intros Hwf w b c r t Hwf2 Hb Hc Hr Ht Heq.
  all: destruct (write_value_head _ _ Hb) as (h1 & t1 & Hh1 & Hk1);
    destruct (write_value_head _ _ Hc) as (h2 & t2 & Hh2 & Hk2);
    assert (h1 = h2) by (rewrite Hh1, Hh2 in Heq; by injection Heq);
    subst h2; destruct w as [|y|n2|s2|items2|m2];
    try (exfalso; cbn in Hk1, Hk2; repeat case_match; lia).
  - injection Hb as <-. injection Hc as <-. by injection Heq.
  - destruct x, y; cbn in Hk1, Hk2; try (exfalso; lia);
      injection Hb as <-; injection Hc as <-; by injection Heq.
  - clear Hk1 Hk2 Hh1 Hh2. cbn in *. rewrite write_number_int in Hb, Hc.
    destruct (number_int n) as [z1|], (number_int n2) as [z2|]; ok_inv; subst.
    by apply dec_bytes_unique in Heq as [-> ->].
  - cbn in Hb, Hc. ok_inv. subst b c. cbn in Hwf, Hwf2.
    by apply write_string_unique in Heq as [-> ->].
  - apply wf_array in Hwf, Hwf2. cbn [write_value] in Hb, Hc. ok_inv. subst b c.
    cbn [app] in Heq. injection Heq as Heq. rewrite <-!app_assoc in Heq.
    eapply (write_sep_unique write_value canonical (λ v, wf_value v = true) x5d)
      in Heq as [Hcan ->]; [| | | | | |done|done].
    + split; [|done]. cbn [canonical]. by rewrite Hcan.
    + auto with sealr.
    + done.
    + intros v bs Hv. destruct (write_value_head v bs Hv) as (h & u & -> & Hh).
      exists h, u. split; [done|]. intros ->. destruct v as [|[]| | | |]; cbn in Hh; lia.
    + rewrite Forall_forall in IH, Hwf |- *. auto.
    + done.
  - rewrite write_object in Hb, Hc by done. rewrite !canonical_object by done. ok_inv. subst b c.
    cbn [app] in Heq. injection Heq as Heq. rewrite <-!app_assoc in Heq.
    apply wf_object in Hwf as (Hnd & Hval & Hwf), Hwf2 as (Hnd2 & Hval2 & Hwf2).
    eapply (write_sep_unique write_entry_member canon_entry
      (λ e, valid_str e.1 = true ∧ wf_value e.2 = true) x7d)
      in Heq as [Hcan ->]; [| | | | | |done|done].
    + split; [|done]. by rewrite Hcan.
    + auto with sealr.
    + done.
    + intros e bs He. unfold write_entry_member, write_member in He. cbn in He. ok_inv. subst.
      destruct (write_string_head e.1) as [? ->]. by eexists _, _.
    + rewrite sort_entries_perm. rewrite Forall_forall in IH, Hval, Hwf |- *. intros e He.
      apply member_unique; auto.
    + rewrite sort_entries_perm. by apply Forall_and.
Qed.

(** Equal canonical forms, equal canonical values; and conversely. *)
Lemma jcs_inj v w bs :
  wf_value v = true → wf_value w = true →
  to_jcs_bytes v = Ok bs → to_jcs_bytes w = Ok bs → canonical v = canonical w.
Proof.
  intros Hv Hw Hbv Hbw.
  apply (write_value_unique v Hv w bs bs [] []); auto with sealr.
Qed.

Lemma jcs_canonical v w :
  wf_value v = true → wf_value w = true → canonical v = canonical w →
  to_jcs_bytes v = to_jcs_bytes w.
Proof.
  intros Hv Hw Heq. unfold to_jcs_bytes.
  by rewrite <-(write_value_canonical v Hv), <-(write_value_canonical w Hw), Heq.
Qed.

(** ** Which values have a canonical form *)

(** Every number in the value is a safe integer. *)
Fixpoint safe_value (v : value) : bool :=
  match v with
  | Number n => bool_decide (is_Some (number_int n))
  | Array items => forallb safe_value items
  | Object m => forallb (λ e, safe_value e.2) m
  | _ => true
  end.

(** The outcome of a writer on a value of the given safety. *)
Definition outcome_ok (r : Result bytes) (safe : bool) : Prop :=
  match r with Ok _ => safe = true | Err e => e = UnsafeNumber ∧ safe = false end.

Lemma write_sep_outcome {A} (f : A → Result bytes) (safe : A → bool) l :
  Forall (λ x, outcome_ok (f x) (safe x)) l → outcome_ok (write_sep (f <$> l)) (forallb safe l).
Proof.
  induction 1 as [|x l Hx Hl IH]; [done|]. destruct l as [|y l].
  - cbn [fmap list_fmap write_sep forallb]. by rewrite andb_true_r.
  - change (f <$> x :: y :: l) with (f x :: (f <$> y :: l)).
    change (forallb safe (x :: y :: l)) with (safe x && forallb safe (y :: l)).
    change (write_sep (f x :: (f <$> y :: l))) with
      (b ← f x; r ← write_sep (f <$> y :: l); mret (b ++ x2c :: r)).
    destruct (f x) as [b|e]; cbn [outcome_ok mbind result_bind] in *; [|by destruct Hx as [-> ->]].
    rewrite Hx. by destruct (write_sep (f <$> y :: l)).
Qed.

Lemma forallb_perm {A} (f : A → bool) l k : l ≡ₚ k → forallb f l = forallb f k.
Proof. intros Hp. apply Bool.eq_true_iff_eq. by rewrite !forallb_Forall, Hp. Qed.

(** Sorting the written members leaves their outcomes in place. *)
Lemma sorted_outcome m :
  Forall (λ e : rstring * value, outcome_ok (write_value e.2) (safe_value e.2)) m →
  outcome_ok (write_sep (write_member <$> sort_entries ((λ e, (e.1, write_value e.2)) <$> m)))
    (forallb (λ e, safe_value e.2) m).
Proof.
  intros Hm. set (S := sort_entries ((λ e, (e.1, write_value e.2)) <$> m)).
  assert (S ≡ₚ (λ e, (e.1, write_value e.2)) <$> m) as HS by apply sort_entries_perm.
  assert (forallb (λ e, safe_value e.2) m = forallb (λ e, is_ok e.2) S) as ->.
  { rewrite (forallb_perm _ _ _ HS). clear -Hm. induction Hm as [|e m He Hm IH]; [done|].
    cbn. rewrite IH. by destruct (write_value e.2); [rewrite He|destruct He as [_ ->]]. }
  assert (Forall (λ e, outcome_ok e.2 (is_ok e.2)) S) as Hall.
  { rewrite HS, Forall_fmap. eapply Forall_impl; [exact Hm|]. intros [k v]. cbn.
    by destruct (write_value v) as [|e]; cbn; [|intros [-> _]]. }
  apply write_sep_outcome. eapply Forall_impl; [exact Hall|].
  intros [k []]; cbn; naive_solver.
Qed.

Lemma write_value_outcome v : outcome_ok (write_value v) (safe_value v).
Proof.
  induction v as [|[]|n|s|items IH|m IH] using value_ind; try done.
  - cbn. rewrite write_number_int. by destruct (number_int n).
  - apply write_sep_outcome in IH. cbn. by destruct (write_sep _).
  - apply sorted_outcome in IH. cbn [write_value safe_value]. by destruct (write_sep _).
Qed.

(** ** What the number denotes *)

(** [n] is exactly the integer [z]. *)
Definition number_denotes (n : number) (z : Z) : Prop :=
  match n with
  | Int y => y = z
  | Float (S754_zero _) => z = 0
  | Float (S754_finite s m e) =>
    (if s then Z.neg m else Z.pos m) * 2 ^ Z.max 0 e = z * 2 ^ Z.max 0 (- e)
  | Float _ => False
  end.

Lemma pow2_pos e : 0 < 2 ^ Z.max 0 e.
Proof. apply Z.pow_pos_nonneg; lia. Qed.

Lemma int_spec y z :
  wf_number (Int y) = true →
  number_int (Int y) = Some z ↔ y = z ∧ Z.abs z ≤ MAX_SAFE_INTEGER.
Proof.
  cbn. intros Hwf. split; [|intros [-> Hz]; by apply number_int_Int].
  intros Hz. pose proof (number_int_safe _ _ Hz) as Hs. split; [|done].
  revert Hz. unfold number_int, num_as_u64, num_as_i64, is_u64, is_i64.
  unfold i64_min, i64_max, u64_max in *.
  repeat (case_match; simplify_eq); try done; try congruence; exfalso; lia.
Qed.

Lemma float_spec f z :
  number_int (Float f) = Some z ↔ number_denotes (Float f) z ∧ Z.abs z ≤ MAX_SAFE_INTEGER.
Proof.
  split.
  - intros Hz. pose proof (number_int_safe _ _ Hz) as Hs. split; [|done].
    unfold number_int in Hz. cbn in Hz.
    destruct f as [| | |s m e]; cbn in *; try done; [by simplify_eq|].
    case_match eqn:Hc; simplify_eq. apply andb_true_iff in Hc as [Hc Hle].
    unfold MAX_SAFE_INTEGER, i64_min, i64_max in *.
    destruct (Z.leb_spec 0 e).
    + rewrite (Z.max_r 0 e), (Z.max_l 0 (- e)) by lia. rewrite Z.pow_0_r.
      assert (0 < Z.pos m * 2 ^ e) by (apply Z.mul_pos_pos; [lia|by apply Z.pow_pos_nonneg]).
      destruct s; lia.
    + rewrite (Z.max_l 0 e), (Z.max_r 0 (- e)) by lia. rewrite Z.pow_0_r.
      assert (0 < 2 ^ (- e)) as Hp by (apply Z.pow_pos_nonneg; lia).
      cbn in Hc. apply Z.eqb_eq in Hc. apply Z.div_exact in Hc; [|lia].
      assert (0 ≤ Z.pos m / 2 ^ (- e) ≤ 9007199254740991) as Hb.
      { split; [apply Z.div_pos; lia|]. apply Z.div_le_upper_bound; lia. }
      rewrite Z.max_r, Z.min_r by (destruct s; lia). destruct s; lia.
  - intros [Hden Hs]. unfold number_int. destruct f as [| | |s m e]; cbn in *; try done; [by subst|].
    unfold MAX_SAFE_INTEGER, i64_min, i64_max in *.
    destruct (Z.leb_spec 0 e).
    + rewrite (Z.max_r 0 e), (Z.max_l 0 (- e)) in Hden by lia. rewrite Z.pow_0_r in Hden.
      assert (0 < Z.pos m * 2 ^ e) by (apply Z.mul_pos_pos; [lia|by apply Z.pow_pos_nonneg]).
      cbn. rewrite (proj2 (Z.leb_le _ _)) by (destruct s; lia). f_equal. destruct s; lia.
    + rewrite (Z.max_l 0 e), (Z.max_r 0 (- e)) in Hden by lia. rewrite Z.pow_0_r in Hden.
      assert (0 < 2 ^ (- e)) as Hp by (apply Z.pow_pos_nonneg; lia).
      assert (Z.pos m = Z.abs z * 2 ^ (- e)) as ->.
      { rewrite <-(Z.abs_eq (2 ^ (- e))) by lia. rewrite <-Z.abs_mul. destruct s; lia. }
      cbn. rewrite Z.mod_mul, Z.div_mul by lia. cbn.
      rewrite (proj2 (Z.leb_le _ _)) by (apply Z.mul_le_mono_nonneg_r; lia). f_equal.
      assert (s = true → z ≤ 0) as Hneg by (intros ->; nia).
      assert (s = false → 0 ≤ z) as Hpos by (intros ->; nia).
      destruct s; [specialize (Hneg eq_refl)|specialize (Hpos eq_refl)]; lia.
Qed.

(** ** Canonical text: its bytes and its length *)

Lemma write_sep_Ok items bs :
  write_sep items = Ok bs →
  ∃ bss, items = Ok <$> bss ∧ (sum_list_with length bss ≤ length bs)%nat ∧
    ∀ b, b ∈ bs → b = x2c ∨ ∃ c, c ∈ bss ∧ b ∈ c.
Proof.
  revert bs; induction items as [|i items IH]; intros bs Hw; [injection Hw as <-; exists []; split; [done|]; split; [cbn; lia|intros b Hb; by apply not_elem_of_nil in Hb]|].
  destruct items as [|j items].
  - cbn in Hw. subst i. exists [bs]. split; [done|]. split; [cbn; lia|].
    intros b Hb. right. exists bs. by split; [left|].
  - cbn [write_sep] in Hw. apply bind_Ok in Hw as (b & -> & (r & Hr & [= <-])%bind_Ok).
    destruct (IH r Hr) as (bss & -> & Hlen & Hin). exists (b :: bss). split; [done|]. split.
    + cbn [sum_list_with]. rewrite length_app. cbn [length]. lia.
    + intros c [Hc|[->|Hc]%elem_of_cons]%elem_of_app; [right; exists b; by split; [left|]|by left|].
      destruct (Hin c Hc) as [->|(d & Hd & Hcd)]; [by left|]. right. exists d. by split; [right|].
Qed.

(** At least the characters of its texts. *)
Fixpoint text_size (v : value) : nat :=
  match v with
  | String s => length s
  | Object m => sum_list_with (λ e, length e.1 + text_size e.2)%nat m
  | _ => 0
  end.

Lemma write_member_Ok e b :
  write_entry_member e = Ok b → ∃ c, write_value e.2 = Ok c ∧ b = write_string e.1 ++ x3a :: c.
Proof. unfold write_entry_member, write_member. intros (c & Hc & [= <-])%bind_Ok. by exists c. Qed.

Lemma write_value_printable v bs : wf_value v = true → write_value v = Ok bs → Forall printable bs.
Proof.
  revert bs; induction v as [|[]|n|s|items IH|m IH] using value_ind; intros bs Hwf Hw.
  - injection Hw as <-. repeat constructor; by vm_compute.
  - injection Hw as <-. repeat constructor; by vm_compute.
  - injection Hw as <-. repeat constructor; by vm_compute.
  - cbn [write_value] in Hw. rewrite write_number_int in Hw. case_match; ok_inv; subst.
    eapply Forall_impl; [apply dec_bytes_chars|]. intros b Hb%dec_char_range. unfold printable. lia.
  - injection Hw as <-. by apply write_string_printable.
  - apply wf_array in Hwf. cbn [write_value] in Hw. ok_inv. subst bs.
    constructor; [by vm_compute|]. apply Forall_app. split; [|repeat constructor; by vm_compute].
    match goal with Hs : write_sep _ = _ |- _ => apply write_sep_Ok in Hs as (bss & Hbss & _ & Hin) end.
    apply Forall_forall. intros b [->|(c & Hc & Hb)]%Hin; [by vm_compute|].
    assert (Ok c ∈ write_value <$> items) as (v & Hv & Hiv)%list_elem_of_fmap by (rewrite Hbss; by apply list_elem_of_fmap_2).
    rewrite Forall_forall in IH, Hwf. specialize (IH v Hiv c (Hwf v Hiv) (eq_sym Hv)).
    rewrite Forall_forall in IH. by apply IH.
  - rewrite write_object in Hw by done. apply wf_object in Hwf as (_ & Hval & Hwf). ok_inv. subst bs.
    constructor; [by vm_compute|]. apply Forall_app. split; [|repeat constructor; by vm_compute].
    match goal with Hs : write_sep _ = _ |- _ => apply write_sep_Ok in Hs as (bss & Hbss & _ & Hin) end.
    apply Forall_forall. intros b [->|(c & Hc & Hb)]%Hin; [by vm_compute|].
    assert (Ok c ∈ write_entry_member <$> sort_entries m) as (e & He & Hie)%list_elem_of_fmap
      by (rewrite Hbss; by apply list_elem_of_fmap_2).
    rewrite sort_entries_perm in Hie. apply eq_sym, write_member_Ok in He as (d & Hd & ->).
    rewrite Forall_forall in IH, Hwf, Hval. specialize (IH e Hie d (Hwf e Hie) Hd).
    pose proof (write_string_printable e.1 (Hval e Hie)) as Hk. rewrite Forall_forall in IH, Hk.
    apply elem_of_app in Hb as [Hb|[->|Hb]%elem_of_cons]; [by apply Hk|by vm_compute|by apply IH].
Qed.

Lemma write_value_length v bs : wf_value v = true → write_value v = Ok bs → (text_size v ≤ length bs)%nat.
Proof.
  revert bs; induction v as [|[]|n|s|items IH|m IH] using value_ind; intros bs Hwf Hw; try (cbn [text_size]; lia).
  - injection Hw as <-. pose proof (write_string_length s). cbn [text_size]. lia.
  - rewrite write_object in Hw by done. apply wf_object in Hwf as (_ & _ & Hwf).
    apply bind_Ok in Hw as (body & Hb & [= <-]). apply write_sep_Ok in Hb as (bss & Hbss & Hlen & _).
    cbn [text_size length]. rewrite length_app, <-(sort_entries_perm m).
    enough (sum_list_with (λ e, length e.1 + text_size e.2)%nat (sort_entries m) ≤ sum_list_with length bss)%nat by lia.
    assert (Forall (λ e : rstring * value, ∀ bs, write_value e.2 = Ok bs → (text_size e.2 ≤ length bs)%nat) (sort_entries m)) as Hall.
    { rewrite sort_entries_perm. rewrite Forall_forall in IH, Hwf |- *. auto. }
    clear -Hbss Hall. revert bss Hbss. induction Hall as [|e l He _ IH]; intros [|b bss] Hbss; try done.
    cbn [fmap list_fmap] in Hbss. injection Hbss as Hb Hbss. apply write_member_Ok in Hb as (c & Hc & ->).
    specialize (He c Hc). specialize (IH bss Hbss). pose proof (write_string_length e.1).
    cbn [sum_list_with]. rewrite length_app. cbn [length]. lia.
Qed.

(** ** Properties *)

(** C24: Canonicalization is faithful: two values that both have a canonical
    form have the same canonical bytes exactly when they are the same value up
    to the order of object members and the spelling of integral numbers. *)
Theorem jcs_faithful v w b c :
  wf_value v = true → wf_value w = true →
  to_jcs_bytes v = Ok b → to_jcs_bytes w = Ok c →
  b = c ↔ canonical v = canonical w.
Proof.
  intros Hv Hw Hb Hc. split.
  - intros ->. by eapply jcs_inj.
  - intros Heq. apply (jcs_canonical v w Hv Hw) in Heq. congruence.
Qed.

Definition sample_ab : value :=
  Object [(str "b", Number (Int 2)); (str "a", Array [Bool true; Null])].
Definition sample_ba : value :=
  Object [(str "a", Array [Bool true; Null]); (str "b", Number (Float (S754_finite false 1 1)))].

Lemma jcs_faithful_witness : canonical sample_ab = canonical sample_ba.
Proof.
  apply (jcs_faithful sample_ab sample_ba
    (default [] (res_ok (to_jcs_bytes sample_ab))) (default [] (res_ok (to_jcs_bytes sample_ba))));
    vm_compute; reflexivity.
Defined.

(** C36: A value has a canonical form exactly when every number in it is an
    integer of absolute value at most 2^53 - 1 (an integral double counts);
    every other value is rejected as [UnsafeNumber]. *)
Theorem jcs_accepts_safe v :
  match to_jcs_bytes v with
  | Ok _ => safe_value v = true
  | Err e => e = UnsafeNumber ∧ safe_value v = false
  end.
Proof. exact (write_value_outcome v). Qed.


(** C37: [write_number] accepts exactly the numbers that denote an integer of
    absolute value at most 2^53 - 1, however they are spelled, and prints that
    integer in decimal. *)
Theorem write_number_spec n bs :
  wf_number n = true →
  write_number n = Ok bs ↔
  ∃ z, number_denotes n z ∧ Z.abs z ≤ MAX_SAFE_INTEGER ∧ bs = dec_bytes z.
Proof.
  intros Hwf. rewrite write_number_int.
  assert (∀ z, number_int n = Some z ↔ number_denotes n z ∧ Z.abs z ≤ MAX_SAFE_INTEGER) as Hspec.
  { intros z. destruct n as [y|f]; [by apply int_spec|apply float_spec]. }
  split.
  - destruct (number_int n) as [z|]; [|done]. intros [= <-].
    destruct (proj1 (Hspec z) eq_refl). eauto.
  - intros (z & Hden & Hs & ->). by rewrite (proj2 (Hspec z) (conj Hden Hs)).
Qed.

Lemma write_number_spec_witness :
  ∃ z, number_denotes (Float (S754_finite true 5 1)) z ∧ Z.abs z ≤ MAX_SAFE_INTEGER ∧
    byte_str "-10" = dec_bytes z.
Proof.
  apply (write_number_spec (Float (S754_finite true 5 1)) (byte_str "-10"));
    vm_compute; reflexivity.
Defined.
