(* ===== verification/Record.v ===== *)
(** * Record schema and record hashing (evidence/src/record.rs)

    The structs and enums of the schema, their serialization (the field names
    and [skip_serializing_if] attributes of the [Serialize] derives), the
    record hash, and the sentinels that start a stream or a segment.

    The [ulid] and [chrono] crates are parameters: [UlidApi] and [ChronoApi]. *)

From Stdlib Require Import Strings.Byte.
From S2P Require Import Prelude Text Errors Hash Json Jcs JcsFacts.

Class UlidApi := {
  ulid : Type;
  ulid_to_string : ulid → rstring;
  ulid_parse : rstring → option ulid;
}.

(** A printed ULID parses back. *)
Class UlidLaws `{UlidApi} : Prop :=
  ulid_parse_to_string : ∀ u, ulid_parse (ulid_to_string u) = Some u.

Class ChronoApi := {
  datetime : Type;
  parse_from_rfc3339 : rstring → option datetime;
  timestamp_millis : datetime → Z;
  datetime_geb : datetime → datetime → bool;
}.

(** [serde_json::to_value]: total on the structs below, whose keys are
    strings. *)
Class Serialize (A : Type) := to_value : A → value.

(** [jcs::struct_to_jcs_bytes]. *)
Definition struct_to_jcs_bytes {A} `{Serialize A} (x : A) : Result bytes :=
  to_jcs_bytes (to_value x).

Definition SCHEMA_VERSION : rstring := str "1".
Definition GENESIS_PREFIX : bytes := byte_str "SEALR-GENESIS".
Definition SEGMENT_BREAK_PREFIX : bytes := byte_str "SEALR-SEGMENT-BREAK".

(** ** Schema *)

Inductive RecordType :=
| Operation | Outcome | Approval | PolicyEvent | Lifecycle | CoverageGap
| GuardError | SpoolShed | ClockAnomaly | GenericExec.

Record RecorderInfo := {
  ri_recorder_id : rstring;
  ri_version : rstring;
  ri_host_fingerprint : rstring;
  ri_platform : rstring;
}.

Inductive Attribution := Attributed | Inferred | Unattributed.

Record Subject := {
  sub_agent_kind : rstring;
  sub_agent_session : rstring;
  sub_human_principal : option rstring;
  sub_attribution : Attribution;
  sub_source : rstring;
}.

Record Action := {
  act_integration : rstring;
  act_operation : rstring;
  act_verb_class : rstring;
  act_target_resource : rstring;
  act_resource_labels : list rstring;
}.

Record PayloadCommitment := { pc_alg : rstring; pc_commitment : rstring }.

Record PayloadRef := { pr_vault_url : rstring; pr_enc : rstring; pr_key_ref : rstring }.

Record GuardRef := { gr_name : rstring; gr_version : rstring }.

(** The enum [Decision]. *)
Inductive VDecision := Allow | Warn | RequireApproval | Block.
Inductive RiskClass := Low | Medium | High | Critical.
Inductive Mode := Observe | Enforce.

Record Verdict := {
  vd_decision : VDecision;
  vd_mode : Mode;
  vd_risk_class : RiskClass;
  vd_policy_version : Z;
  vd_rule_ids : list rstring;
  vd_reason_codes : list rstring;
  vd_guard : GuardRef;
  vd_eval_ms : Z;
}.

Record ApprovalRef := { ar_approval_record_id : rstring }.

Record Links := { ln_request_record_id : option rstring }.

(** The struct [Record]. *)
Record EvRecord := {
  rec_schema_version : rstring;
  rec_record_id : rstring;
  rec_stream_id : rstring;
  rec_segment_id : rstring;
  rec_seq : Z;
  rec_ts_wall : rstring;
  rec_ts_mono_ns : Z;
  rec_record_type : RecordType;
  rec_recorder : RecorderInfo;
  rec_subject : Subject;
  rec_action : Action;
  rec_action_detail : option value;
  rec_payload_commitment : option PayloadCommitment;
  rec_payload_ref : option PayloadRef;
  rec_verdict : option Verdict;
  rec_approval_ref : option ApprovalRef;
  rec_links : option Links;
  rec_prev_hash : rstring;
  rec_record_hash : rstring;
}.

Global Instance RecordType_eq_dec : EqDecision RecordType.
Proof. solve_decision. Defined.
Global Instance Attribution_eq_dec : EqDecision Attribution.
Proof. solve_decision. Defined.
Global Instance RecorderInfo_eq_dec : EqDecision RecorderInfo.
Proof. solve_decision. Defined.
Global Instance Subject_eq_dec : EqDecision Subject.
Proof. solve_decision. Defined.
Global Instance Action_eq_dec : EqDecision Action.
Proof. solve_decision. Defined.
Global Instance PayloadCommitment_eq_dec : EqDecision PayloadCommitment.
Proof. solve_decision. Defined.
Global Instance PayloadRef_eq_dec : EqDecision PayloadRef.
Proof. solve_decision. Defined.
Global Instance GuardRef_eq_dec : EqDecision GuardRef.
Proof. solve_decision. Defined.
Global Instance VDecision_eq_dec : EqDecision VDecision.
Proof. solve_decision. Defined.
Global Instance RiskClass_eq_dec : EqDecision RiskClass.
Proof. solve_decision. Defined.
Global Instance Mode_eq_dec : EqDecision Mode.
Proof. solve_decision. Defined.
Global Instance Verdict_eq_dec : EqDecision Verdict.
Proof. solve_decision. Defined.
Global Instance ApprovalRef_eq_dec : EqDecision ApprovalRef.
Proof. solve_decision. Defined.
Global Instance Links_eq_dec : EqDecision Links.
Proof. solve_decision. Defined.
Global Instance EvRecord_eq_dec : EqDecision EvRecord.
Proof. solve_decision. Defined.

(** ** Serialization *)

(** A field with [skip_serializing_if = "Option::is_none"]. *)
Definition opt_field (k : string) (o : option value) : jmap :=
  match o with Some v => [(str k, v)] | None => [] end.

(** A field with [skip_serializing_if = "Vec::is_empty"]. *)
Definition vec_field (k : string) (l : list value) : jmap :=
  match l with [] => [] | _ => [(str k, Array l)] end.

Definition u64_value (z : Z) : value := Number (Int z).

(** [rename_all = "snake_case"] and ["SCREAMING_SNAKE_CASE"]. *)
Definition record_type_str (t : RecordType) : rstring :=
  str match t with
      | Operation => "operation" | Outcome => "outcome" | Approval => "approval"
      | PolicyEvent => "policy_event" | Lifecycle => "lifecycle" | CoverageGap => "coverage_gap"
      | GuardError => "guard_error" | SpoolShed => "spool_shed"
      | ClockAnomaly => "clock_anomaly" | GenericExec => "generic_exec"
      end.
Definition attribution_str (a : Attribution) : rstring :=
  str match a with
      | Attributed => "attributed" | Inferred => "inferred" | Unattributed => "unattributed"
      end.
Definition decision_str (d : VDecision) : rstring :=
  str match d with
      | Allow => "ALLOW" | Warn => "WARN" | RequireApproval => "REQUIRE_APPROVAL"
      | Block => "BLOCK"
      end.
Definition risk_class_str (r : RiskClass) : rstring :=
  str match r with Low => "LOW" | Medium => "MEDIUM" | High => "HIGH" | Critical => "CRITICAL" end.
Definition mode_str (m : Mode) : rstring :=
  str match m with Observe => "observe" | Enforce => "enforce" end.

Global Instance RecorderInfo_serialize : Serialize RecorderInfo := λ x,
  Object [(str "recorder_id", String (ri_recorder_id x));
          (str "version", String (ri_version x));
          (str "host_fingerprint", String (ri_host_fingerprint x));
          (str "platform", String (ri_platform x))].

Global Instance Subject_serialize : Serialize Subject := λ x,
  Object ([(str "agent_kind", String (sub_agent_kind x));
           (str "agent_session", String (sub_agent_session x))] ++
          opt_field "human_principal" (String <$> sub_human_principal x) ++
          [(str "attribution", String (attribution_str (sub_attribution x)));
           (str "source", String (sub_source x))]).

Global Instance Action_serialize : Serialize Action := λ x,
  Object ([(str "integration", String (act_integration x));
           (str "operation", String (act_operation x));
           (str "verb_class", String (act_verb_class x));
           (str "target_resource", String (act_target_resource x))] ++
          vec_field "resource_labels" (String <$> act_resource_labels x)).

Global Instance PayloadCommitment_serialize : Serialize PayloadCommitment := λ x,
  Object [(str "alg", String (pc_alg x)); (str "commitment", String (pc_commitment x))].

Global Instance PayloadRef_serialize : Serialize PayloadRef := λ x,
  Object [(str "vault_url", String (pr_vault_url x)); (str "enc", String (pr_enc x));
          (str "key_ref", String (pr_key_ref x))].

Global Instance GuardRef_serialize : Serialize GuardRef := λ x,
  Object [(str "name", String (gr_name x)); (str "version", String (gr_version x))].

Global Instance Verdict_serialize : Serialize Verdict := λ x,
  Object ([(str "decision", String (decision_str (vd_decision x)));
           (str "mode", String (mode_str (vd_mode x)));
           (str "risk_class", String (risk_class_str (vd_risk_class x)));
           (str "policy_version", u64_value (vd_policy_version x))] ++
          vec_field "rule_ids" (String <$> vd_rule_ids x) ++
          vec_field "reason_codes" (String <$> vd_reason_codes x) ++
          [(str "guard", to_value (vd_guard x)); (str "eval_ms", u64_value (vd_eval_ms x))]).

Global Instance ApprovalRef_serialize : Serialize ApprovalRef := λ x,
  Object [(str "approval_record_id", String (ar_approval_record_id x))].

Global Instance Links_serialize : Serialize Links := λ x,
  Object (opt_field "request_record_id" (String <$> ln_request_record_id x)).

Definition record_fields (r : EvRecord) : jmap :=
  [(str "schema_version", String (rec_schema_version r));
   (str "record_id", String (rec_record_id r));
   (str "stream_id", String (rec_stream_id r));
   (str "segment_id", String (rec_segment_id r));
   (str "seq", u64_value (rec_seq r));
   (str "ts_wall", String (rec_ts_wall r));
   (str "ts_mono_ns", u64_value (rec_ts_mono_ns r));
   (str "record_type", String (record_type_str (rec_record_type r)));
   (str "recorder", to_value (rec_recorder r));
   (str "subject", to_value (rec_subject r));
   (str "action", to_value (rec_action r))] ++
  opt_field "action_detail" (rec_action_detail r) ++
  opt_field "payload_commitment" (to_value <$> rec_payload_commitment r) ++
  opt_field "payload_ref" (to_value <$> rec_payload_ref r) ++
  opt_field "verdict" (to_value <$> rec_verdict r) ++
  opt_field "approval_ref" (to_value <$> rec_approval_ref r) ++
  opt_field "links" (to_value <$> rec_links r) ++
  [(str "prev_hash", String (rec_prev_hash r));
   (str "record_hash", String (rec_record_hash r))].

Global Instance EvRecord_serialize : Serialize EvRecord := λ r, Object (record_fields r).

(** ** Record hashing *)

Section hashing.
Context `{Blake3}.

Definition genesis_prev_hash `{UlidApi} (stream_id : ulid) : rstring :=
  blake3_hex (GENESIS_PREFIX ++ as_bytes (ulid_to_string stream_id)).

Definition segment_break_prev_hash `{UlidApi} (stream_id segment_id : ulid) : rstring :=
  blake3_hex (SEGMENT_BREAK_PREFIX ++ as_bytes (ulid_to_string stream_id) ++
              as_bytes (ulid_to_string segment_id)).

(** The value is passed mutably and loses its [record_hash]; every caller
    passes a copy that it drops. *)
Definition compute_hash_of_value (v : value) : Result rstring :=
  obj ← ok_or (as_object v) (Schema "record must be a JSON object");
  bs ← to_jcs_bytes (Object (map_remove (str "record_hash") obj));
  mret (blake3_hex bs).

Definition compute_hash (r : EvRecord) : Result rstring := compute_hash_of_value (to_value r).

Definition set_record_hash (h : rstring) (r : EvRecord) : EvRecord :=
  {| rec_schema_version := rec_schema_version r; rec_record_id := rec_record_id r;
     rec_stream_id := rec_stream_id r; rec_segment_id := rec_segment_id r;
     rec_seq := rec_seq r; rec_ts_wall := rec_ts_wall r; rec_ts_mono_ns := rec_ts_mono_ns r;
     rec_record_type := rec_record_type r; rec_recorder := rec_recorder r;
     rec_subject := rec_subject r; rec_action := rec_action r;
     rec_action_detail := rec_action_detail r;
     rec_payload_commitment := rec_payload_commitment r; rec_payload_ref := rec_payload_ref r;
     rec_verdict := rec_verdict r; rec_approval_ref := rec_approval_ref r;
     rec_links := rec_links r; rec_prev_hash := rec_prev_hash r; rec_record_hash := h |}.

(** [finalize(&mut self)]: the updated record and the hash it returns. *)
Definition finalize (r : EvRecord) : Result (EvRecord * rstring) :=
  h ← compute_hash r;
  mret (set_record_hash h r, h).
End hashing.

(** [to_ndjson_line]: the canonical bytes and a newline. *)
Definition to_ndjson_line (r : EvRecord) : Result bytes :=
  bs ← to_jcs_bytes (to_value r);
  mret (bs ++ [x0a]).

(** [parse_wall]. *)
Definition parse_wall `{ChronoApi} (s : rstring) : Result datetime :=
  ok_or (parse_from_rfc3339 s) (Schema "invalid ts_wall").

(** ** Facts: reading members of canonical objects *)

Lemma map_get_fmap {A B} (f : A → B) k (m : list (rstring * A)) :
  map_get k ((λ e, (e.1, f e.2)) <$> m) = f <$> map_get k m.
Proof. induction m as [|[j v] m IH]; cbn; [done|]. by case_decide. Qed.

Lemma canonical_get k m :
  NoDup m.*1 → value_get k (canonical (Object m)) = canonical <$> map_get k m.
Proof.
  intros Hnd. cbn. rewrite <-map_get_fmap. symmetry. apply map_get_perm.
  - by rewrite keys_map_snd.
  - by rewrite sort_entries_perm.
Qed.

Lemma canonical_u64 z : is_u64 z = true → canonical (u64_value z) = u64_value z.
Proof.
  rewrite is_u64_spec. intros Hz. cbn. do 2 f_equal.
  destruct (number_int (Int z)) as [y|] eqn:Hy; [|done].
  apply int_spec in Hy as [-> _]; [done|]. cbn. unfold i64_min. lia.
Qed.

Lemma canonical_strings l : canonical (Array (String <$> l)) = Array (String <$> l).
Proof. cbn. f_equal. rewrite <-list_fmap_compose. by apply list_fmap_ext. Qed.

Lemma map_get_here {A} k (v : A) m : map_get k ((k, v) :: m) = Some v.
Proof. cbn. by rewrite decide_True. Qed.

Lemma map_get_there {A} k j (v : A) m :
  bool_decide (k = j) = false → map_get k ((j, v) :: m) = map_get k m.
Proof. intros Hne%bool_decide_eq_false. cbn. by rewrite decide_False. Qed.

(** Looks up a literal key in a list of fields with literal keys. *)
Ltac get_field :=
  repeat first [rewrite map_get_here | rewrite map_get_there by (vm_compute; reflexivity)].

Ltac nodup_keys := refine (bool_decide_eq_true_1 (NoDup _) _); vm_compute; reflexivity.

(** ** Structs are recovered from their canonical values

    [of_value] reads a struct back (the [Deserialize] derive); the law makes
    serialization followed by canonicalization injective on well-formed
    structs, which every Rust value of the struct type is. *)
Class Recover (A : Type) `{Serialize A} := {
  wf_struct : A → bool;
  of_value : value → option A;
  of_canonical : ∀ x, wf_struct x = true → of_value (canonical (to_value x)) = Some x;
}.

Lemma canonical_struct_inj {A} `{Recover A} (x y : A) :
  wf_struct x = true → wf_struct y = true →
  canonical (to_value x) = canonical (to_value y) → x = y.
Proof.
  intros Hx Hy Heq. apply (inj Some).
  by rewrite <-(of_canonical x Hx), <-(of_canonical y Hy), Heq.
Qed.

Definition get_str (k : string) (v : value) : option rstring := value_get (str k) v ≫= as_str.
Definition get_u64 (k : string) (v : value) : option Z := value_get (str k) v ≫= as_u64.

(** An optional member: absent is [None], present must be readable. *)
Definition get_opt {A} (f : value → option A) (k : string) (v : value) : option (option A) :=
  match value_get (str k) v with
  | None => Some None
  | Some w => Some <$> f w
  end.

Definition as_strs (v : value) : option (list rstring) :=
  match v with Array l => mapM as_str l | _ => None end.

(** A [Vec] member with [default]. *)
Definition get_strs (k : string) (v : value) : option (list rstring) :=
  match value_get (str k) v with None => Some [] | Some w => as_strs w end.

Lemma as_strs_fmap l : as_strs (Array (String <$> l)) = Some l.
Proof. cbn. induction l as [|s l IH]; cbn; [done|]. by rewrite IH. Qed.

Definition record_type_of (s : rstring) : option RecordType :=
  find (λ t, bool_decide (record_type_str t = s))
    [Operation; Outcome; Approval; PolicyEvent; Lifecycle; CoverageGap; GuardError; SpoolShed;
     ClockAnomaly; GenericExec].
Definition attribution_of (s : rstring) : option Attribution :=
  find (λ t, bool_decide (attribution_str t = s)) [Attributed; Inferred; Unattributed].
Definition decision_of (s : rstring) : option VDecision :=
  find (λ t, bool_decide (decision_str t = s)) [Allow; Warn; RequireApproval; Block].
Definition risk_class_of (s : rstring) : option RiskClass :=
  find (λ t, bool_decide (risk_class_str t = s)) [Low; Medium; High; Critical].
Definition mode_of (s : rstring) : option Mode :=
  find (λ t, bool_decide (mode_str t = s)) [Observe; Enforce].

Lemma as_u64_canonical z : is_u64 z = true → as_u64 (canonical (u64_value z)) = Some z.
Proof. intros Hz. rewrite canonical_u64 by done. cbn. by rewrite Hz. Qed.

(** Reads the members of one struct; the optional members are destructed
    before. *)
Ltac recover x :=
  unfold get_str, get_u64, get_opt, get_strs, vec_field, opt_field, to_value,
    RecorderInfo_serialize, Subject_serialize, Action_serialize, PayloadCommitment_serialize,
    PayloadRef_serialize, GuardRef_serialize, Verdict_serialize, ApprovalRef_serialize,
    Links_serialize;
  cbn [fmap option_fmap option_map list_fmap app];
  rewrite !canonical_get by nodup_keys; get_field;
  cbn [fmap option_fmap option_map mbind option_bind canonical as_str];
  rewrite ?as_u64_canonical by done;
  destruct x; cbn in *; try congruence; try reflexivity.

Global Program Instance RecorderInfo_recover : Recover RecorderInfo := {|
  wf_struct _ := true;
  of_value v :=
    a ← get_str "recorder_id" v; b ← get_str "version" v;
    c ← get_str "host_fingerprint" v; d ← get_str "platform" v;
    Some {| ri_recorder_id := a; ri_version := b; ri_host_fingerprint := c; ri_platform := d |}
|}.
Next Obligation.
  intros x _. recover x.
Qed.

Global Program Instance Subject_recover : Recover Subject := {|
  wf_struct _ := true;
  of_value v :=
    a ← get_str "agent_kind" v; b ← get_str "agent_session" v;
    c ← get_opt as_str "human_principal" v;
    d ← get_str "attribution" v ≫= attribution_of; e ← get_str "source" v;
    Some {| sub_agent_kind := a; sub_agent_session := b; sub_human_principal := c;
            sub_attribution := d; sub_source := e |}
|}.
Next Obligation.
  intros x _. assert (attribution_of (attribution_str (sub_attribution x)) = Some (sub_attribution x))
    as Ha by (by destruct (sub_attribution x)).
  destruct (sub_human_principal x) eqn:Hp; unfold to_value, Subject_serialize; rewrite Hp;
    recover x; rewrite Ha; cbn; congruence.
Qed.

Global Program Instance PayloadCommitment_recover : Recover PayloadCommitment := {|
  wf_struct _ := true;
  of_value v :=
    a ← get_str "alg" v; b ← get_str "commitment" v; Some {| pc_alg := a; pc_commitment := b |}
|}.
Next Obligation. intros x _. recover x. Qed.

Global Program Instance PayloadRef_recover : Recover PayloadRef := {|
  wf_struct _ := true;
  of_value v :=
    a ← get_str "vault_url" v; b ← get_str "enc" v; c ← get_str "key_ref" v;
    Some {| pr_vault_url := a; pr_enc := b; pr_key_ref := c |}
|}.
Next Obligation. intros x _. recover x. Qed.

Global Program Instance GuardRef_recover : Recover GuardRef := {|
  wf_struct _ := true;
  of_value v :=
    a ← get_str "name" v; b ← get_str "version" v; Some {| gr_name := a; gr_version := b |}
|}.
Next Obligation. intros x _. recover x. Qed.

Global Program Instance ApprovalRef_recover : Recover ApprovalRef := {|
  wf_struct _ := true;
  of_value v := a ← get_str "approval_record_id" v; Some {| ar_approval_record_id := a |}
|}.
Next Obligation. intros x _. recover x. Qed.

Global Program Instance Links_recover : Recover Links := {|
  wf_struct _ := true;
  of_value v := a ← get_opt as_str "request_record_id" v; Some {| ln_request_record_id := a |}
|}.
Next Obligation.
  intros x _. destruct (ln_request_record_id x) eqn:Hp; unfold to_value, Links_serialize;
    rewrite Hp; recover x.
Qed.

Lemma vec_field_cases k (l : list rstring) :
  (vec_field k (String <$> l) = [] ∧ l = []) ∨
  vec_field k (String <$> l) = [(str k, Array (String <$> l))].
Proof. destruct l; [by left|by right]. Qed.

Lemma as_strs_canonical l : as_strs (canonical (Array (String <$> l))) = Some l.
Proof. rewrite canonical_strings. apply as_strs_fmap. Qed.

Global Program Instance Action_recover : Recover Action := {|
  wf_struct _ := true;
  of_value v :=
    a ← get_str "integration" v; b ← get_str "operation" v; c ← get_str "verb_class" v;
    d ← get_str "target_resource" v; e ← get_strs "resource_labels" v;
    Some {| act_integration := a; act_operation := b; act_verb_class := c;
            act_target_resource := d; act_resource_labels := e |}
|}.
Next Obligation.
  intros x _. unfold to_value, Action_serialize.
  destruct (vec_field_cases "resource_labels" (act_resource_labels x)) as [[-> Hl]| ->].
  - recover x.
  - unfold get_str, get_strs. cbn [app]. rewrite !canonical_get by nodup_keys. get_field.
    cbn [fmap option_fmap option_map mbind option_bind]. rewrite as_strs_canonical. by destruct x.
Qed.

Definition verdict_of_value (v : value) : option Verdict :=
  a ← get_str "decision" v ≫= decision_of; b ← get_str "mode" v ≫= mode_of;
  c ← get_str "risk_class" v ≫= risk_class_of; d ← get_u64 "policy_version" v;
  e ← get_strs "rule_ids" v; f ← get_strs "reason_codes" v;
  g ← value_get (str "guard") v ≫= of_value; h ← get_u64 "eval_ms" v;
  Some {| vd_decision := a; vd_mode := b; vd_risk_class := c; vd_policy_version := d;
          vd_rule_ids := e; vd_reason_codes := f; vd_guard := g; vd_eval_ms := h |}.

Global Program Instance Verdict_recover : Recover Verdict := {|
  wf_struct x := is_u64 (vd_policy_version x) && is_u64 (vd_eval_ms x);
  of_value := verdict_of_value
|}.
Next Obligation.
  intros x [Hpv Hms]%andb_true_iff.
  assert (decision_of (decision_str (vd_decision x)) = Some (vd_decision x)) as Hd
    by (by destruct (vd_decision x)).
  assert (mode_of (mode_str (vd_mode x)) = Some (vd_mode x)) as Hm by (by destruct (vd_mode x)).
  assert (risk_class_of (risk_class_str (vd_risk_class x)) = Some (vd_risk_class x)) as Hr
    by (by destruct (vd_risk_class x)).
  pose proof (of_canonical (vd_guard x) eq_refl) as Hg.
  unfold to_value at 1, Verdict_serialize, verdict_of_value.
  destruct (vec_field_cases "rule_ids" (vd_rule_ids x)) as [[-> Hl1]| ->];
  destruct (vec_field_cases "reason_codes" (vd_reason_codes x)) as [[-> Hl2]| ->];
    unfold get_str, get_u64, get_strs; cbn [app]; rewrite !canonical_get by nodup_keys; get_field;
    cbn [fmap option_fmap option_map mbind option_bind];
    rewrite ?as_strs_canonical, ?as_u64_canonical, Hg by done;
    cbn [canonical as_str mbind option_bind];
    rewrite Hd, Hm, Hr; cbn [mbind option_bind]; destruct x; cbn in *; congruence.
Qed.

(** The part of a record that its hash covers: everything but [record_hash],
    with the free-form [action_detail] up to its canonical form. *)
Definition record_core (r : EvRecord) : EvRecord :=
  {| rec_schema_version := rec_schema_version r; rec_record_id := rec_record_id r;
     rec_stream_id := rec_stream_id r; rec_segment_id := rec_segment_id r;
     rec_seq := rec_seq r; rec_ts_wall := rec_ts_wall r; rec_ts_mono_ns := rec_ts_mono_ns r;
     rec_record_type := rec_record_type r; rec_recorder := rec_recorder r;
     rec_subject := rec_subject r; rec_action := rec_action r;
     rec_action_detail := canonical <$> rec_action_detail r;
     rec_payload_commitment := rec_payload_commitment r; rec_payload_ref := rec_payload_ref r;
     rec_verdict := rec_verdict r; rec_approval_ref := rec_approval_ref r;
     rec_links := rec_links r; rec_prev_hash := rec_prev_hash r; rec_record_hash := [] |}.

(** What every [Record] of the Rust program satisfies: [u64] fields are in
    range and strings are strings. *)
Definition wf_record (r : EvRecord) : bool :=
  is_u64 (rec_seq r) && is_u64 (rec_ts_mono_ns r) &&
  match rec_verdict r with Some vd => wf_struct vd | None => true end &&
  wf_value (to_value r).

Lemma get_opt_here k o m :
  map_get (str k) (opt_field k o ++ m) = match o with Some v => Some v | None => map_get (str k) m end.
Proof. destruct o; cbn [opt_field app]; [apply map_get_here|done]. Qed.

Lemma get_opt_there k j o m :
  bool_decide (k = str j) = false → map_get k (opt_field j o ++ m) = map_get k m.
Proof. intros Hne. destruct o; cbn [opt_field app]; [by apply map_get_there|done]. Qed.

(** [get_field] for lists with optional members. *)
Ltac get_field_opt :=
  cbn [app];
  repeat first [rewrite map_get_here | rewrite get_opt_here
               | rewrite map_get_there by (vm_compute; reflexivity)
               | rewrite get_opt_there by (vm_compute; reflexivity)].

Lemma record_fields_NoDup r : NoDup (record_fields r).*1.
Proof.
  unfold record_fields, opt_field.
  destruct (rec_action_detail r), (rec_payload_commitment r), (rec_payload_ref r),
    (rec_verdict r), (rec_approval_ref r), (rec_links r);
    cbn [fmap option_fmap option_map app list_fmap fst]; nodup_keys.
Qed.

Definition record_of_value (v : value) : option EvRecord :=
  a ← get_str "schema_version" v; b ← get_str "record_id" v; c ← get_str "stream_id" v;
  d ← get_str "segment_id" v; e ← get_u64 "seq" v; f ← get_str "ts_wall" v;
  g ← get_u64 "ts_mono_ns" v; h ← get_str "record_type" v ≫= record_type_of;
  i ← value_get (str "recorder") v ≫= of_value; j ← value_get (str "subject") v ≫= of_value;
  k ← value_get (str "action") v ≫= of_value;
  m ← get_opt of_value "payload_commitment" v; n ← get_opt of_value "payload_ref" v;
  o ← get_opt of_value "verdict" v; p ← get_opt of_value "approval_ref" v;
  q ← get_opt of_value "links" v; s ← get_str "prev_hash" v;
  Some {| rec_schema_version := a; rec_record_id := b; rec_stream_id := c; rec_segment_id := d;
          rec_seq := e; rec_ts_wall := f; rec_ts_mono_ns := g; rec_record_type := h;
          rec_recorder := i; rec_subject := j; rec_action := k;
          rec_action_detail := value_get (str "action_detail") v;
          rec_payload_commitment := m; rec_payload_ref := n; rec_verdict := o;
          rec_approval_ref := p; rec_links := q; rec_prev_hash := s; rec_record_hash := [] |}.

(** The value that [compute_hash] canonicalizes. *)
Definition hashed_value (v : value) : value :=
  match v with Object m => Object (map_remove (str "record_hash") m) | _ => v end.

Lemma hashed_get k m :
  NoDup m.*1 → bool_decide (k = str "record_hash") = false →
  value_get k (canonical (hashed_value (Object m))) = canonical <$> map_get k m.
Proof.
  intros Hnd Hne%bool_decide_eq_false. cbn [hashed_value].
  rewrite canonical_get by (by apply map_remove_NoDup).
  by rewrite map_get_remove, decide_False by done.
Qed.

Lemma get_opt_recover {A} `{Recover A} (o : option A) :
  match o with Some x => wf_struct x = true | None => True end →
  match canonical <$> (to_value <$> o) with None => Some None | Some w => Some <$> of_value w end
  = Some o.
Proof. destruct o as [x|]; cbn; [|done]. intros Hx. by rewrite of_canonical. Qed.

Lemma match_eta {A} (o : option A) : match o with Some v => Some v | None => None end = o.
Proof. by destruct o. Qed.

(** The members of a serialized record. *)
Lemma record_get_schema_version r : map_get (str "schema_version") (record_fields r) = Some (String (rec_schema_version r)).
Proof. unfold record_fields. get_field_opt. done. Qed.
Lemma record_get_record_id r : map_get (str "record_id") (record_fields r) = Some (String (rec_record_id r)).
Proof. unfold record_fields. get_field_opt. done. Qed.
Lemma record_get_stream_id r : map_get (str "stream_id") (record_fields r) = Some (String (rec_stream_id r)).
Proof. unfold record_fields. get_field_opt. done. Qed.
Lemma record_get_segment_id r : map_get (str "segment_id") (record_fields r) = Some (String (rec_segment_id r)).
Proof. unfold record_fields. get_field_opt. done. Qed.
Lemma record_get_ts_wall r : map_get (str "ts_wall") (record_fields r) = Some (String (rec_ts_wall r)).
Proof. unfold record_fields. get_field_opt. done. Qed.
Lemma record_get_prev_hash r : map_get (str "prev_hash") (record_fields r) = Some (String (rec_prev_hash r)).
Proof. unfold record_fields. get_field_opt. done. Qed.
Lemma record_get_record_hash r : map_get (str "record_hash") (record_fields r) = Some (String (rec_record_hash r)).
Proof. unfold record_fields. get_field_opt. done. Qed.
Lemma record_get_seq r : map_get (str "seq") (record_fields r) = Some (u64_value (rec_seq r)).
Proof. unfold record_fields. get_field_opt. done. Qed.
Lemma record_get_ts_mono_ns r : map_get (str "ts_mono_ns") (record_fields r) = Some (u64_value (rec_ts_mono_ns r)).
Proof. unfold record_fields. get_field_opt. done. Qed.
Lemma record_get_record_type r : map_get (str "record_type") (record_fields r) = Some (String (record_type_str (rec_record_type r))).
Proof. unfold record_fields. get_field_opt. done. Qed.
Lemma record_get_recorder r : map_get (str "recorder") (record_fields r) = Some (to_value (rec_recorder r)).
Proof. unfold record_fields. get_field_opt. done. Qed.
Lemma record_get_subject r : map_get (str "subject") (record_fields r) = Some (to_value (rec_subject r)).
Proof. unfold record_fields. get_field_opt. done. Qed.
Lemma record_get_action r : map_get (str "action") (record_fields r) = Some (to_value (rec_action r)).
Proof. unfold record_fields. get_field_opt. done. Qed.
Lemma record_get_action_detail r : map_get (str "action_detail") (record_fields r) = rec_action_detail r.
Proof. unfold record_fields. get_field_opt. apply match_eta. Qed.
Lemma record_get_payload_commitment r : map_get (str "payload_commitment") (record_fields r) = to_value <$> rec_payload_commitment r.
Proof. unfold record_fields. get_field_opt. apply match_eta. Qed.
Lemma record_get_payload_ref r : map_get (str "payload_ref") (record_fields r) = to_value <$> rec_payload_ref r.
Proof. unfold record_fields. get_field_opt. apply match_eta. Qed.
Lemma record_get_verdict r : map_get (str "verdict") (record_fields r) = to_value <$> rec_verdict r.
Proof. unfold record_fields. get_field_opt. apply match_eta. Qed.
Lemma record_get_approval_ref r : map_get (str "approval_ref") (record_fields r) = to_value <$> rec_approval_ref r.
Proof. unfold record_fields. get_field_opt. apply match_eta. Qed.
Lemma record_get_links r : map_get (str "links") (record_fields r) = to_value <$> rec_links r.
Proof. unfold record_fields. get_field_opt. apply match_eta. Qed.

Lemma record_of_hashed r :
  wf_record r = true →
  record_of_value (canonical (hashed_value (to_value r))) = Some (record_core r).
Proof.
  unfold wf_record. rewrite !andb_true_iff. intros [[[Hseq Hmono] Hvd] _].
  assert (record_type_of (record_type_str (rec_record_type r)) = Some (rec_record_type r)) as Ht
    by (by destruct (rec_record_type r)).
  pose proof (of_canonical (rec_recorder r) eq_refl) as Hri.
  pose proof (of_canonical (rec_subject r) eq_refl) as Hsub.
  pose proof (of_canonical (rec_action r) eq_refl) as Hact.
  pose proof (get_opt_recover (rec_payload_commitment r) ltac:(by destruct (rec_payload_commitment r))) as Hpc.
  pose proof (get_opt_recover (rec_payload_ref r) ltac:(by destruct (rec_payload_ref r))) as Hpr.
  pose proof (get_opt_recover (rec_verdict r) ltac:(by destruct (rec_verdict r))) as Hv.
  pose proof (get_opt_recover (rec_approval_ref r) ltac:(by destruct (rec_approval_ref r))) as Har.
  pose proof (get_opt_recover (rec_links r) ltac:(by destruct (rec_links r))) as Hln.
  pose proof (record_fields_NoDup r) as Hnd.
  unfold record_of_value, get_str, get_u64, get_opt. unfold to_value at 1, EvRecord_serialize.
  change (to_value r) with (Object (record_fields r)).
  rewrite !hashed_get by (done || (vm_compute; reflexivity)).
  rewrite record_get_schema_version, record_get_record_id, record_get_stream_id, record_get_segment_id, record_get_ts_wall, record_get_prev_hash, record_get_seq, record_get_ts_mono_ns, record_get_record_type, record_get_recorder, record_get_subject, record_get_action, record_get_action_detail, record_get_payload_commitment, record_get_payload_ref, record_get_verdict, record_get_approval_ref, record_get_links.
  rewrite Hpc, Hpr, Hv, Har, Hln.
  cbn [fmap option_fmap option_map mbind option_bind].
  rewrite !as_u64_canonical, Hri, Hsub, Hact by done.
  cbn [canonical as_str mbind option_bind]. rewrite Ht. cbn [mbind option_bind]. done.
Qed.

(** ** Facts: record hashing *)

Lemma map_remove_snoc {A} k (v : A) m : k ∉ m.*1 → map_remove k (m ++ [(k, v)]) = m.
Proof.
  induction m as [|[j w] m IH]; cbn.
  - intros _. by rewrite decide_True.
  - rewrite not_elem_of_cons. intros [Hne Hm]. rewrite decide_False by done. f_equal. auto.
Qed.

(** The members other than the last one, [record_hash]. *)
Lemma hashed_record r :
  ∃ pre, hashed_value (to_value r) = Object pre ∧
    ∀ h, hashed_value (to_value (set_record_hash h r)) = Object pre.
Proof.
  assert (∃ pre, ∀ h, record_fields (set_record_hash h r) = pre ++ [(str "record_hash", String h)])
    as [pre Hpre].
  { eexists. intros h. unfold record_fields.
    cbn [set_record_hash rec_schema_version rec_record_id rec_stream_id rec_segment_id rec_seq
      rec_ts_wall rec_ts_mono_ns rec_record_type rec_recorder rec_subject rec_action
      rec_action_detail rec_payload_commitment rec_payload_ref rec_verdict rec_approval_ref
      rec_links rec_prev_hash rec_record_hash].
    change [(str "prev_hash", String (rec_prev_hash r)); (str "record_hash", String h)] with
      ([(str "prev_hash", String (rec_prev_hash r))] ++ [(str "record_hash", String h)]).
    by rewrite !app_assoc. }
  assert (str "record_hash" ∉ pre.*1) as Hnin.
  { pose proof (record_fields_NoDup (set_record_hash [] r)) as Hnd. rewrite Hpre, fmap_app in Hnd.
    apply NoDup_app in Hnd as (_ & Hdis & _). intros Hin. eapply Hdis; [exact Hin|].
    apply list_elem_of_here. }
  assert (∀ h, hashed_value (to_value (set_record_hash h r)) = Object pre) as Hall.
  { intros h. unfold to_value, EvRecord_serialize, hashed_value. rewrite Hpre.
    by rewrite map_remove_snoc. }
  exists pre. split; [|done]. rewrite <-(Hall (rec_record_hash r)). by destruct r.
Qed.

Lemma wf_hashed v : wf_value v = true → wf_value (hashed_value v) = true.
Proof.
  destruct v as [| | | | |m]; try done. cbn [hashed_value]. rewrite !wf_object.
  intros (Hnd & Hk & Hv). destruct (map_get (str "record_hash") m) as [w|] eqn:Hg.
  - split; [by apply map_remove_NoDup|].
    rewrite (map_remove_perm _ _ _ Hg) in Hk, Hv. apply Forall_cons in Hk as [_ ?], Hv as [_ ?]. done.
  - by rewrite map_remove_None.
Qed.

Lemma hashed_set_hash h r : hashed_value (to_value (set_record_hash h r)) = hashed_value (to_value r).
Proof. destruct (hashed_record r) as (pre & -> & Hall). apply Hall. Qed.

Section hash_facts.
Context `{Blake3}.

(** An object with a canonical form has only safe sequences. *)
Lemma u64_member_safe m k z bs :
  to_jcs_bytes (Object m) = Ok bs → (k, u64_value z) ∈ m → is_u64 z = true → z ≤ MAX_SAFE_INTEGER.
Proof.
  unfold to_jcs_bytes. rewrite is_u64_spec. intros Hb Hin Hz.
  pose proof (write_value_outcome (Object m)) as Ho. rewrite Hb in Ho.
  change (forallb (λ e, safe_value e.2) m = true) in Ho. apply forallb_Forall in Ho.
  rewrite Forall_forall in Ho. specialize (Ho _ Hin). cbn in Ho. apply bool_decide_eq_true in Ho as [y Hy].
  apply int_spec in Hy as [<- Hy]; [lia|]. cbn. unfold i64_min. lia.
Qed.

Lemma compute_hash_of_value_Ok v h :
  compute_hash_of_value v = Ok h ↔
  ∃ bs, to_jcs_bytes (hashed_value v) = Ok bs ∧ h = blake3_hex bs ∧ is_Some (as_object v).
Proof.
  unfold compute_hash_of_value. split.
  - intros Hh. ok_inv. destruct v; try done. cbn in *. simplify_eq. eauto.
  - intros (bs & Hbs & -> & [m Hm]). destruct v; try done. cbn in *. by rewrite Hbs.
Qed.

(** The bytes that are hashed for a record value. *)
Definition hash_input (v : value) : bytes :=
  default [] (res_ok (to_jcs_bytes (hashed_value v))).

Lemma compute_hash_input v h :
  compute_hash_of_value v = Ok h →
  to_jcs_bytes (hashed_value v) = Ok (hash_input v) ∧ h = blake3_hex (hash_input v).
Proof.
  intros (bs & Hbs & -> & _)%compute_hash_of_value_Ok. unfold hash_input. by rewrite Hbs.
Qed.

Lemma value_hash_binds v w h :
  wf_value v = true → wf_value w = true →
  collision_free_on blake3_hash [hash_input v; hash_input w] →
  compute_hash_of_value v = Ok h → compute_hash_of_value w = Ok h →
  canonical (hashed_value v) = canonical (hashed_value w).
Proof.
  intros Hv Hw Hcf [Hbv ->]%compute_hash_input [Hbw Heq]%compute_hash_input.
  assert (hash_input v = hash_input w) as Hin.
  { apply Hcf; [set_solver..|]. by apply blake3_hex_inj. }
  rewrite Hin in Hbv. eapply jcs_inj; eauto using wf_hashed.
Qed.

Lemma compute_hash_inj r1 r2 h :
  wf_record r1 = true → wf_record r2 = true →
  collision_free_on blake3_hash [hash_input (to_value r1); hash_input (to_value r2)] →
  compute_hash r1 = Ok h → compute_hash r2 = Ok h → record_core r1 = record_core r2.
Proof.
  intros H1 H2 Hcf Hh1 Hh2. apply (inj Some).
  rewrite <-(record_of_hashed r1 H1), <-(record_of_hashed r2 H2). f_equal.
  unfold wf_record in H1, H2. rewrite !andb_true_iff in H1, H2.
  eapply value_hash_binds; [apply H1|apply H2|done..].
Qed.

Lemma compute_hash_hashed r :
  compute_hash r = (bs ← to_jcs_bytes (hashed_value (to_value r)); mret (blake3_hex bs)).
Proof. done. Qed.

Lemma compute_hash_set_hash h r : compute_hash (set_record_hash h r) = compute_hash r.
Proof.
  destruct (hashed_record r) as (pre & Hr & Hall).
  by rewrite !compute_hash_hashed, Hall, Hr.
Qed.

(** The members up to the canonical form of their values. *)
Lemma core_fields r1 r2 :
  record_core r1 = record_core r2 →
  canon_entry <$> record_fields (set_record_hash [] r1) =
  canon_entry <$> record_fields (set_record_hash [] r2).
Proof.
  assert (∀ k o, canon_entry <$> opt_field k o = opt_field k (canonical <$> o)) as Ho by (by intros ? []).
  intros Heq. unfold record_fields. rewrite !fmap_app, !Ho. cbn [set_record_hash rec_action_detail].
  destruct r1, r2. unfold record_core in Heq. cbn in *.
  injection Heq as -> -> -> -> -> -> -> -> -> -> -> -> -> -> -> -> -> ->. done.
Qed.

(** The hash is a function of what it covers. *)
Lemma compute_hash_core r1 r2 :
  wf_record r1 = true → wf_record r2 = true →
  record_core r1 = record_core r2 → compute_hash r1 = compute_hash r2.
Proof.
  unfold wf_record. rewrite !andb_true_iff. intros [_ H1] [_ H2] Heq.
  rewrite !compute_hash_hashed. f_equal. apply jcs_canonical; [by apply wf_hashed..|].
  rewrite <-(hashed_set_hash [] r1), <-(hashed_set_hash [] r2).
  unfold to_value, EvRecord_serialize. cbn [hashed_value canonical]. do 2 f_equal.
  change (canon_entry <$> map_remove (str "record_hash") (record_fields (set_record_hash [] r1)) =
          canon_entry <$> map_remove (str "record_hash") (record_fields (set_record_hash [] r2))).
  by rewrite !(map_remove_fmap canonical : ∀ k m, canon_entry <$> map_remove k m = map_remove k (canon_entry <$> m)),
    (core_fields _ _ Heq).
Qed.

Lemma finalize_Ok r r' h :
  finalize r = Ok (r', h) → compute_hash r = Ok h ∧ r' = set_record_hash h r.
Proof. unfold finalize. intros Hf. ok_inv. by simplify_eq. Qed.

(** Hashing fails only on a number outside the safe range. *)
Lemma finalize_Err r e : finalize r = Err e → e = UnsafeNumber.
Proof.
  unfold finalize. rewrite compute_hash_hashed. unfold to_jcs_bytes. intros Hf.
  pose proof (write_value_outcome (hashed_value (to_value r))) as Ho.
  destruct (write_value _); cbn in *; [done|]. destruct Ho as [-> _]. by injection Hf.
Qed.
End hash_facts.

(** ** Concrete parameters and a sample record

    ULIDs that are their own text, and clocks that are decimal milliseconds. *)

Definition text_ulid : UlidApi :=
  {| ulid := rstring; ulid_to_string s := s; ulid_parse s := Some s |}.

Lemma text_ulid_laws : @UlidLaws text_ulid.
Proof. by intros u. Qed.

Definition decimal_parse (s : rstring) : option Z :=
  match s with
  | [] => None
  | _ => foldl (λ acc c, a ← acc;
           if (48 <=? c) && (c <=? 57) then Some (a * 10 + (c - 48)) else None) (Some 0) s
  end.

Definition millis_chrono : ChronoApi :=
  {| datetime := Z; parse_from_rfc3339 := decimal_parse; timestamp_millis t := t;
     datetime_geb := Z.geb |}.

(** The shape of [tests_support::sample_unchained]. *)
Definition sample_record (stream segment : rstring) (ts_wall : rstring) (i : Z) : EvRecord :=
  {| rec_schema_version := SCHEMA_VERSION; rec_record_id := str "rec-1"; rec_stream_id := stream;
     rec_segment_id := segment; rec_seq := 0; rec_ts_wall := ts_wall;
     rec_ts_mono_ns := i * 1000000; rec_record_type := Operation;
     rec_recorder := {| ri_recorder_id := str "r1"; ri_version := str "0.1.0";
                        ri_host_fingerprint := str "abc"; ri_platform := str "linux-x86_64" |};
     rec_subject := {| sub_agent_kind := str "claude-code"; sub_agent_session := str "sess-1";
                       sub_human_principal := Some (str "dev@example.com");
                       sub_attribution := Attributed; sub_source := str "oidc-hook" |};
     rec_action := {| act_integration := str "sql"; act_operation := str "query";
                      act_verb_class := str "bounded_write";
                      act_target_resource := str "db:prod-main";
                      act_resource_labels := [str "env:prod"] |};
     rec_action_detail := None;
     rec_payload_commitment := Some {| pc_alg := str "blake3-salted"; pc_commitment := str "00" |};
     rec_payload_ref := None;
     rec_verdict := Some {| vd_decision := Allow; vd_mode := Observe; vd_risk_class := Medium;
                            vd_policy_version := 1; vd_rule_ids := [str "default"];
                            vd_reason_codes := [];
                            vd_guard := {| gr_name := str "sql"; gr_version := str "0.1.0" |};
                            vd_eval_ms := 2 |};
     rec_approval_ref := None; rec_links := None; rec_prev_hash := []; rec_record_hash := [] |}.

(** ** Properties *)

(** C19: The record hash covers exactly the record: if BLAKE3 does not collide on
    the two canonical forms, then two records that have hashes have the same one
    if and only if they agree on every field but [record_hash], where the
    free-form [action_detail] is compared up to its canonical form (so [1] and
    [1.0] in it are not told apart). *)
Theorem record_hash_binds `{Blake3} r1 r2 h1 h2 :
  wf_record r1 = true → wf_record r2 = true →
  collision_free_on blake3_hash [hash_input (to_value r1); hash_input (to_value r2)] →
  compute_hash r1 = Ok h1 → compute_hash r2 = Ok h2 →
  h1 = h2 ↔ record_core r1 = record_core r2.
Proof.
  intros Hw1 Hw2 Hcf Hh1 Hh2. split; [intros <-; by eapply compute_hash_inj|].
  intros Heq. apply (compute_hash_core _ _ Hw1 Hw2) in Heq. congruence.
Qed.

Lemma record_hash_binds_witness :
  record_core (sample_record (str "S") (str "G") (str "1000") 0) =
  record_core (set_record_hash (str "ff") (sample_record (str "S") (str "G") (str "1000") 0)).
Proof.
  apply (@record_hash_binds poly_blake3 _ _ (default [] (res_ok
    (@compute_hash poly_blake3 (sample_record (str "S") (str "G") (str "1000") 0))))
    (default [] (res_ok
    (@compute_hash poly_blake3 (sample_record (str "S") (str "G") (str "1000") 0)))));
    [vm_compute; reflexivity|vm_compute; reflexivity|by_compute
    |vm_compute; reflexivity|vm_compute; reflexivity|reflexivity].
Defined.

(** Finalizing sets the hash of the record: [record_hash] of the result is
    the value returned, it is the computed hash of the result itself (the hash
    excludes its own field), and no other field changes; the only failure is a
    number outside the safe range. *)
Theorem finalize_sets_hash `{Blake3} r :
  match finalize r with
  | Ok (r', h) => rec_record_hash r' = h ∧ compute_hash r' = Ok h ∧ r' = set_record_hash h r
  | Err e => e = UnsafeNumber
  end.
Proof.
  destruct (finalize r) as [[r' h]|e] eqn:Hf.
  - destruct (finalize_Ok r r' h Hf) as [Hh ->]. rewrite compute_hash_set_hash. done.
  - by apply finalize_Err in Hf.
Qed.
