(* ===== verification/Chain.v ===== *)
(** * The hash chain (evidence/src/chain.rs)

    The writer side ([ChainHead], which links and finalizes records) and the
    verifier side ([StreamVerifier], which accumulates findings). State that
    the code mutates is passed explicitly; a record borrowed mutably is part
    of the result. *)

From S2P Require Import Prelude Text Errors Hash Json Jcs JcsFacts Record.

Definition WALL_TOLERANCE_MS : Z := 2000.

(** ** Writer side *)

Section writer.
Context `{Blake3} `{UlidApi}.

Record ChainHead := {
  ch_stream_id : ulid;
  ch_head_hash : rstring;
  ch_last_seq : option Z;
}.

Definition genesis (stream_id : ulid) : ChainHead :=
  {| ch_stream_id := stream_id; ch_head_hash := genesis_prev_hash stream_id;
     ch_last_seq := None |}.

Definition resume (stream_id : ulid) (head_hash : rstring) (last_seq : Z) : ChainHead :=
  {| ch_stream_id := stream_id; ch_head_hash := head_hash; ch_last_seq := Some last_seq |}.

Definition next_seq (h : ChainHead) : Z :=
  match ch_last_seq h with None => 0 | Some s => u64_add s 1 end.

(** [record.seq = seq; record.prev_hash = prev]. *)
Definition set_link (seq : Z) (prev : rstring) (r : EvRecord) : EvRecord :=
  {| rec_schema_version := rec_schema_version r; rec_record_id := rec_record_id r;
     rec_stream_id := rec_stream_id r; rec_segment_id := rec_segment_id r;
     rec_seq := seq; rec_ts_wall := rec_ts_wall r; rec_ts_mono_ns := rec_ts_mono_ns r;
     rec_record_type := rec_record_type r; rec_recorder := rec_recorder r;
     rec_subject := rec_subject r; rec_action := rec_action r;
     rec_action_detail := rec_action_detail r;
     rec_payload_commitment := rec_payload_commitment r; rec_payload_ref := rec_payload_ref r;
     rec_verdict := rec_verdict r; rec_approval_ref := rec_approval_ref r;
     rec_links := rec_links r; rec_prev_hash := prev; rec_record_hash := rec_record_hash r |}.

(** The head and the record are borrowed mutably: both are returned next to
    the [Result], as they are left on every path. *)
Definition append (h : ChainHead) (r : EvRecord) : Result unit * ChainHead * EvRecord :=
  if decide (rec_stream_id r ≠ ulid_to_string (ch_stream_id h)) then
    (Err (Schema "record stream_id does not match chain stream"), h, r)
  else
    let r := set_link (next_seq h) (ch_head_hash h) r in
    match finalize r with
    | Err e => (Err e, h, r)
    | Ok (r', hash) =>
      (Ok tt,
       {| ch_stream_id := ch_stream_id h; ch_head_hash := hash;
          ch_last_seq := Some (rec_seq r') |}, r')
    end.
End writer.

(** ** Verifier side *)

Record RecordView := {
  rv_record_id : rstring;
  rv_stream_id : rstring;
  rv_segment_id : rstring;
  rv_seq : Z;
  rv_ts_wall : rstring;
  rv_ts_mono_ns : Z;
  rv_record_type : rstring;
  rv_prev_hash : rstring;
  rv_record_hash : rstring;
}.

(** The closures [s] and [u] of [RecordView::from_value]. *)
Definition str_field (obj : jmap) (k : string) : Result rstring :=
  ok_or (map_get (str k) obj ≫= as_str) (Schema "record missing string field").
Definition u64_field (obj : jmap) (k : string) : Result Z :=
  ok_or (map_get (str k) obj ≫= as_u64) (Schema "record missing u64 field").

Definition from_value (v : value) : Result RecordView :=
  obj ← ok_or (as_object v) (Schema "record must be a JSON object");
  record_id ← str_field obj "record_id";
  stream_id ← str_field obj "stream_id";
  segment_id ← str_field obj "segment_id";
  seq ← u64_field obj "seq";
  ts_wall ← str_field obj "ts_wall";
  ts_mono_ns ← u64_field obj "ts_mono_ns";
  record_type ← str_field obj "record_type";
  prev_hash ← str_field obj "prev_hash";
  record_hash ← str_field obj "record_hash";
  mret {| rv_record_id := record_id; rv_stream_id := stream_id; rv_segment_id := segment_id;
          rv_seq := seq; rv_ts_wall := ts_wall; rv_ts_mono_ns := ts_mono_ns;
          rv_record_type := record_type; rv_prev_hash := prev_hash;
          rv_record_hash := record_hash |}.

Inductive ChainFinding :=
| RecordHashMismatch (seq : Z) (expected computed : rstring)
| LinkBroken (seq : Z) (expected found : rstring)
| SeqGapInSegment (segment_id : rstring) (expected found : Z)
| SeqNotMonotonic (prev found : Z)
| MonoRegression (seq prev_ns found_ns : Z)
| WallRegression (seq delta_ms : Z)
| GenesisViolation (found expected : rstring)
| SegmentBreak (segment_id : rstring) (seq : Z)
| StreamMismatch (seq : Z) (found_stream : rstring)
| BadWallTimestamp (seq : Z) (value : rstring).

Global Instance RecordView_eq_dec : EqDecision RecordView.
Proof. solve_decision. Defined.
Global Instance ChainFinding_eq_dec : EqDecision ChainFinding.
Proof. solve_decision. Defined.

Record StreamVerifier := {
  sv_stream_id : rstring;
  sv_genesis : rstring;
  sv_prev : option RecordView;
  sv_prev_wall_ms : option Z;
  sv_records_verified : Z;
}.

(** A finding pushed when [b] holds. *)
Definition push_if {A} (b : bool) (f : A) : list A := if b then [f] else [].

Section verifier.
Context `{Blake3} `{UlidApi} `{ChronoApi}.

Definition new_verifier (stream_id : rstring) : Result StreamVerifier :=
  u ← ok_or (ulid_parse stream_id) (Schema "invalid stream_id");
  mret {| sv_stream_id := stream_id; sv_genesis := genesis_prev_hash u; sv_prev := None;
          sv_prev_wall_ms := None; sv_records_verified := 0 |}.

Definition is_segment_break (view : RecordView) : bool :=
  match ulid_parse (rv_stream_id view), ulid_parse (rv_segment_id view) with
  | Some stream, Some segment =>
    bool_decide (rv_prev_hash view = segment_break_prev_hash stream segment)
  | _, _ => false
  end.

(** The blocks of [verify_next], in order. *)

Definition genesis_findings (genesis : rstring) (view : RecordView) : list ChainFinding :=
  push_if ((rv_seq view =? 0) && negb (bool_decide (rv_prev_hash view = genesis)))
    (GenesisViolation (rv_prev_hash view) genesis).

Definition same_segment (prev view : RecordView) : bool :=
  bool_decide (rv_segment_id prev = rv_segment_id view).

Definition seq_findings (prev view : RecordView) : list ChainFinding :=
  if rv_seq view <=? rv_seq prev then [SeqNotMonotonic (rv_seq prev) (rv_seq view)]
  else push_if (same_segment prev view && negb (rv_seq view =? u64_add (rv_seq prev) 1))
    (SeqGapInSegment (rv_segment_id view) (u64_add (rv_seq prev) 1) (rv_seq view)).

Definition link_findings (prev view : RecordView) : list ChainFinding :=
  if decide (rv_prev_hash view = rv_record_hash prev) then []
  else if negb (same_segment prev view) && is_segment_break view
  then [SegmentBreak (rv_segment_id view) (rv_seq view)]
  else [LinkBroken (rv_seq view) (rv_record_hash prev) (rv_prev_hash view)].

Definition mono_findings (prev view : RecordView) : list ChainFinding :=
  push_if (same_segment prev view && (rv_ts_mono_ns view <? rv_ts_mono_ns prev))
    (MonoRegression (rv_seq view) (rv_ts_mono_ns prev) (rv_ts_mono_ns view)).

Definition is_clock_anomaly (v : RecordView) : bool :=
  bool_decide (rv_record_type v = str "clock_anomaly").

(** Millisecond timestamps of [chrono] stay below 2^53 in magnitude, so the
    [i64] difference is exact. *)
Definition wall_findings (prev_ms : option Z) (prev view : RecordView) : list ChainFinding :=
  match parse_wall (rv_ts_wall view), prev_ms with
  | Ok wall, Some prev_ms =>
    let delta := timestamp_millis wall - prev_ms in
    push_if ((delta <? - WALL_TOLERANCE_MS) && negb (is_clock_anomaly view)
             && negb (is_clock_anomaly prev))
      (WallRegression (rv_seq view) delta)
  | Err _, _ => [BadWallTimestamp (rv_seq view) (rv_ts_wall view)]
  | _, _ => []
  end.

Definition verify_next (sv : StreamVerifier) (raw : value)
    : Result (StreamVerifier * list ChainFinding) :=
  view ← from_value raw;
  let stream :=
    push_if (negb (bool_decide (rv_stream_id view = sv_stream_id sv)))
      (StreamMismatch (rv_seq view) (rv_stream_id view)) in
  computed ← compute_hash_of_value raw;
  let hash :=
    push_if (negb (bool_decide (computed = rv_record_hash view)))
      (RecordHashMismatch (rv_seq view) (rv_record_hash view) computed) in
  let links :=
    match sv_prev sv with
    | None => genesis_findings (sv_genesis sv) view
    | Some prev =>
      seq_findings prev view ++ link_findings prev view ++ mono_findings prev view ++
      wall_findings (sv_prev_wall_ms sv) prev view
    end in
  mret ({| sv_stream_id := sv_stream_id sv; sv_genesis := sv_genesis sv;
           sv_prev := Some view;
           sv_prev_wall_ms :=
             match parse_wall (rv_ts_wall view) with
             | Ok w => Some (timestamp_millis w)
             | Err _ => sv_prev_wall_ms sv
             end;
           sv_records_verified := u64_add (sv_records_verified sv) 1 |},
        stream ++ hash ++ links).

Definition sv_head (sv : StreamVerifier) : option rstring := rv_record_hash <$> sv_prev sv.
End verifier.

(** ** Whole streams *)

(** Records appended one after the other; the first error stops. *)
Fixpoint append_all `{Blake3} `{UlidApi} (h : ChainHead) (rs : list EvRecord)
    : Result (ChainHead * list EvRecord) :=
  match rs with
  | [] => Ok (h, [])
  | r :: rs =>
    match append h r with
    | (Err e, _, _) => Err e
    | (Ok _, h, r) => '(h, rs) ← append_all h rs; mret (h, r :: rs)
    end
  end.

(** The runs of a [ChainHead]: the head and the records it has accepted, after
    any sequence of calls of [append] from genesis, failed ones included. *)
Inductive head_run `{Blake3} `{UlidApi} (u : ulid) : ChainHead → list EvRecord → Prop :=
| run_genesis : head_run u (genesis u) []
| run_append h rs r h' r' :
    head_run u h rs → append h r = (Ok tt, h', r') → head_run u h' (rs ++ [r'])
| run_rejected h rs r e h' r' :
    head_run u h rs → append h r = (Err e, h', r') → head_run u h' rs.

(** A hash as text: the lower-case hexadecimal form of a digest. *)
Definition hash_text (h : rstring) : Prop :=
  length h = 64%nat ∧ Forall (λ c, is_lower_hex c = true) h.

(** The hash that the record after [rs] links to. *)
Definition head_of `{Blake3} `{UlidApi} (u : ulid) (rs : list EvRecord) : rstring :=
  from_option rec_record_hash (genesis_prev_hash u) (last rs).

(** The [i]-th accepted record is well formed and in its place. *)
Definition record_placed `{Blake3} `{UlidApi} (u : ulid) (rs : list EvRecord) (i : nat) (r : EvRecord)
    : Prop :=
  rec_seq r = Z.of_nat i ∧ rec_seq r ≤ MAX_SAFE_INTEGER ∧
  rec_stream_id r = ulid_to_string u ∧ rec_prev_hash r = head_of u (take i rs) ∧
  compute_hash r = Ok (rec_record_hash r) ∧ hash_text (rec_prev_hash r) ∧
  hash_text (rec_record_hash r).

(** Records fed in file order, with the findings accumulated. *)
Fixpoint verify_stream `{Blake3} `{UlidApi} `{ChronoApi} (sv : StreamVerifier) (raws : list value)
    : Result (StreamVerifier * list ChainFinding) :=
  match raws with
  | [] => Ok (sv, [])
  | raw :: raws =>
    '(sv, fs) ← verify_next sv raw;
    '(sv, gs) ← verify_stream sv raws;
    mret (sv, fs ++ gs)
  end.

(** ** The abstract chain

    What a stream without findings is: every record carries its own hash, the
    first one starts from the genesis sentinel (when it has sequence 0), and
    each one follows its predecessor. *)

Section spec.
Context `{Blake3} `{UlidApi} `{ChronoApi}.

Definition clock_ok (prev v : RecordView) : bool :=
  (negb (same_segment prev v) || (rv_ts_mono_ns prev <=? rv_ts_mono_ns v)) &&
  match parse_wall (rv_ts_wall v), parse_wall (rv_ts_wall prev) with
  | Ok w, Ok pw =>
    (timestamp_millis pw - WALL_TOLERANCE_MS <=? timestamp_millis w)
    || is_clock_anomaly v || is_clock_anomaly prev
  | Ok _, Err _ => true
  | Err _, _ => false
  end.

Definition follows (prev v : RecordView) : Prop :=
  rv_seq prev < rv_seq v ∧
  (rv_segment_id prev = rv_segment_id v → rv_seq v = rv_seq prev + 1) ∧
  rv_prev_hash v = rv_record_hash prev ∧
  clock_ok prev v = true.

Fixpoint linked_from (prev : RecordView) (vs : list RecordView) : Prop :=
  match vs with
  | [] => True
  | v :: vs => follows prev v ∧ linked_from v vs
  end.

Definition linked (vs : list RecordView) : Prop :=
  match vs with [] => True | v :: vs => linked_from v vs end.

(** A raw record and its view, with the right hash. *)
Definition self_hashed (raw : value) (v : RecordView) : Prop :=
  from_value raw = Ok v ∧ compute_hash_of_value raw = Ok (rv_record_hash v).

Definition chain_ok (sid gen : rstring) (raws : list value) (vs : list RecordView) : Prop :=
  Forall2 self_hashed raws vs ∧
  Forall (λ v, rv_stream_id v = sid) vs ∧
  (∀ v, list.head vs = Some v → rv_seq v = 0 → rv_prev_hash v = gen) ∧
  linked vs.
End spec.

(** ** Facts: one step of the verifier *)

Lemma push_if_nil {A} b (f : A) : push_if b f = [] ↔ b = false.
Proof. by destruct b. Qed.

Lemma from_value_u64 raw v :
  from_value raw = Ok v → is_u64 (rv_seq v) = true ∧ is_u64 (rv_ts_mono_ns v) = true.
Proof.
  assert (∀ obj k z, u64_field obj k = Ok z → is_u64 z = true) as Hu.
  { intros obj k z Hz. unfold u64_field in Hz. ok_inv.
    apply bind_Some in Hz as ([| |[]| | |] & _ & Hz); try done. cbn in Hz. by case_match; simplify_eq. }
  unfold from_value. intros Hv. ok_inv. subst v. cbn. eauto.
Qed.

Lemma str_field_get obj k s : str_field obj k = Ok s → map_get (str k) obj = Some (String s).
Proof.
  unfold str_field. intros Hs. ok_inv. apply bind_Some in Hs as (w & Hw & ?).
  by destruct w; simplify_eq/=.
Qed.

Lemma view_record_hash raw v :
  from_value raw = Ok v → value_get (str "record_hash") raw = Some (String (rv_record_hash v)).
Proof.
  intros Hv. unfold from_value in Hv. ok_inv. subst v. cbn [rv_record_hash].
  destruct raw; try done. simplify_eq/=. by apply str_field_get.
Qed.

Section step_facts.
Context `{Blake3} `{UlidApi} `{ChronoApi}.

Lemma seq_findings_nil prev v :
  is_u64 (rv_seq prev) = true → is_u64 (rv_seq v) = true →
  seq_findings prev v = [] ↔
  rv_seq prev < rv_seq v ∧ (rv_segment_id prev = rv_segment_id v → rv_seq v = rv_seq prev + 1).
Proof.
  rewrite !is_u64_spec. intros Hp Hv. unfold seq_findings, same_segment. case_match eqn:Hle.
  - split; [done|]. lia.
  - unfold u64_add. rewrite wrap_u64_id by (apply is_u64_spec; lia).
    rewrite push_if_nil, andb_false_iff, bool_decide_eq_false, negb_false_iff, Z.eqb_eq.
    destruct (decide (rv_segment_id prev = rv_segment_id v)); naive_solver lia.
Qed.

Lemma link_findings_nil prev v :
  link_findings prev v = [] ↔ rv_prev_hash v = rv_record_hash prev.
Proof. unfold link_findings. repeat case_match; naive_solver. Qed.

Lemma clock_findings_nil prev v :
  mono_findings prev v = [] ∧
  wall_findings (timestamp_millis <$> res_ok (parse_wall (rv_ts_wall prev))) prev v = [] ↔
  clock_ok prev v = true.
Proof.
  unfold mono_findings, wall_findings, clock_ok. rewrite push_if_nil.
  destruct (same_segment prev v); cbn;
    destruct (parse_wall (rv_ts_wall v)) as [w|]; cbn;
    destruct (parse_wall (rv_ts_wall prev)) as [pw|]; cbn; rewrite ?push_if_nil;
    try destruct (is_clock_anomaly v), (is_clock_anomaly prev); cbn; naive_solver lia.
Qed.

(** The verifier's state after a record, whatever was found. *)
Definition advance (sv : StreamVerifier) (v : RecordView) : StreamVerifier :=
  {| sv_stream_id := sv_stream_id sv; sv_genesis := sv_genesis sv; sv_prev := Some v;
     sv_prev_wall_ms := match parse_wall (rv_ts_wall v) with
                        | Ok w => Some (timestamp_millis w) | Err _ => sv_prev_wall_ms sv end;
     sv_records_verified := u64_add (sv_records_verified sv) 1 |}.

(** The remembered wall clock is that of the previous record, which holds as
    long as there are no findings. *)
Definition sv_inv (sv : StreamVerifier) : Prop :=
  match sv_prev sv with
  | None => sv_prev_wall_ms sv = None
  | Some p => sv_prev_wall_ms sv = timestamp_millis <$> res_ok (parse_wall (rv_ts_wall p)) ∧
              is_u64 (rv_seq p) = true
  end.

Definition step_ok (sv : StreamVerifier) (raw : value) (v : RecordView) : Prop :=
  self_hashed raw v ∧ rv_stream_id v = sv_stream_id sv ∧
  match sv_prev sv with
  | None => rv_seq v = 0 → rv_prev_hash v = sv_genesis sv
  | Some p => follows p v
  end.

Lemma verify_next_Ok sv raw sv' fs :
  verify_next sv raw = Ok (sv', fs) →
  ∃ v c, from_value raw = Ok v ∧ compute_hash_of_value raw = Ok c ∧ sv' = advance sv v.
Proof.
  unfold verify_next. intros (v & Hv & Hn)%bind_Ok. cbv zeta in Hn.
  apply bind_Ok in Hn as (c & Hc & Hn). injection Hn as <- _. by exists v, c.
Qed.

Lemma verify_next_clean sv raw sv' :
  sv_inv sv →
  verify_next sv raw = Ok (sv', []) ↔ ∃ v, step_ok sv raw v ∧ sv' = advance sv v.
Proof.
  intros Hinv. unfold verify_next, step_ok, self_hashed. rewrite bind_Ok. cbv zeta.
  apply exist_proper; intros v. rewrite bind_Ok. split.
  - intros (Hv & c & Hc & Hn). injection Hn as <- Hn.
    apply app_nil in Hn as [Hs [Hh Hl]%app_nil].
    apply push_if_nil, negb_false_iff, bool_decide_eq_true in Hs, Hh. subst c.
    split; [|done]. repeat (split; [done|]). unfold sv_inv in Hinv. destruct (sv_prev sv) as [p|].
    + destruct Hinv as [Hw Hp]. rewrite Hw in Hl.
      apply app_nil in Hl as [?%seq_findings_nil [?%link_findings_nil [? ?]%app_nil]%app_nil];
        [|done|by eapply from_value_u64].
      unfold follows. rewrite <-clock_findings_nil. naive_solver.
    + unfold genesis_findings in Hl. rewrite push_if_nil, andb_false_iff, negb_false_iff,
        bool_decide_eq_true in Hl. intros; destruct Hl; [lia|done].
  - intros (((Hv & Hc) & Hs & Hl) & ->). split; [done|]. exists (rv_record_hash v).
    split; [done|]. rewrite !bool_decide_true by done. cbn [negb push_if app].
    unfold mret, result_ret, advance. do 2 f_equal. unfold sv_inv in Hinv.
    destruct (sv_prev sv) as [p|].
    + destruct Hinv as [Hw Hp]. rewrite Hw. destruct Hl as (Hl1 & Hl2 & Hl3 & Hl4).
      apply clock_findings_nil in Hl4 as [-> ->]. apply link_findings_nil in Hl3 as ->.
      rewrite (proj2 (seq_findings_nil p v Hp (proj1 (from_value_u64 _ _ Hv)))); done.
    + unfold genesis_findings. destruct (Z.eqb_spec (rv_seq v) 0); [|done].
      by rewrite bool_decide_true by auto.
Qed.

Lemma step_inv sv raw v : sv_inv sv → step_ok sv raw v → sv_inv (advance sv v).
Proof.
  intros Hinv ([Hv _] & _ & Hstep). unfold sv_inv, advance; cbn.
  split; [|by eapply from_value_u64].
  unfold sv_inv in Hinv. destruct (parse_wall (rv_ts_wall v)) eqn:Hw; cbn; [done|].
  destruct (sv_prev sv) as [p|]; [|done].
  destruct Hstep as (_ & _ & _ & Hc). unfold clock_ok in Hc. rewrite Hw in Hc.
  by rewrite andb_false_r in Hc.
Qed.
End step_facts.

(** ** Facts: clean streams are abstract chains *)

Section stream_facts.
Context `{Blake3} `{UlidApi} `{ChronoApi}.

(** The rest of a stream, seen from a verifier state. *)
Definition rest_ok (sv : StreamVerifier) (raws : list value) (vs : list RecordView) : Prop :=
  Forall2 self_hashed raws vs ∧
  Forall (λ v, rv_stream_id v = sv_stream_id sv) vs ∧
  match sv_prev sv with
  | None => (∀ v, list.head vs = Some v → rv_seq v = 0 → rv_prev_hash v = sv_genesis sv) ∧ linked vs
  | Some p => linked_from p vs
  end.

Definition advance_all (sv : StreamVerifier) (vs : list RecordView) : StreamVerifier :=
  foldl advance sv vs.

Lemma rest_ok_cons sv raw raws v vs :
  rest_ok sv (raw :: raws) (v :: vs) ↔ step_ok sv raw v ∧ rest_ok (advance sv v) raws vs.
Proof.
  unfold rest_ok, step_ok; cbn. rewrite Forall2_cons, Forall_cons.
  destruct (sv_prev sv); cbn; naive_solver.
Qed.

Lemma verify_stream_clean sv raws sv' :
  sv_inv sv →
  verify_stream sv raws = Ok (sv', []) ↔ ∃ vs, rest_ok sv raws vs ∧ sv' = advance_all sv vs.
Proof.
  revert sv; induction raws as [|raw raws IH]; intros sv Hinv; cbn [verify_stream].
  - split.
    + intros [= <-]. exists []. repeat split; try constructor. by destruct (sv_prev sv).
    + by intros (vs & (->%Forall2_nil_inv_l & _) & ->).
  - rewrite bind_Ok. split.
    + intros ([s1 fs] & Hn & ([s2 gs] & Hst & Heq)%bind_Ok). injection Heq as <- [-> ->]%app_nil.
      apply verify_next_clean in Hn as (v & Hs & ->); [|done].
      apply IH in Hst as (vs & Hr & ->); [|by eapply step_inv].
      exists (v :: vs). by rewrite rest_ok_cons.
    + intros ([|v vs] & Hr & ->); [by destruct Hr as (?%Forall2_nil_inv_r & _)|].
      apply rest_ok_cons in Hr as [Hs Hr]. exists (advance sv v, []).
      split; [apply verify_next_clean; eauto|]. apply bind_Ok.
      exists (advance_all (advance sv v) vs, []). split; [|done].
      apply IH; [by eapply step_inv|eauto].
Qed.

Lemma advance_all_prev sv vs v : sv_prev (advance_all sv (vs ++ [v])) = Some v.
Proof. unfold advance_all. by rewrite foldl_app. Qed.

Lemma new_verifier_Ok sid sv :
  new_verifier sid = Ok sv →
  sv_inv sv ∧ sv_prev sv = None ∧ sv_stream_id sv = sid ∧
  ∃ u, ulid_parse sid = Some u ∧ sv_genesis sv = genesis_prev_hash u.
Proof.
  unfold new_verifier. intros Hn. ok_inv. subst sv. unfold sv_inv. cbn. eauto 10.
Qed.

Lemma new_stream_clean sid sv raws sv' :
  new_verifier sid = Ok sv →
  verify_stream sv raws = Ok (sv', []) ↔
  ∃ vs, chain_ok sid (sv_genesis sv) raws vs ∧ sv' = advance_all sv vs.
Proof.
  intros (Hinv & Hp & Hsid & _)%new_verifier_Ok. rewrite verify_stream_clean by done.
  unfold rest_ok, chain_ok. by rewrite Hp, Hsid.
Qed.

Lemma clean_head sid sv raws vs :
  new_verifier sid = Ok sv → chain_ok sid (sv_genesis sv) raws vs →
  sv_head (advance_all sv vs) = rv_record_hash <$> last vs.
Proof.
  intros (_ & Hp & _)%new_verifier_Ok _. destruct vs as [|v vs _] using rev_ind.
  - cbn. unfold sv_head. by rewrite Hp.
  - unfold sv_head. by rewrite advance_all_prev, last_snoc.
Qed.

Lemma linked_snoc vs u v : linked (vs ++ [u; v]) ↔ linked (vs ++ [u]) ∧ follows u v.
Proof.
  assert (∀ ws p, linked_from p (ws ++ [u; v]) ↔ linked_from p (ws ++ [u]) ∧ follows u v) as Hp.
  { intros ws; induction ws as [|w ws IH]; intros p; cbn; [tauto|]. rewrite IH. tauto. }
  destruct vs as [|w vs]; [cbn; tauto|apply Hp].
Qed.

(** A canonical form determines the fields of the view. *)
Lemma hashed_str_field raw obj k s :
  wf_value raw = true → as_object raw = Some obj → bool_decide (str k = str "record_hash") = false →
  str_field obj k = Ok s → get_str k (canonical (hashed_value raw)) = Some s.
Proof.
  destruct raw as [| | | | |m]; try done. intros (Hnd & _)%wf_object [= <-] Hk Hs.
  unfold get_str. rewrite hashed_get by done. by apply str_field_get in Hs as ->.
Qed.

Lemma hashed_u64_field raw obj k z :
  wf_value raw = true → as_object raw = Some obj → bool_decide (str k = str "record_hash") = false →
  u64_field obj k = Ok z → get_u64 k (canonical (hashed_value raw)) = Some z.
Proof.
  destruct raw as [| | | | |m]; try done. intros (Hnd & _)%wf_object [= <-] Hk Hs.
  unfold get_u64. rewrite hashed_get by done. unfold u64_field in Hs. ok_inv.
  apply bind_Some in Hs as (w & -> & Hw). destruct w as [| |[y|]| | |]; try done. cbn in Hw.
  case_match eqn:Hy; [|done]. simplify_eq. cbn [fmap option_fmap option_map mbind option_bind].
  by apply as_u64_canonical.
Qed.

Lemma hashed_view raw v :
  wf_value raw = true → from_value raw = Ok v →
  get_u64 "seq" (canonical (hashed_value raw)) = Some (rv_seq v) ∧
  get_str "prev_hash" (canonical (hashed_value raw)) = Some (rv_prev_hash v).
Proof.
  intros Hwf Hv. unfold from_value in Hv. ok_inv. subst v. cbn [rv_seq rv_prev_hash].
  split; [eapply hashed_u64_field|eapply hashed_str_field]; try done; by vm_compute.
Qed.
End stream_facts.

(** ** Facts: the head determines the stream *)

Lemma canonical_with_hash v w h :
  wf_value v = true → wf_value w = true →
  value_get (str "record_hash") v = Some (String h) →
  value_get (str "record_hash") w = Some (String h) →
  canonical (hashed_value v) = canonical (hashed_value w) → canonical v = canonical w.
Proof.
  destruct v as [| | | | |m], w as [| | | | |k]; try done. cbn [hashed_value value_get as_object mbind option_bind].
  intros (Hnd & Hval & _)%wf_object (Hnd2 & _ & _)%wf_object Hm Hk. cbn [canonical]. intros [= Heq].
  f_equal. apply sorted_entries_unique; try apply sort_entries_sorted.
  - by rewrite sort_entries_perm, keys_map_snd.
  - rewrite sort_entries_perm. apply Forall_fmap. eapply Forall_impl; [exact Hval|done].
  - rewrite !sort_entries_perm.
    rewrite (map_remove_perm _ _ _ Hm), (map_remove_perm _ _ _ Hk), !fmap_cons. constructor.
    etrans; [symmetry; apply sort_entries_perm|]. rewrite Heq. apply sort_entries_perm.
Qed.

Section determined.
Context `{Blake3} `{UlidApi} `{ChronoApi}.

Lemma self_hashed_binds raw1 raw2 v1 v2 :
  wf_value raw1 = true → wf_value raw2 = true →
  collision_free_on blake3_hash [hash_input raw1; hash_input raw2] →
  self_hashed raw1 v1 → self_hashed raw2 v2 → rv_record_hash v1 = rv_record_hash v2 →
  canonical raw1 = canonical raw2 ∧ rv_seq v1 = rv_seq v2 ∧ rv_prev_hash v1 = rv_prev_hash v2.
Proof.
  intros Hw1 Hw2 Hcf [Hv1 Hh1] [Hv2 Hh2] Heq.
  pose proof view_record_hash as Hrh.
  assert (canonical (hashed_value raw1) = canonical (hashed_value raw2)) as Hc.
  { eapply value_hash_binds; eauto. by rewrite Heq. }
  split.
  - eapply canonical_with_hash; eauto. rewrite Heq. auto.
  - destruct (hashed_view raw1 v1) as [Hs1 Hp1], (hashed_view raw2 v2) as [Hs2 Hp2]; try done.
    rewrite Hc in Hs1, Hp1. by simplify_eq.
Qed.

(** The sequence of the first raw record. *)
Definition first_seq (raws : list value) : option Z := list.head raws ≫= get_u64 "seq".

Definition starts_at_zero (vs : list RecordView) : Prop := rv_seq <$> list.head vs = Some 0.

Lemma starts_at_zero_snoc vs u v : starts_at_zero (vs ++ [u; v]) → starts_at_zero (vs ++ [u]).
Proof. by destruct vs. Qed.

(** A record that follows another one does not have sequence 0. *)
Lemma follower_seq raws vs u v :
  Forall2 self_hashed raws (vs ++ [u]) → linked (vs ++ [u; v]) → rv_seq v ≠ 0.
Proof.
  intros (l & x & _ & (raw & ? & [Hu _] & _ & _)%Forall2_cons_inv_r & ->)%Forall2_app_inv_r.
  intros [_ (Hlt & _)]%linked_snoc. apply from_value_u64 in Hu as [Hu%is_u64_spec _]. lia.
Qed.

Lemma head_determines raws1 raws2 vs1 vs2 :
  Forall (λ v, wf_value v = true) (raws1 ++ raws2) →
  collision_free_on blake3_hash (hash_input <$> raws1 ++ raws2) →
  Forall2 self_hashed raws1 vs1 → Forall2 self_hashed raws2 vs2 →
  starts_at_zero vs1 → starts_at_zero vs2 → linked vs1 → linked vs2 →
  rv_record_hash <$> last vs1 = rv_record_hash <$> last vs2 →
  canonical <$> raws1 = canonical <$> raws2.
Proof.
  intros Hwf Hcf Hsh1; revert raws2 vs2 Hwf Hcf.
  induction vs1 as [|v1 vs1 IH] in raws1, Hsh1 |- * using rev_ind; [done|].
  intros raws2 vs2 Hwf Hcf Hsh2 Hz1 Hz2 Hl1 Hl2 Hlast.
  destruct vs2 as [|v2 vs2 _] using rev_ind; [done|].
  rewrite !last_snoc in Hlast. injection Hlast as Hlast.
  apply Forall2_app_inv_r in Hsh1 as (l1 & x1 & Hsh1 & (raw1 & ? & Hr1 & ->%Forall2_nil_inv_r & ->)%Forall2_cons_inv_r & ->).
  apply Forall2_app_inv_r in Hsh2 as (l2 & x2 & Hsh2 & (raw2 & ? & Hr2 & ->%Forall2_nil_inv_r & ->)%Forall2_cons_inv_r & ->).
  destruct (self_hashed_binds raw1 raw2 v1 v2) as (Hc & Hs & Hp); try done.
  { rewrite !Forall_app, !Forall_singleton in Hwf. tauto. }
  { rewrite !Forall_app, !Forall_singleton in Hwf. tauto. }
  { eapply collision_free_mono; [|exact Hcf]. rewrite !fmap_app. cbn. set_solver. }
  rewrite !fmap_app. cbn. rewrite Hc. f_equal.
  destruct vs1 as [|u1 vs1 _] using rev_ind; destruct vs2 as [|u2 vs2 _] using rev_ind.
  - by apply Forall2_nil_inv_r in Hsh1 as ->, Hsh2 as ->.
  - rewrite <-!app_assoc in Hl2. apply follower_seq with (raws := l2) in Hl2; [|done].
    injection Hz1 as Hz1. by rewrite <-Hs, Hz1 in Hl2.
  - rewrite <-!app_assoc in Hl1. apply follower_seq with (raws := l1) in Hl1; [|done].
    injection Hz2 as Hz2. by rewrite Hs, Hz2 in Hl1.
  - rewrite <-!app_assoc in Hl1, Hl2, Hz1, Hz2. apply linked_snoc in Hl1 as [Hl1 Hf1], Hl2 as [Hl2 Hf2].
    eapply (IH l1 Hsh1 l2 (vs2 ++ [u2])); try done.
    + rewrite Forall_app in Hwf |- *. rewrite !Forall_app in Hwf. tauto.
    + eapply collision_free_mono; [|exact Hcf]. rewrite !fmap_app. set_solver.
    + exact (starts_at_zero_snoc _ _ _ Hz1).
    + exact (starts_at_zero_snoc _ _ _ Hz2).
    + rewrite !last_snoc. cbn. f_equal. destruct Hf1 as (_ & _ & <- & _), Hf2 as (_ & _ & <- & _). done.
Qed.

Lemma starts_at_zero_raws raws vs :
  Forall2 self_hashed raws vs →
  first_seq raws = Some 0 → starts_at_zero vs.
Proof.
  destruct 1 as [|raw v raws vs [Hv _] _]; [done|]. unfold first_seq. cbn [list.head mbind option_bind].
  unfold from_value in Hv. ok_inv. subst v. unfold starts_at_zero. cbn [list.head fmap option_fmap option_map rv_seq].
  unfold u64_field, get_u64, value_get in *. ok_inv. simplify_option_eq. congruence.
Qed.
End determined.

(** ** Facts: appending *)

(** What the verifier sees of a record. *)
Definition view_of (r : EvRecord) : RecordView :=
  {| rv_record_id := rec_record_id r; rv_stream_id := rec_stream_id r;
     rv_segment_id := rec_segment_id r; rv_seq := rec_seq r; rv_ts_wall := rec_ts_wall r;
     rv_ts_mono_ns := rec_ts_mono_ns r; rv_record_type := record_type_str (rec_record_type r);
     rv_prev_hash := rec_prev_hash r; rv_record_hash := rec_record_hash r |}.

Lemma from_value_record r :
  is_u64 (rec_seq r) = true → is_u64 (rec_ts_mono_ns r) = true →
  from_value (to_value r) = Ok (view_of r).
Proof.
  intros Hs Hm. unfold from_value, str_field, u64_field.
  change (to_value r) with (Object (record_fields r)). cbn [as_object ok_or mbind result_bind].
  rewrite record_get_record_id, record_get_stream_id, record_get_segment_id, record_get_seq,
    record_get_ts_wall, record_get_ts_mono_ns, record_get_record_type, record_get_prev_hash,
    record_get_record_hash. unfold u64_value.
  cbn [as_str as_u64 num_as_u64 ok_or mbind result_bind option_bind]. by rewrite Hs, Hm.
Qed.

Section append_facts.
Context `{Blake3} `{UlidApi}.

(** Only records whose sequence is a safe integer can be hashed. *)
Lemma compute_hash_safe r h :
  is_u64 (rec_seq r) = true → compute_hash r = Ok h → rec_seq r ≤ MAX_SAFE_INTEGER.
Proof.
  intros Hs [Hb _]%compute_hash_input.
  eapply (u64_member_safe (map_remove (str "record_hash") (record_fields r)) (str "seq"));
    [exact Hb| |done].
  apply map_get_elem. rewrite map_get_remove by apply record_fields_NoDup.
  rewrite decide_False by (by vm_compute). apply record_get_seq.
Qed.

Lemma next_seq_u64 h : is_u64 (next_seq h) = true.
Proof. unfold next_seq. case_match; [apply wrap_u64_range|done]. Qed.

(** A successful append, field by field. *)
Lemma append_Ok h r h' r' :
  append h r = (Ok tt, h', r') →
  rec_stream_id r = ulid_to_string (ch_stream_id h) ∧
  ∃ hash, compute_hash r' = Ok hash ∧ rec_record_hash r' = hash ∧
    r' = set_record_hash hash (set_link (next_seq h) (ch_head_hash h) r) ∧
    next_seq h ≤ MAX_SAFE_INTEGER ∧
    h' = resume (ch_stream_id h) hash (next_seq h).
Proof.
  unfold append. case_decide as Hd; [done|]. intros Ha.
  destruct (finalize _) as [[r2 hash]|] eqn:Hf; [|done]. injection Ha as <- <-.
  apply finalize_Ok in Hf as [Hh ->]. split; [done|]. exists hash.
  rewrite compute_hash_set_hash. repeat split; try done.
  apply compute_hash_safe in Hh; [done|apply next_seq_u64].
Qed.

Lemma append_all_cons h r rs h' rs' :
  append_all h (r :: rs) = Ok (h', rs') →
  ∃ h1 r1 rs1, append h r = (Ok tt, h1, r1) ∧ append_all h1 rs = Ok (h', rs1) ∧ rs' = r1 :: rs1.
Proof.
  cbn. destruct (append h r) as [[[[]|] h1] r1]; [|done]. intros ([h2 rs1] & Hr & Heq)%bind_Ok.
  injection Heq as <- <-. eauto 10.
Qed.
End append_facts.

Section head_facts.
Context `{Blake3, !Blake3Len} `{UlidApi}.

Lemma hash_text_blake3 bs : hash_text (blake3_hex bs).
Proof.
  unfold hash_text, blake3_hex. split; [by rewrite hex_encode_length, blake3_length|].
  eapply Forall_impl; [apply hex_encode_ascii|]. by intros c [_ ?].
Qed.

Lemma compute_hash_text r h : compute_hash r = Ok h → hash_text h.
Proof. intros (bs & _ & -> & _)%compute_hash_of_value_Ok. apply hash_text_blake3. Qed.

Lemma head_of_text u rs : Forall (λ r, hash_text (rec_record_hash r)) rs → hash_text (head_of u rs).
Proof.
  intros Hrs. unfold head_of. destruct (last rs) as [r|] eqn:Hl; cbn; [|apply hash_text_blake3].
  rewrite Forall_forall in Hrs. by apply Hrs, last_Some_elem_of.
Qed.

(** Records stay in their place when others follow. *)
Lemma record_placed_snoc u rs r' i r :
  rs !! i = Some r → record_placed u rs i r → record_placed u (rs ++ [r']) i r.
Proof.
  intros Hi. unfold record_placed. rewrite take_app_le; [done|].
  apply lookup_lt_Some in Hi. lia.
Qed.

Definition head_ok (u : ulid) (h : ChainHead) (rs : list EvRecord) : Prop :=
  ch_stream_id h = u ∧ next_seq h = Z.of_nat (length rs) ∧ ch_head_hash h = head_of u rs ∧
  ∀ i r, rs !! i = Some r → record_placed u rs i r.

Lemma head_ok_append u h rs r h' r' :
  head_ok u h rs → append h r = (Ok tt, h', r') → head_ok u h' (rs ++ [r']).
Proof.
  intros (Hu & Hn & Hh & Hall) (Hs & hash & Hc & Hr' & Heq & Hsafe & ->)%append_Ok.
  assert (rec_record_hash r' = hash ∧ rec_seq r' = next_seq h ∧ rec_prev_hash r' = ch_head_hash h ∧
          rec_stream_id r' = rec_stream_id r) as (_ & Hseq & Hprev & Hsid) by (by rewrite Heq).
  assert (Forall (λ r, hash_text (rec_record_hash r)) rs) as Htext.
  { apply Forall_lookup. intros i x Hi. by apply (Hall i x Hi). }
  split_and!; [done| |by unfold head_of; rewrite last_snoc|].
  - cbn. rewrite length_app. cbn. pose proof (next_seq_u64 h) as [? _]%is_u64_spec.
    transitivity (next_seq h + 1); [|lia].
    apply wrap_u64_id, is_u64_spec. unfold u64_max, MAX_SAFE_INTEGER in *. lia.
  - intros i x [Hi|[Hlen Hx]]%lookup_app_Some.
    + apply record_placed_snoc; auto.
    + apply list_lookup_singleton_Some in Hx as [Hi <-].
      assert (i = length rs) as -> by lia. unfold record_placed.
      rewrite take_app_length, Hseq, Hprev, Hsid, Hr', Hs, Hu, Hh.
      split_and!; [done..|by apply head_of_text|by eapply compute_hash_text].
Qed.

Lemma head_run_ok u h rs : head_run u h rs → head_ok u h rs.
Proof.
  induction 1 as [|h rs r h' r' _ IH Ha|h rs r e h' r' _ IH Ha].
  - unfold head_ok. split_and!; [done..|]. intros i r Hi. by rewrite lookup_nil in Hi.
  - by eapply head_ok_append.
  - unfold append in Ha. case_decide; [by simplify_eq|].
    destruct (finalize _) as [[]|]; by simplify_eq.
Qed.
End head_facts.

Section appended.
Context `{Blake3} `{UlidApi} `{ChronoApi}.

(** Clocks of consecutive records, as the recorder wrote them. *)
Fixpoint clocks_from (prev : EvRecord) (rs : list EvRecord) : bool :=
  match rs with
  | [] => true
  | r :: rs => clock_ok (view_of prev) (view_of r) && clocks_from r rs
  end.

Definition clocks_ok (rs : list EvRecord) : bool :=
  match rs with [] => true | r :: rs => clocks_from r rs end.

Lemma append_self_hashed h r h' r' :
  is_u64 (rec_ts_mono_ns r) = true → append h r = (Ok tt, h', r') →
  self_hashed (to_value r') (view_of r').
Proof.
  intros Hm (_ & hash & Hh & Hrh & Hr & _)%append_Ok. split.
  - apply from_value_record; subst r'; [apply next_seq_u64|done].
  - change (compute_hash r' = Ok (rec_record_hash r')). by rewrite Hh, Hrh.
Qed.

(** The records appended after [p] follow it, with consecutive sequences. *)
Lemma append_all_linked p rs h h' rs' :
  h = resume (ch_stream_id h) (rec_record_hash p) (rec_seq p) →
  0 ≤ rec_seq p ≤ MAX_SAFE_INTEGER →
  clocks_from p rs = true → Forall (λ r, is_u64 (rec_ts_mono_ns r) = true) rs →
  append_all h rs = Ok (h', rs') →
  Forall2 self_hashed (to_value <$> rs') (view_of <$> rs') ∧
  Forall (λ v, rv_stream_id v = ulid_to_string (ch_stream_id h)) (view_of <$> rs') ∧
  linked_from (view_of p) (view_of <$> rs') ∧
  rec_seq <$> rs' = seqZ (rec_seq p + 1) (Z.of_nat (length rs)) ∧
  Some (ch_head_hash h') = rec_record_hash <$> last (p :: rs').
Proof.
  revert p h rs'; induction rs as [|r rs IH]; intros p h rs' Hh Hp Hc Hm Ha.
  - injection Ha as <- <-. rewrite Hh. repeat split; constructor.
  - apply append_all_cons in Ha as (h1 & r1 & rs1 & Hap & Ha & ->).
    apply Forall_cons in Hm as [Hm1 Hm]. cbn in Hc. apply andb_true_iff in Hc as [Hc1 Hc].
    pose proof (append_self_hashed _ _ _ _ Hm1 Hap) as Hsh.
    apply append_Ok in Hap as (Hsid & hash & _ & Hrh & Hr & Hsafe & Hh1).
    assert (next_seq h = rec_seq p + 1) as Hn.
    { rewrite Hh. cbn. apply wrap_u64_id, is_u64_spec. unfold u64_max, MAX_SAFE_INTEGER in *. lia. }
    rewrite Hn in *.
    destruct (IH r1 h1 rs1) as (H2 & Hst & Hl & Hseq & Hhd); try done.
    { by rewrite Hh1, Hr. } { rewrite Hr. cbn. lia. } { rewrite Hr. by destruct rs. }
    rewrite Hh1 in Hst. cbn in Hst. rewrite Hr in Hseq. cbn in Hseq.
    cbn [fmap list_fmap length]. repeat split.
    + by constructor.
    + constructor; [by rewrite Hr|done].
    + rewrite Hr. cbn. lia.
    + intros _. by rewrite Hr.
    + rewrite Hr, Hh. done.
    + by rewrite Hr.
    + done.
    + rewrite seqZ_cons by lia. rewrite Hr. cbn [rec_seq set_record_hash set_link]. f_equal.
      rewrite Hseq. f_equal; lia.
    + by rewrite Hhd.
Qed.
End appended.

(** The whole stream, from genesis. *)
Lemma appended_stream_clean `{Blake3} `{UlidApi, !UlidLaws} `{ChronoApi} u rs h' rs' :
  append_all (genesis u) rs = Ok (h', rs') →
  clocks_ok rs = true → Forall (λ r, is_u64 (rec_ts_mono_ns r) = true) rs →
  ∃ sv sv', new_verifier (ulid_to_string u) = Ok sv ∧
    verify_stream sv (to_value <$> rs') = Ok (sv', []) ∧
    sv_head sv' = (if decide (rs = []) then None else Some (ch_head_hash h')) ∧
    rec_seq <$> rs' = seqZ 0 (Z.of_nat (length rs)).
Proof.
  intros Ha Hc Hm.
  destruct (new_verifier (ulid_to_string u)) as [sv|] eqn:Hn;
    [|unfold new_verifier in Hn; by rewrite ulid_parse_to_string in Hn].
  exists sv. setoid_rewrite (new_stream_clean (ulid_to_string u)); [|done].
  enough (chain_ok (ulid_to_string u) (sv_genesis sv) (to_value <$> rs') (view_of <$> rs') ∧
          rv_record_hash <$> last (view_of <$> rs') =
            (if decide (rs = []) then None else Some (ch_head_hash h')) ∧
          rec_seq <$> rs' = seqZ 0 (Z.of_nat (length rs))) as (Hok & Hhd & Hseq).
  { exists (advance_all sv (view_of <$> rs')). split; [done|]. split; [by eexists|].
    by erewrite clean_head. }
  destruct rs as [|r rs]; [injection Ha as <- <-; repeat split; (done || constructor)|].
  apply append_all_cons in Ha as (h1 & r1 & rs1 & Hap & Ha & ->).
  apply Forall_cons in Hm as [Hm1 Hm].
  pose proof (append_self_hashed _ _ _ _ Hm1 Hap) as Hsh.
  apply append_Ok in Hap as (Hsid & hash & _ & Hrh & Hr & _ & Hh1). cbn in Hsid.
  destruct (append_all_linked r1 rs h1 h' rs1) as (H2' & Hst & Hl & Hseq & Hhd); try done.
  { by rewrite Hh1, Hr. } { by rewrite Hr. } { rewrite Hr. by destruct rs. }
  assert (rv_stream_id (view_of r1) = ulid_to_string u) by (by rewrite Hr).
  rewrite Hh1 in Hst. rewrite decide_False by done. rewrite fmap_last. split_and!.
  - split_and!; [by constructor|by constructor| |done].
    intros v [= <-] _. apply new_verifier_Ok in Hn as (_ & _ & _ & w & Hw & ->).
    rewrite ulid_parse_to_string in Hw. injection Hw as <-. by rewrite Hr.
  - rewrite Hhd. by destruct (last _).
  - cbn. rewrite Hseq, (seqZ_cons 0) by lia. rewrite Hr. cbn. f_equal. f_equal; lia.
Qed.

(** ** Properties *)

(** Every branch of [ChainHead::append]. On success the record is linked
    (the next sequence, the head hash), carries its own hash and becomes the
    head, and the next sequence does not wrap. On a stream mismatch nothing
    changes; the only other failure is a number outside the safe range, which
    leaves the head as it was and the record linked but not hashed. *)
Theorem append_spec `{Blake3} `{UlidApi} h r :
  match append h r with
  | (Ok _, h', r') =>
    rec_stream_id r = ulid_to_string (ch_stream_id h) ∧
    rec_seq r' = next_seq h ∧ rec_prev_hash r' = ch_head_hash h ∧
    compute_hash r' = Ok (rec_record_hash r') ∧
    h' = resume (ch_stream_id h) (rec_record_hash r') (rec_seq r') ∧
    next_seq h ≤ MAX_SAFE_INTEGER ∧ next_seq h' = next_seq h + 1
  | (Err e, h', r') =>
    h' = h ∧
    ((rec_stream_id r ≠ ulid_to_string (ch_stream_id h) ∧ r' = r ∧
      e = Schema "record stream_id does not match chain stream") ∨
     (rec_stream_id r = ulid_to_string (ch_stream_id h) ∧
      r' = set_link (next_seq h) (ch_head_hash h) r ∧ e = UnsafeNumber))
  end.
Proof.
  destruct (append h r) as [[[[]|e] h'] r'] eqn:Ha.
  - apply append_Ok in Ha as (Hs & hash & Hh & Hrh & -> & Hsafe & ->). repeat split; try done.
    cbn. pose proof (next_seq_u64 h) as Hu%is_u64_spec.
    apply wrap_u64_id, is_u64_spec. unfold u64_max, MAX_SAFE_INTEGER in *. lia.
  - unfold append in Ha. case_decide; [injection Ha as <- <- <-; eauto 10|].
    destruct (finalize _) as [[]|] eqn:Hf; [done|]. injection Ha as <- <- <-.
    apply finalize_Err in Hf as ->. split; [done|]. right. eauto.
Qed.

(** C9: The streaming verifier implements the abstract chain: it reports no
    finding on a stream exactly when every record has the fields of a view and
    its own hash, belongs to the stream, the first record links to the genesis
    sentinel if its sequence is 0, and every record follows its predecessor
    (increasing sequence, by one within a segment, linked hash, clocks). *)
Theorem clean_stream_iff `{Blake3} `{UlidApi} `{ChronoApi} sid u sv raws :
  ulid_parse sid = Some u → new_verifier sid = Ok sv →
  (∃ sv', verify_stream sv raws = Ok (sv', [])) ↔
  (∃ vs, chain_ok sid (genesis_prev_hash u) raws vs).
Proof.
  intros Hu Hn. assert (sv_genesis sv = genesis_prev_hash u) as <-.
  { apply new_verifier_Ok in Hn as (_ & _ & _ & w & Hw & ->). by simplify_eq. }
  split.
  - intros [sv' Hv]. apply (new_stream_clean sid) in Hv as (vs & ? & _); eauto.
  - intros [vs Hc]. exists (advance_all sv vs). apply (new_stream_clean sid); eauto.
Qed.

(** C14: The invariant of a chain head. After any sequence of calls of [append]
    from genesis, the failed ones included, the next sequence is the number of
    accepted records, the head hash is the hash of the last of them (or the
    genesis sentinel), and every accepted record is in its place: its sequence
    is its position and a safe integer, it links to its predecessor, and both of
    its hashes are well-formed digests, the second one its own. *)
Theorem head_invariant `{Blake3, !Blake3Len} `{UlidApi} u h rs :
  head_run u h rs →
  ch_stream_id h = u ∧ next_seq h = Z.of_nat (length rs) ∧ ch_head_hash h = head_of u rs ∧
  hash_text (ch_head_hash h) ∧ ∀ i r, rs !! i = Some r → record_placed u rs i r.
Proof.
  intros (Hu & Hn & Hh & Hall)%head_run_ok. split_and!; [done..| |done].
  rewrite Hh. apply head_of_text, Forall_lookup. intros i x Hi. by apply (Hall i x Hi).
Qed.

(** A two-record stream, appended with the concrete parameters. *)
Definition two_records : list EvRecord :=
  [sample_record (str "S") (str "G") (str "1000") 0;
   sample_record (str "S") (str "G") (str "900") 1].

Definition two_raws : list value :=
  Eval vm_compute in
  match @append_all poly_blake3 text_ulid (@genesis poly_blake3 text_ulid (str "S")) two_records with
  | Ok (_, rs) => to_value <$> rs
  | Err _ => []
  end.

Definition sv_S : StreamVerifier :=
  {| sv_stream_id := str "S"; sv_genesis := @genesis_prev_hash poly_blake3 text_ulid (str "S");
     sv_prev := None; sv_prev_wall_ms := None; sv_records_verified := 0 |}.

Lemma clean_stream_iff_witness :
  ∃ vs, @chain_ok poly_blake3 millis_chrono (str "S")
    (@genesis_prev_hash poly_blake3 text_ulid (str "S")) two_raws vs.
Proof.
  apply (@clean_stream_iff poly_blake3 text_ulid millis_chrono (str "S") (str "S") sv_S two_raws);
    [reflexivity|reflexivity|]. eexists. vm_compute. reflexivity.
Defined.

(** A record of another stream is rejected on the way. *)
Lemma head_invariant_witness :
  ∃ h rs, @head_run poly_blake3 text_ulid (str "S") h rs ∧ length rs = 1%nat ∧
    @next_seq text_ulid h = 1.
Proof.
  set (h0 := @genesis poly_blake3 text_ulid (str "S")).
  destruct (@append poly_blake3 text_ulid h0 (sample_record (str "T") (str "G") (str "1000") 0))
    as [[[[]|e] h1] r1] eqn:H1; [vm_compute in H1; discriminate|].
  destruct (@append poly_blake3 text_ulid h1 (sample_record (str "S") (str "G") (str "1000") 0))
    as [[[[]|e2] h2] r2] eqn:H2.
  - exists h2, [r2]. pose proof (@run_append poly_blake3 text_ulid _ _ [] _ _ _
      (@run_rejected poly_blake3 text_ulid _ _ _ _ _ _ _ (@run_genesis poly_blake3 text_ulid _) H1) H2) as Hr.
    split; [exact Hr|]. split; [reflexivity|].
    by apply (@head_invariant poly_blake3 poly_blake3_len text_ulid) in Hr as (_ & -> & _).
  - exfalso. vm_compute in H1. injection H1 as _ <- _. vm_compute in H2. discriminate.
Defined.

(** What the recorder writes verifies: records appended from genesis, with
    clocks that do not regress beyond the tolerance, are a stream without
    findings whose head is the writer's head, and their sequences count from
    zero. *)
Theorem appended_stream_verifies `{Blake3} `{UlidApi, !UlidLaws} `{ChronoApi} u rs h' rs' :
  append_all (genesis u) rs = Ok (h', rs') →
  clocks_ok rs = true → Forall (λ r, is_u64 (rec_ts_mono_ns r) = true) rs →
  ∃ sv sv', new_verifier (ulid_to_string u) = Ok sv ∧
    verify_stream sv (to_value <$> rs') = Ok (sv', []) ∧
    sv_head sv' = (if decide (rs = []) then None else Some (ch_head_hash h')) ∧
    rec_seq <$> rs' = seqZ 0 (Z.of_nat (length rs)).
Proof. apply appended_stream_clean. Qed.

Lemma appended_stream_verifies_witness :
  ∃ sv sv', @new_verifier poly_blake3 text_ulid (str "S") = Ok sv ∧
    @verify_stream poly_blake3 text_ulid millis_chrono sv two_raws = Ok (sv', []) ∧
    is_Some (sv_head sv').
Proof.
  assert (∃ h' rs', @append_all poly_blake3 text_ulid (@genesis poly_blake3 text_ulid (str "S"))
    two_records = Ok (h', rs') ∧ to_value <$> rs' = two_raws) as (h' & rs' & Ha & Hr)
    by (do 2 eexists; split; vm_compute; reflexivity).
  destruct (@appended_stream_verifies poly_blake3 text_ulid text_ulid_laws millis_chrono
    (str "S") two_records h' rs' Ha) as (sv & sv' & Hn & Hv & Hh & _);
    [vm_compute; reflexivity|by_compute|].
  exists sv, sv'. split; [exact Hn|]. split.
  - rewrite <-Hr. exact Hv.
  - rewrite Hh. eauto.
Defined.

(** C8: A verified stream is tamper-evident: two streams from sequence 0
    without findings and with the same head hash hold the same records, up to
    canonical form, unless BLAKE3 collides on the hashed forms of these very
    records. In particular neither is a strict prefix of the other, and no
    record was changed, dropped, inserted or reordered. *)
Theorem stream_tamper_evident `{Blake3} `{UlidApi} `{ChronoApi} sid1 sid2 s1 s2 raws1 raws2 t1 t2 :
  new_verifier sid1 = Ok s1 → new_verifier sid2 = Ok s2 →
  verify_stream s1 raws1 = Ok (t1, []) → verify_stream s2 raws2 = Ok (t2, []) →
  Forall (λ v, wf_value v = true) (raws1 ++ raws2) →
  first_seq raws1 = Some 0 →
  first_seq raws2 = Some 0 →
  sv_head t1 = sv_head t2 →
  collision_free_on blake3_hash (hash_input <$> raws1 ++ raws2) →
  canonical <$> raws1 = canonical <$> raws2.
Proof.
  intros Hn1 Hn2 Hv1 Hv2 Hwf Hz1 Hz2 Hhd Hcf.
  apply (new_stream_clean _ _ _ _ Hn1) in Hv1 as (vs1 & Hc1 & ->).
  apply (new_stream_clean _ _ _ _ Hn2) in Hv2 as (vs2 & Hc2 & ->).
  rewrite (clean_head _ _ _ _ Hn1 Hc1), (clean_head _ _ _ _ Hn2 Hc2) in Hhd.
  destruct Hc1 as (Hs1 & _ & _ & Hl1), Hc2 as (Hs2 & _ & _ & Hl2).
  eapply head_determines; eauto using starts_at_zero_raws.
Qed.

(** The same records with their members in canonical order. *)
Lemma stream_tamper_evident_witness :
  canonical <$> two_raws = canonical <$> (canonical <$> two_raws).
Proof.
  assert (∃ t, @verify_stream poly_blake3 text_ulid millis_chrono sv_S two_raws = Ok (t, []) ∧
    @verify_stream poly_blake3 text_ulid millis_chrono sv_S (canonical <$> two_raws) = Ok (t, []))
    as (t & Hv & Hw) by (eexists; split; vm_compute; reflexivity).
  apply (@stream_tamper_evident poly_blake3 text_ulid millis_chrono (str "S") (str "S") sv_S sv_S
    two_raws (canonical <$> two_raws) t t); [reflexivity|reflexivity|exact Hv|exact Hw|by_compute
    |vm_compute; reflexivity|vm_compute; reflexivity|reflexivity|by_compute].
Defined.

(** A record that opens a new segment with the break sentinel is reported
    as a segment break, any other unlinked record as a broken link, and a
    linked record not at all. *)
Theorem link_findings_spec `{Blake3} `{UlidApi} prev v :
  match link_findings prev v with
  | [] => rv_prev_hash v = rv_record_hash prev
  | [SegmentBreak seg seq] =>
    seg = rv_segment_id v ∧ seq = rv_seq v ∧ rv_segment_id prev ≠ rv_segment_id v ∧
    rv_prev_hash v ≠ rv_record_hash prev ∧
    ∃ stream segment, ulid_parse (rv_stream_id v) = Some stream ∧
      ulid_parse (rv_segment_id v) = Some segment ∧
      rv_prev_hash v = segment_break_prev_hash stream segment
  | [LinkBroken seq expected found] =>
    seq = rv_seq v ∧ expected = rv_record_hash prev ∧ found = rv_prev_hash v ∧ expected ≠ found ∧
    (rv_segment_id prev = rv_segment_id v ∨ is_segment_break v = false)
  | _ => False
  end.
Proof.
  unfold link_findings, same_segment. case_decide; [done|].
  destruct (bool_decide _) eqn:Hseg; cbn.
  - apply bool_decide_eq_true in Hseg. repeat split; auto.
  - apply bool_decide_eq_false in Hseg. destruct (is_segment_break v) eqn:Hb; [|repeat split; auto].
    unfold is_segment_break in Hb. destruct (ulid_parse (rv_stream_id v)), (ulid_parse (rv_segment_id v));
      try done. apply bool_decide_eq_true in Hb. eauto 10.
Qed.

(** The wall clock of the first record is not checked: no finding about it
    is reported, even if [ts_wall] does not parse. *)
Theorem first_record_wall_unchecked `{Blake3} `{UlidApi} `{ChronoApi} sv raw sv' fs :
  sv_prev sv = None → verify_next sv raw = Ok (sv', fs) →
  Forall (λ f, match f with BadWallTimestamp _ _ | WallRegression _ _ => False | _ => True end) fs.
Proof.
  intros Hp. unfold verify_next. rewrite Hp. intros (v & _ & (c & _ & Heq)%bind_Ok)%bind_Ok.
  injection Heq as _ <-. unfold genesis_findings, push_if.
  repeat (apply Forall_app; split); case_match; repeat constructor.
Qed.

(** A first record whose wall clock is not a timestamp. *)
Definition bad_wall_raw : value :=
  match @append poly_blake3 text_ulid (@genesis poly_blake3 text_ulid (str "S"))
          (sample_record (str "S") (str "G") (str "noon") 0) with
  | (_, _, r) => to_value r
  end.

Lemma first_record_wall_unchecked_witness :
  ∃ sv', @verify_next poly_blake3 text_ulid millis_chrono sv_S bad_wall_raw = Ok (sv', []) ∧
    Forall (λ f, match f with BadWallTimestamp _ _ | WallRegression _ _ => False | _ => True end) [].
Proof.
  eexists. assert (∀ r, r = @verify_next poly_blake3 text_ulid millis_chrono sv_S bad_wall_raw →
    ∀ sv', r = Ok (sv', []) → r = Ok (sv', []) ∧ Forall (λ f, match f with
      BadWallTimestamp _ _ | WallRegression _ _ => False | _ => True end) []) as Haux.
  { intros r Hr sv' Hv. split; [exact Hv|].
    apply (@first_record_wall_unchecked poly_blake3 text_ulid millis_chrono sv_S bad_wall_raw sv' []);
      [reflexivity|]. rewrite <-Hr. exact Hv. }
  apply (Haux _ eq_refl). vm_compute. reflexivity.
Defined.
