(* ===== verification/Recorder.v ===== *)
(** * The recorder at work (evidence/src/record.rs and evidence/src/chain.rs)

    When [ChainHead::append] succeeds, and that what a recorder with a steady
    clock appends verifies; with the wall-clock helper and the constructor of
    sample records. *)

From Stdlib Require Import Sorting.Sorted.
From S2P Require Import Prelude Text Errors Hash Json Jcs JcsFacts Record Chain.

(** ** Wall clocks *)

(** [DateTime<Utc>::format] with the pattern of [format_wall]. *)
Class ChronoFormat `{ChronoApi} := format_utc_millis : datetime → rstring.

Definition format_wall `{ChronoFormat} (ts : datetime) : rstring := format_utc_millis ts.

(** A time of the years 1970 to 9999 parses back to the millisecond. *)
Definition in_years (ms : Z) : Prop := 0 ≤ ms < 253402300800000.

Class ChronoFormatLaws `{ChronoFormat} : Prop :=
  format_parses : ∀ t, in_years (timestamp_millis t) →
    ∃ t', parse_from_rfc3339 (format_utc_millis t) = Some t' ∧ timestamp_millis t' = timestamp_millis t.

(** ** Sample records *)

(** [Ulid::from_parts]. *)
Class UlidParts `{UlidApi} := ulid_from_parts : Z → Z → ulid.

(** [{:02}] of a [u64]. *)
Definition two_digits (z : Z) : rstring :=
  let digits := b2z <$> dec_bytes z in replicate (2 - length digits) 48 ++ digits.

Definition sample_unchained `{UlidParts} (stream segment : ulid) (i : Z) : EvRecord :=
  {| rec_schema_version := SCHEMA_VERSION;
     rec_record_id := ulid_to_string (ulid_from_parts (Z.max (wrap_u64 (i * 1000)) 1) (i + 1));
     rec_stream_id := ulid_to_string stream; rec_segment_id := ulid_to_string segment;
     rec_seq := 0; rec_ts_wall := str "2026-08-11T12:00:" ++ two_digits (i mod 60) ++ str ".000Z";
     rec_ts_mono_ns := wrap_u64 (i * 1000000); rec_record_type := Operation;
     rec_recorder := {| ri_recorder_id := ulid_to_string (ulid_from_parts 1 3);
                        ri_version := str "0.1.0"; ri_host_fingerprint := str "abc";
                        ri_platform := str "linux-x86_64" |};
     rec_subject := {| sub_agent_kind := str "claude-code"; sub_agent_session := str "sess-1";
                       sub_human_principal := Some (str "dev@example.com");
                       sub_attribution := Attributed; sub_source := str "oidc-hook" |};
     rec_action := {| act_integration := str "sql"; act_operation := str "query";
                      act_verb_class := str "bounded_write";
                      act_target_resource := str "db:prod-main";
                      act_resource_labels := [str "env:prod"] |};
     rec_action_detail := None;
     rec_payload_commitment := Some {| pc_alg := str "blake3-salted";
                                       pc_commitment := mjoin (replicate 32 (str "00")) |};
     rec_payload_ref := None;
     rec_verdict := Some {| vd_decision := Allow; vd_mode := Observe; vd_risk_class := Medium;
                            vd_policy_version := 1; vd_rule_ids := [str "default"];
                            vd_reason_codes := [];
                            vd_guard := {| gr_name := str "sql"; gr_version := str "0.1.0" |};
                            vd_eval_ms := 2 |};
     rec_approval_ref := None; rec_links := None; rec_prev_hash := []; rec_record_hash := [] |}.

(** ** Records that can be hashed *)

(** The numbers of a record, but for its sequence, are at their types. *)
Definition numbers_typed (r : EvRecord) : bool :=
  is_u64 (rec_ts_mono_ns r) &&
  match rec_verdict r with
  | Some v => is_u64 (vd_policy_version v) && is_u64 (vd_eval_ms v)
  | None => true
  end.

(** And they are safe integers, those in the free-form detail included. *)
Definition recordable (r : EvRecord) : bool :=
  (rec_ts_mono_ns r <=? MAX_SAFE_INTEGER) &&
  match rec_action_detail r with Some v => safe_value v | None => true end &&
  match rec_verdict r with
  | Some v => (vd_policy_version v <=? MAX_SAFE_INTEGER) && (vd_eval_ms v <=? MAX_SAFE_INTEGER)
  | None => true
  end.

Lemma safe_u64 z : is_u64 z = true → safe_value (u64_value z) = (z <=? MAX_SAFE_INTEGER).
Proof.
  intros Hz. apply eq_bool_prop_intro. cbn [safe_value u64_value].
  rewrite bool_decide_spec, Is_true_true, Z.leb_le. apply is_u64_spec in Hz as Hr.
  assert (wf_number (Int z) = true) as Hw.
  { cbn. unfold i64_min in *. lia. }
  split.
  - intros [y Hy]. apply int_spec in Hy as [<- Hy]; [lia|done].
  - intros Hle. exists z. apply int_spec; [done|]. split; [done|lia].
Qed.

Abbreviation safe_members := (forallb (λ e : rstring * value, safe_value e.2)).

Lemma safe_strings l : forallb safe_value (String <$> l) = true.
Proof. by induction l. Qed.

Lemma safe_vec_field k l : safe_members (vec_field k (String <$> l)) = true.
Proof. destruct l as [|s l]; [done|]. cbn. by rewrite safe_strings. Qed.

Lemma safe_opt_field {A} k (f : A → value) o :
  safe_members (opt_field k (f <$> o)) =
    match o with Some x => safe_value (f x) | None => true end.
Proof. destruct o as [x|]; [|done]. cbn. by rewrite andb_true_r. Qed.

Lemma safe_object m : safe_value (Object m) = forallb (λ e, safe_value e.2) m.
Proof. done. Qed.

Lemma safe_verdict v :
  is_u64 (vd_policy_version v) = true → is_u64 (vd_eval_ms v) = true →
  safe_value (to_value v) = (vd_policy_version v <=? MAX_SAFE_INTEGER) && (vd_eval_ms v <=? MAX_SAFE_INTEGER).
Proof.
  intros Hp He. unfold to_value, Verdict_serialize. rewrite safe_object, !forallb_app, !safe_vec_field.
  cbn -[u64_value MAX_SAFE_INTEGER]. rewrite !safe_u64 by done. by rewrite !andb_true_r.
Qed.

Lemma safe_subject (x : Subject) : safe_value (to_value x) = true.
Proof.
  unfold to_value, Subject_serialize. rewrite safe_object, ?forallb_app, ?safe_opt_field.
  by destruct (sub_human_principal x).
Qed.

Lemma safe_action (x : Action) : safe_value (to_value x) = true.
Proof. unfold to_value, Action_serialize. by rewrite safe_object, ?forallb_app, ?safe_vec_field. Qed.

Lemma safe_links (x : Links) : safe_value (to_value x) = true.
Proof.
  unfold to_value, Links_serialize. rewrite safe_object, safe_opt_field. by destruct (ln_request_record_id x).
Qed.

(** The optional members other than the detail and the verdict hold no number. *)
Lemma safe_options r :
  safe_members
    (opt_field "payload_commitment" (to_value <$> rec_payload_commitment r)) = true ∧
  safe_members
    (opt_field "payload_ref" (to_value <$> rec_payload_ref r)) = true ∧
  safe_members
    (opt_field "approval_ref" (to_value <$> rec_approval_ref r)) = true ∧
  safe_members (opt_field "links" (to_value <$> rec_links r)) = true.
Proof.
  rewrite !safe_opt_field. split_and!.
  - by destruct (rec_payload_commitment r).
  - by destruct (rec_payload_ref r).
  - by destruct (rec_approval_ref r).
  - destruct (rec_links r); [apply safe_links|done].
Qed.

(** A record can be hashed exactly if its numbers are safe. *)
Lemma safe_record s prev r :
  is_u64 s = true → numbers_typed r = true →
  safe_value (to_value (set_link s prev r)) = (s <=? MAX_SAFE_INTEGER) && recordable r.
Proof.
  intros Hs [Hm Hv]%andb_true_iff. destruct (safe_options r) as (Hpc & Hpr & Har & Hln).
  change (to_value (set_link s prev r)) with (Object (record_fields (set_link s prev r))).
  rewrite safe_object. unfold record_fields.
  cbn [set_link rec_schema_version rec_record_id rec_stream_id rec_segment_id rec_seq rec_ts_wall
    rec_ts_mono_ns rec_record_type rec_recorder rec_subject rec_action rec_action_detail
    rec_payload_commitment rec_payload_ref rec_verdict rec_approval_ref rec_links rec_prev_hash
    rec_record_hash].
  rewrite !forallb_app, Hpc, Hpr, Har, Hln. cbn [forallb snd].
  rewrite !safe_u64, safe_subject, safe_action by done.
  assert (safe_value (to_value (rec_recorder r)) = true) as -> by done.
  rewrite (safe_opt_field "verdict"). unfold recordable.
  assert (safe_members (opt_field "action_detail" (rec_action_detail r)) =
    match rec_action_detail r with Some v => safe_value v | None => true end) as ->
    by (destruct (rec_action_detail r); [|done]; cbn; by rewrite andb_true_r).
  assert (match rec_verdict r with Some v => safe_value (to_value v) | None => true end =
    match rec_verdict r with
    | Some v => (vd_policy_version v <=? MAX_SAFE_INTEGER) && (vd_eval_ms v <=? MAX_SAFE_INTEGER)
    | None => true
    end) as ->.
  { destruct (rec_verdict r) as [v|]; [|done]. apply andb_true_iff in Hv as []. by apply safe_verdict. }
  generalize (rec_action_detail r). intros o. cbn [safe_value andb]. rewrite !andb_true_r, !andb_assoc. done.
Qed.

(** ** Appending *)

Section append.
Context `{Blake3} `{UlidApi}.

Lemma safe_hashed r : safe_value (hashed_value (to_value r)) = safe_value (to_value r).
Proof.
  change (safe_members (map_remove (str "record_hash") (record_fields r)) =
    safe_members (record_fields r)).
  apply eq_bool_prop_intro. rewrite !Is_true_true, !forallb_Forall.
  rewrite (map_remove_perm _ _ _ (record_get_record_hash r)) at 2. rewrite Forall_cons. cbn. naive_solver.
Qed.

Lemma finalize_succeeds r : is_ok (finalize r) = safe_value (to_value r).
Proof.
  unfold finalize. rewrite compute_hash_hashed, <-safe_hashed. unfold to_jcs_bytes.
  pose proof (write_value_outcome (hashed_value (to_value r))) as Ho.
  destruct (write_value _); cbn in *; [done|]. by destruct Ho as [_ ->].
Qed.

(** [append] succeeds exactly for a record of its stream whose numbers are
    safe, as long as the sequences are. *)
Lemma append_succeeds h r :
  numbers_typed r = true →
  is_ok (append h r).1.1 = true ↔
    rec_stream_id r = ulid_to_string (ch_stream_id h) ∧ next_seq h ≤ MAX_SAFE_INTEGER ∧
    recordable r = true.
Proof.
  intros Ht. unfold append. case_decide as Hd; [by split; [|intros [? _]]|].
  pose proof (finalize_succeeds (set_link (next_seq h) (ch_head_hash h) r)) as Hf.
  rewrite safe_record in Hf by (done || apply next_seq_u64).
  rewrite <-Z.leb_le, <-andb_true_iff, <-Hf. destruct (finalize _) as [[]|]; cbn; naive_solver.
Qed.

Lemma next_resumed u hd s : is_u64 s = true → s ≤ MAX_SAFE_INTEGER → next_seq (resume u hd s) = s + 1.
Proof.
  intros [H1 _]%is_u64_spec H2. cbn. apply wrap_u64_id, is_u64_spec. unfold u64_max, MAX_SAFE_INTEGER in *. lia.
Qed.

(** What a recorder can append: records of the stream with safe numbers. *)
Definition fits (u : ulid) (r : EvRecord) : Prop :=
  rec_stream_id r = ulid_to_string u ∧ numbers_typed r = true ∧ recordable r = true.

Lemma append_all_succeeds h rs :
  Forall (fits (ch_stream_id h)) rs →
  next_seq h + Z.of_nat (length rs) ≤ MAX_SAFE_INTEGER + 1 →
  ∃ h' rs', append_all h rs = Ok (h', rs').
Proof.
  intros Hrs. revert h Hrs. induction rs as [|r rs IH]; intros h Hrs Hn; [by exists h, []|].
  apply Forall_cons in Hrs as [(Hs & Ht & Hr) Hrs]. cbn [length] in Hn.
  assert (is_ok (append h r).1.1 = true) as Hok by (apply append_succeeds; [done|]; split_and!; [done|lia|done]).
  cbn [append_all]. destruct (append h r) as [[[[]|] h1] r1] eqn:Ha; [|done].
  apply append_Ok in Ha as (_ & hash & _ & _ & _ & Hsafe & Hh1).
  destruct (IH h1) as (h' & rs' & ->).
  - by rewrite Hh1.
  - rewrite Hh1, next_resumed by (done || apply next_seq_u64). lia.
  - by exists h', (r1 :: rs').
Qed.
End append.

(** ** Steady clocks *)

Section clocks.
Context `{ChronoApi}.

(** A record with a wall time of so many milliseconds. *)
Definition stamped (p : EvRecord * Z) : Prop :=
  ∃ t, parse_from_rfc3339 (rec_ts_wall p.1) = Some t ∧ timestamp_millis t = p.2.

(** The monotonic clock does not go back within a segment, and the wall clock
    not by more than the tolerance. *)
Definition clock_step (a b : EvRecord * Z) : Prop :=
  (rec_segment_id a.1 = rec_segment_id b.1 → rec_ts_mono_ns a.1 ≤ rec_ts_mono_ns b.1) ∧
  a.2 - WALL_TOLERANCE_MS ≤ b.2.

Lemma clock_step_ok a b :
  stamped a → stamped b → clock_step a b → clock_ok (view_of a.1) (view_of b.1) = true.
Proof.
  intros (ta & Ha & Ea) (tb & Hb & Eb) [Hm Hw]. unfold clock_ok, parse_wall.
  cbn [view_of rv_ts_wall rv_ts_mono_ns rv_segment_id]. rewrite Ha, Hb. cbn [ok_or].
  apply andb_true_iff. split.
  - unfold same_segment. cbn [view_of rv_segment_id]. case_bool_decide; [|done].
    cbn. apply Z.leb_le. auto.
  - apply orb_true_iff. left. apply orb_true_iff. left. apply Z.leb_le. lia.
Qed.

Lemma steady_clocks ps : Forall stamped ps → Sorted clock_step ps → clocks_ok ps.*1 = true.
Proof.
  destruct ps as [|p ps]; [done|]. cbn [fmap list_fmap clocks_ok]. revert p.
  induction ps as [|q ps IH]; intros p Hst Hs; [done|].
  apply Forall_cons in Hst as [Hp Hst]. apply Sorted_inv in Hs as [Hs Hhd%HdRel_inv].
  cbn [fmap list_fmap clocks_from]. apply andb_true_iff. split; [|by apply IH].
  apply clock_step_ok; [done| |done]. by apply Forall_cons in Hst as [].
Qed.
End clocks.

(** A recorder with steady clocks appends its records, and they verify. *)
Lemma steady_recording `{Blake3} `{UlidApi, !UlidLaws} `{ChronoApi} u ps :
  Forall (fits u) ps.*1 → Z.of_nat (length ps) ≤ MAX_SAFE_INTEGER + 1 →
  Forall stamped ps → Sorted clock_step ps →
  ∃ h rs sv sv', append_all (genesis u) ps.*1 = Ok (h, rs) ∧
    new_verifier (ulid_to_string u) = Ok sv ∧ verify_stream sv (to_value <$> rs) = Ok (sv', []) ∧
    sv_head sv' = (if decide (ps = []) then None else Some (ch_head_hash h)) ∧
    rec_seq <$> rs = seqZ 0 (Z.of_nat (length ps)).
Proof.
  intros Hfit Hlen Hst Hs. destruct (append_all_succeeds (genesis u) ps.*1) as (h & rs & Ha).
  - done.
  - rewrite length_fmap. cbn. lia.
  - destruct (appended_stream_clean u ps.*1 h rs Ha) as (sv & sv' & Hn & Hv & Hhd & Hq).
    + by apply steady_clocks.
    + eapply Forall_impl; [exact Hfit|]. by intros r (_ & [? _]%andb_true_iff & _).
    + rewrite length_fmap in Hq. exists h, rs, sv, sv'. split_and!; try done. rewrite Hhd. by destruct ps.
Qed.

(** ** A stream of samples

    Within a minute, as the seconds of the sample's wall time start again. *)

Section samples.
Context `{Blake3} `{UlidApi, !UlidLaws, !UlidParts} `{ChronoApi}.
Context (noon : Z) (Hnoon : ∀ i, 0 ≤ i < 60 → ∃ t,
  parse_from_rfc3339 (str "2026-08-11T12:00:" ++ two_digits i ++ str ".000Z") = Some t ∧
  timestamp_millis t = noon + 1000 * i).
Context (stream segment : ulid).

Lemma sample_fits i : 0 ≤ i < 60 → fits stream (sample_unchained stream segment i).
Proof.
  intros Hi. assert (wrap_u64 (i * 1000000) = i * 1000000) as Hw
    by (apply wrap_u64_id, is_u64_spec; unfold u64_max; lia).
  split; [done|]. unfold numbers_typed, recordable.
  cbn [sample_unchained rec_ts_mono_ns rec_verdict rec_action_detail vd_policy_version vd_eval_ms].
  rewrite Hw. split; rewrite !andb_true_iff; split_and!; try done; [apply is_u64_spec|apply Z.leb_le];
    unfold u64_max, MAX_SAFE_INTEGER; lia.
Qed.

Lemma samples_sorted k m :
  0 ≤ m → m + Z.of_nat k ≤ 60 →
  Sorted clock_step ((λ i, (sample_unchained stream segment i, noon + 1000 * i)) <$> seqZ m (Z.of_nat k)).
Proof.
  revert m; induction k as [|k IH]; intros m Hm Hk; [constructor|].
  rewrite seqZ_cons by lia. rewrite fmap_cons. replace (Z.pred (Z.of_nat (S k))) with (Z.of_nat k) by lia.
  constructor; [apply IH; lia|]. destruct k as [|k]; [constructor|]. rewrite seqZ_cons by lia.
  rewrite fmap_cons. constructor. unfold clock_step.
  cbn [fst snd sample_unchained rec_ts_mono_ns rec_segment_id]. split; [|unfold WALL_TOLERANCE_MS; lia].
  intros _. rewrite !wrap_u64_id; [lia|apply is_u64_spec; unfold u64_max; lia..].
Qed.

(** Up to sixty samples are recorded and verify. *)
Theorem sample_stream_verifies n :
  0 ≤ n ≤ 60 →
  ∃ h rs sv sv', append_all (genesis stream) (sample_unchained stream segment <$> seqZ 0 n) = Ok (h, rs) ∧
    new_verifier (ulid_to_string stream) = Ok sv ∧ verify_stream sv (to_value <$> rs) = Ok (sv', []) ∧
    rec_seq <$> rs = seqZ 0 n.
Proof.
  intros Hn. set (ps := (λ i, (sample_unchained stream segment i, noon + 1000 * i)) <$> seqZ 0 n).
  assert (∀ i, i ∈ seqZ 0 n → 0 ≤ i < 60) as Hin by (intros i Hi%elem_of_seqZ; lia).
  assert (ps.*1 = sample_unchained stream segment <$> seqZ 0 n) as Hps
    by (unfold ps; by rewrite <-list_fmap_compose).
  assert (Z.of_nat (length ps) = n) as Hlen by (unfold ps; rewrite length_fmap, length_seqZ; lia).
  enough (∃ h rs sv sv', append_all (genesis stream) ps.*1 = Ok (h, rs) ∧
    new_verifier (ulid_to_string stream) = Ok sv ∧ verify_stream sv (to_value <$> rs) = Ok (sv', []) ∧
    sv_head sv' = (if decide (ps = []) then None else Some (ch_head_hash h)) ∧
    rec_seq <$> rs = seqZ 0 (Z.of_nat (length ps))) as (h & rs & sv & sv' & ? & ? & ? & _ & ?)
    by (rewrite <-Hps, <-Hlen; by exists h, rs, sv, sv').
  apply steady_recording.
  - rewrite Hps. apply Forall_fmap, Forall_forall. intros i Hi. by apply sample_fits, Hin.
  - rewrite Hlen. unfold MAX_SAFE_INTEGER. lia.
  - apply Forall_fmap, Forall_forall. intros i Hi%Hin. unfold stamped, compose.
    cbn [fst snd sample_unchained rec_ts_wall]. rewrite Z.mod_small by done. by apply Hnoon.
  - unfold ps. rewrite <-(Z2Nat.id n) by lia. apply samples_sorted; lia.
Qed.
End samples.

(** ** A concrete clock

    A time is as many zeros as it has milliseconds. *)

Definition unary_chrono : ChronoApi :=
  {| datetime := Z; parse_from_rfc3339 s := Some (Z.of_nat (length s)); timestamp_millis t := t;
     datetime_geb := Z.geb |}.

Definition unary_format : @ChronoFormat unary_chrono := λ t, replicate (Z.to_nat t) 48.

Lemma unary_format_laws : @ChronoFormatLaws unary_chrono unary_format.
Proof.
  intros t [Ht _]. eexists. split; [done|].
  change (Z.of_nat (length (replicate (Z.to_nat t) 48)) = t). rewrite length_replicate. by apply Z2Nat.id.
Qed.

Definition clocked_records : list (EvRecord * Z) :=
  [(sample_record (str "S") (str "G") (replicate 7 48) 0, 7);
   (sample_record (str "S") (str "G") (replicate 5 48) 1, 5);
   (sample_record (str "S") (str "G2") (replicate 9 48) 0, 9)].

(** ** Properties *)

(** C23: Recording does not fail on the way. [append] succeeds exactly for a
    record of the stream whose numbers are safe integers, while the sequences
    are; so a recorder that stamps such records with [format_wall] and whose
    clocks do not go back beyond the tolerance gets all of them appended from
    genesis, and the stream verifies without a finding: with sequences from zero
    and with the recorder's head as its head. A record whose
    [ts_mono_ns] exceeds 2^53 - 1 is refused. *)
Theorem recording_verifies `{Blake3} `{UlidApi, !UlidLaws} `{ChronoApi} `{!ChronoFormat}
    `{!ChronoFormatLaws} :
  (∀ h r, numbers_typed r = true →
     is_ok (append h r).1.1 = true ↔
       rec_stream_id r = ulid_to_string (ch_stream_id h) ∧ next_seq h ≤ MAX_SAFE_INTEGER ∧
       recordable r = true) ∧
  (∀ u (rts : list (EvRecord * datetime)),
     Forall (λ p, fits u p.1 ∧ rec_ts_wall p.1 = format_wall p.2 ∧ in_years (timestamp_millis p.2)) rts →
     Sorted clock_step (prod_map id timestamp_millis <$> rts) →
     Z.of_nat (length rts) ≤ MAX_SAFE_INTEGER + 1 →
     ∃ h rs sv sv', append_all (genesis u) rts.*1 = Ok (h, rs) ∧
       new_verifier (ulid_to_string u) = Ok sv ∧ verify_stream sv (to_value <$> rs) = Ok (sv', []) ∧
       sv_head sv' = (if decide (rts = []) then None else Some (ch_head_hash h)) ∧
       rec_seq <$> rs = seqZ 0 (Z.of_nat (length rts))).
Proof.
  split; [apply append_succeeds|]. intros u rts Hall Hs Hlen.
  assert (rts.*1 = (prod_map id timestamp_millis <$> rts).*1) as -> by (by rewrite <-list_fmap_compose).
  rewrite <-(length_fmap (prod_map id timestamp_millis) rts) in Hlen |- *.
  assert (∀ x : rstring, (if decide (rts = []) then None else Some x) =
    (if decide (prod_map id timestamp_millis <$> rts = []) then None else Some x)) as Hdec by (by destruct rts).
  setoid_rewrite Hdec. apply steady_recording; try done.
  - rewrite !Forall_fmap. eapply Forall_impl; [exact Hall|]. by intros p (? & _).
  - rewrite Forall_fmap. eapply Forall_impl; [exact Hall|]. intros p (_ & Hw & Hy).
    destruct (format_parses p.2 Hy) as (t & Hp & Ht). exists t. split; [|exact Ht].
    change (parse_from_rfc3339 (rec_ts_wall p.1) = Some t). rewrite Hw. exact Hp.
Qed.

Lemma recording_verifies_witness :
  ∃ h rs sv sv', @append_all poly_blake3 text_ulid (@genesis poly_blake3 text_ulid (str "S"))
      clocked_records.*1 = Ok (h, rs) ∧
    @new_verifier poly_blake3 text_ulid (str "S") = Ok sv ∧
    @verify_stream poly_blake3 text_ulid unary_chrono sv (to_value <$> rs) = Ok (sv', []) ∧
    sv_head sv' = Some (ch_head_hash h) ∧ rec_seq <$> rs = seqZ 0 3.
Proof.
  apply (proj2 (@recording_verifies poly_blake3 text_ulid text_ulid_laws unary_chrono unary_format
    unary_format_laws) (str "S") clocked_records).
  - unfold clocked_records. rewrite !Forall_cons, Forall_nil. split_and!; try done; by_compute.
  - repeat constructor; cbn; try lia; done.
  - cbn. unfold MAX_SAFE_INTEGER. lia.
Defined.
