(* ===== verification/Keys.v ===== *)
(** * Ed25519 keys and signatures over canonical forms (evidence/src/keys.rs)

    The [ed25519-dalek] crate is the parameter [Ed25519]; its documented
    behaviour (a signature made by a key verifies under its public key,
    signatures have 64 bytes and public keys 32) is [Ed25519Laws]. *)

From Stdlib Require Import Strings.Byte.
From S2P Require Import Prelude Text Errors Hash Json Jcs JcsFacts Record.

Class Ed25519 := {
  signing_key : Type;
  verifying_key : Type;
  ed_from_seed : bytes → signing_key;
  ed_to_bytes : signing_key → bytes;
  ed_public : signing_key → verifying_key;
  ed_sign : signing_key → bytes → bytes;
  ed_verify : verifying_key → bytes → bytes → bool;
  ed_vk_from_bytes : bytes → option verifying_key;
  ed_vk_as_bytes : verifying_key → bytes;
}.

Class Ed25519Laws `{Ed25519} : Prop := {
  ed_verify_sign : ∀ k msg, ed_verify (ed_public k) msg (ed_sign k msg) = true;
  ed_sign_length : ∀ k msg, length (ed_sign k msg) = 64%nat;
  ed_vk_length : ∀ k, length (ed_vk_as_bytes k) = 32%nat;
  ed_vk_decodes : ∀ k, is_Some (ed_vk_from_bytes (ed_vk_as_bytes k));
  ed_verify_same : ∀ k l msg sg, ed_vk_as_bytes k = ed_vk_as_bytes l →
    ed_verify k msg sg = ed_verify l msg sg;
  ed_vk_bytes : ∀ bs k, length bs = 32%nat → ed_vk_from_bytes bs = Some k → ed_vk_as_bytes k = bs;
}.

(** [SigningKey::generate] of the crate, which draws from the system. *)
Class KeyGen `{OsRng} `{Ed25519} := ed_generate : rng_state → signing_key * rng_state.

(** The [pkcs8] feature: private keys as PKCS#8, public keys as SPKI PEM. *)
Class Pkcs8 `{Ed25519} := {
  ed_to_pkcs8_pem : signing_key → option rstring;
  ed_from_pkcs8_pem : rstring → option signing_key;
}.

Class SpkiPem `{Ed25519} := {
  ed_vk_from_pem : rstring → option verifying_key;
  ed_vk_to_pem : verifying_key → option rstring;
}.

Class KeyPemLaws `{Ed25519} `{!Pkcs8} `{!SpkiPem} : Prop := {
  ed_to_from_seed : ∀ s, length s = 32%nat → ed_to_bytes (ed_from_seed s) = s;
  ed_pkcs8_pem : ∀ k pem, ed_to_pkcs8_pem k = Some pem → ed_from_pkcs8_pem pem = Some k;
  ed_spki_pem : ∀ k pem, ed_vk_to_pem k = Some pem → ed_vk_from_pem pem = Some k;
}.

Section keys.
Context `{Blake3} `{Ed25519}.

(** [SigningKey::generate], with the state of the system's source threaded. *)
Definition generate `{OsRng} `{!KeyGen} (rng : rng_state) : signing_key * rng_state :=
  ed_generate rng.

(** [SigningKey::from_seed], [verifying_key], [verifying_key_hex]. *)
Definition from_seed (seed : bytes) : Result signing_key :=
  if decide (length seed = 32%nat) then Ok (ed_from_seed seed)
  else Err (Key "seed must be 32 bytes").

Definition seed (k : signing_key) : bytes := ed_to_bytes k.

Definition to_pkcs8_pem `{!Pkcs8} (k : signing_key) : Result rstring :=
  ok_or (ed_to_pkcs8_pem k) (Key "pkcs8 export").

Definition from_pkcs8_pem `{!Pkcs8} (pem : rstring) : Result signing_key :=
  ok_or (ed_from_pkcs8_pem pem) (Key "pkcs8 import").

Definition public_key (k : signing_key) : verifying_key := ed_public k.

Definition verifying_key_hex (k : signing_key) : rstring := hex_encode (ed_vk_as_bytes (ed_public k)).

Definition sign_digest (k : signing_key) (digest : bytes) : rstring := hex_encode (ed_sign k digest).

Definition sign_jcs {A} `{Serialize A} (k : signing_key) (x : A) : Result rstring :=
  bs ← struct_to_jcs_bytes x;
  mret (sign_digest k (blake3_raw bs)).

Definition sign_bytes (k : signing_key) (bs : bytes) : rstring := sign_digest k (blake3_raw bs).

(** [VerifyingKey::from_bytes], [from_hex], [to_hex]. *)
Definition vk_from_bytes (bs : bytes) : Result verifying_key :=
  if decide (length bs = 32%nat) then ok_or (ed_vk_from_bytes bs) (Key "invalid public key")
  else Err (Key "public key must be 32 bytes").

Definition vk_from_hex (hex : rstring) : Result verifying_key :=
  bs ← hex_decode "public_key" hex; vk_from_bytes bs.

Definition vk_from_spki_pem `{!SpkiPem} (pem : rstring) : Result verifying_key :=
  ok_or (ed_vk_from_pem pem) (Key "spki import").

Definition vk_to_spki_pem `{!SpkiPem} (k : verifying_key) : Result rstring :=
  ok_or (ed_vk_to_pem k) (Key "spki export").

(** [Debug] for a signing key prints only the public key. *)
Definition signing_key_debug (k : signing_key) : rstring :=
  str "SigningKey { public: " ++ [0x22] ++ verifying_key_hex k ++ [0x22] ++ str ", .. }".

Definition vk_to_hex (k : verifying_key) : rstring := hex_encode (ed_vk_as_bytes k).

Definition verify_digest (k : verifying_key) (digest : bytes) (signature_hex : rstring)
    (context : string) : Result unit :=
  sig_bytes ← hex_decode "signature" signature_hex;
  if decide (length sig_bytes = 64%nat) then
    if ed_verify k digest sig_bytes then Ok tt else Err (SignatureInvalid context)
  else Err (SignatureInvalid (context +:+ ": signature must be 64 bytes")).

Definition verify_jcs {A} `{Serialize A} (k : verifying_key) (x : A) (signature_hex : rstring)
    (context : string) : Result unit :=
  bs ← struct_to_jcs_bytes x;
  verify_digest k (blake3_raw bs) signature_hex context.

Definition verify_bytes (k : verifying_key) (bs : bytes) (signature_hex : rstring)
    (context : string) : Result unit :=
  verify_digest k (blake3_raw bs) signature_hex context.
End keys.

(** ** Facts *)

Section facts.
Context `{Blake3} `{Ed25519}.

Lemma verify_digest_Ok k digest sg ctx :
  verify_digest k digest sg ctx = Ok tt ↔
  ∃ bs, hex_decode "signature" sg = Ok bs ∧ length bs = 64%nat ∧ ed_verify k digest bs = true.
Proof.
  unfold verify_digest. rewrite bind_Ok. apply exist_proper; intros bs.
  repeat case_match; naive_solver.
Qed.

Lemma verify_sign_digest `{!Ed25519Laws} k digest ctx :
  verify_digest (ed_public k) digest (sign_digest k digest) ctx = Ok tt.
Proof.
  apply verify_digest_Ok. exists (ed_sign k digest). unfold sign_digest.
  by rewrite hex_decode_encode, ed_sign_length, ed_verify_sign.
Qed.

Lemma verify_sign_jcs `{!Ed25519Laws} {A} `{Serialize A} k (x : A) sg ctx :
  sign_jcs k x = Ok sg → verify_jcs (ed_public k) x sg ctx = Ok tt.
Proof.
  unfold sign_jcs, verify_jcs. intros (bs & -> & Hs)%bind_Ok. injection Hs as <-. cbn.
  apply verify_sign_digest.
Qed.

(** The canonical bytes of a struct determine it. *)
Lemma struct_bytes_inj {A} `{Recover A} (x y : A) bs :
  wf_struct x = true → wf_struct y = true →
  wf_value (to_value x) = true → wf_value (to_value y) = true →
  struct_to_jcs_bytes x = Ok bs → struct_to_jcs_bytes y = Ok bs → x = y.
Proof. intros ??????. eapply canonical_struct_inj; eauto using jcs_inj. Qed.

(** The bytes that are signed for a struct. *)
Definition signed_bytes {A} `{Serialize A} (x : A) : bytes :=
  default [] (res_ok (struct_to_jcs_bytes x)).

(** [sg] is not a forgery: whatever 32-byte digest it verifies for is one of
    those that the holder of the key signed. *)
Definition not_forged (k : verifying_key) (sg : rstring) (signed : list bytes) : Prop :=
  ∀ digest bs, length digest = DIGEST_LEN → hex_decode "signature" sg = Ok bs →
    ed_verify k digest bs = true → digest ∈ signed.

(** A struct under a signature that is not a forgery is one that was signed. *)
Lemma verify_jcs_authentic `{!Blake3Len} {A} `{Recover A} k (x : A) sg ctx xs :
  verify_jcs k x sg ctx = Ok tt →
  not_forged k sg ((λ y, blake3_raw (signed_bytes y)) <$> xs) →
  collision_free_on blake3_hash (signed_bytes <$> x :: xs) →
  Forall (λ y, wf_struct y = true ∧ wf_value (to_value y) = true ∧
               is_ok (struct_to_jcs_bytes y) = true) xs →
  wf_struct x = true → wf_value (to_value x) = true →
  x ∈ xs.
Proof.
  unfold verify_jcs. intros (bs & Hbs & (s & Hs & _ & Hver)%verify_digest_Ok)%bind_Ok Hnf Hcf Hall Hx Hwx.
  apply Hnf in Hver; [|apply blake3_length|done].
  apply list_elem_of_fmap in Hver as (y & Heq & Hy).
  rewrite Forall_forall in Hall. destruct (Hall y Hy) as (Hwy & Hvy & [b Hb]%is_ok_true).
  assert (signed_bytes x = bs) as Hsx by (unfold signed_bytes; by rewrite Hbs).
  assert (signed_bytes y = b) as Hsy by (unfold signed_bytes; by rewrite Hb).
  assert (bs = b) as <-.
  { rewrite <-Hsx, <-Hsy. apply Hcf; [set_solver| |by rewrite Hsx].
    apply list_elem_of_fmap. exists y. split; [done|by right]. }
  by rewrite (struct_bytes_inj x y bs).
Qed.

(** A public key decodes from its own bytes. *)
Lemma decoded_key `{!Ed25519Laws} k :
  ∃ v, vk_from_bytes (ed_vk_as_bytes k) = Ok v ∧ ed_vk_as_bytes v = ed_vk_as_bytes k.
Proof.
  destruct (ed_vk_decodes k) as [v Hv]. exists v. unfold vk_from_bytes.
  rewrite decide_True by apply ed_vk_length. rewrite Hv. split; [done|].
  apply ed_vk_bytes; [apply ed_vk_length|done].
Qed.

Lemma vk_from_hex_Ok `{!Ed25519Laws} s k :
  vk_from_hex s = Ok k → hex_decode "public_key" s = Ok (ed_vk_as_bytes k).
Proof.
  unfold vk_from_hex, vk_from_bytes. intros (bs & Hd & Hk)%bind_Ok. rewrite Hd.
  case_decide as Hlen; [|done]. ok_inv. f_equal. symmetry. by apply ed_vk_bytes.
Qed.
End facts.

(** ** A concrete signature scheme for the witnesses *)

(** Bytes as the characters of a text, for the armoured forms. *)
Definition chars (bs : bytes) : list Z := b2z <$> bs.
Definition unchars (l : list Z) : bytes := z2b <$> l.

Lemma unchars_chars bs : unchars (chars bs) = bs.
Proof. unfold unchars, chars. induction bs as [|b bs IH]; cbn; [done|]. by rewrite z2b_b2z, IH. Qed.


Definition pad32 (bs : bytes) : bytes := resize 32 x00 bs.

(** A signature is the message next to the public key. *)
Definition toy_ed25519 : Ed25519 :=
  {| signing_key := bytes; verifying_key := bytes; ed_from_seed s := s; ed_to_bytes s := s;
     ed_public k := k; ed_sign k msg := pad32 msg ++ pad32 k;
     ed_verify k msg sg := bool_decide (sg = pad32 msg ++ pad32 k);
     ed_vk_from_bytes bs := Some bs; ed_vk_as_bytes k := pad32 k |}.

Lemma toy_ed25519_laws : @Ed25519Laws toy_ed25519.
Proof.
  split; cbn.
  - intros. by apply bool_decide_eq_true.
  - intros. unfold pad32. by rewrite length_app, !length_resize.
  - intros. unfold pad32. by rewrite length_resize.
  - intros k. by eexists.
  - intros k l msg sg ->. done.
  - intros bs k Hlen [= <-]. unfold pad32. by rewrite resize_all_alt.
Qed.

Lemma toy_not_forged k (sg : rstring) ms :
  (∃ m, m ∈ ms ∧ length m = 32%nat ∧ hex_decode "signature" sg = Ok (m ++ pad32 k)) →
  @not_forged toy_ed25519 k sg ms.
Proof.
  intros (m & Hm & Hlen & Hs) d bs Hd Hbs Hv. cbn in Hv. apply bool_decide_eq_true in Hv.
  assert (m ++ pad32 k = pad32 d ++ pad32 k) as Heq by congruence.
  apply app_inj_2 in Heq as [-> _]; [|done]. unfold pad32 in Hm.
  by rewrite resize_all_alt in Hm.
Qed.

Definition toy_pkcs8 : @Pkcs8 toy_ed25519 :=
  @Build_Pkcs8 toy_ed25519 (λ k : bytes, Some (chars k)) (λ pem, Some (unchars pem)).

Definition toy_spki : @SpkiPem toy_ed25519 :=
  @Build_SpkiPem toy_ed25519 (λ pem, Some (unchars pem)) (λ k : bytes, Some (chars k)).

Lemma toy_pem_laws : @KeyPemLaws toy_ed25519 toy_pkcs8 toy_spki.
Proof. split; try done; by intros k pem [= <-]; cbn; rewrite unchars_chars. Qed.

(** ** Properties *)

(** Keys survive export: the seed of a key made from a seed is that seed, a
    signing key comes back from its PKCS#8 form and a public key from its SPKI
    form, and the key read from the hexadecimal form has the same bytes, so a
    key rebuilt either way accepts what the original signs. *)
Theorem key_round_trips `{Ed25519, !Ed25519Laws} `{!Pkcs8} `{!SpkiPem} `{!KeyPemLaws} s k pem vpem :
  from_seed s = Ok k → to_pkcs8_pem k = Ok pem → vk_to_spki_pem (public_key k) = Ok vpem →
  seed k = s ∧ from_pkcs8_pem pem = Ok k ∧ vk_from_spki_pem vpem = Ok (public_key k) ∧
  (∃ v, vk_from_hex (verifying_key_hex k) = Ok v ∧ vk_to_hex v = verifying_key_hex k) ∧
  (∀ digest ctx, verify_digest (public_key k) digest (sign_digest k digest) ctx = Ok tt).
Proof.
  unfold from_seed, to_pkcs8_pem, vk_to_spki_pem, from_pkcs8_pem, vk_from_spki_pem.
  intros Hs Hp%ok_or_Ok Hv%ok_or_Ok. case_decide; [|done]. injection Hs as <-.
  rewrite (ed_pkcs8_pem _ _ Hp), (ed_spki_pem _ _ Hv). split_and!; try done.
  - by apply ed_to_from_seed.
  - destruct (decoded_key (ed_public (ed_from_seed s))) as (v & Hd & Hb). exists v.
    unfold vk_from_hex, vk_to_hex, verifying_key_hex. by rewrite hex_decode_encode, <-Hb in *.
  - intros. apply verify_sign_digest.
Qed.

Lemma key_round_trips_witness :
  @from_pkcs8_pem toy_ed25519 toy_pkcs8 (chars (replicate 32 x41)) = Ok (replicate 32 x41).
Proof.
  apply (@key_round_trips toy_ed25519 toy_ed25519_laws toy_pkcs8 toy_spki toy_pem_laws
    (replicate 32 x41) (replicate 32 x41) (chars (replicate 32 x41)) (chars (replicate 32 x41)));
    by vm_compute.
Defined.
