(* ===== verification/Checkpoint.v ===== *)
(** * Checkpoints and countersignatures (evidence/src/checkpoint.rs) *)

From Stdlib Require Import Strings.Byte.
From S2P Require Import Prelude Text Errors Hash Merkle Json Jcs JcsFacts Record Chain Keys.

(** ** Data *)

Record CheckpointNote := {
  cn_checkpoint_id : rstring;
  cn_stream_id : rstring;
  cn_segment_id : rstring;
  cn_seq_from : Z;
  cn_seq_to : Z;
  cn_chain_head_hash : rstring;
  cn_merkle_root : rstring;
  cn_tree_size : Z;
  cn_ts_wall : rstring;
  cn_recorder_cert_fingerprint : rstring;
  cn_prev_checkpoint_hash : option rstring;
}.

Record SignedCheckpoint := { sc_note : CheckpointNote; sc_signature : rstring }.

Record CountersignatureNote := {
  csn_checkpoint_id : rstring;
  csn_received_at : rstring;
  csn_console_key_id : rstring;
  csn_stream_high_water_seq : option Z;
}.

Record Countersignature := { cs_note : CountersignatureNote; cs_signature : rstring }.

Global Instance CheckpointNote_eq_dec : EqDecision CheckpointNote.
Proof. solve_decision. Defined.
Global Instance SignedCheckpoint_eq_dec : EqDecision SignedCheckpoint.
Proof. solve_decision. Defined.
Global Instance CountersignatureNote_eq_dec : EqDecision CountersignatureNote.
Proof. solve_decision. Defined.
Global Instance Countersignature_eq_dec : EqDecision Countersignature.
Proof. solve_decision. Defined.

Global Instance CheckpointNote_serialize : Serialize CheckpointNote := λ n,
  Object ([(str "checkpoint_id", String (cn_checkpoint_id n));
           (str "stream_id", String (cn_stream_id n));
           (str "segment_id", String (cn_segment_id n));
           (str "seq_from", u64_value (cn_seq_from n));
           (str "seq_to", u64_value (cn_seq_to n));
           (str "chain_head_hash", String (cn_chain_head_hash n));
           (str "merkle_root", String (cn_merkle_root n));
           (str "tree_size", u64_value (cn_tree_size n));
           (str "ts_wall", String (cn_ts_wall n));
           (str "recorder_cert_fingerprint", String (cn_recorder_cert_fingerprint n))] ++
          opt_field "prev_checkpoint_hash" (String <$> cn_prev_checkpoint_hash n)).

Global Instance CountersignatureNote_serialize : Serialize CountersignatureNote := λ n,
  Object ([(str "checkpoint_id", String (csn_checkpoint_id n));
           (str "received_at", String (csn_received_at n));
           (str "console_key_id", String (csn_console_key_id n))] ++
          opt_field "stream_high_water_seq" (u64_value <$> csn_stream_high_water_seq n)).

(** ** Operations *)

Section ops.
Context `{Blake3} `{Ed25519}.

Definition note_hash (n : CheckpointNote) : Result rstring :=
  bs ← struct_to_jcs_bytes n; mret (blake3_hex bs).

Definition merkle_root_of_record_hashes (record_hashes_hex : list rstring) : Result rstring :=
  leaves ← mapM (hex_decode_digest "record_hash") record_hashes_hex;
  mret (hex_encode (merkle_root leaves)).

(** [u64::try_from(records.len()).ok() != last.seq.checked_sub(first.seq).map(|d| d + 1)]. *)
Definition contiguous (n : nat) (first last : Z) : bool :=
  bool_decide (Some (Z.of_nat n) = if last <? first then None else Some (u64_add (last - first) 1)).

Definition build_note (checkpoint_id : rstring) (records : list EvRecord)
    (ts_wall recorder_cert_fingerprint : rstring) : Result CheckpointNote :=
  first ← ok_or (head records) (Checkpoint "cannot checkpoint zero records");
  let last := default first (list.last records) in
  if negb (contiguous (length records) (rec_seq first) (rec_seq last)) then
    Err (Checkpoint "records not contiguous")
  else
    let hashes := rec_record_hash <$> records in
    root ← merkle_root_of_record_hashes hashes;
    mret {| cn_checkpoint_id := checkpoint_id; cn_stream_id := rec_stream_id first;
            cn_segment_id := rec_segment_id first; cn_seq_from := rec_seq first;
            cn_seq_to := rec_seq last; cn_chain_head_hash := rec_record_hash last;
            cn_merkle_root := root; cn_tree_size := wrap_u64 (Z.of_nat (length hashes));
            cn_ts_wall := ts_wall; cn_recorder_cert_fingerprint := recorder_cert_fingerprint;
            cn_prev_checkpoint_hash := None |}.

Definition set_prev_checkpoint_hash (h : option rstring) (n : CheckpointNote) : CheckpointNote :=
  {| cn_checkpoint_id := cn_checkpoint_id n; cn_stream_id := cn_stream_id n;
     cn_segment_id := cn_segment_id n; cn_seq_from := cn_seq_from n; cn_seq_to := cn_seq_to n;
     cn_chain_head_hash := cn_chain_head_hash n; cn_merkle_root := cn_merkle_root n;
     cn_tree_size := cn_tree_size n; cn_ts_wall := cn_ts_wall n;
     cn_recorder_cert_fingerprint := cn_recorder_cert_fingerprint n;
     cn_prev_checkpoint_hash := h |}.

Definition build_note_linked (checkpoint_id : rstring) (records : list EvRecord)
    (ts_wall recorder_cert_fingerprint : rstring) (prev_checkpoint_hash : option rstring)
    : Result CheckpointNote :=
  note ← build_note checkpoint_id records ts_wall recorder_cert_fingerprint;
  mret (set_prev_checkpoint_hash prev_checkpoint_hash note).

Definition sign_note (note : CheckpointNote) (key : signing_key) : Result SignedCheckpoint :=
  signature ← sign_jcs key note;
  mret {| sc_note := note; sc_signature := signature |}.

(** [SignedCheckpoint::verify]. *)
Definition sc_verify (sc : SignedCheckpoint) (recorder_key : verifying_key) : Result unit :=
  verify_jcs recorder_key (sc_note sc) (sc_signature sc) "checkpoint".

Definition verify_root (sc : SignedCheckpoint) (record_hashes_hex : list rstring) : Result unit :=
  if negb (wrap_u64 (Z.of_nat (length record_hashes_hex)) =? cn_tree_size (sc_note sc)) then
    Err (Checkpoint "tree_size does not match the record hashes supplied")
  else
    root ← merkle_root_of_record_hashes record_hashes_hex;
    if decide (root ≠ cn_merkle_root (sc_note sc)) then
      Err (Checkpoint "recomputed merkle root does not match")
    else
      match list.last record_hashes_hex with
      | Some last =>
        if decide (last = cn_chain_head_hash (sc_note sc)) then Ok tt
        else Err (Checkpoint "chain_head_hash does not match")
      | None => Err (Checkpoint "empty record hash set")
      end.

(** [Countersignature::create] and [verify]. *)
Definition cs_create (checkpoint_id received_at console_key_id : rstring)
    (stream_high_water_seq : option Z) (key : signing_key) : Result Countersignature :=
  let note := {| csn_checkpoint_id := checkpoint_id; csn_received_at := received_at;
                 csn_console_key_id := console_key_id;
                 csn_stream_high_water_seq := stream_high_water_seq |} in
  signature ← sign_jcs key note;
  mret {| cs_note := note; cs_signature := signature |}.

Definition cs_verify (cs : Countersignature) (console_key : verifying_key) : Result unit :=
  verify_jcs console_key (cs_note cs) (cs_signature cs) "countersignature".
End ops.

(** ** Notes are determined by their canonical values *)

Global Program Instance CheckpointNote_recover : Recover CheckpointNote := {|
  wf_struct n := is_u64 (cn_seq_from n) && is_u64 (cn_seq_to n) && is_u64 (cn_tree_size n);
  of_value v :=
    a ← get_str "checkpoint_id" v; b ← get_str "stream_id" v; c ← get_str "segment_id" v;
    d ← get_u64 "seq_from" v; e ← get_u64 "seq_to" v; f ← get_str "chain_head_hash" v;
    g ← get_str "merkle_root" v; h ← get_u64 "tree_size" v; i ← get_str "ts_wall" v;
    j ← get_str "recorder_cert_fingerprint" v; k ← get_opt as_str "prev_checkpoint_hash" v;
    Some {| cn_checkpoint_id := a; cn_stream_id := b; cn_segment_id := c; cn_seq_from := d;
            cn_seq_to := e; cn_chain_head_hash := f; cn_merkle_root := g; cn_tree_size := h;
            cn_ts_wall := i; cn_recorder_cert_fingerprint := j; cn_prev_checkpoint_hash := k |}
|}.
Next Obligation.
  intros n [[Ha Hb]%andb_true_iff Hc]%andb_true_iff.
  unfold to_value, CheckpointNote_serialize. destruct (cn_prev_checkpoint_hash n) eqn:Hp; recover n.
Qed.

Global Program Instance CountersignatureNote_recover : Recover CountersignatureNote := {|
  wf_struct n := match csn_stream_high_water_seq n with Some z => is_u64 z | None => true end;
  of_value v :=
    a ← get_str "checkpoint_id" v; b ← get_str "received_at" v; c ← get_str "console_key_id" v;
    d ← get_opt as_u64 "stream_high_water_seq" v;
    Some {| csn_checkpoint_id := a; csn_received_at := b; csn_console_key_id := c;
            csn_stream_high_water_seq := d |}
|}.
Next Obligation.
  intros n Hn. unfold to_value, CountersignatureNote_serialize.
  destruct (csn_stream_high_water_seq n) as [z|] eqn:Hp; [|recover n].
  assert (is_u64 z = true) as Hu by (cbn in Hn; rewrite ?Hp in Hn; exact Hn).
  pose proof (as_u64_canonical z Hu) as Hz. cbn in Hz. recover n.
Qed.

(** ** Facts *)

Section facts.
Context `{Blake3} `{Ed25519}.

Lemma root_of_hashes_Ok hs root :
  merkle_root_of_record_hashes hs = Ok root ↔
  ∃ leaves, Forall2 (λ h d, hex_decode_digest "record_hash" h = Ok d) hs leaves ∧
    root = hex_encode (merkle_root leaves).
Proof.
  unfold merkle_root_of_record_hashes. rewrite bind_Ok. setoid_rewrite mapM_Ok.
  apply exist_proper; intros ls. unfold mret, result_ret. naive_solver.
Qed.

(** The digests that a list of hexadecimal hashes denotes. *)
Definition leaves_of (hs : list rstring) : list bytes :=
  default [] (res_ok (mapM (hex_decode_digest "record_hash") hs)).

Lemma leaves_of_Forall2 hs ls :
  Forall2 (λ h d, hex_decode_digest "record_hash" h = Ok d) hs ls → leaves_of hs = ls.
Proof. intros Hf%mapM_Ok. unfold leaves_of. by rewrite Hf. Qed.

Lemma verify_root_Ok sc hs :
  verify_root sc hs = Ok tt ↔
  wrap_u64 (Z.of_nat (length hs)) = cn_tree_size (sc_note sc) ∧
  merkle_root_of_record_hashes hs = Ok (cn_merkle_root (sc_note sc)) ∧
  list.last hs = Some (cn_chain_head_hash (sc_note sc)).
Proof.
  unfold verify_root. case_match eqn:Hlen.
  - apply negb_true_iff, Z.eqb_neq in Hlen. naive_solver.
  - apply negb_false_iff, Z.eqb_eq in Hlen. rewrite bind_Ok. split.
    + intros (root & Hr & Hrest). case_decide as Hd; [done|].
      destruct (list.last hs) as [l|]; [|done]. case_decide; [|done]. subst.
      split; [done|]. split; [congruence|done].
    + intros (_ & Hr & Hl). exists (cn_merkle_root (sc_note sc)). split; [done|].
      rewrite decide_False by (by intros []). by rewrite Hl, decide_True.
Qed.

Lemma build_note_Ok id rs ts fp n :
  build_note id rs ts fp = Ok n ↔
  ∃ first last root, head rs = Some first ∧ list.last rs = Some last ∧
    contiguous (length rs) (rec_seq first) (rec_seq last) = true ∧
    merkle_root_of_record_hashes (rec_record_hash <$> rs) = Ok root ∧
    n = {| cn_checkpoint_id := id; cn_stream_id := rec_stream_id first;
           cn_segment_id := rec_segment_id first; cn_seq_from := rec_seq first;
           cn_seq_to := rec_seq last; cn_chain_head_hash := rec_record_hash last;
           cn_merkle_root := root; cn_tree_size := wrap_u64 (Z.of_nat (length rs));
           cn_ts_wall := ts; cn_recorder_cert_fingerprint := fp;
           cn_prev_checkpoint_hash := None |}.
Proof.
  unfold build_note. rewrite bind_Ok. setoid_rewrite ok_or_Ok. split.
  - intros (first & Hf & Hb). cbv zeta in Hb.
    assert (is_Some (list.last rs)) as [last Hl] by (destruct rs; [done|apply last_is_Some; done]).
    rewrite Hl in Hb. cbn [from_option Datatypes.id] in Hb. case_match eqn:Hc; [done|].
    apply negb_false_iff in Hc. apply bind_Ok in Hb as (root & Hr & Heq). injection Heq as <-.
    rewrite length_fmap. eauto 10.
  - intros (first & last & root & Hf & Hl & Hc & Hr & ->). exists first. split; [done|].
    cbv zeta. rewrite Hl. cbn [from_option Datatypes.id]. rewrite Hc. cbn [negb]. rewrite Hr, length_fmap. done.
Qed.
End facts.

(** ** Facts: what a verified checkpoint covers *)

Section covers.
Context `{Blake3} `{Ed25519}.

Lemma contiguous_spec n first last :
  0 ≤ first → first ≤ last ≤ u64_max → 0 < Z.of_nat n ≤ u64_max →
  contiguous n first last = true ↔ Z.of_nat n = last - first + 1.
Proof.
  intros Hf Hl Hn. unfold contiguous. rewrite bool_decide_eq_true.
  destruct (Z.ltb_spec last first); [lia|]. unfold u64_add, wrap_u64, u64_max in *.
  destruct (decide (last - first + 1 = 2 ^ 64)) as [->|].
  - rewrite Z_mod_same_full. split; [intros [= ?]; lia|lia].
  - rewrite Z.mod_small by lia. split; [by intros [= ?]|by intros ->].
Qed.

Lemma note_hash_inj n1 n2 h :
  wf_struct n1 = true → wf_struct n2 = true →
  wf_value (to_value n1) = true → wf_value (to_value n2) = true →
  collision_free_on blake3_hash [signed_bytes n1; signed_bytes n2] →
  note_hash n1 = Ok h → note_hash n2 = Ok h → n1 = n2.
Proof.
  unfold note_hash. intros ???? Hcf (b1 & H1 & E1)%bind_Ok (b2 & H2 & E2)%bind_Ok.
  injection E1 as <-. injection E2 as E2.
  assert (b2 = b1) as ->.
  { apply blake3_hex_inj in E2. unfold signed_bytes in Hcf. rewrite H1, H2 in Hcf. cbn in Hcf.
    apply Hcf; [right; left|left|done]. }
  by eapply struct_bytes_inj.
Qed.

(** A recorder's note and the records that it was built from. *)
Definition built (p : CheckpointNote * list EvRecord) : Prop :=
  ∃ id ts fp prev, build_note_linked id p.2 ts fp prev = Ok p.1.

Lemma built_root p :
  built p →
  merkle_root_of_record_hashes (rec_record_hash <$> p.2) = Ok (cn_merkle_root p.1) ∧
  list.last (rec_record_hash <$> p.2) = Some (cn_chain_head_hash p.1) ∧
  wrap_u64 (Z.of_nat (length (rec_record_hash <$> p.2))) = cn_tree_size p.1.
Proof.
  intros (id & ts & fp & prev & (n & Hn & Heq)%bind_Ok). injection Heq as <-.
  apply build_note_Ok in Hn as (f & l & root & _ & Hl & _ & Hr & ->). cbn.
  by rewrite fmap_last, Hl, length_fmap.
Qed.

Lemma same_root_same_leaves `{!Blake3Len} hs1 hs2 root :
  collision_free_on blake3_hash (merkle_inputs (leaves_of hs1) ++ merkle_inputs (leaves_of hs2)) →
  merkle_root_of_record_hashes hs1 = Ok root → merkle_root_of_record_hashes hs2 = Ok root →
  leaves_of hs1 = leaves_of hs2.
Proof.
  intros Hcf (l1 & Hf1 & ->)%root_of_hashes_Ok (l2 & Hf2 & Heq)%root_of_hashes_Ok.
  apply leaves_of_Forall2 in Hf1 as Hl1, Hf2 as Hl2. rewrite Hl1, Hl2 in *.
  apply merkle_root_inj; [done|]. by apply hex_encode_inj.
Qed.

(** A checkpoint that verifies is one of the notes that were signed, over the
    records it was built from. *)
Lemma checkpoint_signed `{!Blake3Len} sc vk hs
    (batches : list (CheckpointNote * list EvRecord)) :
  sc_verify sc vk = Ok tt → verify_root sc hs = Ok tt →
  not_forged vk (sc_signature sc) ((λ n, blake3_raw (signed_bytes n)) <$> batches.*1) →
  Forall built batches →
  Forall (λ n, wf_struct n = true ∧ wf_value (to_value n) = true ∧
               is_ok (struct_to_jcs_bytes n) = true) (sc_note sc :: batches.*1) →
  collision_free_on blake3_hash
    ((signed_bytes <$> sc_note sc :: batches.*1) ++ merkle_inputs (leaves_of hs) ++
     (batches ≫= λ p, merkle_inputs (leaves_of (rec_record_hash <$> p.2)))) →
  ∃ p, p ∈ batches ∧ sc_note sc = p.1 ∧ leaves_of hs = leaves_of (rec_record_hash <$> p.2).
Proof.
  intros Hv (_ & Hr & _)%verify_root_Ok Hnf Hb [(Hw1 & Hw2 & _) Hw]%Forall_cons Hcf.
  assert (sc_note sc ∈ batches.*1) as ([n rs] & Heq & Hp)%list_elem_of_fmap.
  { eapply verify_jcs_authentic; eauto. eapply collision_free_mono; [|exact Hcf].
    intros x Hx. apply elem_of_app. by left. }
  exists (n, rs). split; [done|]. split; [done|].
  rewrite Forall_forall in Hb. destruct (built_root _ (Hb _ Hp)) as (Hroot & _).
  cbn [fst snd] in *. rewrite Heq in Hr. eapply same_root_same_leaves; eauto.
  eapply collision_free_mono; [|exact Hcf]. intros x [Hx|Hx]%elem_of_app.
  - apply elem_of_app; right. apply elem_of_app; by left.
  - apply elem_of_app; right. apply elem_of_app; right.
    apply list_elem_of_bind. by exists (n, rs).
Qed.
End covers.

(** ** Concrete checkpoints *)

(** Two linked records with made-up hashes, the note over them, and its
    signature. *)
Definition demo_records : list EvRecord :=
  [set_record_hash (hex_encode (pad32 [x0a])) (sample_record (str "S") (str "G") (str "1000") 0);
   set_record_hash (hex_encode (pad32 [x0b]))
     (set_link 1 [] (sample_record (str "S") (str "G") (str "1000") 1))].

Definition empty_note : CheckpointNote :=
  {| cn_checkpoint_id := []; cn_stream_id := []; cn_segment_id := []; cn_seq_from := 0;
     cn_seq_to := 0; cn_chain_head_hash := []; cn_merkle_root := []; cn_tree_size := 0;
     cn_ts_wall := []; cn_recorder_cert_fingerprint := []; cn_prev_checkpoint_hash := None |}.

Definition demo_note : CheckpointNote :=
  Eval vm_compute in default empty_note (res_ok (@build_note_linked poly_blake3 (str "cp") demo_records
    (str "2000") (str "fp") (Some (str "00")))).

Definition demo_checkpoint : SignedCheckpoint :=
  Eval vm_compute in default {| sc_note := demo_note; sc_signature := [] |}
    (res_ok (@sign_note poly_blake3 toy_ed25519 demo_note [x07])).

(** ** Properties *)

(** Checkpointing round trip: the note built over a run of records, signed
    by the recorder, verifies under its public key, and its Merkle root and
    chain head verify against the hashes of these records; for [u64] sequences
    in order, its tree size is the number of sequences in its range. *)
Theorem checkpoint_round_trip `{Blake3} `{Ed25519, !Ed25519Laws} id rs ts fp prev key note sc :
  build_note_linked id rs ts fp prev = Ok note → sign_note note key = Ok sc →
  sc_verify sc (public_key key) = Ok tt ∧
  verify_root sc (rec_record_hash <$> rs) = Ok tt ∧
  cn_prev_checkpoint_hash note = prev ∧
  (Forall (λ r, is_u64 (rec_seq r) = true) rs → Z.of_nat (length rs) ≤ u64_max →
   cn_seq_from note ≤ cn_seq_to note ∧ cn_tree_size note = cn_seq_to note - cn_seq_from note + 1).
Proof.
  intros Hb (sg & Hsg & Heq)%bind_Ok. injection Heq as <-. split_and!.
  - by apply verify_sign_jcs.
  - apply verify_root_Ok. destruct (built_root (note, rs)) as (? & ? & ?); [by eexists _, _, _, _|].
    done.
  - apply bind_Ok in Hb as (n & _ & Heq). by injection Heq as <-.
  - intros Hu Hlen. apply bind_Ok in Hb as (n & Hn & Heq). injection Heq as <-.
    apply build_note_Ok in Hn as (f & l & root & Hf & Hl & Hc & _ & ->). cbn.
    rewrite Forall_forall in Hu.
    pose proof (proj1 (is_u64_spec _) (Hu _ (head_Some_elem_of _ _ Hf))).
    pose proof (proj1 (is_u64_spec _) (Hu _ (last_Some_elem_of _ _ Hl))).
    assert (0 < Z.of_nat (length rs)) by (destruct rs; [done|cbn; lia]).
    destruct (Z.ltb_spec (rec_seq l) (rec_seq f)).
    { unfold contiguous in Hc. apply bool_decide_eq_true in Hc.
      by rewrite (proj2 (Z.ltb_lt _ _)) in Hc by lia. }
    apply contiguous_spec in Hc; [|lia..]. rewrite wrap_u64_id by (apply is_u64_spec; lia). lia.
Qed.

Lemma checkpoint_round_trip_witness :
  @sc_verify poly_blake3 toy_ed25519 demo_checkpoint [x07] = Ok tt ∧
  @verify_root poly_blake3 demo_checkpoint (rec_record_hash <$> demo_records) = Ok tt.
Proof.
  destruct (@checkpoint_round_trip poly_blake3 toy_ed25519 toy_ed25519_laws (str "cp") demo_records
    (str "2000") (str "fp") (Some (str "00")) [x07] demo_note demo_checkpoint) as (Hv & Hr & _);
    [vm_compute; reflexivity|vm_compute; reflexivity|].
  split; [exact Hv|exact Hr].
Defined.

(** C28: A verified checkpoint attests records that the recorder checkpointed:
    if the signature is not a forgery (every digest it verifies for is the
    digest of one of the notes the recorder built and signed) and the root
    verifies against some record hashes, then the note is one of these notes
    and the hashes denote exactly the record hashes it was built from, unless
    BLAKE3 collides on the bytes hashed here. *)
Theorem checkpoint_authentic `{Blake3, !Blake3Len} `{Ed25519} sc vk hs
    (batches : list (CheckpointNote * list EvRecord)) :
  sc_verify sc vk = Ok tt → verify_root sc hs = Ok tt →
  not_forged vk (sc_signature sc) ((λ n, blake3_raw (signed_bytes n)) <$> batches.*1) →
  Forall built batches →
  Forall (λ n, wf_struct n = true ∧ wf_value (to_value n) = true ∧
               is_ok (struct_to_jcs_bytes n) = true) (sc_note sc :: batches.*1) →
  collision_free_on blake3_hash
    ((signed_bytes <$> sc_note sc :: batches.*1) ++ merkle_inputs (leaves_of hs) ++
     (batches ≫= λ p, merkle_inputs (leaves_of (rec_record_hash <$> p.2)))) →
  ∃ p, p ∈ batches ∧ sc_note sc = p.1 ∧ leaves_of hs = leaves_of (rec_record_hash <$> p.2).
Proof. apply checkpoint_signed. Qed.

Lemma checkpoint_authentic_witness :
  ∃ p, p ∈ [(demo_note, demo_records)] ∧ sc_note demo_checkpoint = p.1 ∧
    leaves_of (rec_record_hash <$> demo_records) = leaves_of (rec_record_hash <$> p.2).
Proof.
  apply (@checkpoint_authentic poly_blake3 poly_blake3_len toy_ed25519 demo_checkpoint [x07]).
  - vm_compute. reflexivity.
  - vm_compute. reflexivity.
  - apply toy_not_forged. eexists. split; [left|]. vm_compute. split; reflexivity.
  - constructor; [|constructor]. exists (str "cp"), (str "2000"), (str "fp"), (Some (str "00")).
    vm_compute. reflexivity.
  - repeat constructor.
  - by_compute.
Defined.

(** One checkpoint cannot be verified against two different lists of
    record hashes: they denote the same digests and have the same last hash,
    unless BLAKE3 collides while the roots are recomputed. *)
Theorem verify_root_binds `{Blake3, !Blake3Len} sc hs1 hs2 :
  verify_root sc hs1 = Ok tt → verify_root sc hs2 = Ok tt →
  collision_free_on blake3_hash (merkle_inputs (leaves_of hs1) ++ merkle_inputs (leaves_of hs2)) →
  leaves_of hs1 = leaves_of hs2 ∧ length hs1 = length hs2 ∧ list.last hs1 = list.last hs2.
Proof.
  intros (_ & Hr1 & Hl1)%verify_root_Ok (_ & Hr2 & Hl2)%verify_root_Ok Hcf.
  assert (leaves_of hs1 = leaves_of hs2) as Hl by (by eapply same_root_same_leaves).
  split; [done|]. split; [|congruence].
  apply root_of_hashes_Ok in Hr1 as (l1 & Hf1 & _), Hr2 as (l2 & Hf2 & _).
  apply leaves_of_Forall2 in Hf1 as E1, Hf2 as E2.
  apply Forall2_length in Hf1, Hf2. congruence.
Qed.

Lemma verify_root_binds_witness :
  leaves_of (rec_record_hash <$> demo_records) =
  leaves_of [hex_encode (pad32 [x0a]); hex_encode (pad32 [x0b])].
Proof.
  apply (@verify_root_binds poly_blake3 poly_blake3_len demo_checkpoint);
    [vm_compute; reflexivity|vm_compute; reflexivity|by_compute].
Defined.
