(* ===== verification/Revocation.v ===== *)
(** * Signed revocation lists (evidence/src/revocation.rs) *)

From Stdlib Require Import Strings.Byte.
From S2P Require Import Prelude Text Errors Hash Json Jcs JcsFacts Record Keys.

Record RevocationEntry := {
  re_cert_fingerprint : rstring;
  re_effective_at : rstring;
  re_reason : rstring;
}.

Record RevocationList := { rl_updated_at : rstring; rl_revocations : list RevocationEntry }.

Record SignedRevocationList := {
  srl_list : RevocationList;
  srl_console_key_id : rstring;
  srl_signature : rstring;
}.

Global Instance RevocationEntry_eq_dec : EqDecision RevocationEntry.
Proof. solve_decision. Defined.
Global Instance RevocationList_eq_dec : EqDecision RevocationList.
Proof. solve_decision. Defined.
Global Instance SignedRevocationList_eq_dec : EqDecision SignedRevocationList.
Proof. solve_decision. Defined.

Global Instance RevocationEntry_serialize : Serialize RevocationEntry := λ e,
  Object [(str "cert_fingerprint", String (re_cert_fingerprint e));
          (str "effective_at", String (re_effective_at e));
          (str "reason", String (re_reason e))].

Global Instance RevocationList_serialize : Serialize RevocationList := λ l,
  Object [(str "updated_at", String (rl_updated_at l));
          (str "revocations", Array (to_value <$> rl_revocations l))].

Section ops.
Context `{Blake3} `{Ed25519} `{ChronoApi}.

Definition srl_create (list : RevocationList) (console_key_id : rstring) (key : signing_key)
    : Result SignedRevocationList :=
  signature ← sign_jcs key list;
  mret {| srl_list := list; srl_console_key_id := console_key_id; srl_signature := signature |}.

Definition srl_verify (s : SignedRevocationList) (console_key : verifying_key) : Result unit :=
  verify_jcs console_key (srl_list s) (srl_signature s) "revocation list".

(** One test of the [any] in [is_revoked_at]. *)
Definition entry_revokes (cert_fingerprint : rstring) (at_ : datetime) (r : RevocationEntry) : bool :=
  bool_decide (re_cert_fingerprint r = cert_fingerprint) &&
  match parse_wall (re_effective_at r) with
  | Ok eff => datetime_geb at_ eff
  | Err _ => false
  end.

Definition is_revoked_at (s : SignedRevocationList) (cert_fingerprint : rstring)
    (at_ : datetime) : bool :=
  existsb (entry_revokes cert_fingerprint at_) (rl_revocations (srl_list s)).
End ops.

(** A certificate is revoked at a time exactly when some entry names it with an
    effective time that parses and is not later. *)
Lemma is_revoked_at_iff `{ChronoApi} s fp t :
  is_revoked_at s fp t = true ↔
  ∃ e eff, e ∈ rl_revocations (srl_list s) ∧ re_cert_fingerprint e = fp ∧
    parse_wall (re_effective_at e) = Ok eff ∧ datetime_geb t eff = true.
Proof.
  unfold is_revoked_at, entry_revokes. rewrite existsb_exists.
  setoid_rewrite <-list_elem_of_In. setoid_rewrite andb_true_iff.
  setoid_rewrite bool_decide_eq_true. split.
  - intros (e & He & Hfp & Hm). destruct (parse_wall _) as [eff|] eqn:Hp; [|done]. eauto 10.
  - intros (e & eff & He & Hfp & Hp & Hge). exists e. by rewrite Hp.
Qed.

(** The order of [chrono::DateTime] is transitive. *)
Class ChronoOrder `{ChronoApi} : Prop :=
  datetime_geb_trans : ∀ a b c, datetime_geb a b = true → datetime_geb b c = true →
    datetime_geb a c = true.

(** ** Facts *)

Global Program Instance RevocationEntry_recover : Recover RevocationEntry := {|
  wf_struct _ := true;
  of_value v :=
    a ← get_str "cert_fingerprint" v; b ← get_str "effective_at" v; c ← get_str "reason" v;
    Some {| re_cert_fingerprint := a; re_effective_at := b; re_reason := c |}
|}.
Next Obligation. intros x _. unfold to_value, RevocationEntry_serialize. recover x. Qed.

Lemma mapM_of_canonical {A} `{Recover A} (l : list A) :
  forallb wf_struct l = true → mapM of_value (canonical <$> (to_value <$> l)) = Some l.
Proof.
  induction l as [|x l IH]; [done|]. cbn [forallb]. intros [Hx Hl]%andb_true_iff.
  cbn [fmap list_fmap mapM]. cbn. rewrite of_canonical by done. cbn.
  change (list_fmap _ _ canonical (list_fmap _ _ to_value l)) with (canonical <$> (to_value <$> l)).
  rewrite IH by done. done.
Qed.

Definition as_list {A} `{Recover A} (v : value) : option (list A) :=
  match v with Array l => mapM of_value l | _ => None end.

Global Program Instance RevocationList_recover : Recover RevocationList := {|
  wf_struct _ := true;
  of_value v :=
    a ← get_str "updated_at" v;
    b ← value_get (str "revocations") v ≫= as_list;
    Some {| rl_updated_at := a; rl_revocations := b |}
|}.
Next Obligation.
  intros x _.
  assert (mapM of_value (canonical <$> (to_value <$> rl_revocations x)) = Some (rl_revocations x))
    as Hl by (apply mapM_of_canonical, forallb_Forall, Forall_forall; done).
  unfold get_str. unfold to_value at 1 2, RevocationList_serialize.
  rewrite !canonical_get by nodup_keys. get_field.
  cbn [fmap option_fmap option_map mbind option_bind canonical as_str as_list]. rewrite Hl. by destruct x.
Qed.

(** ** Concrete lists *)

Lemma millis_order : @ChronoOrder millis_chrono.
Proof. intros a b c. cbn. lia. Qed.

Definition demo_list : RevocationList :=
  {| rl_updated_at := str "100";
     rl_revocations := [{| re_cert_fingerprint := str "aa"; re_effective_at := str "50";
                           re_reason := str "rotation" |};
                        {| re_cert_fingerprint := str "bb"; re_effective_at := str "never";
                           re_reason := str "key_compromise" |}] |}.

Definition demo_signed_list : SignedRevocationList :=
  Eval vm_compute in
  default {| srl_list := demo_list; srl_console_key_id := []; srl_signature := [] |}
    (res_ok (@srl_create poly_blake3 toy_ed25519 demo_list (str "k1") [x09])).

(** ** Properties *)

(** A certificate is revoked at a time exactly when some entry names its
    fingerprint with an effective time that parses and is not later; and a
    revocation is permanent: what is revoked at a time is revoked at every
    later time. *)
Theorem is_revoked_at_spec `{ChronoApi, !ChronoOrder} s fp at_ :
  (is_revoked_at s fp at_ = true ↔
   ∃ e eff, e ∈ rl_revocations (srl_list s) ∧ re_cert_fingerprint e = fp ∧
     parse_wall (re_effective_at e) = Ok eff ∧ datetime_geb at_ eff = true) ∧
  (∀ later, datetime_geb later at_ = true →
     is_revoked_at s fp at_ = true → is_revoked_at s fp later = true).
Proof.
  split; [apply is_revoked_at_iff|].
  intros later Hl (e & eff & He & Hfp & Hp & Hge)%is_revoked_at_iff.
  apply is_revoked_at_iff. eauto 10 using datetime_geb_trans.
Qed.

Lemma is_revoked_at_spec_witness :
  @is_revoked_at millis_chrono demo_signed_list (str "aa") 70 = true.
Proof.
  apply (@is_revoked_at_spec millis_chrono millis_order demo_signed_list (str "aa") 60);
    vm_compute; reflexivity.
Defined.

(** An entry whose effective time does not parse never revokes: the list
    answers as if the entry were not there, although the entry names the
    certificate. *)
Theorem unparseable_entry_never_revokes `{ChronoApi} s e fp at_ es1 es2 :
  rl_revocations (srl_list s) = es1 ++ e :: es2 → is_ok (parse_wall (re_effective_at e)) = false →
  is_revoked_at s fp at_ =
  is_revoked_at {| srl_list := {| rl_updated_at := rl_updated_at (srl_list s);
                                  rl_revocations := es1 ++ es2 |};
                   srl_console_key_id := srl_console_key_id s;
                   srl_signature := srl_signature s |} fp at_.
Proof.
  intros Hes Hp. unfold is_revoked_at. cbn. rewrite Hes, !existsb_app. cbn.
  assert (entry_revokes fp at_ e = false) as ->; [|done].
  unfold entry_revokes. destruct (parse_wall _); [done|]. apply andb_false_r.
Qed.

Lemma unparseable_entry_never_revokes_witness :
  @is_revoked_at millis_chrono demo_signed_list (str "bb") 1000000 = false.
Proof.
  rewrite (@unparseable_entry_never_revokes millis_chrono demo_signed_list
    {| re_cert_fingerprint := str "bb"; re_effective_at := str "never";
       re_reason := str "key_compromise" |} (str "bb") 1000000
    [{| re_cert_fingerprint := str "aa"; re_effective_at := str "50";
        re_reason := str "rotation" |}] []); vm_compute; reflexivity.
Defined.

(** C35: A revocation list made with the Console key verifies under it; and a
    list that verifies under a signature that is not a forgery is one of the
    lists that were signed, unless BLAKE3 collides on their canonical forms. *)
Theorem revocation_list_authentic `{Blake3, !Blake3Len} `{Ed25519, !Ed25519Laws} :
  (∀ l kid key s, srl_create l kid key = Ok s → srl_verify s (public_key key) = Ok tt) ∧
  (∀ s vk ls, srl_verify s vk = Ok tt →
     not_forged vk (srl_signature s) ((λ l, blake3_raw (signed_bytes l)) <$> ls) →
     collision_free_on blake3_hash (signed_bytes <$> srl_list s :: ls) →
     Forall (λ l, wf_value (to_value l) = true ∧ is_ok (struct_to_jcs_bytes l) = true)
       (srl_list s :: ls) →
     srl_list s ∈ ls).
Proof.
  split.
  - intros l kid key s (sg & Hsg & Heq)%bind_Ok. injection Heq as <-. by apply verify_sign_jcs.
  - intros s vk ls Hv Hnf Hcf [[Hw _] Hws]%Forall_cons.
    eapply verify_jcs_authentic; eauto. eapply Forall_impl; [exact Hws|]. cbn. tauto.
Qed.

Lemma revocation_list_authentic_witness :
  @srl_verify poly_blake3 toy_ed25519 demo_signed_list [x09] = Ok tt ∧
  srl_list demo_signed_list ∈ [demo_list].
Proof.
  destruct (@revocation_list_authentic poly_blake3 poly_blake3_len toy_ed25519 toy_ed25519_laws)
    as [Hrt Hauth].
  assert (@srl_verify poly_blake3 toy_ed25519 demo_signed_list [x09] = Ok tt) as Hv.
  { apply (Hrt demo_list (str "k1") [x09]). vm_compute. reflexivity. }
  split; [exact Hv|]. apply (Hauth demo_signed_list [x09]).
  - exact Hv.
  - apply toy_not_forged. eexists. split; [left|]. vm_compute. split; reflexivity.
  - by_compute.
  - repeat constructor.
Defined.
