(* ===== verification/Commitment.v ===== *)
(** * Salted payload commitments (evidence/src/commitment.rs)

    A [Salt] is a byte list of length 32; [Salt::random] draws it from the
    random source of the system. *)

From Stdlib Require Import Strings.Byte.
From S2P Require Import Prelude Text Errors Hash Json Record.

Definition COMMITMENT_ALG : rstring := str "blake3-salted".

Abbreviation Salt := bytes (only parsing).

Definition salt_random `{OsRng} (rng : rng_state) : Salt * rng_state := os_fill_bytes 32 rng.

(** [Debug] prints nothing of the salt. *)
Definition salt_debug (salt : Salt) : rstring := str "Salt(..)".

Definition salt_to_hex (salt : Salt) : rstring := hex_encode salt.

Definition salt_from_hex (hex : rstring) : Result Salt :=
  v ← hex_decode "salt" hex;
  if decide (length v = 32%nat) then Ok v else Err (InvalidHex "salt" "expected 32 bytes").

Section ops.
Context `{Blake3}.

Definition commit (payload : bytes) (salt : Salt) : PayloadCommitment :=
  {| pc_alg := COMMITMENT_ALG; pc_commitment := blake3_hex (salt ++ payload) |}.

Definition verify_commitment (payload : bytes) (salt : Salt) (c : PayloadCommitment) : bool :=
  bool_decide (pc_alg c = COMMITMENT_ALG) &&
  bool_decide (pc_commitment (commit payload salt) = pc_commitment c).
End ops.

(** ** Properties *)

Lemma verify_commitment_iff `{Blake3} payload salt c :
  verify_commitment payload salt c = true ↔ c = commit payload salt.
Proof.
  unfold verify_commitment. rewrite andb_true_iff, !bool_decide_eq_true.
  destruct c; cbn. unfold commit. naive_solver.
Qed.

(** C39: Selective disclosure is complete and binding: a commitment verifies
    for the payload and salt it was made from, and two disclosures of one
    commitment with 32-byte salts are the same payload and salt, unless BLAKE3
    collides on the two salted payloads. *)
Theorem commitment_binding `{Blake3} p1 s1 p2 s2 c :
  verify_commitment p1 s1 (commit p1 s1) = true ∧
  (length s1 = 32%nat → length s2 = 32%nat →
   collision_free_on blake3_hash [s1 ++ p1; s2 ++ p2] →
   verify_commitment p1 s1 c = true → verify_commitment p2 s2 c = true → p1 = p2 ∧ s1 = s2).
Proof.
  split; [by apply verify_commitment_iff|].
  intros H1 H2 Hcf ->%verify_commitment_iff Heq%verify_commitment_iff. injection Heq as Heq.
  apply blake3_hex_inj, Hcf in Heq; [|left|right; left].
  apply app_eq_same_length in Heq as [-> ->]; [done|congruence].
Qed.

Lemma commitment_binding_witness :
  [x61; x62] = [x61] ++ [x62] ∧ replicate 32 x05 = replicate 16 x05 ++ replicate 16 x05.
Proof.
  apply (@commitment_binding poly_blake3 [x61; x62] (replicate 32 x05) ([x61] ++ [x62])
    (replicate 16 x05 ++ replicate 16 x05) (@commit poly_blake3 [x61; x62] (replicate 32 x05)));
    [reflexivity|reflexivity|by_compute|vm_compute; reflexivity|vm_compute; reflexivity].
Defined.

(** Salts survive their hexadecimal form, and only 64 hexadecimal digits
    decode to a salt. *)
Theorem salt_hex_round_trip salt hex :
  (length salt = 32%nat → salt_from_hex (salt_to_hex salt) = Ok salt) ∧
  (∀ s, salt_from_hex hex = Ok s → length s = 32%nat ∧ hex_decode "salt" hex = Ok s).
Proof.
  unfold salt_from_hex, salt_to_hex. split.
  - intros Hlen. rewrite hex_decode_encode. cbn. by rewrite decide_True.
  - intros s (v & Hv & Hs)%bind_Ok. case_decide; [|done]. by injection Hs as <-.
Qed.

Lemma salt_hex_round_trip_witness :
  salt_from_hex (salt_to_hex (replicate 32 xfe)) = Ok (replicate 32 xfe).
Proof. apply (salt_hex_round_trip (replicate 32 xfe) []). reflexivity. Defined.
