(* ===== verification/Projection.v ===== *)
(** * The Console-safe projection of records (evidence/src/projection.rs) *)

From S2P Require Import Prelude Text Errors Hash Json Record.

Definition MAX_PROJECTED_STRING : Z := 512.
Definition MAX_PROJECTED_LABELS : nat := 32.

(** The horizontal ellipsis, U+2026. *)
Definition ELLIPSIS : char := 0x2026.

(** [char::is_control]: the general category Cc. *)
Definition is_control (c : char) : bool := (c <=? 0x1F) || ((0x7F <=? c) && (c <=? 0x9F)).

(** The loop of [sanitize], with its [break] and [continue]. *)
Fixpoint sanitize_loop (max_len : Z) (out : rstring) (cs : list char) : rstring :=
  match cs with
  | [] => out
  | c :: cs =>
    if max_len <=? str_len out then out ++ [ELLIPSIS]
    else if is_control c then sanitize_loop max_len out cs
    else sanitize_loop max_len (out ++ [c]) cs
  end.

Definition sanitize (s : rstring) (max_len : Z) : rstring := sanitize_loop max_len [] s.

Record ConsoleSafeRecord := {
  csr_schema_version : rstring;
  csr_record_id : rstring;
  csr_stream_id : rstring;
  csr_segment_id : rstring;
  csr_seq : Z;
  csr_ts_wall : rstring;
  csr_ts_mono_ns : Z;
  csr_record_type : RecordType;
  csr_recorder : RecorderInfo;
  csr_subject : Subject;
  csr_action : Action;
  csr_payload_commitment : option PayloadCommitment;
  csr_verdict : option Verdict;
  csr_approval_ref : option ApprovalRef;
  csr_links : option Links;
  csr_prev_hash : rstring;
  csr_record_hash : rstring;
}.

(** [impl From<&Record> for ConsoleSafeRecord]. *)
Definition console_safe (r : EvRecord) : ConsoleSafeRecord :=
  let s v := sanitize v MAX_PROJECTED_STRING in
  {| csr_schema_version := rec_schema_version r; csr_record_id := rec_record_id r;
     csr_stream_id := rec_stream_id r; csr_segment_id := rec_segment_id r; csr_seq := rec_seq r;
     csr_ts_wall := rec_ts_wall r; csr_ts_mono_ns := rec_ts_mono_ns r;
     csr_record_type := rec_record_type r;
     csr_recorder :=
       let x := rec_recorder r in
       {| ri_recorder_id := s (ri_recorder_id x); ri_version := s (ri_version x);
          ri_host_fingerprint := s (ri_host_fingerprint x); ri_platform := s (ri_platform x) |};
     csr_subject :=
       let x := rec_subject r in
       {| sub_agent_kind := s (sub_agent_kind x); sub_agent_session := s (sub_agent_session x);
          sub_human_principal := s <$> sub_human_principal x;
          sub_attribution := sub_attribution x; sub_source := s (sub_source x) |};
     csr_action :=
       let x := rec_action r in
       {| act_integration := s (act_integration x); act_operation := s (act_operation x);
          act_verb_class := s (act_verb_class x);
          act_target_resource := s (act_target_resource x);
          act_resource_labels := s <$> take MAX_PROJECTED_LABELS (act_resource_labels x) |};
     csr_payload_commitment := rec_payload_commitment r; csr_verdict := rec_verdict r;
     csr_approval_ref := rec_approval_ref r; csr_links := rec_links r;
     csr_prev_hash := rec_prev_hash r; csr_record_hash := rec_record_hash r |}.

Definition console_safe_fields (r : ConsoleSafeRecord) : jmap :=
  [(str "schema_version", String (csr_schema_version r));
   (str "record_id", String (csr_record_id r));
   (str "stream_id", String (csr_stream_id r));
   (str "segment_id", String (csr_segment_id r));
   (str "seq", u64_value (csr_seq r));
   (str "ts_wall", String (csr_ts_wall r));
   (str "ts_mono_ns", u64_value (csr_ts_mono_ns r));
   (str "record_type", String (record_type_str (csr_record_type r)));
   (str "recorder", to_value (csr_recorder r));
   (str "subject", to_value (csr_subject r));
   (str "action", to_value (csr_action r))] ++
  opt_field "payload_commitment" (to_value <$> csr_payload_commitment r) ++
  opt_field "verdict" (to_value <$> csr_verdict r) ++
  opt_field "approval_ref" (to_value <$> csr_approval_ref r) ++
  opt_field "links" (to_value <$> csr_links r) ++
  [(str "prev_hash", String (csr_prev_hash r));
   (str "record_hash", String (csr_record_hash r))].

Global Instance ConsoleSafeRecord_serialize : Serialize ConsoleSafeRecord :=
  λ r, Object (console_safe_fields r).

(** ** Facts *)

Definition printable (c : char) : bool := negb (is_control c).

(** What the loop returns: a prefix of the printable characters, which is cut
    only at the cap, and an ellipsis if it stopped before the end. *)
Lemma sanitize_loop_spec max_len out cs :
  ∃ pre suf, cs = pre ++ suf ∧
    sanitize_loop max_len out cs =
      out ++ filter (λ c, printable c = true) pre ++ (if decide (suf = []) then [] else [ELLIPSIS]) ∧
    (suf ≠ [] → max_len ≤ str_len (out ++ filter (λ c, printable c = true) pre)) ∧
    (∀ p c q, pre = p ++ c :: q → str_len (out ++ filter (λ c, printable c = true) p) < max_len).
Proof.
  revert out; induction cs as [|c cs IH]; intros out; cbn [sanitize_loop].
  - exists [], []. cbn. rewrite app_nil_r. split_and!; try done. by intros [|? []].
  - destruct (Z.leb_spec max_len (str_len out)) as [Hl|Hl].
    + exists [], (c :: cs). cbn. rewrite app_nil_r. split_and!; try done. by intros [|? []].
    + set (out' := if is_control c then out else out ++ [c]).
      assert ((if is_control c then sanitize_loop max_len out cs
               else sanitize_loop max_len (out ++ [c]) cs) = sanitize_loop max_len out' cs) as ->
        by (unfold out'; by destruct (is_control c)).
      destruct (IH out') as (pre & suf & -> & -> & Hsuf & Hpre).
      assert (∀ p, out' ++ filter (λ c, printable c = true) p =
                   out ++ filter (λ c, printable c = true) (c :: p)) as Hout.
      { intros p. unfold out'. rewrite filter_cons. case_decide as Hd; unfold printable in Hd;
          destruct (is_control c); try done. by rewrite <-app_assoc. }
      exists (c :: pre), suf. split_and!.
      * done.
      * by rewrite app_assoc, Hout, <-app_assoc.
      * by rewrite <-Hout.
      * intros [|d p] e q Heq; [by rewrite filter_nil, app_nil_r|]. injection Heq as <- Heq.
        rewrite <-Hout. eauto.
Qed.

Lemma str_len_app s t : str_len (s ++ t) = str_len s + str_len t.
Proof. unfold str_len, as_bytes. rewrite bind_app, length_app. lia. Qed.

Lemma encode_utf8_length c : (length (encode_utf8 c) ≤ 4)%nat.
Proof. unfold encode_utf8. repeat case_match; cbn; lia. Qed.

Lemma str_len_singleton c : 0 ≤ str_len [c] ≤ 4.
Proof.
  unfold str_len, as_bytes. cbn. rewrite app_nil_r. pose proof (encode_utf8_length c). lia.
Qed.

Lemma str_len_nonneg s : 0 ≤ str_len s.
Proof. unfold str_len. lia. Qed.

Lemma str_len_pos c : 0 < str_len [c].
Proof.
  unfold str_len, as_bytes. cbn. rewrite app_nil_r.
  assert (1 ≤ length (encode_utf8 c))%nat; [|lia].
  unfold encode_utf8. repeat case_match; cbn; lia.
Qed.

Lemma filter_printable s :
  forallb printable s = true → filter (λ c, printable c = true) s = s.
Proof.
  induction s as [|c s IH]; [done|]. cbn [forallb]. intros [Hc Hs]%andb_true_iff.
  by rewrite filter_cons_True, IH.
Qed.

(** The kept characters overshoot the cap by less than one character. *)
Lemma sanitize_prefix_len max_len pre :
  0 < max_len →
  (∀ p c q, pre = p ++ c :: q → str_len (filter (λ c, printable c = true) p) < max_len) →
  str_len (filter (λ c, printable c = true) pre) < max_len + 4.
Proof.
  intros Hm Hpre. destruct pre as [|c pre _] using rev_ind; [change (0 < max_len + 4); lia|].
  specialize (Hpre pre c [] eq_refl). rewrite filter_app, str_len_app, filter_cons, filter_nil.
  pose proof (str_len_singleton c). case_decide; [lia|]. change (str_len []) with 0. lia.
Qed.

Lemma sanitize_bounds s max_len :
  0 < max_len →
  Forall (λ c, is_control c = false) (sanitize s max_len) ∧
  str_len (sanitize s max_len) ≤ max_len + 6.
Proof.
  intros Hm. unfold sanitize.
  destruct (sanitize_loop_spec max_len [] s) as (pre & suf & Hs & -> & _ & Hpre).
  cbn [app] in *. pose proof (sanitize_prefix_len max_len pre Hm Hpre) as Hlen. split.
  - apply Forall_app. split.
    + apply Forall_forall. intros c [Hc _]%list_elem_of_filter. by apply negb_true_iff in Hc.
    + case_decide; repeat constructor.
  - rewrite str_len_app. assert (str_len [ELLIPSIS] = 3) as He by reflexivity.
    case_decide; [change (str_len []) with 0|]; lia.
Qed.

Lemma sanitize_id s max_len :
  forallb printable s = true → str_len s ≤ max_len → sanitize s max_len = s.
Proof.
  intros Hp Hle. unfold sanitize.
  destruct (sanitize_loop_spec max_len [] s) as (pre & suf & -> & -> & Hsuf & _). cbn [app] in *.
  rewrite forallb_app in Hp. apply andb_true_iff in Hp as [Hp1 _].
  rewrite filter_printable in * by done. case_decide as Hd; [by subst|]. specialize (Hsuf Hd).
  rewrite str_len_app in Hle. destruct suf as [|c suf]; [done|]. exfalso.
  change (c :: suf) with ([c] ++ suf) in Hle. rewrite (str_len_app [c] suf) in Hle.
  pose proof (str_len_nonneg suf). pose proof (str_len_pos c). lia.
Qed.

(** ** Properties *)

(** Sanitizing. The result has no control characters, is at most six bytes
    over the cap (the cap is checked before a character of up to four bytes is
    kept, and an ellipsis of three bytes may follow), and is the printable part
    of the input, in order, cut at the cap; an input below the cap without
    control characters is unchanged. *)
Theorem sanitize_spec s max_len :
  0 < max_len →
  Forall (λ c, is_control c = false) (sanitize s max_len) ∧
  str_len (sanitize s max_len) ≤ max_len + 6 ∧
  (∃ pre suf, s = pre ++ suf ∧
     sanitize s max_len =
       filter (λ c, printable c = true) pre ++ (if decide (suf = []) then [] else [ELLIPSIS])) ∧
  (forallb printable s = true → str_len s ≤ max_len → sanitize s max_len = s).
Proof.
  intros Hm. destruct (sanitize_bounds s max_len Hm) as [Hc Hl]. split_and!; [done..| |].
  - unfold sanitize. destruct (sanitize_loop_spec max_len [] s) as (pre & suf & Hs & -> & _).
    by exists pre, suf.
  - apply sanitize_id.
Qed.

Lemma sanitize_spec_witness : sanitize (str "db:prod") 512 = str "db:prod".
Proof. apply (sanitize_spec (str "db:prod") 512); [lia|reflexivity|vm_compute; discriminate]. Defined.

(** The record with other payload data. *)
Definition set_payload_data (d : option value) (p : option PayloadRef) (r : EvRecord) : EvRecord :=
  {| rec_schema_version := rec_schema_version r; rec_record_id := rec_record_id r;
     rec_stream_id := rec_stream_id r; rec_segment_id := rec_segment_id r;
     rec_seq := rec_seq r; rec_ts_wall := rec_ts_wall r; rec_ts_mono_ns := rec_ts_mono_ns r;
     rec_record_type := rec_record_type r; rec_recorder := rec_recorder r;
     rec_subject := rec_subject r; rec_action := rec_action r; rec_action_detail := d;
     rec_payload_commitment := rec_payload_commitment r; rec_payload_ref := p;
     rec_verdict := rec_verdict r; rec_approval_ref := rec_approval_ref r;
     rec_links := rec_links r; rec_prev_hash := rec_prev_hash r;
     rec_record_hash := rec_record_hash r |}.

(** The members a projection may have. *)
Definition console_allowlist : list rstring :=
  str <$> ["schema_version"; "record_id"; "stream_id"; "segment_id"; "seq"; "ts_wall";
           "ts_mono_ns"; "record_type"; "recorder"; "subject"; "action"; "payload_commitment";
           "verdict"; "approval_ref"; "links"; "prev_hash"; "record_hash"].

Lemma console_safe_keys x : Forall (λ k, k ∈ console_allowlist) (console_safe_fields x).*1.
Proof.
  unfold console_safe_fields, opt_field.
  destruct (csr_payload_commitment x), (csr_verdict x), (csr_approval_ref x), (csr_links x);
    cbn [fmap option_fmap option_map app list_fmap fst]; by_compute.
Qed.

(** The strings of the recorder, subject and action of a projection. *)
Definition projected_strings (x : ConsoleSafeRecord) : list rstring :=
  let r := csr_recorder x in let s := csr_subject x in let a := csr_action x in
  [ri_recorder_id r; ri_version r; ri_host_fingerprint r; ri_platform r;
   sub_agent_kind s; sub_agent_session s] ++ option_list (sub_human_principal s) ++
  [sub_source s; act_integration a; act_operation a; act_verb_class a; act_target_resource a] ++
  act_resource_labels a.

(** C40: What crosses to the Console. The projection does not depend on
    [action_detail] or [payload_ref] and its JSON has only members of the
    allowlist (neither of the two is one); the strings of its recorder, subject
    and action have no control characters and at most 518 bytes; and there are
    at most 32 resource labels. *)
Theorem console_safe_projection r d p :
  console_safe (set_payload_data d p r) = console_safe r ∧
  Forall (λ k, k ∈ console_allowlist) (console_safe_fields (console_safe r)).*1 ∧
  str "action_detail" ∉ console_allowlist ∧ str "payload_ref" ∉ console_allowlist ∧
  Forall (λ s, Forall (λ c, is_control c = false) s ∧ str_len s ≤ 518)
    (projected_strings (console_safe r)) ∧
  (length (act_resource_labels (csr_action (console_safe r))) ≤ 32)%nat.
Proof.
  split_and!; [done|apply console_safe_keys|by_compute|by_compute| |].
  - unfold projected_strings, console_safe. cbn.
    repeat (apply Forall_cons; split; [by apply sanitize_bounds|]).
    destruct (sub_human_principal (rec_subject r)); cbn;
      repeat (apply Forall_cons; split; [by apply sanitize_bounds|]);
      apply Forall_fmap, Forall_true; intros; by apply sanitize_bounds.
  - cbn. rewrite length_fmap, length_take. unfold MAX_PROJECTED_LABELS. lia.
Qed.

(** Strings outside these three structs are copied verbatim: a control
    character in [ts_wall] survives. *)
Lemma console_safe_copies_control :
  ∃ r, ¬ Forall (λ c, is_control c = false) (csr_ts_wall (console_safe r)).
Proof.
  exists (sample_record (str "S") (str "G") [0x0A] 0). cbn. by inversion 1.
Qed.
