(* ===== verification/Certs.v ===== *)
(** * Offline certificate chain validation (evidence/src/certs.rs)

    The [x509-parser] crate is the parameter [X509]: PEM iteration, DER
    decoding, the accessors of a certificate and signature verification. The
    issuance helpers of the same file are in [Issue]. *)

From Stdlib Require Import Strings.Byte.
From S2P Require Import Prelude Text Errors Hash Keys.

Class X509 := {
  certificate : Type;
  x509_name : Type;
  x509_name_eq_dec :: EqDecision x509_name;
  asn1_time : Type;
  spki : Type;
  x509_extension : Type;
  (** [Pem::iter_from_buffer]: label and contents of each block, or an error. *)
  pem_iter : bytes → list (option (rstring * bytes));
  x509_from_der : bytes → option certificate;
  x509_issuer : certificate → x509_name;
  x509_subject : certificate → x509_name;
  (** [iter_common_name], each entry if it is a string. *)
  x509_common_names : certificate → list (option rstring);
  x509_public_key : certificate → spki;
  spki_key_data : spki → bytes;
  x509_is_valid_at : certificate → asn1_time → bool;
  x509_not_before : certificate → Z;
  x509_not_after : certificate → Z;
  x509_extensions : certificate → list x509_extension;
  (** The [ca] flag of a [BasicConstraints] extension. *)
  ext_basic_constraints : x509_extension → option bool;
  x509_verify_signature : certificate → spki → bool;
  asn1_from_timestamp : Z → option asn1_time;
}.

Section certs.
Context `{Blake3} `{Ed25519} `{X509}.

Record ValidatedCert := {
  vc_subject_common_name : rstring;
  vc_public_key : verifying_key;
  vc_fingerprint : rstring;
  vc_not_before_unix : Z;
  vc_not_after_unix : Z;
}.

(** The loop of [parse_pem_chain]. *)
Fixpoint collect_ders (items : list (option (rstring * bytes))) : Result (list bytes) :=
  match items with
  | [] => Ok []
  | item :: items =>
    '(label, contents) ← ok_or item (Certificate "PEM parse");
    ders ← collect_ders items;
    mret (if decide (label = str "CERTIFICATE") then contents :: ders else ders)
  end.

Definition parse_pem_chain (pem : rstring) : Result (list bytes) :=
  ders ← collect_ders (pem_iter (as_bytes pem));
  match ders with
  | [] => Err (Certificate "no CERTIFICATE blocks in PEM")
  | _ => Ok ders
  end.

(** [parse_pem_chain(pem)?.remove(0)]. *)
Definition first_der (pem : rstring) : Result bytes :=
  ders ← parse_pem_chain pem; mret (default [] (head ders)).

Definition cert_fingerprint (cert_pem : rstring) : Result rstring :=
  der ← first_der cert_pem; mret (blake3_hex der).

Definition extract_ed25519_key (cert : certificate) : Result verifying_key :=
  vk_from_bytes (spki_key_data (x509_public_key cert)).

Definition common_name (cert : certificate) : rstring :=
  default [] (mjoin (head (x509_common_names cert))).

Definition check_validity (cert : certificate) (at_ : asn1_time) : Result unit :=
  if x509_is_valid_at cert at_ then Ok tt
  else Err (Certificate "certificate not valid at requested time").

Definition is_ca (cert : certificate) : bool :=
  existsb (λ ext, bool_decide (ext_basic_constraints ext = Some true)) (x509_extensions cert).

Definition verify_signed_by (cert issuer : certificate) : Result unit :=
  if x509_verify_signature cert (x509_public_key issuer) then Ok tt
  else Err (Certificate "signature verification failed").

Definition decode_cert (what : string) (der : bytes) : Result certificate :=
  ok_or (x509_from_der der) (Certificate what).

(** The loop over the pool: the first certificate whose subject is the issuer
    of [current] is taken or rejected. *)
Fixpoint find_issuer (at_ : asn1_time) (current : certificate) (pool : list bytes)
    : Result (option bytes) :=
  match pool with
  | [] => Ok None
  | cand_der :: pool =>
    cand ← decode_cert "pool DER" cand_der;
    if decide (x509_subject cand = x509_issuer current) then
      _ ← check_validity cand at_;
      _ ← (if is_ca cand then Ok tt else Err (Certificate "intermediate is not a CA"));
      _ ← verify_signed_by current cand;
      mret (Some cand_der)
    else find_issuer at_ current pool
  end.

(** The walk from the leaf to the root; [hops] counts down from 8. *)
Fixpoint walk (hops : nat) (at_ : asn1_time) (pool : list bytes) (root : certificate)
    (current_der : bytes) : Result unit :=
  match hops with
  | O => Err (Certificate "chain too deep")
  | S hops =>
    current ← decode_cert "chain DER" current_der;
    if decide (x509_issuer current = x509_subject root) then
      _ ← verify_signed_by current root;
      if is_ca root then Ok tt else Err (Certificate "root is not a CA")
    else
      found ← find_issuer at_ current pool;
      match found with
      | Some der => walk hops at_ pool root der
      | None => Err (Certificate "no issuer found")
      end
  end.

Definition MAX_HOPS : nat := 8.

Definition validate_chain (leaf_pem : rstring) (intermediates_pem : list rstring)
    (root_pem : rstring) (at_unix : Z) : Result ValidatedCert :=
  leaf_der ← first_der leaf_pem;
  root_der ← first_der root_pem;
  pool ← mapM parse_pem_chain intermediates_pem;
  leaf ← decode_cert "leaf DER" leaf_der;
  root ← decode_cert "root DER" root_der;
  at_ ← ok_or (asn1_from_timestamp at_unix) (Certificate "timestamp");
  _ ← check_validity leaf at_;
  _ ← check_validity root at_;
  _ ← walk MAX_HOPS at_ (mjoin pool) root leaf_der;
  key ← extract_ed25519_key leaf;
  mret {| vc_subject_common_name := common_name leaf; vc_public_key := key;
          vc_fingerprint := blake3_hex leaf_der; vc_not_before_unix := x509_not_before leaf;
          vc_not_after_unix := x509_not_after leaf |}.

(** ** Specification

    [chains_to at pool root n der]: a path of [n] certificates leads from
    [der] to the root. *)
Inductive chains_to (at_ : asn1_time) (pool : list bytes) (root : certificate) : nat → bytes → Prop :=
| chains_root der c :
    x509_from_der der = Some c → x509_issuer c = x509_subject root →
    x509_verify_signature c (x509_public_key root) = true → is_ca root = true →
    chains_to at_ pool root 1 der
| chains_step n der c der' c' :
    x509_from_der der = Some c → x509_issuer c ≠ x509_subject root →
    der' ∈ pool → x509_from_der der' = Some c' → x509_subject c' = x509_issuer c →
    x509_is_valid_at c' at_ = true → is_ca c' = true →
    x509_verify_signature c (x509_public_key c') = true →
    chains_to at_ pool root n der' → chains_to at_ pool root (S n) der.

(** Every certificate of the pool decodes, and no two have the same subject. *)
Definition pool_regular (pool : list bytes) : Prop :=
  (∀ der, der ∈ pool → is_Some (x509_from_der der)) ∧
  (∀ d1 d2 c1 c2, d1 ∈ pool → d2 ∈ pool → x509_from_der d1 = Some c1 →
     x509_from_der d2 = Some c2 → x509_subject c1 = x509_subject c2 → d1 = d2).

(** ** Facts *)

Lemma check_validity_Ok c t : check_validity c t = Ok tt ↔ x509_is_valid_at c t = true.
Proof. unfold check_validity. by case_match. Qed.

Lemma verify_signed_by_Ok c i :
  verify_signed_by c i = Ok tt ↔ x509_verify_signature c (x509_public_key i) = true.
Proof. unfold verify_signed_by. by case_match. Qed.

Lemma find_issuer_Some at_ cur pool der :
  find_issuer at_ cur pool = Ok (Some der) →
  der ∈ pool ∧ ∃ c, x509_from_der der = Some c ∧ x509_subject c = x509_issuer cur ∧
    x509_is_valid_at c at_ = true ∧ is_ca c = true ∧
    x509_verify_signature cur (x509_public_key c) = true.
Proof.
  induction pool as [|d pool IH]; [done|]. cbn [find_issuer].
  intros (c & Hc%ok_or_Ok & Hf)%bind_Ok. case_decide as Hs.
  - apply bind_Ok in Hf as ([] & Hv%check_validity_Ok & Hf).
    apply bind_Ok in Hf as ([] & Hca & Hf).
    apply bind_Ok in Hf as ([] & Hsig%verify_signed_by_Ok & Hf). injection Hf as <-.
    split; [left|]. exists c. destruct (is_ca c); done.
  - destruct (IH Hf) as [Hin Hex]. split; [by right|done].
Qed.

Lemma find_issuer_found at_ cur pool der c :
  pool_regular pool → der ∈ pool → x509_from_der der = Some c →
  x509_subject c = x509_issuer cur → x509_is_valid_at c at_ = true → is_ca c = true →
  x509_verify_signature cur (x509_public_key c) = true →
  find_issuer at_ cur pool = Ok (Some der).
Proof.
  intros [Hdec Huniq] Hin Hc Hs Hv Hca Hsig. induction pool as [|d pool IH]; [by inversion Hin|].
  cbn [find_issuer]. destruct (Hdec d) as [cd Hd]; [left|]. unfold decode_cert at 1.
  rewrite Hd. cbn [ok_or mbind result_bind]. case_decide as Hsub.
  - assert (d = der) as ->.
    { eapply Huniq; [left|exact Hin|exact Hd|exact Hc|congruence]. }
    rewrite Hc in Hd. injection Hd as <-.
    apply check_validity_Ok in Hv as ->. cbn. rewrite Hca. cbn.
    by apply verify_signed_by_Ok in Hsig as ->.
  - apply elem_of_cons in Hin as [->|Hin]; [congruence|]. apply IH; [..|done].
    + intros e He. apply Hdec. by right.
    + intros d1 d2 c1 c2 H1' H2'. apply Huniq; by right.
Qed.

Lemma walk_sound hops at_ pool root der :
  walk hops at_ pool root der = Ok tt → ∃ n, (n ≤ hops)%nat ∧ chains_to at_ pool root n der.
Proof.
  revert der; induction hops as [|hops IH]; intros der; [done|]. cbn [walk].
  intros (c & Hc%ok_or_Ok & Hw)%bind_Ok. case_decide as Hi.
  - apply bind_Ok in Hw as ([] & Hsig%verify_signed_by_Ok & Hw).
    exists 1%nat. split; [lia|]. econstructor; eauto. by destruct (is_ca root).
  - apply bind_Ok in Hw as ([d|] & Hf & Hw); [|done].
    apply find_issuer_Some in Hf as (Hin & c' & ? & ? & ? & ? & ?).
    destruct (IH d Hw) as (n & Hn & Hch). exists (S n). split; [lia|]. by econstructor.
Qed.

Lemma walk_complete hops at_ pool root n der :
  pool_regular pool → chains_to at_ pool root n der → (n ≤ hops)%nat →
  walk hops at_ pool root der = Ok tt.
Proof.
  intros Hreg Hch. revert hops. induction Hch as [d c Hc Hi Hsig Hca|n d c d' c' Hc Hi Hin Hc' Hs Hv Hca Hsig Hch IH];
    intros [|hops] Hn; try lia; cbn [walk]; unfold decode_cert; rewrite Hc;
    cbn [ok_or mbind result_bind].
  - rewrite decide_True by done. apply verify_signed_by_Ok in Hsig as ->. cbn. by rewrite Hca.
  - rewrite decide_False by done. rewrite (find_issuer_found at_ c pool d' c') by done. cbn.
    apply IH. lia.
Qed.

(** In a regular pool the path is unique, so its length is. *)
Lemma chains_to_length at_ pool root n m der :
  pool_regular pool → chains_to at_ pool root n der → chains_to at_ pool root m der → n = m.
Proof.
  intros [_ Huniq] Hn; revert m.
  induction Hn as [d c Hc Hi _ _|n d c d' c' Hc Hi Hin Hc' Hs _ _ _ _ IH]; intros m Hm;
    inversion Hm as [? c2 Hc2 Hi2|? ? c2 d2 c2' Hc2 Hi2 Hin2 Hc2' Hs2 _ _ _ Hch2]; subst;
    rewrite Hc in Hc2; injection Hc2 as <-; try done.
  assert (d' = d2) as <- by (eapply Huniq; eauto; congruence).
  f_equal. by apply IH.
Qed.

Lemma chain_validates leaf_pem inter root_pem at_unix leaf_der root_der pools leaf root at_ n key :
  first_der leaf_pem = Ok leaf_der → first_der root_pem = Ok root_der →
  mapM parse_pem_chain inter = Ok pools →
  x509_from_der leaf_der = Some leaf → x509_from_der root_der = Some root →
  asn1_from_timestamp at_unix = Some at_ →
  x509_is_valid_at leaf at_ = true → x509_is_valid_at root at_ = true →
  pool_regular (mjoin pools) → chains_to at_ (mjoin pools) root n leaf_der → (n ≤ MAX_HOPS)%nat →
  extract_ed25519_key leaf = Ok key →
  validate_chain leaf_pem inter root_pem at_unix =
    Ok {| vc_subject_common_name := common_name leaf; vc_public_key := key;
          vc_fingerprint := blake3_hex leaf_der; vc_not_before_unix := x509_not_before leaf;
          vc_not_after_unix := x509_not_after leaf |}.
Proof.
  intros Hl Hr Hp Hld Hrd Ht Hv1 Hv2 Hreg Hch Hn Hk. unfold validate_chain, decode_cert.
  rewrite Hl, Hr. cbn [mbind result_bind]. rewrite Hp. cbn [mbind result_bind].
  rewrite Hld, Hrd, Ht. cbn [ok_or mbind result_bind].
  apply check_validity_Ok in Hv1 as ->, Hv2 as ->. cbn [mbind result_bind].
  rewrite (walk_complete MAX_HOPS at_ (mjoin pools) root n leaf_der) by done.
  cbn [mbind result_bind]. by rewrite Hk.
Qed.
(** What a validated certificate was found to be. *)
Lemma validated_path leaf_pem inter root_pem at_unix v :
  validate_chain leaf_pem inter root_pem at_unix = Ok v →
  ∃ leaf_der root_der pools leaf root at_ n,
    first_der leaf_pem = Ok leaf_der ∧ first_der root_pem = Ok root_der ∧
    mapM parse_pem_chain inter = Ok pools ∧
    x509_from_der leaf_der = Some leaf ∧ x509_from_der root_der = Some root ∧
    asn1_from_timestamp at_unix = Some at_ ∧
    x509_is_valid_at leaf at_ = true ∧ x509_is_valid_at root at_ = true ∧ is_ca root = true ∧
    (n ≤ 8)%nat ∧ chains_to at_ (mjoin pools) root n leaf_der ∧
    extract_ed25519_key leaf = Ok (vc_public_key v) ∧
    cert_fingerprint leaf_pem = Ok (vc_fingerprint v) ∧ vc_subject_common_name v = common_name leaf.
Proof.
  unfold validate_chain. intros Hv. ok_inv. subst v. cbn.
  repeat match goal with u : unit |- _ => destruct u end.
  repeat match goal with
  | Hx : decode_cert _ _ = Ok _ |- _ => apply ok_or_Ok in Hx
  | Hx : check_validity _ _ = Ok _ |- _ => apply check_validity_Ok in Hx
  end.
  match goal with Hx : walk _ _ _ _ _ = Ok _ |- _ => apply walk_sound in Hx as (n & Hn & Hch) end.
  assert (∀ n d root pool at_, chains_to at_ pool root n d → is_ca root = true) as Hca
    by (clear; induction 1; done).
  unfold cert_fingerprint.
  do 7 eexists. split_and!; try eassumption; [by eapply Hca| |done].
  match goal with Hx : first_der leaf_pem = Ok _ |- _ => by rewrite Hx end.
Qed.
End certs.

(** ** A concrete certificate format

    A certificate is five bytes: subject, issuer, CA flag ["Y"], key tag, and
    the key tag of the signer. *)

Definition byte_at (i : nat) (c : bytes) : byte := default x00 (c !! i).

Definition toy_x509 : X509 :=
  {| certificate := bytes; x509_name := byte; x509_name_eq_dec := _; asn1_time := Z;
     spki := byte; x509_extension := byte;
     pem_iter bs := match bs with [] => [] | _ => [Some (str "CERTIFICATE", bs)] end;
     x509_from_der bs := if decide (length bs = 5%nat) then Some bs else None;
     x509_issuer := byte_at 1; x509_subject := byte_at 0;
     x509_common_names c := [Some [b2z (byte_at 0 c)]];
     x509_public_key := byte_at 3; spki_key_data k := replicate 32 k;
     x509_is_valid_at _ t := 0 <=? t; x509_not_before _ := 0; x509_not_after _ := 1000;
     x509_extensions c := [byte_at 2 c]; ext_basic_constraints e := Some (bool_decide (e = x59));
     x509_verify_signature c k := bool_decide (byte_at 4 c = k);
     asn1_from_timestamp := Some |}.

(** ** Properties *)

(** C29: A validated certificate is on a path to the root: there are at most
    eight certificates from the leaf, each signed by the key of the next, which
    is a CA certificate of the pool that is valid at the time, and the last one
    signed by the root's key; leaf and root are valid at the time and the root
    is a CA. The key, the common name and the fingerprint returned are those of
    the leaf. *)
Theorem validate_chain_sound `{Blake3} `{Ed25519} `{X509} leaf_pem inter root_pem at_unix v :
  validate_chain leaf_pem inter root_pem at_unix = Ok v →
  ∃ leaf_der root_der pools leaf root at_ n,
    first_der leaf_pem = Ok leaf_der ∧ first_der root_pem = Ok root_der ∧
    mapM parse_pem_chain inter = Ok pools ∧
    x509_from_der leaf_der = Some leaf ∧ x509_from_der root_der = Some root ∧
    asn1_from_timestamp at_unix = Some at_ ∧
    x509_is_valid_at leaf at_ = true ∧ x509_is_valid_at root at_ = true ∧ is_ca root = true ∧
    (n ≤ 8)%nat ∧ chains_to at_ (mjoin pools) root n leaf_der ∧
    extract_ed25519_key leaf = Ok (vc_public_key v) ∧
    cert_fingerprint leaf_pem = Ok (vc_fingerprint v) ∧ vc_subject_common_name v = common_name leaf.
Proof. apply validated_path. Qed.

Lemma validate_chain_sound_witness :
  ∃ leaf_der root leaf at_ n,
    @first_der toy_x509 (str "LINli") = Ok leaf_der ∧
    @x509_from_der toy_x509 leaf_der = Some leaf ∧
    @chains_to toy_x509 at_ [byte_str "IRYir"] root n leaf_der.
Proof.
  assert (∃ v, @validate_chain poly_blake3 toy_ed25519 toy_x509 (str "LINli") [str "IRYir"]
    (str "RRYrr") 5 = Ok v) as [v Hv] by (eexists; vm_compute; reflexivity).
  destruct (@validate_chain_sound poly_blake3 toy_ed25519 toy_x509 (str "LINli") [str "IRYir"]
    (str "RRYrr") 5 v Hv)
    as (ld & rd & pools & leaf & root & at_ & n & Hl & _ & Hp & Hd & _ & _ & _ & _ & _ & _ & Hch & _).
  exists ld, root, leaf, at_, n. split; [exact Hl|]. split; [exact Hd|].
  assert (pools = [[byte_str "IRYir"]]) as -> by (vm_compute in Hp; injection Hp as <-; reflexivity).
  exact Hch.
Defined.

(** C30: A certificate with a path of at most eight certificates to the root is
    accepted, when every certificate of the pool decodes and their subjects
    are distinct (the search takes the first certificate with the issuer's
    name and does not backtrack), and a path of more than eight is refused. *)
Theorem validate_chain_complete `{Blake3} `{Ed25519} `{X509} leaf_pem inter root_pem at_unix
    leaf_der root_der pools leaf root at_ n key :
  first_der leaf_pem = Ok leaf_der → first_der root_pem = Ok root_der →
  mapM parse_pem_chain inter = Ok pools →
  x509_from_der leaf_der = Some leaf → x509_from_der root_der = Some root →
  asn1_from_timestamp at_unix = Some at_ →
  x509_is_valid_at leaf at_ = true → x509_is_valid_at root at_ = true →
  pool_regular (mjoin pools) → chains_to at_ (mjoin pools) root n leaf_der →
  extract_ed25519_key leaf = Ok key →
  if decide (n ≤ 8)%nat
  then validate_chain leaf_pem inter root_pem at_unix =
    Ok {| vc_subject_common_name := common_name leaf; vc_public_key := key;
          vc_fingerprint := blake3_hex leaf_der; vc_not_before_unix := x509_not_before leaf;
          vc_not_after_unix := x509_not_after leaf |}
  else is_ok (validate_chain leaf_pem inter root_pem at_unix) = false.
Proof.
  intros Hl Hr Hp Hld Hrd Ht Hv1 Hv2 Hreg Hch Hk. case_decide as Hn; [by eapply chain_validates|].
  unfold validate_chain, decode_cert. rewrite Hl, Hr. cbn [mbind result_bind]. rewrite Hp.
  cbn [mbind result_bind]. rewrite Hld, Hrd, Ht. cbn [ok_or mbind result_bind].
  apply check_validity_Ok in Hv1 as ->, Hv2 as ->. cbn [mbind result_bind].
  destruct (walk MAX_HOPS at_ (mjoin pools) root leaf_der) as [[]|] eqn:Hw; [|done].
  apply walk_sound in Hw as (m & Hm & Hch'). exfalso. apply Hn.
  by rewrite (chains_to_length _ _ _ _ _ _ Hreg Hch Hch').
Qed.

Lemma validate_chain_complete_witness :
  is_ok (@validate_chain poly_blake3 toy_ed25519 toy_x509 (str "LINli") [str "IRYir"]
    (str "RRYrr") 5) = true.
Proof.
  rewrite (@validate_chain_complete poly_blake3 toy_ed25519 toy_x509 (str "LINli") [str "IRYir"]
    (str "RRYrr") 5 (byte_str "LINli") (byte_str "RRYrr") [[byte_str "IRYir"]] (byte_str "LINli")
    (byte_str "RRYrr") 5 2 (replicate 32 x6c)); try (vm_compute; reflexivity).
  - split.
    + intros der Hd. cbn in Hd. apply list_elem_of_singleton in Hd as ->. by eexists.
    + intros d1 d2 c1 c2 H1 H2 _ _ _. cbn in H1, H2. apply list_elem_of_singleton in H1, H2. congruence.
  - eapply chains_step with (c := byte_str "LINli") (der' := byte_str "IRYir")
      (c' := byte_str "IRYir"); try (vm_compute; reflexivity); [by vm_compute|left|].
    eapply chains_root with (c := byte_str "IRYir"); vm_compute; reflexivity.
Defined.
