(* ===== verification/Bundle.v ===== *)
(** * Bundle documents (bundle/src/types.rs, manifest.rs, error.rs)

    The documents of a [.seal] bundle, the serialization of the manifest (the
    only one whose canonical bytes are hashed) and the bundle errors. *)

From S2P Require Import Prelude Text Errors Hash Json Jcs JcsFacts Record Keys Checkpoint.
From S2P Require Import Revocation.

(** ** Errors *)

Inductive BundleError :=
| Io
| Zip
| BundleJson
| Evidence (e : EvidenceError)
| ManifestError (detail : string)
| ContentHashMismatch (path expected computed : rstring)
| MissingEntry (path : rstring)
| Invalid (detail : string).

Global Instance BundleError_eq_dec : EqDecision BundleError.
Proof. solve_decision. Defined.

Abbreviation BResult := (result BundleError).

(** ** types.rs *)

Record BundleCheckpoint := {
  bc_checkpoint : SignedCheckpoint;
  bc_countersignature : option Countersignature;
}.

Record StreamCheckpoints := {
  scs_stream_id : rstring;
  scs_checkpoints : list BundleCheckpoint;
}.

Record RecordIndexStream := {
  ris_stream_id : rstring;
  ris_shards : list rstring;
  ris_seq_from : Z;
  ris_seq_to : Z;
  ris_record_count : Z;
}.

Record RecordIndex := { idx_streams : list RecordIndexStream }.

Record TrustedRoot := { tr_name : rstring; tr_cert_pem : rstring }.

Record ConsoleKeyStatement := {
  cks_key_id : rstring;
  cks_public_key_pem : rstring;
  cks_not_before : rstring;
  cks_not_after : rstring;
}.

Record AttestedConsoleKey := {
  ack_statement : ConsoleKeyStatement;
  ack_signature : option rstring;
  ack_root_name : option rstring;
}.

Record RootsFile := {
  rf_roots : list TrustedRoot;
  rf_console_keys : list AttestedConsoleKey;
}.

Record BundleIdentity := {
  bi_certs_pem : rstring;
  bi_revocations : option SignedRevocationList;
  bi_roots : RootsFile;
}.

Global Instance BundleCheckpoint_eq_dec : EqDecision BundleCheckpoint.
Proof. solve_decision. Defined.
Global Instance StreamCheckpoints_eq_dec : EqDecision StreamCheckpoints.
Proof. solve_decision. Defined.
Global Instance RecordIndexStream_eq_dec : EqDecision RecordIndexStream.
Proof. solve_decision. Defined.
Global Instance RecordIndex_eq_dec : EqDecision RecordIndex.
Proof. solve_decision. Defined.
Global Instance TrustedRoot_eq_dec : EqDecision TrustedRoot.
Proof. solve_decision. Defined.
Global Instance ConsoleKeyStatement_eq_dec : EqDecision ConsoleKeyStatement.
Proof. solve_decision. Defined.
Global Instance AttestedConsoleKey_eq_dec : EqDecision AttestedConsoleKey.
Proof. solve_decision. Defined.
Global Instance RootsFile_eq_dec : EqDecision RootsFile.
Proof. solve_decision. Defined.

(** The statement is what the root key signs. *)
Global Instance ConsoleKeyStatement_serialize : Serialize ConsoleKeyStatement := λ s,
  Object [(str "key_id", String (cks_key_id s));
          (str "public_key_pem", String (cks_public_key_pem s));
          (str "not_before", String (cks_not_before s));
          (str "not_after", String (cks_not_after s))].

Global Program Instance ConsoleKeyStatement_recover : Recover ConsoleKeyStatement := {|
  wf_struct _ := true;
  of_value v :=
    a ← get_str "key_id" v; b ← get_str "public_key_pem" v; c ← get_str "not_before" v;
    d ← get_str "not_after" v;
    Some {| cks_key_id := a; cks_public_key_pem := b; cks_not_before := c; cks_not_after := d |}
|}.
Next Obligation. intros x _. unfold to_value, ConsoleKeyStatement_serialize. recover x. Qed.

(** ** manifest.rs *)

Inductive ExportLevel := Metadata | Full.

Record StreamScope := {
  ss_stream_id : rstring;
  ss_seq_from : Z;
  ss_seq_to : Z;
  ss_record_count : Z;
}.

Record BundleScope := {
  bs_level : ExportLevel;
  bs_ts_from : option rstring;
  bs_ts_to : option rstring;
  bs_resources : list rstring;
  bs_streams : list StreamScope;
}.

Record ContentEntry := { ce_path : rstring; ce_blake3 : rstring; ce_bytes : Z }.

Record ToolInfo := { ti_name : rstring; ti_version : rstring }.

Record Manifest := {
  man_schema_version : rstring;
  man_bundle_id : rstring;
  man_created_at : rstring;
  man_tool : ToolInfo;
  man_scope : BundleScope;
  man_contents : list ContentEntry;
}.

Global Instance ExportLevel_eq_dec : EqDecision ExportLevel.
Proof. solve_decision. Defined.
Global Instance StreamScope_eq_dec : EqDecision StreamScope.
Proof. solve_decision. Defined.
Global Instance BundleScope_eq_dec : EqDecision BundleScope.
Proof. solve_decision. Defined.
Global Instance ContentEntry_eq_dec : EqDecision ContentEntry.
Proof. solve_decision. Defined.
Global Instance ToolInfo_eq_dec : EqDecision ToolInfo.
Proof. solve_decision. Defined.
Global Instance Manifest_eq_dec : EqDecision Manifest.
Proof. solve_decision. Defined.

Definition export_level_str (l : ExportLevel) : rstring :=
  str match l with Metadata => "metadata" | Full => "full" end.

Global Instance StreamScope_serialize : Serialize StreamScope := λ s,
  Object [(str "stream_id", String (ss_stream_id s)); (str "seq_from", u64_value (ss_seq_from s));
          (str "seq_to", u64_value (ss_seq_to s));
          (str "record_count", u64_value (ss_record_count s))].

Global Instance BundleScope_serialize : Serialize BundleScope := λ s,
  Object ([(str "level", String (export_level_str (bs_level s)))] ++
          opt_field "ts_from" (String <$> bs_ts_from s) ++
          opt_field "ts_to" (String <$> bs_ts_to s) ++
          vec_field "resources" (String <$> bs_resources s) ++
          [(str "streams", Array (to_value <$> bs_streams s))]).

Global Instance ContentEntry_serialize : Serialize ContentEntry := λ c,
  Object [(str "path", String (ce_path c)); (str "blake3", String (ce_blake3 c));
          (str "bytes", u64_value (ce_bytes c))].

Global Instance ToolInfo_serialize : Serialize ToolInfo := λ t,
  Object [(str "name", String (ti_name t)); (str "version", String (ti_version t))].

Global Instance Manifest_serialize : Serialize Manifest := λ m,
  Object [(str "schema_version", String (man_schema_version m));
          (str "bundle_id", String (man_bundle_id m));
          (str "created_at", String (man_created_at m));
          (str "tool", to_value (man_tool m));
          (str "scope", to_value (man_scope m));
          (str "contents", Array (to_value <$> man_contents m))].

(** [Manifest::jcs_hash]. *)
Definition jcs_hash `{Blake3} (m : Manifest) : Result rstring :=
  bs ← struct_to_jcs_bytes m; mret (blake3_hex bs).

(** ** The manifest is determined by its canonical value *)

Global Program Instance StreamScope_recover : Recover StreamScope := {|
  wf_struct s := is_u64 (ss_seq_from s) && is_u64 (ss_seq_to s) && is_u64 (ss_record_count s);
  of_value v :=
    a ← get_str "stream_id" v; b ← get_u64 "seq_from" v; c ← get_u64 "seq_to" v;
    d ← get_u64 "record_count" v;
    Some {| ss_stream_id := a; ss_seq_from := b; ss_seq_to := c; ss_record_count := d |}
|}.
Next Obligation.
  intros x [[Ha Hb]%andb_true_iff Hc]%andb_true_iff. unfold to_value, StreamScope_serialize. recover x.
Qed.

Global Program Instance ContentEntry_recover : Recover ContentEntry := {|
  wf_struct c := is_u64 (ce_bytes c);
  of_value v :=
    a ← get_str "path" v; b ← get_str "blake3" v; c ← get_u64 "bytes" v;
    Some {| ce_path := a; ce_blake3 := b; ce_bytes := c |}
|}.
Next Obligation. intros x Hx. unfold to_value, ContentEntry_serialize. recover x. Qed.

Global Program Instance ToolInfo_recover : Recover ToolInfo := {|
  wf_struct _ := true;
  of_value v := a ← get_str "name" v; b ← get_str "version" v; Some {| ti_name := a; ti_version := b |}
|}.
Next Obligation. intros x _. unfold to_value, ToolInfo_serialize. recover x. Qed.

Definition export_level_of (s : rstring) : option ExportLevel :=
  find (λ l, bool_decide (export_level_str l = s)) [Metadata; Full].

Lemma as_list_canonical {A} `{Recover A} (l : list A) :
  forallb wf_struct l = true → as_list (canonical (Array (to_value <$> l))) = Some l.
Proof. intros Hl. cbn [canonical as_list]. by apply mapM_of_canonical. Qed.

Global Program Instance BundleScope_recover : Recover BundleScope := {|
  wf_struct s := forallb wf_struct (bs_streams s);
  of_value v :=
    a ← get_str "level" v ≫= export_level_of; b ← get_opt as_str "ts_from" v;
    c ← get_opt as_str "ts_to" v; d ← get_strs "resources" v;
    e ← value_get (str "streams") v ≫= as_list;
    Some {| bs_level := a; bs_ts_from := b; bs_ts_to := c; bs_resources := d; bs_streams := e |}
|}.
Next Obligation.
  intros x Hx. pose proof (as_list_canonical (bs_streams x) Hx) as Hl.
  assert (export_level_of (export_level_str (bs_level x)) = Some (bs_level x)) as Hlv
    by (by destruct (bs_level x)).
  change (to_value x) with (BundleScope_serialize x); unfold BundleScope_serialize.
  destruct (vec_field_cases "resources" (bs_resources x)) as [[-> Hr]| ->];
    destruct (bs_ts_from x) eqn:Hf, (bs_ts_to x) eqn:Ht;
    unfold get_str, get_opt, get_strs, opt_field; cbn [fmap option_fmap option_map app];
    rewrite !canonical_get by nodup_keys; get_field;
    cbn [fmap option_fmap option_map mbind option_bind];
    rewrite ?as_strs_canonical, Hl by done;
    cbn [canonical as_str mbind option_bind fmap option_fmap option_map]; rewrite Hlv;
    cbn [mbind option_bind]; destruct x; cbn in *; congruence.
Qed.

Global Program Instance Manifest_recover : Recover Manifest := {|
  wf_struct m := wf_struct (man_scope m) && forallb wf_struct (man_contents m);
  of_value v :=
    a ← get_str "schema_version" v; b ← get_str "bundle_id" v; c ← get_str "created_at" v;
    d ← value_get (str "tool") v ≫= of_value; e ← value_get (str "scope") v ≫= of_value;
    f ← value_get (str "contents") v ≫= as_list;
    Some {| man_schema_version := a; man_bundle_id := b; man_created_at := c; man_tool := d;
            man_scope := e; man_contents := f |}
|}.
Next Obligation.
  intros x [Hs Hc]%andb_true_iff. pose proof (as_list_canonical (man_contents x) Hc) as Hl.
  pose proof (of_canonical (man_tool x) eq_refl) as Ht.
  pose proof (of_canonical (man_scope x) Hs) as Hsc.
  change (to_value x) with (Manifest_serialize x); unfold Manifest_serialize.
  unfold get_str. rewrite !canonical_get by nodup_keys. get_field.
  cbn [fmap option_fmap option_map mbind option_bind]. rewrite Ht, Hsc, Hl.
  cbn [canonical as_str mbind option_bind]. by destruct x.
Qed.

(** ** Properties *)

(** A manifest for the witnesses. *)
Definition demo_manifest : Manifest :=
  {| man_schema_version := str "1"; man_bundle_id := str "b1"; man_created_at := str "1000";
     man_tool := {| ti_name := str "sealr"; ti_version := str "0.1.0" |};
     man_scope := {| bs_level := Full; bs_ts_from := Some (str "0"); bs_ts_to := None;
                     bs_resources := []; bs_streams := [{| ss_stream_id := str "S"; ss_seq_from := 0;
                       ss_seq_to := 1; ss_record_count := 2 |}] |};
     man_contents := [{| ce_path := str "VERIFY.md"; ce_blake3 := str "00"; ce_bytes := 7 |}] |}.

(** The manifest hash that the exporter prints pins the manifest: two
    manifests with the same hash are equal (every listed path, content hash
    and size, and the whole scope), unless BLAKE3 collides on their canonical
    forms. *)
Theorem manifest_hash_binds `{Blake3} m1 m2 h :
  wf_struct m1 = true → wf_struct m2 = true →
  wf_value (to_value m1) = true → wf_value (to_value m2) = true →
  collision_free_on blake3_hash [signed_bytes m1; signed_bytes m2] →
  jcs_hash m1 = Ok h → jcs_hash m2 = Ok h → m1 = m2.
Proof.
  unfold jcs_hash. intros ???? Hcf (b1 & H1 & E1)%bind_Ok (b2 & H2 & E2)%bind_Ok.
  injection E1 as <-. injection E2 as E2. assert (b2 = b1) as ->.
  { apply blake3_hex_inj in E2. unfold signed_bytes in Hcf. rewrite H1, H2 in Hcf. cbn in Hcf.
    apply Hcf; [right; left|left|done]. }
  by eapply struct_bytes_inj.
Qed.

Lemma manifest_hash_binds_witness : demo_manifest = demo_manifest.
Proof.
  assert (∃ h, @jcs_hash poly_blake3 demo_manifest = Ok h) as [h Hh]
    by (eexists; vm_compute; reflexivity).
  apply (@manifest_hash_binds poly_blake3 demo_manifest demo_manifest h);
    [reflexivity|reflexivity|vm_compute; reflexivity|vm_compute; reflexivity|by_compute|exact Hh|exact Hh].
Defined.
