(* ===== verification/Anchors.v ===== *)
(** * Anchor batches and stored inclusion proofs (bundle/src/anchors.rs) *)

From Stdlib Require Import Strings.Byte.
From S2P Require Import Prelude Text Errors Hash Merkle.

Record StoredProofStep := { sps_sibling : rstring; sps_left : bool }.

Record CheckpointInclusion := {
  ci_checkpoint_id : rstring;
  ci_leaf : rstring;
  ci_leaf_index : Z;
  ci_tree_size : Z;
  ci_proof : list StoredProofStep;
}.

Record AnchorBatch := {
  ab_batch_id : rstring;
  ab_created_at : rstring;
  ab_root_blake3 : rstring;
  ab_root_sha256 : rstring;
  ab_tsr_file : option rstring;
  ab_qualified : bool;
  ab_checkpoints : list CheckpointInclusion;
}.

Record DailyRoot := {
  dr_day : rstring;
  dr_root_blake3 : rstring;
  dr_root_sha256 : rstring;
  dr_prev_day_hash : option rstring;
  dr_batch_roots : list rstring;
  dr_qts_file : option rstring;
  dr_signature : option rstring;
  dr_console_key_id : option rstring;
}.

Record AnchorProofs := { ap_batches : list AnchorBatch; ap_daily : list DailyRoot }.

Section ops.
Context `{Blake3} `{Sha256}.

Definition to_step (s : StoredProofStep) : Result ProofStep :=
  d ← hex_decode_digest "proof.sibling" (sps_sibling s);
  mret {| sibling := d; sibling_on_left := sps_left s |}.

Definition from_step (s : ProofStep) : StoredProofStep :=
  {| sps_sibling := hex_encode (sibling s); sps_left := sibling_on_left s |}.

(** The loop of [build_batch] over the enumerated leaves. *)
Definition build_inclusion (leaves : list bytes) (i : nat) (leaf : rstring * bytes)
    : Result CheckpointInclusion :=
  proof ← inclusion_proof leaves i;
  mret {| ci_checkpoint_id := leaf.1; ci_leaf := hex_encode leaf.2; ci_leaf_index := Z.of_nat i;
          ci_tree_size := Z.of_nat (length leaves); ci_proof := from_step <$> proof |}.

Definition build_batch (batch_id created_at : rstring) (checkpoint_leaves : list (rstring * bytes))
    (qualified : bool) : Result AnchorBatch :=
  let leaves := checkpoint_leaves.*2 in
  let root := merkle_root leaves in
  checkpoints ← mapM (λ p, build_inclusion leaves p.1 p.2) (imap pair checkpoint_leaves);
  mret {| ab_batch_id := batch_id; ab_created_at := created_at; ab_root_blake3 := hex_encode root;
          ab_root_sha256 := sha256_hex root; ab_tsr_file := None; ab_qualified := qualified;
          ab_checkpoints := checkpoints |}.

(** [anchors::verify_inclusion]; on a 64-bit target [usize] holds every [u64]. *)
Definition verify_stored_inclusion (inclusion : CheckpointInclusion) (root_blake3_hex : rstring)
    : Result unit :=
  leaf ← hex_decode_digest "inclusion.leaf" (ci_leaf inclusion);
  root ← hex_decode_digest "batch.root_blake3" root_blake3_hex;
  proof ← mapM to_step (ci_proof inclusion);
  verify_inclusion leaf (Z.to_nat (ci_leaf_index inclusion)) (Z.to_nat (ci_tree_size inclusion))
    proof root.
End ops.

(** ** Facts *)

Section facts.
Context `{Blake3, !Blake3Len} `{Sha256}.

Lemma to_from_step s : length (sibling s) = DIGEST_LEN → to_step (from_step s) = Ok s.
Proof.
  intros Hlen. unfold to_step, from_step. cbn. rewrite hex_decode_digest_encode by done. by destruct s.
Qed.

Lemma to_from_steps l :
  Forall (λ s, length (sibling s) = DIGEST_LEN) l → mapM to_step (from_step <$> l) = Ok l.
Proof.
  intros Hl. apply mapM_Ok. induction Hl as [|s l Hs Hl IH]; cbn; constructor; [|done].
  by apply to_from_step.
Qed.

Lemma to_step_length s p : to_step s = Ok p → length (sibling p) = DIGEST_LEN.
Proof.
  unfold to_step. intros (d & Hd & Hp)%bind_Ok. injection Hp as <-. cbn.
  by eapply hex_decode_digest_length.
Qed.

Lemma inclusion_proof_Ok leaves i :
  (i < length leaves)%nat → inclusion_proof leaves i = Ok (path leaves i []).
Proof.
  intros Hi. unfold inclusion_proof. by rewrite (proj2 (Nat.leb_gt _ _)).
Qed.

Lemma built_inclusion_verifies leaves i id leaf inc :
  Forall (λ d, length d = DIGEST_LEN) leaves → leaves !! i = Some leaf →
  build_inclusion leaves i (id, leaf) = Ok inc →
  verify_stored_inclusion inc (hex_encode (merkle_root leaves)) = Ok tt.
Proof.
  intros Hlen Hi Hb. pose proof (lookup_lt_Some _ _ _ Hi) as Hlt.
  unfold build_inclusion in Hb. rewrite inclusion_proof_Ok in Hb by done. injection Hb as <-.
  unfold verify_stored_inclusion. cbn. rewrite Forall_forall in Hlen.
  rewrite (hex_decode_digest_encode _ leaf) by (exact (Hlen _ (list_elem_of_lookup_2 _ _ _ Hi))).
  cbn. rewrite (hex_decode_digest_encode _ (merkle_root leaves)) by apply merkle_root_length.
  cbn. rewrite to_from_steps by (by apply path_siblings). cbn. rewrite !Nat2Z.id.
  by apply path_verifies.
Qed.

Lemma build_inclusion_Ok leaves i p :
  (i < length leaves)%nat →
  build_inclusion leaves i p =
    Ok {| ci_checkpoint_id := p.1; ci_leaf := hex_encode p.2; ci_leaf_index := Z.of_nat i;
          ci_tree_size := Z.of_nat (length leaves); ci_proof := from_step <$> path leaves i [] |}.
Proof. intros Hi. unfold build_inclusion. by rewrite inclusion_proof_Ok. Qed.
End facts.

Lemma mapM_total {E A B} (f : A → result E B) (g : A → B) l :
  (∀ x, x ∈ l → f x = Ok (g x)) → mapM f l = Ok (g <$> l).
Proof.
  intros Hf. apply mapM_Ok. induction l as [|x l IH]; cbn; constructor.
  - apply Hf. left.
  - apply IH. intros y Hy. apply Hf. by right.
Qed.

Lemma elem_of_enumerated {A} (l : list A) i x : (i, x) ∈ imap pair l → l !! i = Some x.
Proof. intros (j & y & Heq & Hy)%elem_of_lookup_imap_1. by simplify_eq. Qed.

(** The stored inclusion of a leaf, and the batch that is built. *)
Definition inclusion_of `{Blake3} (leaves : list bytes) (p : nat * (rstring * bytes)) : CheckpointInclusion :=
  {| ci_checkpoint_id := p.2.1; ci_leaf := hex_encode p.2.2; ci_leaf_index := Z.of_nat p.1;
     ci_tree_size := Z.of_nat (length leaves); ci_proof := from_step <$> path leaves p.1 [] |}.

Lemma build_batch_Ok `{Blake3} `{Sha256} id at_ leaves q :
  build_batch id at_ leaves q =
    Ok {| ab_batch_id := id; ab_created_at := at_; ab_root_blake3 := hex_encode (merkle_root leaves.*2);
          ab_root_sha256 := sha256_hex (merkle_root leaves.*2); ab_tsr_file := None; ab_qualified := q;
          ab_checkpoints := inclusion_of leaves.*2 <$> imap pair leaves |}.
Proof.
  unfold build_batch. rewrite (mapM_total _ (inclusion_of leaves.*2)); [done|].
  intros [i p] Hp%elem_of_enumerated. apply build_inclusion_Ok.
  rewrite length_fmap. by eapply lookup_lt_Some.
Qed.

Lemma built_inclusions_verify `{Blake3, !Blake3Len} `{Sha256} (leaves : list (rstring * bytes)) :
  Forall (λ p : rstring * bytes, length p.2 = DIGEST_LEN) leaves →
  Forall (λ inc, verify_stored_inclusion inc (hex_encode (merkle_root leaves.*2)) = Ok tt)
    (inclusion_of leaves.*2 <$> imap pair leaves).
Proof.
  intros Hlen. apply Forall_fmap, Forall_forall. intros [i [cid d]] Hp%elem_of_enumerated. cbn [compose].
  apply (built_inclusion_verifies leaves.*2 i cid d).
  - by apply Forall_fmap.
  - by rewrite list_lookup_fmap, Hp.
  - apply build_inclusion_Ok. rewrite length_fmap. by eapply lookup_lt_Some.
Qed.

(** ** Properties *)

(** Building a batch always succeeds, its entries name the checkpoints in
    order, its [root_sha256] is the SHA-256 of the raw root, and the stored
    proof of every entry verifies against the batch root. *)
Theorem build_batch_verifies `{Blake3, !Blake3Len} `{Sha256} id at_ leaves q :
  Forall (λ p, length p.2 = DIGEST_LEN) leaves →
  ∃ b, build_batch id at_ leaves q = Ok b ∧
    ci_checkpoint_id <$> ab_checkpoints b = leaves.*1 ∧
    ci_leaf <$> ab_checkpoints b = (λ p, hex_encode p.2) <$> leaves ∧
    ab_root_sha256 b = sha256_hex (merkle_root leaves.*2) ∧
    Forall (λ inc, verify_stored_inclusion inc (ab_root_blake3 b) = Ok tt) (ab_checkpoints b).
Proof.
  intros Hlen. rewrite build_batch_Ok. eexists. split; [done|]. cbn. split_and!.
  - rewrite <-list_fmap_compose, fmap_imap.
    apply list_eq. intros i. rewrite list_lookup_imap, list_lookup_fmap. by destruct (leaves !! i).
  - rewrite <-list_fmap_compose, fmap_imap.
    apply list_eq. intros i. rewrite list_lookup_imap, list_lookup_fmap. by destruct (leaves !! i).
  - done.
  - by apply built_inclusions_verify.
Qed.

Definition demo_leaves : list (rstring * bytes) :=
  [(str "cp1", replicate 32 x01); (str "cp2", replicate 32 x02); (str "cp3", replicate 32 x03)].

Lemma build_batch_verifies_witness :
  ∃ b, @build_batch poly_blake3 poly_sha256 (str "b") (str "t") demo_leaves true = Ok b ∧
    length (ab_checkpoints b) = 3%nat.
Proof.
  destruct (@build_batch_verifies poly_blake3 poly_blake3_len poly_sha256 (str "b") (str "t")
    demo_leaves true) as (b & Hb & Hid & _).
  - repeat constructor.
  - exists b. split; [exact Hb|]. by rewrite <-(length_fmap ci_checkpoint_id), Hid.
Defined.

(** A stored inclusion that verifies against the root of a batch shows
    that its leaf is a leaf of the batch, unless BLAKE3 collides on the inputs
    hashed for the root or along the proof. *)
Theorem stored_inclusion_sound `{Blake3, !Blake3Len} inc leaves root_hex leaf proof :
  verify_stored_inclusion inc root_hex = Ok tt →
  hex_decode_digest "batch.root_blake3" root_hex = Ok (merkle_root leaves) → leaves ≠ [] →
  hex_decode_digest "inclusion.leaf" (ci_leaf inc) = Ok leaf →
  mapM to_step (ci_proof inc) = Ok proof →
  collision_free_on blake3_hash (merkle_inputs leaves ++ verify_inputs leaf proof) →
  leaf ∈ leaves.
Proof.
  unfold verify_stored_inclusion. intros Hv Hr Hne Hl Hp Hcf.
  rewrite Hl in Hv. cbn in Hv. rewrite Hr in Hv. cbn in Hv. rewrite Hp in Hv. cbn in Hv.
  unfold verify_inclusion in Hv. case_match; [done|]. case_decide as Hroot; [|done].
  destruct (fold_sound leaves leaf proof) as (i & Hi & _); try done.
  - apply mapM_Ok in Hp. clear -Hp. induction Hp as [|s p ss ps Hs Hps IH]; constructor; [|done].
    by eapply to_step_length.
  - by destruct leaves.
  - rewrite Hroot. by destruct leaves.
  - by eapply list_elem_of_lookup_2.
Qed.

Definition demo_inclusion : CheckpointInclusion :=
  Eval vm_compute in
  default {| ci_checkpoint_id := []; ci_leaf := []; ci_leaf_index := 0; ci_tree_size := 0;
             ci_proof := [] |}
    (res_ok (@build_inclusion poly_blake3 demo_leaves.*2 1 (str "cp2", replicate 32 x02))).

Lemma stored_inclusion_sound_witness : replicate 32 x02 ∈ demo_leaves.*2.
Proof.
  assert (∃ proof, mapM to_step (ci_proof demo_inclusion) = Ok proof ∧
    collision_free_on (@blake3_hash poly_blake3) (@merkle_inputs poly_blake3 demo_leaves.*2 ++
      @verify_inputs poly_blake3 (replicate 32 x02) proof)) as (proof & Hp & Hcf).
  { eexists. split; [vm_compute; reflexivity|by_compute]. }
  apply (@stored_inclusion_sound poly_blake3 poly_blake3_len demo_inclusion demo_leaves.*2
    (hex_encode (@merkle_root poly_blake3 demo_leaves.*2)) (replicate 32 x02) proof);
    [vm_compute; reflexivity|vm_compute; reflexivity|discriminate|vm_compute; reflexivity|exact Hp
    |exact Hcf].
Defined.
