(* ===== verification/Report.v ===== *)
(** * The verification report (verify/src/report.rs)

    Findings carry severity, class, stream and sequence; their message text is
    not modelled, so the text rendering takes the messages as an argument. *)

From S2P Require Import Prelude Text.

Inductive VerifyResult := Pass | PassWithFindings | Fail.

Inductive Severity := Info | Warning | Error.

Global Instance VerifyResult_eq_dec : EqDecision VerifyResult.
Proof. solve_decision. Defined.
Global Instance Severity_eq_dec : EqDecision Severity.
Proof. solve_decision. Defined.

Record Finding := {
  fd_severity : Severity;
  fd_class : string;
  fd_stream_id : option rstring;
  fd_seq : option Z;
}.

Global Instance Finding_eq_dec : EqDecision Finding.
Proof. solve_decision. Defined.

Record Proven := {
  pv_records : Z;
  pv_streams : Z;
  pv_span_from : option rstring;
  pv_span_to : option rstring;
  pv_earliest_anchor : option rstring;
  pv_attested_records : Z;
  pv_anchored_records : Z;
}.

Definition Proven_default : Proven :=
  {| pv_records := 0; pv_streams := 0; pv_span_from := None; pv_span_to := None;
     pv_earliest_anchor := None; pv_attested_records := 0; pv_anchored_records := 0 |}.

Record ToolVersions := { tv_verifier : rstring; tv_bundle_schema : rstring }.

(** The standing limits, which every report prints. *)
Definition STANDING_LIMITS : list rstring :=
  [str "Tamper-evident, not tamper-proof: this report proves integrity, ordering, timing, and origin of the recorded stream; it cannot prove that unrecorded events did not happen.";
   str "Coverage is a deployment property: only operations that passed through a recorder are in this stream.";
   str "Proven time comes from timestamp anchors: records are proven to exist no later than their earliest anchor; 'no earlier than' is bounded by the previous anchor and monotonic clock deltas.";
   str "Subject attribution quality is as recorded (see each record's attribution field); it is not independently proven.";
   str "Tail completeness is bounded, not proven: removing trailing records together with the checkpoints attesting them leaves a shorter, self-consistent chain. This report proves the stream reached at least the highest externally attested point; pass --expect-high-water STREAM=SEQ (from the Console's stream integrity endpoint) to make the true extent decidable."].

(** The struct [Report]. *)
Record VReport := {
  rp_result : VerifyResult;
  rp_bundle_id : rstring;
  rp_manifest_hash : rstring;
  rp_tool : ToolVersions;
  rp_proven : Proven;
  rp_findings : list Finding;
  rp_limits : list rstring;
}.

Definition has_severity (s : Severity) (fs : list Finding) : bool :=
  existsb (λ f, bool_decide (fd_severity f = s)) fs.

Definition compute_result (findings : list Finding) : VerifyResult :=
  if has_severity Error findings then Fail
  else if has_severity Warning findings then PassWithFindings
  else Pass.

Definition exit_code (r : VReport) : Z :=
  match rp_result r with Pass => 0 | PassWithFindings => 10 | Fail => 11 end.

(** *** Text rendering *)

(** [writeln!] and [to_string] of a [u64] or a [usize]. *)
Definition line (s : rstring) : rstring := s ++ [10].
Definition decimal (z : Z) : rstring := b2z <$> dec_bytes z.

Definition verdict_text (v : VerifyResult) : rstring :=
  match v with
  | Pass => str "PASS"
  | PassWithFindings => str "PASS WITH FINDINGS"
  | Fail => str "FAIL"
  end.

Definition severity_text (s : Severity) : rstring :=
  match s with Error => str "ERROR" | Warning => str "WARN " | Info => str "INFO " end.

Definition location_text (f : Finding) : rstring :=
  match fd_stream_id f, fd_seq f with
  | Some s, Some q => str " [stream " ++ s ++ str " seq " ++ decimal q ++ str "]"
  | Some s, None => str " [stream " ++ s ++ str "]"
  | None, _ => []
  end.

Definition finding_text (f : Finding) (message : rstring) : rstring :=
  line (str "  " ++ severity_text (fd_severity f) ++ str " " ++ str (fd_class f) ++
        location_text f ++ str ": " ++ message).

Definition findings_text (fs : list Finding) (messages : list rstring) : rstring :=
  match fs with
  | [] => [10] ++ line (str "Findings: none.")
  | _ => [10] ++ line (str "Findings (" ++ decimal (Z.of_nat (length fs)) ++ str "):") ++
         mjoin (zip_with finding_text fs messages)
  end.

Definition span_text (p : Proven) : rstring :=
  match pv_span_from p, pv_span_to p with
  | Some from, Some to_ => line (str "Recorded span: " ++ from ++ str " .. " ++ to_)
  | _, _ => []
  end ++
  match pv_earliest_anchor p with
  | Some anchor => line (str "Earliest timestamp anchor: " ++ anchor)
  | None => []
  end.

Definition limits_text (limits : list rstring) : rstring :=
  [10] ++ line (str "Standing limits:") ++ (limits ≫= λ l, line (str "  - " ++ l)).

Definition proven_text (p : Proven) : rstring :=
  line (str "Proven: " ++ decimal (pv_records p) ++ str " records across " ++
        decimal (pv_streams p) ++ str " stream(s); " ++ decimal (pv_attested_records p) ++
        str " attested by checkpoints; " ++ decimal (pv_anchored_records p) ++ str " anchored.").

Definition title_text (r : VReport) : rstring :=
  str "sealr-verify " ++ tv_verifier (rp_tool r) ++ str " " ++ [0x2014] ++ str " bundle " ++
  rp_bundle_id r.

(** [render_text], given the message of each finding. *)
Definition render_text (r : VReport) (messages : list rstring) : rstring :=
  line (title_text r) ++
  line (str "manifest hash (BLAKE3/JCS): " ++ rp_manifest_hash r) ++
  [10] ++ line (str "RESULT: " ++ verdict_text (rp_result r)) ++ [10] ++
  proven_text (rp_proven r) ++ span_text (rp_proven r) ++
  findings_text (rp_findings r) messages ++ limits_text (rp_limits r).

(** ** Facts *)

(** The lines of a text. *)
Fixpoint text_lines (s : rstring) : list rstring :=
  match s with
  | [] => [[]]
  | c :: s =>
    if decide (c = 10) then [] :: text_lines s
    else match text_lines s with l :: ls => (c :: l) :: ls | [] => [[c]] end
  end.

Lemma text_lines_cons s : ∃ l ls, text_lines s = l :: ls.
Proof.
  induction s as [|c s (l & ls & IH)]; [by eexists _, _|]. cbn. rewrite IH.
  case_decide; by eexists _, _.
Qed.

(** A newline ends a line and nothing else does. *)
Lemma text_lines_app s t : text_lines (line s ++ t) = text_lines s ++ text_lines t.
Proof.
  unfold line. induction s as [|c s IH]; [done|]. cbn [app text_lines]. rewrite IH.
  case_decide; [done|]. by destruct (text_lines_cons s) as (l & ls & ->).
Qed.

Lemma text_lines_single s : 10 ∉ s → text_lines s = [s].
Proof.
  induction s as [|c s IH]; intros Hs; [done|]. apply not_elem_of_cons in Hs as [Hc Hs].
  cbn. rewrite decide_False by done. by rewrite IH.
Qed.

Lemma text_lines_line l s : 10 ∉ l → text_lines (line l ++ s) = l :: text_lines s.
Proof. intros Hl. by rewrite text_lines_app, text_lines_single. Qed.

Lemma text_lines_empty s : text_lines ([10] ++ s) = [] :: text_lines s.
Proof. done. Qed.

Definition limit_lines : list rstring :=
  str "Standing limits:" :: ((λ l, str "  - " ++ l) <$> STANDING_LIMITS) ++ [[]].

Lemma limits_last r messages :
  rp_limits r = STANDING_LIMITS →
  ∃ front, text_lines (render_text r messages) = front ++ limit_lines.
Proof.
  intros Hl. unfold render_text. rewrite Hl.
  change (limits_text STANDING_LIMITS) with ([10] ++ tail (limits_text STANDING_LIMITS)).
  set (rest := tail _). rewrite !app_assoc.
  match goal with |- ∃ _, text_lines ((?s ++ [10]) ++ rest) = _ =>
    exists (text_lines s); etransitivity; [apply (text_lines_app s rest)|] end.
  by apply (f_equal (app _)).
Qed.

(** The result line of a text, when what precedes it has no newline. *)
Lemma result_line r messages :
  10 ∉ title_text r → 10 ∉ rp_manifest_hash r →
  text_lines (render_text r messages) !! 3%nat = Some (str "RESULT: " ++ verdict_text (rp_result r)).
Proof.
  intros Ht Hm. unfold render_text.
  rewrite text_lines_line by done. rewrite text_lines_line.
  - rewrite text_lines_empty, text_lines_line; [done|]. by destruct (rp_result r); by_compute.
  - rewrite not_elem_of_app. split; [by_compute|done].
Qed.

Lemma has_severity_spec s fs : has_severity s fs = true ↔ ∃ f, f ∈ fs ∧ fd_severity f = s.
Proof.
  unfold has_severity. rewrite existsb_exists. setoid_rewrite <-list_elem_of_In.
  by setoid_rewrite bool_decide_eq_true.
Qed.

Lemma has_severity_app s fs gs : has_severity s (fs ++ gs) = has_severity s fs || has_severity s gs.
Proof. apply existsb_app. Qed.

Lemma compute_result_Fail fs : compute_result fs = Fail ↔ ∃ f, f ∈ fs ∧ fd_severity f = Error.
Proof. rewrite <-has_severity_spec. unfold compute_result. repeat case_match; naive_solver. Qed.

Lemma compute_result_not_Fail fs :
  compute_result fs ≠ Fail ↔ Forall (λ f, fd_severity f ≠ Error) fs.
Proof.
  rewrite compute_result_Fail, Forall_forall. split.
  - intros Hn f Hf He. apply Hn. eauto.
  - intros Hall (f & Hf & He). by eapply Hall.
Qed.

(** ** Properties *)

(** The verdict and the exit code are those of the worst finding: 11
    exactly when some finding is an error, 10 exactly when there is a warning
    and no error, 0 exactly when every finding is informational; and adding
    findings never improves the verdict. *)
Theorem result_is_worst_finding r gs :
  rp_result r = compute_result (rp_findings r) →
  (exit_code r = 11 ↔ ∃ f, f ∈ rp_findings r ∧ fd_severity f = Error) ∧
  (exit_code r = 10 ↔ (∃ f, f ∈ rp_findings r ∧ fd_severity f = Warning) ∧
                      ∀ f, f ∈ rp_findings r → fd_severity f ≠ Error) ∧
  (exit_code r = 0 ↔ ∀ f, f ∈ rp_findings r → fd_severity f = Info) ∧
  (compute_result (rp_findings r ++ gs) = Pass → compute_result (rp_findings r) = Pass) ∧
  (compute_result (rp_findings r) = Fail → compute_result (rp_findings r ++ gs) = Fail).
Proof.
  intros Hr. unfold exit_code. rewrite Hr. clear Hr. generalize (rp_findings r) as fs. intros fs.
  assert (∀ f, f ∈ fs → fd_severity f = Error → has_severity Error fs = true) as HE
    by (intros; apply has_severity_spec; eauto).
  assert (∀ f, f ∈ fs → fd_severity f = Warning → has_severity Warning fs = true) as HW
    by (intros; apply has_severity_spec; eauto).
  rewrite <-!has_severity_spec. unfold compute_result. rewrite !has_severity_app.
  destruct (has_severity Error fs) eqn:He; cbn.
  - apply has_severity_spec in He as (f & Hf & He).
    split_and!; try done; (split; [done|]); [intros [_ Hn]; by destruct (Hn f)|].
    intros Hn. rewrite (Hn f) in He by done. done.
  - destruct (has_severity Warning fs) eqn:Hw; cbn.
    + apply has_severity_spec in Hw as (f & Hf & Hw).
      split_and!; try done; [split; [|done]; split; [done|]; intros g Hg Hs; by pose proof (HE g Hg Hs)| |by case_match].
      split; [done|]. intros Hn. rewrite (Hn f) in Hw by done. done.
    + split_and!; try done; [split; [done|naive_solver]|].
      split; [|done]. intros _ f Hf. destruct (fd_severity f) eqn:Hs; [done|..].
      * by specialize (HW f Hf Hs).
      * by specialize (HE f Hf Hs).
Qed.

Definition demo_report (fs : list Finding) : VReport :=
  {| rp_result := compute_result fs; rp_bundle_id := []; rp_manifest_hash := [];
     rp_tool := {| tv_verifier := []; tv_bundle_schema := [] |}; rp_proven := Proven_default;
     rp_findings := fs; rp_limits := STANDING_LIMITS |}.

Lemma result_is_worst_finding_witness :
  exit_code (demo_report [{| fd_severity := Info; fd_class := "root_source"; fd_stream_id := None;
                             fd_seq := None |};
                          {| fd_severity := Error; fd_class := "no_trust_root";
                             fd_stream_id := None; fd_seq := None |}]) = 11.
Proof.
  apply (result_is_worst_finding (demo_report _) []); [reflexivity|].
  eexists. split; [right; left|reflexivity].
Defined.

(** Whatever the findings and their messages, the text of a report ends with
    the standing limits; its fourth line is the verdict if the version, the
    bundle's name and the manifest hash are single lines. *)
Theorem text_states_result_and_limits r messages :
  rp_limits r = STANDING_LIMITS →
  (∃ front, text_lines (render_text r messages) = front ++ limit_lines) ∧
  (10 ∉ title_text r → 10 ∉ rp_manifest_hash r →
   text_lines (render_text r messages) !! 3%nat =
     Some (str "RESULT: " ++ verdict_text (rp_result r))).
Proof. split; [by apply limits_last|by apply result_line]. Qed.

(** The condition is needed: a bundle's name is printed as it is, so a failed
    report of a bundle whose name has newlines can show another verdict there. *)
Example text_forgeable :
  let r := {| rp_result := Fail; rp_bundle_id := str "b" ++ [10; 10; 10] ++ str "RESULT: PASS";
              rp_manifest_hash := []; rp_tool := {| tv_verifier := []; tv_bundle_schema := [] |};
              rp_proven := Proven_default; rp_findings := []; rp_limits := STANDING_LIMITS |} in
  exit_code r = 11 ∧ text_lines (render_text r []) !! 3%nat = Some (str "RESULT: PASS").
Proof. vm_compute. done. Qed.

Lemma text_states_result_and_limits_witness :
  text_lines (render_text (demo_report []) []) !! 3%nat = Some (str "RESULT: PASS").
Proof. apply (text_states_result_and_limits (demo_report []) []); [done|by_compute..]. Defined.
