(* ===== verification/Reader.v ===== *)
(** * Reading bundles (bundle/src/read.rs)

    The [zip] and [zstd] crates and the [serde_json] parsers of the documents
    are parameters. An archive answers a lookup by name with the stored bytes,
    which may end in a read error, and a [zstd] decoder turns stored bytes into
    the bytes it could decode, which may also end in an error. *)

From Stdlib Require Import Strings.Byte.
From S2P Require Import Prelude Text Errors Hash Json Jcs Record Checkpoint Revocation Bundle.
From S2P Require Import Anchors.

Inductive zip_lookup :=
| ZipFound (stored : bytes) (complete : bool)
| ZipFileNotFound
| ZipFailed.

Class ZipApi := {
  archive : Type;
  zip_by_name : archive → rstring → zip_lookup;
  (** The name of each entry, by index. *)
  zip_names : archive → list (option rstring);
}.

(** [zstd::stream::Decoder] over stored bytes: what it decodes, and whether it
    ends without an error; [None] if it cannot be created. *)
Class ZstdApi := zstd_stream : bytes → bool → option (bytes * bool).

(** [serde_json::from_slice] at each document type. *)
Class JsonParser := {
  parse_value : bytes → option value;
  parse_manifest : bytes → option Manifest;
  parse_record_index : bytes → option RecordIndex;
  parse_stream_checkpoints : bytes → option StreamCheckpoints;
  parse_anchor_proofs : bytes → option AnchorProofs;
  parse_revocations : bytes → option SignedRevocationList;
  parse_roots : bytes → option RootsFile;
}.

Section reader.
Context `{Blake3} `{ZipApi} `{ZstdApi} `{JsonParser}.

Record BundleReader := { br_zip : archive; br_manifest : Manifest }.

Definition read_entry (zip : archive) (path : rstring) : BResult bytes :=
  match zip_by_name zip path with
  | ZipFileNotFound => Err (MissingEntry path)
  | ZipFailed => Err Zip
  | ZipFound out complete => if complete then Ok out else Err Io
  end.

(** [BundleReader::open]; [None] stands for a source that is not an archive. *)
Definition open_bundle (source : option archive) : BResult BundleReader :=
  zip ← ok_or source Zip;
  manifest_bytes ← read_entry zip (str "manifest.json");
  manifest ← ok_or (parse_manifest manifest_bytes) (ManifestError "manifest.json parse");
  mret {| br_zip := zip; br_manifest := manifest |}.

Definition manifest_hash (r : BundleReader) : BResult rstring :=
  map_err Evidence (jcs_hash (br_manifest r)).

(** One iteration of the loop over the manifest's contents. *)
Definition verify_entry (zip : archive) (entry : ContentEntry) : BResult unit :=
  bytes ← read_entry zip (ce_path entry);
  let computed := blake3_hex bytes in
  if decide (computed ≠ ce_blake3 entry) then
    Err (ContentHashMismatch (ce_path entry) (ce_blake3 entry) computed)
  else if negb (wrap_u64 (Z.of_nat (length bytes)) =? ce_bytes entry) then
    Err (ManifestError "entry size")
  else Ok tt.

(** [str::ends_with('/')]. *)
Definition is_directory (name : rstring) : bool := bool_decide (last name = Some 47).

Definition is_unlisted (contents : list ContentEntry) (name : rstring) : bool :=
  negb (bool_decide (name = str "manifest.json")) &&
  negb (bool_decide (name ∈ ce_path <$> contents)) && negb (is_directory name).

Definition verify_content_hashes (r : BundleReader) : BResult (list rstring) :=
  let contents := man_contents (br_manifest r) in
  _ ← mapM (verify_entry (br_zip r)) contents;
  names ← mapM (λ n, ok_or n Zip) (zip_names (br_zip r));
  mret (filter (λ n, is_unlisted contents n = true) names).

Definition record_index (r : BundleReader) : BResult RecordIndex :=
  bytes ← read_entry (br_zip r) (str "records/index.json");
  ok_or (parse_record_index bytes) BundleJson.

(** [read_until(b'\n')] until the end: the lines that end in a newline, and
    what follows the last newline. *)
Fixpoint split_lines (data : bytes) : list bytes * bytes :=
  match data with
  | [] => ([], [])
  | b :: data =>
    let '(lines, rest) := split_lines data in
    if decide (b = x0a) then ([] :: lines, rest)
    else match lines with
         | [] => ([], b :: rest)
         | l :: lines => ((b :: l) :: lines, rest)
         end
  end.

(** The callback on each line that is not empty; it keeps a state, and its
    first error stops the reading. *)
Fixpoint feed {S} (f : S → bytes → S * BResult unit) (s : S) (count : Z) (lines : list bytes)
    : S * BResult Z :=
  match lines with
  | [] => (s, Ok count)
  | [] :: lines => feed f s count lines
  | line :: lines =>
    match f s line with
    | (s, Ok _) => feed f s (u64_add count 1) lines
    | (s, Err e) => (s, Err e)
    end
  end.

(** [?] on a result next to a state. *)
Definition and_then {S} (p : S * BResult Z) (k : S → Z → S * BResult Z) : S * BResult Z :=
  match p with
  | (s, Ok count) => k s count
  | (s, Err e) => (s, Err e)
  end.

Definition read_shard {S} (zip : archive) (f : S → bytes → S * BResult unit) (s : S) (count : Z)
    (shard : rstring) : S * BResult Z :=
  match zip_by_name zip shard with
  | ZipFound stored complete =>
    match zstd_stream stored complete with
    | None => (s, Err Io)
    | Some (data, clean) =>
      let '(lines, rest) := split_lines data in
      and_then (feed f s count lines) (λ s count,
        if clean then feed f s count [rest] else (s, Err Io))
    end
  | _ => (s, Err Zip)
  end.

Fixpoint read_shards {S} (zip : archive) (f : S → bytes → S * BResult unit) (s : S) (count : Z)
    (shards : list rstring) : S * BResult Z :=
  match shards with
  | [] => (s, Ok count)
  | shard :: shards =>
    and_then (read_shard zip f s count shard) (λ s count, read_shards zip f s count shards)
  end.

Definition read_stream_records {S} (r : BundleReader) (stream_id : rstring)
    (f : S → bytes → S * BResult unit) (s : S) : S * BResult Z :=
  match
    (index ← record_index r;
     ok_or (find (λ e, bool_decide (ris_stream_id e = stream_id)) (idx_streams index))
       (MissingEntry stream_id))
  with
  | Ok entry => read_shards (br_zip r) f s 0 (ris_shards entry)
  | Err e => (s, Err e)
  end.

(** [checkpoints/<stream>.json]. *)
Definition stream_checkpoints (r : BundleReader) (stream_id : rstring) : BResult StreamCheckpoints :=
  bytes ← read_entry (br_zip r) (str "checkpoints/" ++ stream_id ++ str ".json");
  ok_or (parse_stream_checkpoints bytes) BundleJson.

Definition anchor_proofs (r : BundleReader) : BResult AnchorProofs :=
  match read_entry (br_zip r) (str "anchors/proofs.json") with
  | Ok bytes => ok_or (parse_anchor_proofs bytes) BundleJson
  | Err (MissingEntry _) => Ok {| ap_batches := []; ap_daily := [] |}
  | Err e => Err e
  end.

Definition entry_bytes (r : BundleReader) (path : rstring) : BResult bytes :=
  read_entry (br_zip r) path.

Definition identity (r : BundleReader) : BResult BundleIdentity :=
  certs_bytes ← read_entry (br_zip r) (str "identity/certs.pem");
  certs_pem ← ok_or (from_utf8 certs_bytes) (Invalid "identity/certs.pem not UTF-8");
  revocations ←
    match read_entry (br_zip r) (str "identity/revocations.json") with
    | Ok bytes => Some <$> ok_or (parse_revocations bytes) BundleJson
    | Err (MissingEntry _) => Ok None
    | Err e => Err e
    end;
  roots_bytes ← read_entry (br_zip r) (str "identity/roots.json");
  roots ← ok_or (parse_roots roots_bytes) BundleJson;
  mret {| bi_certs_pem := certs_pem; bi_revocations := revocations; bi_roots := roots |}.
End reader.

(** ** Facts *)

Lemma split_lines_line l data :
  x0a ∉ l → split_lines (l ++ x0a :: data) = (l :: (split_lines data).1, (split_lines data).2).
Proof.
  induction l as [|b l IH]; cbn.
  - intros _. destruct (split_lines data). by rewrite decide_True.
  - rewrite not_elem_of_cons. intros [Hb Hl]. rewrite IH by done. by rewrite decide_False.
Qed.

(** Lines that are written one after the other are read back. *)
Lemma split_lines_concat lines :
  Forall (λ l, x0a ∉ l) lines → split_lines (lines ≫= λ l, l ++ [x0a]) = (lines, []).
Proof.
  induction 1 as [|l lines Hl Hls IH]; [done|]. cbn. rewrite <-app_assoc. cbn.
  rewrite split_lines_line by done. by rewrite IH.
Qed.

Section feed_facts.
Context {S : Type} (f : S → bytes → S * BResult unit).

(** A callback that never fails sees every line that is not empty. *)
Lemma feed_total s count lines :
  (∀ s l, (f s l).2 = Ok tt) →
  feed f s count lines =
    (foldl (λ s l, (f s l).1) s (filter (λ l, l ≠ []) lines),
     Ok (foldl (λ c _, u64_add c 1) count (filter (λ l, l ≠ []) lines))).
Proof.
  intros Hf. revert s count; induction lines as [|l lines IH]; intros s count; [done|].
  destruct l as [|b l]; cbn [feed].
  - rewrite filter_cons_False by (by intros []). apply IH.
  - rewrite filter_cons_True by done. cbn [foldl].
    pose proof (Hf s (b :: l)) as Hok. destruct (f s (b :: l)) as [s' r]. cbn in Hok. subst r.
    apply IH.
Qed.

End feed_facts.

Section content_facts.
Context `{Blake3} `{ZipApi} `{ZstdApi} `{JsonParser}.

Definition entry_intact (zip : archive) (e : ContentEntry) : Prop :=
  ∃ bs, read_entry zip (ce_path e) = Ok bs ∧ blake3_hex bs = ce_blake3 e ∧
    wrap_u64 (Z.of_nat (length bs)) = ce_bytes e.

Lemma verify_entry_Ok zip e : verify_entry zip e = Ok tt ↔ entry_intact zip e.
Proof.
  unfold verify_entry, entry_intact. rewrite bind_Ok. apply exist_proper; intros bs.
  destruct (read_entry zip (ce_path e)); [|naive_solver]. cbv zeta.
  case_decide as Hd; [naive_solver|]. destruct (Z.eqb_spec (wrap_u64 (Z.of_nat (length bs))) (ce_bytes e)); cbn.
  - naive_solver.
  - naive_solver.
Qed.

Lemma mapM_unit_Ok {A} (f : A → BResult unit) l :
  is_ok (mapM f l) = true ↔ Forall (λ x, f x = Ok tt) l.
Proof.
  rewrite is_ok_true. setoid_rewrite mapM_Ok. split.
  - intros [k Hk]. induction Hk as [|x [] l k Hx Hk IH]; by constructor.
  - intros Hl. exists (replicate (length l) tt). induction Hl; by constructor.
Qed.

Lemma verify_content_hashes_Ok r unlisted :
  verify_content_hashes r = Ok unlisted ↔
  Forall (entry_intact (br_zip r)) (man_contents (br_manifest r)) ∧
  ∃ names, zip_names (br_zip r) = Some <$> names ∧
    unlisted = filter (λ n, is_unlisted (man_contents (br_manifest r)) n = true) names.
Proof.
  unfold verify_content_hashes. cbv zeta.
  assert (∀ names, mapM (λ n, ok_or n Zip) (zip_names (br_zip r)) = Ok names ↔
            zip_names (br_zip r) = Some <$> names) as Hnames.
  { intros names. rewrite mapM_Ok. split.
    - induction 1 as [|x y l k Hx _ IH]; [done|]. apply ok_or_Ok in Hx as ->. cbn. by rewrite IH.
    - intros ->. induction names; cbn; by constructor. }
  rewrite bind_Ok. setoid_rewrite bind_Ok. setoid_rewrite Hnames.
  assert (Forall (entry_intact (br_zip r)) (man_contents (br_manifest r)) ↔
          ∃ us, mapM (verify_entry (br_zip r)) (man_contents (br_manifest r)) = Ok us) as ->.
  { rewrite <-is_ok_true, mapM_unit_Ok. apply Forall_iff. intros e. by rewrite verify_entry_Ok. }
  unfold mret, result_ret. split.
  - intros (u & Hu & names & Hn & [= <-]). eauto.
  - intros ([u Hu] & names & Hn & ->). eauto.
Qed.
End content_facts.

(** ** Concrete archives *)

Definition list_zip : ZipApi :=
  {| archive := list (rstring * bytes);
     zip_by_name z p := match map_get p z with Some bs => ZipFound bs true | None => ZipFileNotFound end;
     zip_names z := Some <$> z.*1 |}.

Definition stored_zstd : ZstdApi := λ bs complete, Some (bs, complete).

Definition no_parser : JsonParser :=
  {| parse_value _ := None; parse_manifest _ := None; parse_record_index _ := None;
     parse_stream_checkpoints _ := None; parse_anchor_proofs _ := None;
     parse_revocations _ := None; parse_roots _ := None |}.

(** One listed entry, one that is not listed, a directory and the manifest. *)
Definition demo_reader : @BundleReader list_zip :=
  @Build_BundleReader list_zip
    [(str "VERIFY.md", byte_str "how to"); (str "extra", []); (str "dir/", []);
     (str "manifest.json", [])]
    {| man_schema_version := str "1"; man_bundle_id := str "b"; man_created_at := str "t";
       man_tool := man_tool demo_manifest; man_scope := man_scope demo_manifest;
       man_contents := [{| ce_path := str "VERIFY.md";
                           ce_blake3 := @blake3_hex poly_blake3 (byte_str "how to");
                           ce_bytes := 6 |}] |}.

(** ** Properties *)

(** Content verification. It succeeds exactly when every entry of the
    manifest can be read and has the listed hash and size, and then returns
    exactly the names in the archive that are neither the manifest, nor listed,
    nor directories. *)
Theorem content_hashes_spec `{Blake3} `{ZipApi} r :
  match verify_content_hashes r with
  | Ok unlisted =>
    Forall (entry_intact (br_zip r)) (man_contents (br_manifest r)) ∧
    ∀ n, n ∈ unlisted ↔
      Some n ∈ zip_names (br_zip r) ∧ n ≠ str "manifest.json" ∧
      n ∉ ce_path <$> man_contents (br_manifest r) ∧ last n ≠ Some 47
  | Err _ =>
    ¬ Forall (entry_intact (br_zip r)) (man_contents (br_manifest r)) ∨
    None ∈ zip_names (br_zip r)
  end.
Proof.
  destruct (verify_content_hashes r) as [unlisted|e] eqn:Hv.
  - apply verify_content_hashes_Ok in Hv as (Hall & names & Hn & ->). split; [done|]. intros n.
    rewrite list_elem_of_filter, Hn, list_elem_of_fmap. unfold is_unlisted, is_directory.
    rewrite !andb_true_iff, !negb_true_iff, !bool_decide_eq_false. naive_solver.
  - destruct (decide (None ∈ zip_names (br_zip r))) as [|Hnone]; [by right|]. left. intros Hall.
    assert (∃ names, zip_names (br_zip r) = Some <$> names) as [names Hn].
    { clear -Hnone. induction (zip_names (br_zip r)) as [|[n|] l IH]; [by exists []| |set_solver].
      destruct IH as [ns ->]; [set_solver|]. by exists (n :: ns). }
    assert (is_ok (verify_content_hashes r) = true) as Hok; [|by rewrite Hv in Hok].
    apply is_ok_true. eexists. apply verify_content_hashes_Ok. eauto.
Qed.

(** The manifest pins the contents: two archives that verify against
    manifests with the same contents list hold the same bytes under every
    listed path, unless BLAKE3 collides on two of these entries. *)
Theorem content_hashes_bind `{Blake3} `{ZipApi} r1 r2 u1 u2 e b1 b2 :
  man_contents (br_manifest r1) = man_contents (br_manifest r2) →
  verify_content_hashes r1 = Ok u1 → verify_content_hashes r2 = Ok u2 →
  e ∈ man_contents (br_manifest r1) →
  read_entry (br_zip r1) (ce_path e) = Ok b1 → read_entry (br_zip r2) (ce_path e) = Ok b2 →
  collision_free_on blake3_hash [b1; b2] →
  b1 = b2.
Proof.
  intros Heq [H1 _]%verify_content_hashes_Ok [H2 _]%verify_content_hashes_Ok He Hb1 Hb2 Hcf.
  rewrite <-Heq in H2. rewrite Forall_forall in H1, H2.
  destruct (H1 e He) as (c1 & Hc1 & Hh1 & _), (H2 e He) as (c2 & Hc2 & Hh2 & _).
  rewrite Hb1 in Hc1. rewrite Hb2 in Hc2. injection Hc1 as <-. injection Hc2 as <-.
  apply Hcf; [left|right; left|]. apply blake3_hex_inj. congruence.
Qed.

Lemma content_hashes_bind_witness : byte_str "how to" = byte_str "how" ++ byte_str " to".
Proof.
  apply (@content_hashes_bind poly_blake3 list_zip demo_reader demo_reader [str "extra"]
    [str "extra"] {| ce_path := str "VERIFY.md";
      ce_blake3 := @blake3_hex poly_blake3 (byte_str "how to"); ce_bytes := 6 |});
    [reflexivity|vm_compute; reflexivity|vm_compute; reflexivity|left|vm_compute; reflexivity
    |vm_compute; reflexivity|by_compute].
Defined.
