(* ===== verification/Tsa.v ===== *)
(** * Time-stamp token verification (verify/src/tsa.rs)

    The DER, CMS, TSP, RSA and SHA-2 crates are the parameter [TsaApi]: the
    decoders and accessors of the ASN.1 structures, the digests, RSA PKCS#1
    v1.5 verification, and [chrono]'s formatting of the generation time. Object
    identifiers are strings, as the code compares them. *)

From Stdlib Require Import Strings.Byte.
From S2P Require Import Prelude Text Errors Hash.

Class TsaApi := {
  content_info : Type;
  asn1_any : Type;
  signed_data : Type;
  tst_info : Type;
  signer_info : Type;
  tsa_cert : Type;
  tsa_name : Type;
  tsa_name_eq_dec :: EqDecision tsa_name;
  rsa_key : Type;
  (** [TimeStampResp::from_der]: the status and the token. *)
  tsr_from_der : bytes → option (Z * option content_info);
  content_info_from_der : bytes → option content_info;
  ci_content_type : content_info → rstring;
  ci_signed_data : content_info → option signed_data;
  sd_econtent : signed_data → option asn1_any;
  any_octets : asn1_any → option bytes;
  tst_from_der : bytes → option tst_info;
  tst_imprint_alg : tst_info → rstring;
  tst_hashed_message : tst_info → bytes;
  (** Seconds and nanoseconds since the epoch. *)
  tst_gen_time : tst_info → Z * Z;
  format_timestamp : Z → Z → option rstring;
  sd_signer_infos : signed_data → list signer_info;
  (** Each choice that is an X.509 certificate, [None] for the others. *)
  sd_certificates : signed_data → option (list (option tsa_cert));
  (** Issuer and serial number, or [None] for a subject key identifier. *)
  si_issuer_serial : signer_info → option (tsa_name * bytes);
  si_digest_alg : signer_info → rstring;
  (** Object identifier and values of each signed attribute. *)
  si_signed_attrs : signer_info → option (list (rstring * list asn1_any));
  si_signed_attrs_der : signer_info → option bytes;
  si_signature_alg : signer_info → rstring;
  si_signature : signer_info → bytes;
  cert_issuer : tsa_cert → tsa_name;
  cert_serial : tsa_cert → bytes;
  cert_subject : tsa_cert → rstring;
  cert_spki_der : tsa_cert → option bytes;
  rsa_from_spki : bytes → option rsa_key;
  (** The digest algorithm selects the padding prefix. *)
  rsa_verify : rsa_key → rstring → bytes → bytes → bool;
  sha384_digest : bytes → bytes;
  sha512_digest : bytes → bytes;
}.

Inductive TsaError :=
| TsaParse (detail : string)
| NotGranted (status : Z)
| ImprintMismatch
| UnsupportedAlgorithm (detail : string)
| TsaSignatureInvalid (detail : string)
| SignerCertMissing.

Abbreviation TResult := (result TsaError).

Record VerifiedToken := {
  vt_gen_time : rstring;
  vt_signer_subject : rstring;
  vt_signature_verified : bool;
}.

Definition OID_SIGNED_DATA : rstring := str "1.2.840.113549.1.7.2".
Definition OID_SHA256 : rstring := str "2.16.840.1.101.3.4.2.1".
Definition OID_SHA384 : rstring := str "2.16.840.1.101.3.4.2.2".
Definition OID_SHA512 : rstring := str "2.16.840.1.101.3.4.2.3".
Definition OID_MESSAGE_DIGEST : rstring := str "1.2.840.113549.1.9.4".
Definition OID_RSA_ENCRYPTION : rstring := str "1.2.840.113549.1.1.1".
Definition OID_SHA256_WITH_RSA : rstring := str "1.2.840.113549.1.1.11".
Definition OID_SHA384_WITH_RSA : rstring := str "1.2.840.113549.1.1.12".
Definition OID_SHA512_WITH_RSA : rstring := str "1.2.840.113549.1.1.13".

Section tsa.
Context `{Sha256} `{TsaApi}.

Definition parse_token (token_der : bytes) : TResult content_info :=
  match tsr_from_der token_der with
  | Some (status, token) =>
    if negb (status =? 0) && negb (status =? 1) then Err (NotGranted status)
    else ok_or token (TsaParse "granted response without token")
  | None => ok_or (content_info_from_der token_der) (TsaParse "ContentInfo")
  end.

(** The loop over the certificates of the token. *)
Fixpoint find_cert (signer : signer_info) (certs : list (option tsa_cert)) : TResult tsa_cert :=
  match certs with
  | [] => Err SignerCertMissing
  | None :: certs => find_cert signer certs
  | Some cert :: certs =>
    match si_issuer_serial signer with
    | Some (issuer, serial) =>
      if decide (cert_serial cert = serial ∧ cert_issuer cert = issuer) then Ok cert
      else find_cert signer certs
    | None => Ok cert
    end
  end.

Definition find_signer_cert (sd : signed_data) (signer : signer_info) : TResult tsa_cert :=
  certs ← ok_or (sd_certificates sd) SignerCertMissing;
  find_cert signer certs.

Definition digest_bytes (oid : rstring) (bs : bytes) : TResult bytes :=
  if decide (oid = OID_SHA256) then Ok (sha256_digest bs)
  else if decide (oid = OID_SHA384) then Ok (sha384_digest bs)
  else if decide (oid = OID_SHA512) then Ok (sha512_digest bs)
  else Err (UnsupportedAlgorithm "digest").

(** The loop over the signed attributes: the last [messageDigest] with a value
    decides. *)
Fixpoint check_message_digest (digest : bytes) (md_ok : bool)
    (attrs : list (rstring * list asn1_any)) : TResult bool :=
  match attrs with
  | [] => Ok md_ok
  | (oid, values) :: attrs =>
    if decide (oid = OID_MESSAGE_DIGEST) then
      match values with
      | [] => check_message_digest digest md_ok attrs
      | v :: _ =>
        od ← ok_or (any_octets v) (TsaParse "messageDigest");
        check_message_digest digest (bool_decide (od = digest)) attrs
      end
    else check_message_digest digest md_ok attrs
  end.

(** The IMPLICIT [0] tag is replaced by the SET OF tag. *)
Definition retag (der : bytes) : bytes :=
  match der with xa0 :: rest => x31 :: rest | _ => der end.

Definition is_rsa_alg (oid : rstring) : bool :=
  bool_decide (oid ∈ [OID_RSA_ENCRYPTION; OID_SHA256_WITH_RSA; OID_SHA384_WITH_RSA;
                      OID_SHA512_WITH_RSA]).

Definition verify_cms_signature (signer : signer_info) (cert : tsa_cert) (econtent : bytes)
    : TResult unit :=
  let digest_oid := si_digest_alg signer in
  signed_attrs ← ok_or (si_signed_attrs signer) (TsaParse "missing signedAttrs");
  econtent_digest ← digest_bytes digest_oid econtent;
  md_ok ← check_message_digest econtent_digest false signed_attrs;
  if negb md_ok then Err (TsaSignatureInvalid "messageDigest attribute mismatch")
  else
    attrs_der ← ok_or (si_signed_attrs_der signer) (TsaParse "signedAttrs DER");
    signed_digest ← digest_bytes digest_oid (retag attrs_der);
    if is_rsa_alg (si_signature_alg signer) then
      spki_der ← ok_or (cert_spki_der cert) (TsaParse "SPKI DER");
      public_key ← ok_or (rsa_from_spki spki_der) (TsaParse "RSA SPKI");
      (* The padding match refuses the digests that [digest_bytes] refused. *)
      if rsa_verify public_key digest_oid signed_digest (si_signature signer) then Ok tt
      else Err (TsaSignatureInvalid "RSA verify")
    else Err (UnsupportedAlgorithm "signature").

Definition verify_token (token_der : bytes) (expected_sha256_imprint : bytes)
    : TResult VerifiedToken :=
  ci ← parse_token token_der;
  if decide (ci_content_type ci ≠ OID_SIGNED_DATA) then
    Err (TsaParse "token content type is not id-signedData")
  else
    sd ← ok_or (ci_signed_data ci) (TsaParse "SignedData");
    econtent ← ok_or (sd_econtent sd) (TsaParse "missing eContent");
    tst_bytes ← ok_or (any_octets econtent) (TsaParse "eContent octet string");
    tst ← ok_or (tst_from_der tst_bytes) (TsaParse "TSTInfo");
    if decide (tst_imprint_alg tst ≠ OID_SHA256) then Err (UnsupportedAlgorithm "imprint digest")
    else if decide (tst_hashed_message tst ≠ expected_sha256_imprint) then Err ImprintMismatch
    else
      let '(secs, nanos) := tst_gen_time tst in
      _ ← (if secs <=? i64_max then Ok tt else Err (TsaParse "genTime overflow"));
      gen_time ← ok_or (format_timestamp secs nanos) (TsaParse "genTime out of range");
      signer ← ok_or (head (sd_signer_infos sd)) (TsaParse "no SignerInfo");
      cert ← find_signer_cert sd signer;
      _ ← verify_cms_signature signer cert tst_bytes;
      mret {| vt_gen_time := gen_time; vt_signer_subject := cert_subject cert;
              vt_signature_verified := true |}.

(** ** Facts *)

Lemma find_cert_Ok signer certs c :
  find_cert signer certs = Ok c →
  Some c ∈ certs ∧
  match si_issuer_serial signer with
  | Some (issuer, serial) => cert_serial c = serial ∧ cert_issuer c = issuer
  | None => True
  end.
Proof.
  induction certs as [|[d|] certs IH]; [done| |].
  - cbn [find_cert]. destruct (si_issuer_serial signer) as [[i s]|].
    + case_decide; [intros [= <-]; split; [left|done]|].
      intros [Hin Hs]%IH. split; [by right|done].
    + intros [= <-]. split; [left|done].
  - cbn [find_cert]. intros [Hin Hs]%IH. split; [by right|done].
Qed.

Lemma check_message_digest_true digest attrs :
  check_message_digest digest false attrs = Ok true →
  ∃ values v, (OID_MESSAGE_DIGEST, values) ∈ attrs ∧ head values = Some v ∧
    any_octets v = Some digest.
Proof.
  assert (∀ b, check_message_digest digest b attrs = Ok true →
    b = true ∨ ∃ values v, (OID_MESSAGE_DIGEST, values) ∈ attrs ∧ head values = Some v ∧
      any_octets v = Some digest) as Hgen.
  { induction attrs as [|[oid values] attrs IH]; intros b; [by intros [= ->]; left|].
    cbn [check_message_digest]. case_decide as Ho; [subst oid; destruct values as [|v vs]|].
    - intros Hc. destruct (IH b Hc) as [->|(vs & v & Hin & Hv)]; [by left|].
      right. exists vs, v. split; [by right|done].
    - intros (od & Hod%ok_or_Ok & Hc)%bind_Ok. right. destruct (IH _ Hc) as [Hb|(ws & w & Hin & Hw)].
      + apply bool_decide_eq_true in Hb as ->. exists (v :: vs), v. split; [left|done].
      + exists ws, w. split; [by right|done].
    - intros Hc. destruct (IH b Hc) as [->|(vs & v & Hin & Hv)]; [by left|].
      right. exists vs, v. split; [by right|done]. }
  intros Hc. by destruct (Hgen false Hc).
Qed.
End tsa.

(** ** A concrete token format: the token is the imprint it binds *)

Definition toy_tsa : TsaApi :=
  {| content_info := bytes; asn1_any := bytes; signed_data := bytes; tst_info := bytes;
     signer_info := bytes; tsa_cert := unit; tsa_name := unit; tsa_name_eq_dec := _;
     rsa_key := unit; tsr_from_der _ := None; content_info_from_der := Some;
     ci_content_type _ := OID_SIGNED_DATA; ci_signed_data := Some; sd_econtent := Some;
     any_octets := Some; tst_from_der := Some; tst_imprint_alg _ := OID_SHA256;
     tst_hashed_message b := b; tst_gen_time _ := (1000, 0);
     format_timestamp _ _ := Some (str "t1000"); sd_signer_infos sd := [sd];
     sd_certificates _ := Some [None; Some tt]; si_issuer_serial _ := Some (tt, []);
     si_digest_alg _ := OID_SHA256;
     si_signed_attrs s := Some [(OID_MESSAGE_DIGEST, [poly_hash s])];
     si_signed_attrs_der s := Some (xa0 :: s); si_signature_alg _ := OID_RSA_ENCRYPTION;
     si_signature s := poly_hash (x31 :: s); cert_issuer _ := tt; cert_serial _ := [];
     cert_subject _ := str "TSA"; cert_spki_der _ := Some []; rsa_from_spki _ := Some tt;
     rsa_verify _ _ d sg := bool_decide (d = sg); sha384_digest b := b; sha512_digest b := b |}.

(** ** Properties *)

(** C38: A verified token binds the expected digest: the token is signed data
    whose content is a TSTInfo with exactly the expected SHA-256 imprint; a
    certificate of the token that matches the signer verifies the RSA signature
    over the digest of the re-tagged signed attributes, one of which is the
    digest of that TSTInfo. *)
Theorem verify_token_sound `{Sha256} `{TsaApi} token imprint t :
  verify_token token imprint = Ok t →
  ∃ ci sd econtent tst_bytes tst signer cert certs attrs attrs_der digest spki key values v sdigest,
    parse_token token = Ok ci ∧ ci_content_type ci = OID_SIGNED_DATA ∧
    ci_signed_data ci = Some sd ∧ sd_econtent sd = Some econtent ∧
    any_octets econtent = Some tst_bytes ∧ tst_from_der tst_bytes = Some tst ∧
    tst_imprint_alg tst = OID_SHA256 ∧ tst_hashed_message tst = imprint ∧
    head (sd_signer_infos sd) = Some signer ∧
    sd_certificates sd = Some certs ∧ Some cert ∈ certs ∧
    (∀ issuer serial, si_issuer_serial signer = Some (issuer, serial) →
       cert_serial cert = serial ∧ cert_issuer cert = issuer) ∧
    si_signed_attrs signer = Some attrs ∧
    digest_bytes (si_digest_alg signer) tst_bytes = Ok digest ∧
    (OID_MESSAGE_DIGEST, values) ∈ attrs ∧ head values = Some v ∧ any_octets v = Some digest ∧
    si_signed_attrs_der signer = Some attrs_der ∧
    digest_bytes (si_digest_alg signer) (retag attrs_der) = Ok sdigest ∧
    cert_spki_der cert = Some spki ∧ rsa_from_spki spki = Some key ∧
    rsa_verify key (si_digest_alg signer) sdigest (si_signature signer) = true ∧
    vt_signer_subject t = cert_subject cert ∧ vt_signature_verified t = true.
Proof.
  unfold verify_token. intros (ci & Hci & Hv)%bind_Ok. case_decide as Hty; [done|].
  apply bind_Ok in Hv as (sd & Hsd%ok_or_Ok & Hv).
  apply bind_Ok in Hv as (ec & Hec%ok_or_Ok & Hv).
  apply bind_Ok in Hv as (tb & Htb%ok_or_Ok & Hv).
  apply bind_Ok in Hv as (tst & Htst%ok_or_Ok & Hv).
  case_decide as Ha; [done|]. case_decide as Hh; [done|].
  destruct (tst_gen_time tst) as [secs nanos].
  apply bind_Ok in Hv as (_ & _ & Hv). apply bind_Ok in Hv as (gt & _ & Hv).
  apply bind_Ok in Hv as (signer & Hs%ok_or_Ok & Hv).
  apply bind_Ok in Hv as (cert & (certs & Hcs%ok_or_Ok & [Hin His]%find_cert_Ok)%bind_Ok & Hv).
  apply bind_Ok in Hv as ([] & Hcms & Hv). injection Hv as <-.
  unfold verify_cms_signature in Hcms. cbv zeta in Hcms.
  apply bind_Ok in Hcms as (attrs & Hattrs%ok_or_Ok & Hcms).
  apply bind_Ok in Hcms as (d & Hd & Hcms). apply bind_Ok in Hcms as ([] & Hmd & Hcms); [|done].
  cbn [negb] in Hcms.
  apply bind_Ok in Hcms as (ader & Hader%ok_or_Ok & Hcms).
  apply bind_Ok in Hcms as (sd' & Hsdg & Hcms). case_match; [|done].
  apply bind_Ok in Hcms as (spki & Hspki%ok_or_Ok & Hcms).
  apply bind_Ok in Hcms as (key & Hkey%ok_or_Ok & Hcms). case_match; [|done].
  apply check_message_digest_true in Hmd as (values & v & Hin2 & Hv & Ho).
  exists ci, sd, ec, tb, tst, signer, cert, certs, attrs, ader, d, spki, key, values, v, sd'.
  split_and!; try done. intros i s Hsid. by rewrite Hsid in His.
Qed.

Lemma verify_token_sound_witness :
  ∃ ci tst, @parse_token toy_tsa (replicate 32 x01) = Ok ci ∧
    @tst_hashed_message toy_tsa tst = replicate 32 x01.
Proof.
  assert (∃ t, @verify_token poly_sha256 toy_tsa (replicate 32 x01) (replicate 32 x01) = Ok t)
    as [t Ht] by (eexists; vm_compute; reflexivity).
  destruct (@verify_token_sound poly_sha256 toy_tsa (replicate 32 x01) (replicate 32 x01) t Ht)
    as (ci & _ & _ & _ & tst & _ & _ & _ & _ & _ & _ & _ & _ & _ & _ & _ & Hp & _ & _ & _ & _ & _ &
        _ & Hh & _).
  exists ci, tst. split; [exact Hp|exact Hh].
Defined.
