(* ===== verification/Ctx.v ===== *)
(** * Accumulating findings (the [Ctx] of verify/src/engine.rs)

    The engine threads a [&mut Ctx] to which findings are only ever pushed.
    [Checked A] is a computation of an [A] with the findings it pushes, in
    order: a writer monad. *)

From S2P Require Import Prelude Text Report.

Record Checked (A : Type) := Check { found : list Finding; outcome : A }.
Arguments Check {A} _ _.
Arguments found {A} _.
Arguments outcome {A} _.

Global Instance checked_ret : MRet Checked := λ A a, Check [] a.
Global Instance checked_bind : MBind Checked := λ A B f m,
  let n := f (outcome m) in Check (found m ++ found n) (outcome n).

(** [Ctx::add] and [Ctx::add_at]. *)
Definition add (severity : Severity) (class : string) : Checked unit :=
  Check [{| fd_severity := severity; fd_class := class; fd_stream_id := None; fd_seq := None |}] tt.

Definition add_at (severity : Severity) (class : string) (stream : rstring) (seq : option Z)
    : Checked unit :=
  Check [{| fd_severity := severity; fd_class := class; fd_stream_id := Some stream;
            fd_seq := seq |}] tt.

Definition when (b : bool) (m : Checked unit) : Checked unit := if b then m else mret tt.

(** A [for] loop over a list, with the variables it assigns as state. *)
Fixpoint fold_checked {S A} (f : S → A → Checked S) (s : S) (l : list A) : Checked S :=
  match l with
  | [] => mret s
  | x :: l => s ← f s x; fold_checked f s l
  end.

(** A [for] loop that only pushes findings. *)
Definition each {A} (f : A → Checked unit) (l : list A) : Checked unit :=
  fold_checked (λ _ x, f x) tt l.

(** ** What a computation reports *)

(** Every finding satisfies [F]. *)
Definition reports (F : Finding → Prop) {A} (m : Checked A) : Prop := Forall F (found m).

Section reports.
Context (F : Finding → Prop).

Lemma reports_bind {A B} (m : Checked A) (f : A → Checked B) :
  reports F (m ≫= f) ↔ reports F m ∧ reports F (f (outcome m)).
Proof. apply Forall_app. Qed.

Lemma reports_ret {A} (a : A) : reports F (mret a).
Proof. constructor. Qed.

Lemma reports_when b m : reports F (when b m) ↔ (b = true → reports F m).
Proof. destruct b; cbn; [by intuition|]. split; [done|]. intros _. constructor. Qed.

(** A loop whose iterations report so or not, whatever the state. *)
Lemma fold_checked_reports {S A} (I : S → Prop) (P : A → Prop) (f : S → A → Checked S) s l :
  I s → (∀ s x, x ∈ l → I s → (reports F (f s x) ↔ P x) ∧ I (outcome (f s x))) →
  reports F (fold_checked f s l) ↔ ∀ x, x ∈ l → P x.
Proof.
  revert s; induction l as [|x l IH]; intros s Hs Hstep; cbn [fold_checked].
  - split; [|intros _; apply reports_ret]. by intros _ x Hx%not_elem_of_nil.
  - destruct (Hstep s x ltac:(left) Hs) as [Hx Hs']. rewrite reports_bind, Hx.
    rewrite (IH _ Hs') by (intros t y Hy; apply Hstep; by right).
    setoid_rewrite elem_of_cons. naive_solver.
Qed.

Lemma reports_each {A} (f : A → Checked unit) l : reports F (each f l) ↔ Forall (λ x, reports F (f x)) l.
Proof.
  unfold each. generalize tt. induction l as [|x l IH]; intros u; cbn [fold_checked].
  - split; [by constructor|]. intros _. apply reports_ret.
  - rewrite reports_bind, Forall_cons, IH. done.
Qed.
End reports.

(** ** Computations without error findings *)

Definition no_error (fs : list Finding) : Prop := Forall (λ f, fd_severity f ≠ Error) fs.
Definition clean {A} (m : Checked A) : Prop := no_error (found m).

Lemma no_error_app fs gs : no_error (fs ++ gs) ↔ no_error fs ∧ no_error gs.
Proof. apply Forall_app. Qed.

Lemma clean_bind {A B} (m : Checked A) (f : A → Checked B) :
  clean (m ≫= f) ↔ clean m ∧ clean (f (outcome m)).
Proof. apply no_error_app. Qed.

Lemma clean_ret {A} (a : A) : clean (mret a).
Proof. constructor. Qed.

Lemma outcome_bind {A B} (m : Checked A) (f : A → Checked B) :
  outcome (m ≫= f) = outcome (f (outcome m)).
Proof. done. Qed.

Lemma found_bind {A B} (m : Checked A) (f : A → Checked B) :
  found (m ≫= f) = found m ++ found (f (outcome m)).
Proof. done. Qed.

Lemma clean_add s c : clean (add s c) ↔ s ≠ Error.
Proof. unfold clean, no_error. cbn. by rewrite Forall_singleton. Qed.

Lemma clean_add_at s c st q : clean (add_at s c st q) ↔ s ≠ Error.
Proof. unfold clean, no_error. cbn. by rewrite Forall_singleton. Qed.

Lemma clean_when b m : clean (when b m) ↔ (b = true → clean m).
Proof. apply reports_when. Qed.

(** A step that gives up with a finding. *)
Lemma error_unclean {A} class (a : A) : ¬ clean (_ ← add Error class; mret a).
Proof. intros [Hc _]%clean_bind. by apply clean_add in Hc. Qed.

Lemma warning_clean {A} class (a : A) : clean (_ ← add Warning class; mret a).
Proof. by repeat constructor. Qed.

Lemma clean_not_Fail fs : compute_result fs ≠ Fail ↔ no_error fs.
Proof. apply compute_result_not_Fail. Qed.

Lemma fold_checked_app {S A} (f : S → A → Checked S) s l1 l2 :
  outcome (fold_checked f s (l1 ++ l2)) = outcome (fold_checked f (outcome (fold_checked f s l1)) l2).
Proof. revert s; induction l1 as [|x l1 IH]; intros s; [done|]. cbn. apply IH. Qed.

(** An invariant of a loop. *)
Lemma fold_checked_inv {S A} (I : S → Prop) (f : S → A → Checked S) s l :
  I s → (∀ s x, x ∈ l → I s → I (outcome (f s x))) → I (outcome (fold_checked f s l)).
Proof.
  revert s; induction l as [|x l IH]; intros s Hs Hstep; [done|]. cbn.
  apply IH; [apply Hstep; [left|done]|]. intros t y Hy. apply Hstep. by right.
Qed.

(** An invariant of a loop whose findings are no errors. *)
Lemma fold_checked_clean_inv {S A} (I : S → Prop) (f : S → A → Checked S) s l :
  I s → clean (fold_checked f s l) →
  (∀ s x, x ∈ l → I s → clean (f s x) → I (outcome (f s x))) →
  I (outcome (fold_checked f s l)).
Proof.
  revert s; induction l as [|x l IH]; intros s Hs Hc Hstep; [done|].
  cbn [fold_checked] in *. apply clean_bind in Hc as [Hc1 Hc2]. rewrite outcome_bind.
  apply IH; [by apply Hstep; [left| |]|done|]. intros t y Hy. apply Hstep. by right.
Qed.

(** An invariant of a loop that also speaks about the findings so far. *)
Lemma fold_checked_acc {S A} (I : list Finding → S → Prop) (f : S → A → Checked S) fs s l :
  I fs s →
  (∀ fs s x, x ∈ l → I fs s → I (fs ++ found (f s x)) (outcome (f s x))) →
  I (fs ++ found (fold_checked f s l)) (outcome (fold_checked f s l)).
Proof.
  revert fs s; induction l as [|x l IH]; intros fs s Hs Hstep; cbn [fold_checked].
  - cbn. by rewrite app_nil_r.
  - rewrite found_bind, outcome_bind, app_assoc. apply IH.
    + apply Hstep; [left|done].
    + intros gs t y Hy. apply Hstep. by right.
Qed.

(** A property of the state that some elements of the list establish, and that
    the others keep. *)
Lemma fold_checked_collect {S A} (P : S → Prop) (Q : A → Prop) (f : S → A → Checked S) s l :
  (∀ s x, x ∈ l → P (outcome (f s x)) ↔ Q x ∨ P s) →
  P (outcome (fold_checked f s l)) ↔ (∃ x, x ∈ l ∧ Q x) ∨ P s.
Proof.
  revert s; induction l as [|x l IH]; intros s Hstep; cbn [fold_checked].
  - cbn. split; [by right|]. intros [(x & Hx & _)|?]; [|done]. by apply not_elem_of_nil in Hx.
  - rewrite outcome_bind, IH by (intros; apply Hstep; by right). rewrite Hstep by left.
    setoid_rewrite elem_of_cons. clear. split.
    + intros [(y & Hy & HQ)|[HQ|HP]]; eauto.
    + intros [(y & [->|Hy] & HQ)|HP]; eauto.
Qed.

(** Each iteration of a loop without error findings is without them. *)
Lemma fold_checked_clean_at {S A} (f : S → A → Checked S) s l1 x l2 :
  clean (fold_checked f s (l1 ++ x :: l2)) → clean (f (outcome (fold_checked f s l1)) x).
Proof.
  revert s; induction l1 as [|y l1 IH]; intros s; cbn [fold_checked app]; rewrite clean_bind.
  - by intros [? _].
  - intros [_ Hc]. by apply IH.
Qed.

Lemma fold_checked_clean_elem {S A} (f : S → A → Checked S) s l x :
  clean (fold_checked f s l) → x ∈ l → ∃ t, clean (f t x).
Proof.
  intros Hc (l1 & l2 & ->)%list_elem_of_split. eexists. by eapply fold_checked_clean_at.
Qed.

(** Where a property of the final state comes from. *)
Lemma fold_checked_origin {S A} (P : S → Prop) (Q : A → Prop) (f : S → A → Checked S) s l :
  (∀ s x, x ∈ l → P (outcome (f s x)) → Q x ∨ P s) →
  P (outcome (fold_checked f s l)) → (∃ x, x ∈ l ∧ Q x) ∨ P s.
Proof.
  revert s; induction l as [|x l IH]; intros s Hstep Hp; cbn [fold_checked] in Hp; [by right|].
  rewrite outcome_bind in Hp. destruct (IH _ ltac:(intros; apply Hstep; [by right|done]) Hp)
    as [(y & Hy & HQ)|HP].
  - left. exists y. split; [by right|done].
  - destruct (Hstep s x) as [HQ|HP']; [left|done| |by right]. left. exists x. split; [left|done].
Qed.

(** A property that the iteration for [x] establishes and the others keep. *)
Lemma fold_checked_establish {S A} (P : S → Prop) (f : S → A → Checked S) s l x :
  clean (fold_checked f s l) → x ∈ l → (∀ s, clean (f s x) → P (outcome (f s x))) →
  (∀ s y, y ∈ l → P s → P (outcome (f s y))) → P (outcome (fold_checked f s l)).
Proof.
  intros Hc (l1 & l2 & ->)%list_elem_of_split Hx Hkeep.
  apply fold_checked_clean_at in Hc. rewrite fold_checked_app. cbn [fold_checked].
  rewrite outcome_bind. apply fold_checked_inv; [by apply Hx|].
  intros t y Hy. apply Hkeep. apply elem_of_app. right. by right.
Qed.

(** A loop whose iterations report an error or not, whatever the state. *)
Lemma fold_checked_clean_iff {S A} (I : S → Prop) (P : A → Prop) (f : S → A → Checked S) s l :
  I s → (∀ s x, x ∈ l → I s → (clean (f s x) ↔ P x) ∧ I (outcome (f s x))) →
  clean (fold_checked f s l) ↔ ∀ x, x ∈ l → P x.
Proof. apply fold_checked_reports. Qed.

Lemma clean_each {A} (f : A → Checked unit) l : clean (each f l) ↔ Forall (λ x, clean (f x)) l.
Proof. apply reports_each. Qed.

#[export] Hint Resolve clean_ret : sealr.
