(* ===== verification/Streams.v ===== *)
(** * Chain verification of the streams of a bundle
    (verify/src/engine.rs: [StreamData], [verify_stream_chain],
    [classify_chain_finding])

    The fields of [StreamData] are grouped by the pass that fills them:
    [ChainData] by [verify_stream_chain], [CheckpointData] by the checkpoint
    and anchor passes. *)

From Stdlib Require Import Strings.Byte.
From S2P Require Import Prelude Text Errors Hash Json Jcs JcsFacts Record Chain Checkpoint.
From S2P Require Import Revocation Bundle Anchors Report Reader Ctx.

Record ChainData := {
  st_hashes_by_seq : gmap Z rstring;
  st_ts_min : option rstring;
  st_ts_max : option rstring;
  st_coverage_gap_count : Z;
  st_segments_without_end : list rstring;
}.

Record CheckpointData := {
  st_attested_seqs : gset Z;
  st_anchored_seqs : gset Z;
  st_checkpoint_digests : gmap rstring bytes;
  st_valid_checkpoint_ranges : gmap rstring (Z * Z);
  st_checkpoint_note_hashes : gset rstring;
  st_checkpoint_links : list (rstring * rstring);
  st_countersigned_checkpoints : gset rstring;
  st_countersigned_high_water : option Z;
  st_top_checkpoint : option (rstring * Z);
}.

(** The field [checkpoints], which is stored and not read, is left out. *)
Record StreamData := { st_chain : ChainData; st_cps : CheckpointData }.

Definition ChainData_default : ChainData :=
  {| st_hashes_by_seq := ∅; st_ts_min := None; st_ts_max := None; st_coverage_gap_count := 0;
     st_segments_without_end := [] |}.

Definition CheckpointData_default : CheckpointData :=
  {| st_attested_seqs := ∅; st_anchored_seqs := ∅; st_checkpoint_digests := ∅;
     st_valid_checkpoint_ranges := ∅; st_checkpoint_note_hashes := ∅; st_checkpoint_links := [];
     st_countersigned_checkpoints := ∅; st_countersigned_high_water := None;
     st_top_checkpoint := None |}.

Definition classify_chain_finding (f : ChainFinding) : string :=
  match f with
  | RecordHashMismatch _ _ _ => "record_hash_mismatch"
  | LinkBroken _ _ _ => "chain_link_broken"
  | SeqGapInSegment _ _ _ => "seq_gap"
  | SeqNotMonotonic _ _ => "seq_not_monotonic"
  | MonoRegression _ _ _ => "monotonic_regression"
  | WallRegression _ _ => "wall_clock_regression"
  | GenesisViolation _ _ => "genesis_violation"
  | SegmentBreak _ _ => "segment_break"
  | StreamMismatch _ _ => "stream_mismatch"
  | BadWallTimestamp _ _ => "bad_wall_timestamp"
  end.

Definition chain_finding_severity (f : ChainFinding) : Severity :=
  match f with SegmentBreak _ _ => Warning | _ => Error end.

(** The variables that the closure over the lines assigns. *)
Record StreamLoop := {
  sl_verifier : StreamVerifier;
  sl_data : ChainData;
  sl_segments_seen : list rstring;
  sl_segments_ended : gset rstring;
}.

(** [opt.is_none_or(|m| lt x m)], then [Some(x)]. *)
Definition keep_best (better : rstring → rstring → bool) (best : option rstring) (x : rstring)
    : option rstring :=
  match best with
  | None => Some x
  | Some m => if better x m then Some x else Some m
  end.

(** [value.pointer("/action/operation").and_then(as_str).unwrap_or("")]. *)
Definition action_operation (v : value) : rstring :=
  default [] (a ← value_get (str "action") v; get_str "operation" a).

(** The statistics and hash collection at the end of the closure. *)
Definition collect (v : value) (d : ChainData) : ChainData :=
  {| st_hashes_by_seq :=
       match get_u64 "seq" v, get_str "record_hash" v with
       | Some seq, Some hash => <[seq := hash]> (st_hashes_by_seq d)
       | _, _ => st_hashes_by_seq d
       end;
     st_ts_min :=
       match get_str "ts_wall" v with
       | Some ts => keep_best str_ltb (st_ts_min d) ts
       | None => st_ts_min d
       end;
     st_ts_max :=
       match get_str "ts_wall" v with
       | Some ts => keep_best (λ a b, str_ltb b a) (st_ts_max d) ts
       | None => st_ts_max d
       end;
     st_coverage_gap_count :=
       if decide (default [] (get_str "record_type" v) = str "coverage_gap")
       then u64_add (st_coverage_gap_count d) 1 else st_coverage_gap_count d;
     st_segments_without_end := st_segments_without_end d |}.

Section chain.
Context `{Blake3} `{UlidApi} `{ChronoApi} `{ZipApi} `{ZstdApi} `{JsonParser}.

(** The closure passed to [read_stream_records]. *)
Definition on_line (stream_id : rstring) (s : StreamLoop) (line : bytes) : Checked StreamLoop :=
  match parse_value line with
  | None => _ ← add_at Error "record_parse_error" stream_id None; mret s
  | Some value =>
    let seq := get_u64 "seq" value in
    match verify_next (sl_verifier s) value with
    | Err _ => _ ← add_at Error "record_invalid" stream_id seq; mret s
    | Ok (verifier, findings) =>
      _ ← each (λ f, add_at (chain_finding_severity f) (classify_chain_finding f) stream_id seq)
            findings;
      let rtype := default [] (get_str "record_type" value) in
      mret {| sl_verifier := verifier;
              sl_data := collect value (sl_data s);
              sl_segments_seen :=
                match get_str "segment_id" value with
                | Some seg =>
                  if decide (last (sl_segments_seen s) = Some seg) then sl_segments_seen s
                  else sl_segments_seen s ++ [seg]
                | None => sl_segments_seen s
                end;
              sl_segments_ended :=
                match get_str "segment_id" value with
                | Some seg =>
                  if decide (rtype = str "lifecycle" ∧ action_operation value = str "segment_end")
                  then {[seg]} ∪ sl_segments_ended s else sl_segments_ended s
                | None => sl_segments_ended s
                end |}
    end
  end.

(** The closure always returns [Ok]; its findings go to the context it
    captures. *)
Definition on_line_callback (stream_id : rstring) (c : Checked StreamLoop) (line : bytes)
    : Checked StreamLoop * BResult unit :=
  (c ≫= λ s, on_line stream_id s line, Ok tt).

Definition finish_chain (s : StreamLoop) : ChainData :=
  {| st_hashes_by_seq := st_hashes_by_seq (sl_data s); st_ts_min := st_ts_min (sl_data s);
     st_ts_max := st_ts_max (sl_data s);
     st_coverage_gap_count := st_coverage_gap_count (sl_data s);
     st_segments_without_end := filter (λ seg, seg ∉ sl_segments_ended s) (sl_segments_seen s) |}.

Definition start_loop (v : StreamVerifier) : StreamLoop :=
  {| sl_verifier := v; sl_data := ChainData_default; sl_segments_seen := [];
     sl_segments_ended := ∅ |}.

Definition verify_stream_chain (reader : BundleReader) (stream_id : rstring) : Checked ChainData :=
  match new_verifier stream_id with
  | Err _ => _ ← add_at Error "stream_id_invalid" stream_id None; mret ChainData_default
  | Ok verifier =>
    let '(c, result) :=
      read_stream_records reader stream_id (on_line_callback stream_id)
        (mret (start_loop verifier)) in
    s ← c;
    _ ← when (negb (is_ok result)) (add_at Error "stream_read_error" stream_id None);
    mret (finish_chain s)
  end.
End chain.

(** ** Facts: reading with a callback that never fails *)

Section read_facts.
Context `{Blake3} `{ZipApi} `{ZstdApi} `{JsonParser}.

(** The lines of a stream that are delivered, and how the reading ends. *)
Definition stream_lines (r : BundleReader) (stream_id : rstring) : list bytes * BResult Z :=
  read_stream_records r stream_id (λ acc l, (acc ++ [l], Ok tt)) [].

Context {S : Type} (f : S → bytes → S * BResult unit) (Hf : ∀ s l, (f s l).2 = Ok tt).

Definition run_lines (s : S) (lines : list bytes) : S := foldl (λ s l, (f s l).1) s lines.

Definition run_result (s : S) (acc : list bytes) (a : list bytes * BResult Z) (b : S * BResult Z)
    : Prop :=
  b.2 = a.2 ∧ ∃ lines, a.1 = acc ++ lines ∧ b.1 = run_lines s lines.

Lemma feed_run s acc count lines :
  run_result s acc (feed (λ acc l, (acc ++ [l], Ok tt)) acc count lines) (feed f s count lines).
Proof.
  rewrite !feed_total by done. split; [done|]. exists (filter (λ l, l ≠ []) lines).
  split; [|done]. cbn. induction (filter (λ l, l ≠ []) lines) as [|l ls IH] in acc |- *; cbn.
  - by rewrite app_nil_r.
  - rewrite IH. by rewrite <-app_assoc.
Qed.

Lemma run_result_bind s acc a b (ka : list bytes → Z → list bytes * BResult Z)
    (kb : S → Z → S * BResult Z) :
  run_result s acc a b →
  (∀ lines count, run_result (run_lines s lines) (acc ++ lines)
     (ka (acc ++ lines) count) (kb (run_lines s lines) count)) →
  run_result s acc (and_then a ka) (and_then b kb).
Proof.
  destruct a as [x ra], b as [y rb]. intros [Hr (lines & Hx & Hy)] Hk. cbn in *. subst.
  destruct ra as [c|e]; [|split; [done|by exists lines]].
  destruct (Hk lines c) as [Hr2 (more & Hx2 & Hy2)]. split; [done|].
  exists (lines ++ more). split; [by rewrite app_assoc|]. unfold run_lines in *. by rewrite foldl_app.
Qed.

Lemma run_result_stop s acc r : run_result s acc (acc, r) (s, r).
Proof. split; [done|]. exists []. cbn. by rewrite app_nil_r. Qed.

Lemma read_shard_run zip s acc count shard :
  run_result s acc (read_shard zip (λ acc l, (acc ++ [l], Ok tt)) acc count shard)
    (read_shard zip f s count shard).
Proof.
  unfold read_shard. destruct (zip_by_name zip shard) as [stored complete| |]; try apply run_result_stop.
  destruct (zstd_stream stored complete) as [[data fin]|]; [|apply run_result_stop].
  destruct (split_lines data) as [lines rest].
  apply run_result_bind; [apply feed_run|].
  intros ls c. destruct fin; [apply feed_run|apply run_result_stop].
Qed.

Lemma read_shards_run zip s acc count shards :
  run_result s acc (read_shards zip (λ acc l, (acc ++ [l], Ok tt)) acc count shards)
    (read_shards zip f s count shards).
Proof.
  revert s acc count; induction shards as [|shard shards IH]; intros s acc count; cbn [read_shards].
  - apply run_result_stop.
  - apply run_result_bind; [apply read_shard_run|]. intros. apply IH.
Qed.

Lemma read_stream_records_run r sid s :
  read_stream_records r sid f s =
    (run_lines s (stream_lines r sid).1, (stream_lines r sid).2).
Proof.
  enough (run_result s [] (stream_lines r sid) (read_stream_records r sid f s))
    as [Hr (lines & Hl & Hs)].
  { destruct (read_stream_records r sid f s) as [x y]. cbn in *. by rewrite Hl, Hs, Hr. }
  unfold stream_lines, read_stream_records. case_match; [apply read_shards_run|apply run_result_stop].
Qed.
End read_facts.

Lemma run_callback_fold `{Blake3} `{UlidApi} `{ChronoApi} `{JsonParser} sid c lines :
  run_lines (on_line_callback sid) c lines = (c ≫= λ s, fold_checked (on_line sid) s lines).
Proof.
  revert c; induction lines as [|l lines IH]; intros c; cbn.
  - destruct c as [fs s]. unfold mbind, checked_bind. cbn. by rewrite app_nil_r.
  - unfold run_lines in IH. rewrite IH. unfold mbind, checked_bind. cbn. by rewrite app_assoc.
Qed.

(** ** Facts: streams whose only findings are segment breaks *)

Definition is_break (f : ChainFinding) : Prop := chain_finding_severity f ≠ Error.

Section breaks.
Context `{Blake3} `{UlidApi} `{ChronoApi}.

(** Like [follows], but a new segment may open with the break sentinel. *)
Definition follows_or_break (prev v : RecordView) : Prop :=
  rv_seq prev < rv_seq v ∧
  (rv_segment_id prev = rv_segment_id v → rv_seq v = rv_seq prev + 1) ∧
  (rv_prev_hash v = rv_record_hash prev ∨
   rv_segment_id prev ≠ rv_segment_id v ∧ is_segment_break v = true) ∧
  clock_ok prev v = true.

Fixpoint linked_or_broken (prev : option RecordView) (gen : rstring) (vs : list RecordView) : Prop :=
  match vs with
  | [] => True
  | v :: vs =>
    match prev with
    | None => rv_seq v = 0 → rv_prev_hash v = gen
    | Some p => follows_or_break p v
    end ∧ linked_or_broken (Some v) gen vs
  end.

Lemma breaks_singleton f : Forall is_break [f] → chain_finding_severity f = Error → False.
Proof. rewrite Forall_singleton. unfold is_break. auto. Qed.

Lemma breaks_push_if b f :
  Forall is_break (push_if b f) → chain_finding_severity f = Error → b = false.
Proof. destruct b; cbn; [|done]. intros Hf He. by destruct (breaks_singleton f Hf). Qed.

Lemma seq_findings_breaks prev v : Forall is_break (seq_findings prev v) → seq_findings prev v = [].
Proof.
  unfold seq_findings. case_match; [intros Hf; by destruct (breaks_singleton _ Hf)|].
  intros Hf. by rewrite (breaks_push_if _ _ Hf).
Qed.

Lemma clock_findings_breaks ms prev v :
  Forall is_break (mono_findings prev v) → Forall is_break (wall_findings ms prev v) →
  mono_findings prev v = [] ∧ wall_findings ms prev v = [].
Proof.
  unfold mono_findings, wall_findings. intros Hm Hw.
  rewrite (breaks_push_if _ _ Hm) by done. split; [done|].
  destruct (parse_wall _), ms; try done; try (by destruct (breaks_singleton _ Hw)).
  by rewrite (breaks_push_if _ _ Hw).
Qed.

Lemma link_findings_breaks prev v :
  Forall is_break (link_findings prev v) →
  rv_prev_hash v = rv_record_hash prev ∨
  rv_segment_id prev ≠ rv_segment_id v ∧ is_segment_break v = true.
Proof.
  unfold link_findings, same_segment. case_decide; [by left|]. case_match eqn:Hb.
  - intros _. right. apply andb_true_iff in Hb as [Hs ?].
    by apply negb_true_iff, bool_decide_eq_false in Hs.
  - intros Hf. by destruct (breaks_singleton _ Hf).
Qed.

Lemma verify_next_breaks sv raw sv' fs :
  sv_inv sv → verify_next sv raw = Ok (sv', fs) → Forall is_break fs →
  ∃ v, self_hashed raw v ∧ rv_stream_id v = sv_stream_id sv ∧
    match sv_prev sv with
    | None => rv_seq v = 0 → rv_prev_hash v = sv_genesis sv
    | Some p => follows_or_break p v
    end ∧ sv' = advance sv v ∧ sv_inv sv'.
Proof.
  intros Hinv Hn Hf. unfold verify_next in Hn. apply bind_Ok in Hn as (v & Hv & Hn). cbv zeta in Hn.
  apply bind_Ok in Hn as (c & Hc & Hn). injection Hn as Hsv <-.
  rewrite !Forall_app in Hf. destruct Hf as (Hs & Hh & Hl).
  apply breaks_push_if, negb_false_iff, bool_decide_eq_true in Hs; [|done].
  apply breaks_push_if, negb_false_iff, bool_decide_eq_true in Hh; [|done].
  subst c. exists v. pose proof (from_value_u64 _ _ Hv) as [Hu _].
  split; [done|]. split; [done|].
  enough (match sv_prev sv with
    | None => rv_seq v = 0 → rv_prev_hash v = sv_genesis sv
    | Some p => follows_or_break p v
    end) as Hstep.
  { split; [done|]. split; [done|]. subst sv'. unfold sv_inv; cbn. split; [|done].
    destruct (parse_wall (rv_ts_wall v)) eqn:Hw; cbn; [done|]. unfold sv_inv in Hinv.
    destruct (sv_prev sv) as [p|]; [|done]. destruct Hstep as (_ & _ & _ & Hck).
    unfold clock_ok in Hck. by rewrite Hw, andb_false_r in Hck. }
  unfold sv_inv in Hinv. destruct (sv_prev sv) as [p|].
  - destruct Hinv as [Hw Hp]. rewrite Hw, !Forall_app in Hl. destruct Hl as (H1' & H2' & H3' & H4').
    apply seq_findings_breaks, seq_findings_nil in H1' as [? ?]; [|done..].
    destruct (clock_findings_breaks _ _ _ H3' H4') as [Hm Hwl].
    repeat split; [done|done|by apply link_findings_breaks|by apply clock_findings_nil].
  - unfold genesis_findings in Hl. apply breaks_push_if in Hl; [|done].
    rewrite andb_false_iff, negb_false_iff, bool_decide_eq_true in Hl. intros; destruct Hl; [lia|done].
Qed.

Lemma verify_stream_breaks sv raws sv' fs :
  sv_inv sv → verify_stream sv raws = Ok (sv', fs) → Forall is_break fs →
  ∃ vs, Forall2 self_hashed raws vs ∧ Forall (λ v, rv_stream_id v = sv_stream_id sv) vs ∧
    linked_or_broken (sv_prev sv) (sv_genesis sv) vs ∧ sv' = advance_all sv vs.
Proof.
  revert sv fs; induction raws as [|raw raws IH]; intros sv fs Hinv Hv Hf; cbn in Hv.
  - injection Hv as <- <-. exists []. repeat split; constructor.
  - apply bind_Ok in Hv as ([s1 f1] & H1' & ([s2 f2] & H2' & Heq)%bind_Ok). injection Heq as <- <-.
    apply Forall_app in Hf as [Hf1 Hf2].
    destruct (verify_next_breaks _ _ _ _ Hinv H1' Hf1) as (v & Hsh & Hsid & Hst & -> & Hinv').
    destruct (IH _ _ Hinv' H2' Hf2) as (vs & Hvs & Hsids & Hl & ->). cbn in *.
    exists (v :: vs). repeat split; [by constructor|by constructor|done|done].
Qed.

(** Conversely, such a stream has no other finding. *)
Lemma link_findings_allowed prev v :
  rv_prev_hash v = rv_record_hash prev ∨
    rv_segment_id prev ≠ rv_segment_id v ∧ is_segment_break v = true →
  Forall is_break (link_findings prev v).
Proof.
  unfold link_findings, same_segment. case_decide; [by constructor|]. intros [|[Hs Hb]]; [done|].
  rewrite bool_decide_eq_false_2 by done. rewrite Hb. by repeat constructor.
Qed.

Lemma verify_next_allowed sv raw v :
  sv_inv sv → self_hashed raw v → rv_stream_id v = sv_stream_id sv →
  match sv_prev sv with
  | None => rv_seq v = 0 → rv_prev_hash v = sv_genesis sv
  | Some p => follows_or_break p v
  end →
  ∃ fs, verify_next sv raw = Ok (advance sv v, fs) ∧ Forall is_break fs ∧ sv_inv (advance sv v) ∧
    fs = match sv_prev sv with None => [] | Some p => link_findings p v end.
Proof.
  intros Hinv [Hv Hc] Hs Hl. pose proof (from_value_u64 _ _ Hv) as [Hu _].
  unfold verify_next. rewrite Hv. cbn [mbind result_bind]. rewrite Hc. cbn [mbind result_bind].
  rewrite !bool_decide_true by done. cbn [negb push_if app]. eexists. split; [done|].
  unfold sv_inv in *. cbn [advance sv_prev sv_prev_wall_ms]. destruct (sv_prev sv) as [p|].
  - destruct Hinv as [-> Hp]. destruct Hl as (Hlt & Hseg & Hlink & Hck).
    rewrite (proj2 (seq_findings_nil p v Hp Hu)) by done.
    pose proof (proj2 (clock_findings_nil p v) Hck) as [-> ->]. rewrite !app_nil_r.
    split; [by apply link_findings_allowed|]. split; [|done]. split; [|done].
    unfold clock_ok in Hck. destruct (parse_wall (rv_ts_wall v)); [done|]. by rewrite andb_false_r in Hck.
  - assert (genesis_findings (sv_genesis sv) v = []) as ->.
    { unfold genesis_findings. destruct (Z.eqb_spec (rv_seq v) 0); [|done]. by rewrite bool_decide_true by auto. }
    split; [constructor|]. split; [|done]. split; [|done]. rewrite Hinv. by destruct (parse_wall (rv_ts_wall v)).
Qed.

(** The sequences of such a stream increase. *)
Lemma linked_or_broken_seqs prev gen vs :
  linked_or_broken prev gen vs →
  StronglySorted Z.lt (option_list (rv_seq <$> prev) ++ (rv_seq <$> vs)).
Proof.
  revert prev; induction vs as [|v vs IH]; intros prev; cbn.
  - intros _. destruct prev; cbn; repeat constructor.
  - intros [Hv Hl]. specialize (IH (Some v) Hl). cbn in IH. destruct prev as [p|]; cbn; [|done].
    destruct Hv as [Hlt _]. constructor; [done|]. constructor; [done|].
    apply StronglySorted_inv in IH as [_ Hall]. eapply Forall_impl; [exact Hall|]. cbn. lia.
Qed.
End breaks.

(** ** Facts: what the pass over a stream collects *)

Lemma from_value_gets raw v :
  from_value raw = Ok v →
  get_u64 "seq" raw = Some (rv_seq v) ∧ get_str "record_hash" raw = Some (rv_record_hash v).
Proof.
  unfold from_value. intros Hv. ok_inv. subst v. unfold get_u64, get_str, value_get.
  destruct raw; try done. simplify_eq/=. unfold u64_field, str_field in *. ok_inv. done.
Qed.

Lemma self_hashed_views `{Blake3} raws vs ws :
  Forall2 self_hashed raws vs → Forall2 self_hashed raws ws → vs = ws.
Proof. intros Hv Hw. eapply (Forall2_unique _ _ _ _ Hv Hw). intros raw v w [Hv' _] [Hw' _]. congruence. Qed.

Lemma parsed_values `{JsonParser} lines raws vals :
  Forall2 (λ l v, parse_value l = Some v) lines raws →
  Forall2 (λ l v, parse_value l = Some v) lines vals → raws = vals.
Proof. intros Hr Hv. eapply (Forall2_unique _ _ _ _ Hr Hv). congruence. Qed.

(** The hashes of a list of views, by sequence. *)
Definition hashes_of (vs : list RecordView) : gmap Z rstring :=
  foldl (λ m v, <[rv_seq v := rv_record_hash v]> m) ∅ vs.

Lemma hashes_of_spec vs s h :
  NoDup (rv_seq <$> vs) →
  hashes_of vs !! s = Some h ↔ ∃ v, v ∈ vs ∧ rv_seq v = s ∧ rv_record_hash v = h.
Proof.
  unfold hashes_of. induction vs as [|v vs IH] using rev_ind; cbn.
  - rewrite lookup_empty. intros _. split; [done|]. by intros (? & ?%not_elem_of_nil & _).
  - rewrite fmap_app, NoDup_app. intros (Hnd & Hdis & _).
    rewrite foldl_app. cbn. rewrite lookup_insert_Some, IH by done. setoid_rewrite elem_of_app.
    split.
    + intros [[<- <-]|[Hne (w & Hw & Hs)]]; [exists v; split; [right; left|done]|].
      exists w. split; [by left|done].
    + intros (w & [Hw| ->%list_elem_of_singleton] & Hs & Hh); [|by left].
      right. split; [|eauto]. intros Heq.
      apply (Hdis s); [apply list_elem_of_fmap; by exists w|rewrite <-Heq; left].
Qed.

Section pass_facts.
Context `{Blake3} `{UlidApi} `{ChronoApi} `{ZipApi} `{ZstdApi} `{JsonParser}.

Lemma on_line_clean sid s line :
  clean (on_line sid s line) →
  ∃ raw fs sv, parse_value line = Some raw ∧ verify_next (sl_verifier s) raw = Ok (sv, fs) ∧
    Forall is_break fs ∧ sl_verifier (outcome (on_line sid s line)) = sv ∧
    sl_data (outcome (on_line sid s line)) = collect raw (sl_data s).
Proof.
  unfold on_line. destruct (parse_value line) as [raw|].
  2: { intros [Hc _]%clean_bind. by apply clean_add_at in Hc. }
  destruct (verify_next (sl_verifier s) raw) as [[sv fs]|] eqn:Hn.
  2: { intros [Hc _]%clean_bind. by apply clean_add_at in Hc. }
  intros [Hc _]%clean_bind. exists raw, fs, sv. split_and!; try done.
  apply clean_each in Hc. eapply Forall_impl; [exact Hc|]. intros f Hf. by apply clean_add_at in Hf.
Qed.

Lemma on_lines_clean sid s lines :
  clean (fold_checked (on_line sid) s lines) →
  ∃ raws fs sv, Forall2 (λ l v, parse_value l = Some v) lines raws ∧
    verify_stream (sl_verifier s) raws = Ok (sv, fs) ∧ Forall is_break fs ∧
    sl_data (outcome (fold_checked (on_line sid) s lines)) =
      foldl (λ d v, collect v d) (sl_data s) raws.
Proof.
  revert s; induction lines as [|l lines IH]; intros s Hc.
  - exists [], [], (sl_verifier s). repeat split; constructor.
  - cbn [fold_checked] in Hc. apply clean_bind in Hc as [Hc1 Hc2].
    destruct (on_line_clean _ _ _ Hc1) as (raw & fs & sv & Hp & Hn & Hf & Hsv & Hd).
    destruct (IH _ Hc2) as (raws & gs & sv' & Hps & Hvs & Hg & Hds).
    exists (raw :: raws), (fs ++ gs), sv'. rewrite Hsv in Hvs. split_and!.
    + by constructor.
    + cbn. rewrite Hn. cbn. by rewrite Hvs.
    + by apply Forall_app.
    + cbn [fold_checked foldl]. rewrite outcome_bind, Hds, Hd. done.
Qed.

Lemma collect_hashes raws vs d :
  Forall2 self_hashed raws vs →
  st_hashes_by_seq (foldl (λ d v, collect v d) d raws) =
    foldl (λ m v, <[rv_seq v := rv_record_hash v]> m) (st_hashes_by_seq d) vs.
Proof.
  intros Hsh. revert d. induction Hsh as [|raw v raws vs [Hv _] _ IH]; intros d; [done|].
  cbn. rewrite IH. cbn. destruct (from_value_gets _ _ Hv) as [-> ->]. done.
Qed.

(** Conversely, the lines of such a chain raise no error. *)
Lemma on_lines_allowed sid s lines raws vs :
  sv_inv (sl_verifier s) → Forall2 (λ l v, parse_value l = Some v) lines raws →
  Forall2 self_hashed raws vs → Forall (λ v, rv_stream_id v = sv_stream_id (sl_verifier s)) vs →
  linked_or_broken (sv_prev (sl_verifier s)) (sv_genesis (sl_verifier s)) vs →
  clean (fold_checked (on_line sid) s lines).
Proof.
  intros Hinv Hp. revert s vs Hinv. induction Hp as [|l raw lines raws Hl Hp IH]; intros s vs Hinv Hsh Hsid Hlk.
  - apply clean_ret.
  - apply Forall2_cons_inv_l in Hsh as (v & vs' & Hv & Hsh & ->). apply Forall_cons in Hsid as [Hs Hsid].
    destruct Hlk as [Hstep Hlk].
    destruct (verify_next_allowed _ _ _ Hinv Hv Hs Hstep) as (fs & Hn & Hf & Hinv' & _).
    cbn [fold_checked]. rewrite clean_bind.
    assert (clean (on_line sid s l) ∧
            sl_verifier (outcome (on_line sid s l)) = advance (sl_verifier s) v) as [Hc Hsv].
    { unfold on_line. rewrite Hl, Hn. split; [|done]. apply clean_bind. split; [|apply clean_ret].
      apply clean_each. eapply Forall_impl; [exact Hf|]. intros f Hb. by apply clean_add_at. }
    split; [done|]. apply (IH _ vs'); rewrite ?Hsv; done.
Qed.

(** A stream that was read to its end without an error finding. *)
Definition stream_intact (r : BundleReader) (sid : rstring) (d : ChainData)
    (vs : list RecordView) : Prop :=
  ∃ u count lines raws, ulid_parse sid = Some u ∧ stream_lines r sid = (lines, Ok count) ∧
    Forall2 (λ l v, parse_value l = Some v) lines raws ∧ Forall2 self_hashed raws vs ∧
    Forall (λ v, rv_stream_id v = sid) vs ∧
    linked_or_broken None (genesis_prev_hash u) vs ∧
    st_hashes_by_seq d = hashes_of vs.

Lemma stream_chain_intact r sid :
  clean (verify_stream_chain r sid) →
  ∃ vs, stream_intact r sid (outcome (verify_stream_chain r sid)) vs.
Proof.
  unfold verify_stream_chain. destruct (new_verifier sid) as [sv|] eqn:Hn.
  2: { intros [Hc _]%clean_bind. by apply clean_add_at in Hc. }
  rewrite read_stream_records_run by done. rewrite run_callback_fold.
  destruct (stream_lines r sid) as [lines res] eqn:Hl. cbn [fst snd].
  intros [Hc Hc2]%clean_bind. apply clean_bind in Hc as [_ Hc]. cbn [outcome mret checked_ret] in Hc.
  apply clean_bind in Hc2 as [Hw _]. rewrite clean_when in Hw.
  destruct res as [count|]; [|exfalso; specialize (Hw eq_refl); by apply clean_add_at in Hw].
  destruct (on_lines_clean _ _ _ Hc) as (raws & fs & sv' & Hp & Hv & Hf & Hd).
  apply new_verifier_Ok in Hn as (Hinv & Hprev & Hsid & u & Hu & Hg).
  destruct (verify_stream_breaks _ _ _ _ Hinv Hv Hf) as (vs & Hvs & Hsids & Hlk & _).
  rewrite Hprev, Hg in Hlk. cbn [start_loop sl_verifier] in *. rewrite Hsid in Hsids.
  exists vs, u, count, lines, raws. split_and!; try done.
  rewrite !outcome_bind. cbn [outcome mret checked_ret finish_chain st_hashes_by_seq].
  rewrite Hd. by rewrite (collect_hashes raws vs).
Qed.

Lemma intact_clean r sid d vs : stream_intact r sid d vs → clean (verify_stream_chain r sid).
Proof.
  intros (u & count & lines & raws & Hu & Hl & Hp & Hsh & Hsid & Hlk & _).
  unfold verify_stream_chain. destruct (new_verifier sid) as [sv|] eqn:Hn.
  2: { unfold new_verifier in Hn. by rewrite Hu in Hn. }
  apply new_verifier_Ok in Hn as (Hinv & Hprev & Hs & u' & Hu' & Hg).
  assert (u' = u) as -> by congruence.
  rewrite read_stream_records_run by done. rewrite run_callback_fold, Hl. cbn [fst snd].
  rewrite !clean_bind. cbn [is_ok negb when]. split_and!; [apply clean_ret| |apply clean_ret..].
  eapply (on_lines_allowed sid _ lines raws vs); cbn [start_loop sl_verifier outcome mret checked_ret];
    rewrite ?Hprev, ?Hs, ?Hg; done.
Qed.

Lemma intact_hashes r sid d vs : stream_intact r sid d vs → st_hashes_by_seq d = hashes_of vs.
Proof. by intros (u & count & lines & raws & _ & _ & _ & _ & _ & _ & ->). Qed.

Lemma intact_seqs r sid d vs : stream_intact r sid d vs → NoDup (rv_seq <$> vs).
Proof.
  intros (u & c & l & raws & _ & _ & _ & _ & _ & Hl & _).
  apply linked_or_broken_seqs in Hl. cbn in Hl. revert Hl. generalize (rv_seq <$> vs) as l'.
  induction l' as [|x l' IH]; intros Hs; constructor; apply StronglySorted_inv in Hs as [Hs Hx]; [|auto].
  intros Hin. rewrite Forall_forall in Hx. specialize (Hx x Hin). lia.
Qed.
End pass_facts.

Section appended_facts.
Context `{Blake3} `{UlidApi} `{ChronoApi} `{ZipApi} `{ZstdApi} `{JsonParser}.

Lemma on_lines_silent sid s lines raws sv :
  Forall2 (λ l v, parse_value l = Some v) lines raws →
  verify_stream (sl_verifier s) raws = Ok (sv, []) →
  found (fold_checked (on_line sid) s lines) = [].
Proof.
  intros Hp. revert s. induction Hp as [|l v lines raws Hl Hp IH]; intros s Hv; [done|].
  cbn [verify_stream] in Hv. apply bind_Ok in Hv as ([s1 f1] & Hn & Hv).
  apply bind_Ok in Hv as ([s2 f2] & Hv & Heq). injection Heq as <- [-> ->]%app_nil.
  assert (found (on_line sid s l) = [] ∧ sl_verifier (outcome (on_line sid s l)) = s1) as [Hfd Hsl].
  { unfold on_line. rewrite Hl, Hn. done. }
  cbn [fold_checked]. rewrite found_bind, Hfd. cbn [app]. apply IH. by rewrite Hsl.
Qed.

Lemma verify_stream_chain_silent r sid sv lines raws count sv' :
  new_verifier sid = Ok sv → stream_lines r sid = (lines, Ok count) →
  Forall2 (λ l v, parse_value l = Some v) lines raws →
  verify_stream sv raws = Ok (sv', []) →
  found (verify_stream_chain r sid) = [].
Proof.
  intros Hn Hl Hp Hv. unfold verify_stream_chain. rewrite Hn, read_stream_records_run by done.
  rewrite run_callback_fold, Hl. cbn [fst snd]. rewrite !found_bind.
  rewrite (on_lines_silent sid _ lines raws sv') by done. done.
Qed.
End appended_facts.

(** ** Concrete stream *)

(** A parser that knows the canonical form of the given values. *)
Definition table_parser (vs : list value) (idx : RecordIndex) : JsonParser :=
  {| parse_value bs := find (λ v, bool_decide (to_jcs_bytes v = Ok bs)) vs;
     parse_manifest _ := None; parse_record_index _ := Some idx;
     parse_stream_checkpoints _ := None; parse_anchor_proofs _ := None;
     parse_revocations _ := None; parse_roots _ := None |}.

Definition demo_index : RecordIndex :=
  {| idx_streams := [{| ris_stream_id := str "S"; ris_shards := [str "shard"]; ris_seq_from := 0;
                        ris_seq_to := 1; ris_record_count := 2 |}] |}.

Definition jcs_line (v : value) : bytes := default [] (res_ok (to_jcs_bytes v)).

Definition demo_stream_reader : @BundleReader list_zip :=
  @Build_BundleReader list_zip
    [(str "records/index.json", []); (str "shard", two_raws ≫= λ v, jcs_line v ++ [x0a])]
    demo_manifest.

(** ** Properties *)

(** C15: The chain pass decides whether a stream is intact: it reports no error
    exactly if the stream was read to its end, every line parses and carries its
    own hash and the stream's identifier, the first record links to the genesis
    sentinel when its sequence is 0, and every record follows its predecessor,
    except that a new segment may open with the break sentinel. In that case the
    collected hashes are those of the records, by sequence. *)
Theorem stream_chain_sound `{Blake3} `{UlidApi} `{ChronoApi} `{ZipApi} `{ZstdApi} `{JsonParser} r sid :
  let m := verify_stream_chain r sid in
  (clean m ↔ ∃ u count lines raws vs,
     ulid_parse sid = Some u ∧ stream_lines r sid = (lines, Ok count) ∧
     Forall2 (λ l v, parse_value l = Some v) lines raws ∧ Forall2 self_hashed raws vs ∧
     Forall (λ v, rv_stream_id v = sid) vs ∧ linked_or_broken None (genesis_prev_hash u) vs) ∧
  (clean m → ∃ vs, stream_intact r sid (outcome m) vs ∧
     ∀ s h, st_hashes_by_seq (outcome m) !! s = Some h ↔
       ∃ v, v ∈ vs ∧ rv_seq v = s ∧ rv_record_hash v = h).
Proof.
  intros m. split; [split|].
  - intros (vs & u & count & lines & raws & Hi)%stream_chain_intact.
    exists u, count, lines, raws, vs. naive_solver.
  - intros (u & count & lines & raws & vs & Hi).
    apply (intact_clean r sid {| st_hashes_by_seq := hashes_of vs; st_ts_min := None; st_ts_max := None;
      st_coverage_gap_count := 0; st_segments_without_end := [] |} vs).
    exists u, count, lines, raws. naive_solver.
  - intros (vs & Hi)%stream_chain_intact. exists vs. split; [done|].
    pose proof (intact_seqs _ _ _ _ Hi) as Hnd. destruct Hi as (? & ? & ? & ? & _ & _ & _ & _ & _ & _ & Hh).
    intros s h. unfold m. rewrite Hh. by apply hashes_of_spec.
Qed.

Lemma stream_chain_sound_witness :
  ∃ u, @ulid_parse text_ulid (str "S") = Some u ∧
    ∃ lines count, @stream_lines list_zip stored_zstd (table_parser two_raws demo_index)
      demo_stream_reader (str "S") = (lines, Ok count).
Proof.
  destruct (proj1 (proj1 (@stream_chain_sound poly_blake3 text_ulid millis_chrono list_zip stored_zstd
    (table_parser two_raws demo_index) demo_stream_reader (str "S"))))
    as (u & count & lines & _ & _ & Hu & Hl & _).
  - by_compute.
  - exists u. split; [exact Hu|]. exists lines, count. exact Hl.
Defined.

(** What the recorder wrote passes: if the lines of a stream parse to
    records appended from genesis with clocks within tolerance, the chain pass
    reports nothing at all. *)
Theorem appended_stream_passes `{Blake3} `{UlidApi, !UlidLaws} `{ChronoApi} `{ZipApi} `{ZstdApi}
    `{JsonParser} r u rs h' rs' lines count :
  append_all (genesis u) rs = Ok (h', rs') →
  clocks_ok rs = true → Forall (λ r, is_u64 (rec_ts_mono_ns r) = true) rs →
  stream_lines r (ulid_to_string u) = (lines, Ok count) →
  Forall2 (λ l v, parse_value l = Some v) lines (to_value <$> rs') →
  found (verify_stream_chain r (ulid_to_string u)) = [].
Proof.
  intros Ha Hc Hm Hl Hp.
  destruct (appended_stream_clean u rs h' rs' Ha Hc Hm) as (sv & sv' & Hn & Hv & _).
  by eapply verify_stream_chain_silent.
Qed.

Lemma appended_stream_passes_witness :
  found (@verify_stream_chain poly_blake3 text_ulid millis_chrono list_zip stored_zstd
    (table_parser two_raws demo_index) demo_stream_reader (str "S")) = [].
Proof.
  assert (∃ h' rs', @append_all poly_blake3 text_ulid (@genesis poly_blake3 text_ulid (str "S"))
    two_records = Ok (h', rs') ∧ to_value <$> rs' = two_raws) as (h' & rs' & Ha & Hr)
    by (do 2 eexists; split; vm_compute; reflexivity).
  assert (∃ lines count, @stream_lines list_zip stored_zstd (table_parser two_raws demo_index)
    demo_stream_reader (str "S") = (lines, Ok count) ∧
    Forall2 (λ l v, @parse_value (table_parser two_raws demo_index) l = Some v) lines two_raws)
    as (lines & count & Hl & Hp).
  { do 2 eexists. split; [vm_compute; reflexivity|]. repeat constructor; vm_compute; reflexivity. }
  apply (@appended_stream_passes poly_blake3 text_ulid text_ulid_laws millis_chrono list_zip
    stored_zstd (table_parser two_raws demo_index) demo_stream_reader (str "S") two_records h' rs'
    lines count Ha); [vm_compute; reflexivity|by_compute|exact Hl|].
  rewrite Hr. exact Hp.
Defined.
