(* ===== verification/Identity.v ===== *)
(** * Trust roots, certificates and Console keys
    (verify/src/engine.rs: [select_roots], [build_cert_map], [der_to_pem],
    [base64_encode], [resolve_console_keys]) *)

From Stdlib Require Import Strings.Byte.
From S2P Require Import Prelude Text Errors Hash Json Jcs JcsFacts Record Keys Certs Bundle Report.
From S2P Require Import Reader Ctx.

(** The roots embedded at release time: [EMBEDDED_ROOTS_PEM]. *)
Class EmbeddedRoots := embedded_roots_pem : rstring.

(** [VerifyOptions]; [None] for the time stands for the clock's. *)
Record VerifyOptions := {
  vo_root_pem_override : option rstring;
  vo_console_key_override : option rstring;
  vo_now_unix : option Z;
  vo_expected_high_water : gmap rstring Z;
}.

(** ** Strings *)

(** [char::is_whitespace]. *)
Definition is_whitespace (c : char) : bool :=
  ((9 <=? c) && (c <=? 13)) || (c =? 32) || (c =? 0x85) || (c =? 0xA0) || (c =? 0x1680) ||
  ((0x2000 <=? c) && (c <=? 0x200A)) || (c =? 0x2028) || (c =? 0x2029) || (c =? 0x202F) ||
  (c =? 0x205F) || (c =? 0x3000).

(** [s.trim().is_empty()]. *)
Definition is_blank (s : rstring) : bool := forallb is_whitespace s.

(** [s.contains(sub)]. *)
Fixpoint contains (sub s : rstring) : bool :=
  bool_decide (take (length sub) s = sub) ||
  match s with [] => false | _ :: s => contains sub s end.

(** [parts.join(sep)]. *)
Fixpoint join (sep : rstring) (parts : list rstring) : rstring :=
  match parts with
  | [] => []
  | [p] => p
  | p :: parts => p ++ sep ++ join sep parts
  end.

(** ** Base64 and PEM *)

Definition BASE64_TABLE : rstring :=
  str "ABCDEFGHIJKLMNOPQRSTUVWXYZabcdefghijklmnopqrstuvwxyz0123456789+/".

Definition base64_char (i : Z) : char := default 0 (BASE64_TABLE !! Z.to_nat i).

(** The four characters of one chunk of [len] bytes. *)
Definition base64_chunk (b0 b1 b2 : byte) (len : nat) : rstring :=
  let n := Z.lor (Z.lor (Z.shiftl (b2z b0) 16) (Z.shiftl (b2z b1) 8)) (b2z b2) in
  [base64_char (Z.land (Z.shiftr n 18) 63);
   base64_char (Z.land (Z.shiftr n 12) 63);
   if (1 <? len)%nat then base64_char (Z.land (Z.shiftr n 6) 63) else 61;
   if (2 <? len)%nat then base64_char (Z.land n 63) else 61].

(** The loop over [data.chunks(3)]. *)
Fixpoint base64_encode (data : bytes) : rstring :=
  match data with
  | [] => []
  | [b0] => base64_chunk b0 x00 x00 1
  | [b0; b1] => base64_chunk b0 b1 x00 2
  | b0 :: b1 :: b2 :: data => base64_chunk b0 b1 b2 3 ++ base64_encode data
  end.

(** [chunks(n)], for [n > 0]. *)
Fixpoint chunks_fuel {A} (fuel n : nat) (l : list A) : list (list A) :=
  match fuel, l with
  | S fuel, _ :: _ => take n l :: chunks_fuel fuel n (drop n l)
  | _, _ => []
  end.
Definition chunks {A} (n : nat) (l : list A) : list (list A) := chunks_fuel (length l) n l.

Definition der_to_pem (der : bytes) : rstring :=
  str "-----BEGIN CERTIFICATE-----" ++ [10] ++
  (chunks 64 (base64_encode der) ≫= λ chunk, chunk ++ [10]) ++
  str "-----END CERTIFICATE-----" ++ [10].

Section identity.
Context `{Blake3} `{Ed25519} `{X509} `{!SpkiPem} `{EmbeddedRoots}.

(** The roots, and where they come from ([""] if there are none). *)
Definition select_roots (opts : VerifyOptions) (bundle_roots : option RootsFile)
    : Checked (list rstring * string) :=
  match vo_root_pem_override opts with
  | Some pem => mret ([pem], "--root override"%string)
  | None =>
    if negb (is_blank embedded_roots_pem) && contains (str "BEGIN CERTIFICATE") embedded_roots_pem
    then mret ([embedded_roots_pem], "embedded release roots"%string)
    else
      let none := _ ← add Error "no_trust_root"; mret ([], ""%string) in
      match bundle_roots with
      | Some roots =>
        match rf_roots roots with
        | [] => none
        | _ =>
          _ ← add Warning "root_bundle_pinned";
          mret (tr_cert_pem <$> rf_roots roots, "bundle-pinned"%string)
        end
      | None => none
      end
  end.

Abbreviation CertMap := (gmap rstring ValidatedCert).

(** One iteration of the loop over the single certificates. *)
Definition map_cert (single_pems : list rstring) (root_pem : rstring) (now_unix : Z)
    (map : CertMap) (pem : rstring) : Checked CertMap :=
  let intermediates := filter (λ p, p ≠ pem) single_pems in
  match validate_chain pem intermediates root_pem now_unix with
  | Ok validated => mret (<[vc_fingerprint validated := validated]> map)
  | Err _ => _ ← add Warning "cert_unvalidated"; mret map
  end.

Definition build_cert_map (certs_pem : option rstring) (root_pems : list rstring) (now_unix : Z)
    : Checked CertMap :=
  match certs_pem with
  | None => _ ← add Warning "identity_missing"; mret ∅
  | Some certs_pem =>
    match root_pems with
    | [] => mret ∅
    | _ =>
      let root_pem := join [10] root_pems in
      match parse_pem_chain certs_pem with
      | Err _ => _ ← add Error "identity_unparseable"; mret ∅
      | Ok ders =>
        let single_pems := der_to_pem <$> ders in
        fold_checked (map_cert single_pems root_pem now_unix) ∅ single_pems
      end
    end
  end.

(** The public keys of the root certificates. *)
Definition root_keys (root_pems : list rstring) : list verifying_key :=
  root_pems ≫= λ pem,
    match parse_pem_chain pem with
    | Err _ => []
    | Ok ders =>
      ders ≫= λ der,
        match x509_from_der der with
        | None => []
        | Some cert =>
          match vk_from_bytes (spki_key_data (x509_public_key cert)) with
          | Ok k => [k]
          | Err _ => []
          end
        end
    end.

Abbreviation KeyMap := (gmap rstring verifying_key).

Definition attested_by (keys : list verifying_key) (stmt : ConsoleKeyStatement) (sg : rstring) : bool :=
  existsb (λ rk, is_ok (verify_jcs rk stmt sg "console key statement")) keys.

(** One iteration of the loop over the bundle's Console keys. *)
Definition resolve_key (roots : list verifying_key) (keys : KeyMap) (entry : AttestedConsoleKey)
    : Checked KeyMap :=
  let stmt := ack_statement entry in
  match vk_from_spki_pem (cks_public_key_pem stmt) with
  | Err _ => _ ← add Warning "console_key_unparseable"; mret keys
  | Ok key =>
    match ack_signature entry with
    | Some sg =>
      if attested_by roots stmt sg then mret (<[cks_key_id stmt := key]> keys)
      else _ ← add Error "console_key_attestation_invalid"; mret keys
    | None =>
      _ ← add Warning "console_key_unattested";
      mret (<[cks_key_id stmt := key]> keys)
    end
  end.

Definition resolve_console_keys (opts : VerifyOptions) (bundle_roots : option RootsFile)
    (root_pems : list rstring) : Checked KeyMap :=
  match vo_console_key_override opts with
  | Some pem =>
    match vk_from_spki_pem pem with
    | Ok k => mret {[ str "override" := k ]}
    | Err _ => _ ← add Error "console_key_invalid"; mret ∅
    end
  | None =>
    match bundle_roots with
    | None => mret ∅
    | Some roots => fold_checked (resolve_key (root_keys root_pems)) ∅ (rf_console_keys roots)
    end
  end.
End identity.

(** ** Facts: Base64 *)

Lemma lor_shiftl a b k : 0 ≤ k → 0 ≤ b < 2 ^ k → Z.lor (Z.shiftl a k) b = a * 2 ^ k + b.
Proof.
  intros Hk Hb.
  assert (Z.land (Z.shiftl a k) b = 0) as Hl.
  { apply Z.bits_inj'. intros i Hi. rewrite Z.land_spec, Z.bits_0, Z.shiftl_spec by done.
    destruct (Z.ltb_spec i k).
    - by rewrite Z.testbit_neg_r by lia.
    - rewrite <-(Z.mod_small b (2 ^ k)) by done. rewrite Z.mod_pow2_bits_high by lia.
      apply andb_false_r. }
  rewrite <-Z.lxor_lor, <-Z.add_nocarry_lxor by done. by rewrite Z.shiftl_mul_pow2.
Qed.

Definition base64_val (c : char) : Z :=
  if (65 <=? c) && (c <=? 90) then c - 65
  else if (97 <=? c) && (c <=? 122) then c - 71
  else if (48 <=? c) && (c <=? 57) then c + 4
  else if c =? 43 then 62 else 63.

Lemma base64_char_val i : 0 ≤ i < 64 → base64_val (base64_char i) = i ∧ base64_char i ≠ 61.
Proof.
  intros Hi.
  pose proof (Z_below_forallb 64 (λ i, (base64_val (base64_char i) =? i) &&
    negb (base64_char i =? 61)) eq_refl i Hi) as Hc.
  cbn beta in Hc. lia.
Qed.

(** Decoding per RFC 4648, for padded input. *)
Fixpoint base64_decode (s : rstring) : bytes :=
  match s with
  | c0 :: c1 :: c2 :: c3 :: rest =>
    let n := base64_val c0 * 262144 + base64_val c1 * 4096 +
             (if c2 =? 61 then 0 else base64_val c2) * 64 +
             (if c3 =? 61 then 0 else base64_val c3) in
    if c2 =? 61 then [z2b (n / 65536)]
    else if c3 =? 61 then [z2b (n / 65536); z2b (n / 256)]
    else z2b (n / 65536) :: z2b (n / 256) :: z2b n :: base64_decode rest
  | _ => []
  end.

Lemma base64_chunk_arith b0 b1 b2 len :
  let n := b2z b0 * 65536 + b2z b1 * 256 + b2z b2 in
  base64_chunk b0 b1 b2 len =
    [base64_char (n / 262144); base64_char (n / 4096 mod 64);
     if (1 <? len)%nat then base64_char (n / 64 mod 64) else 61;
     if (2 <? len)%nat then base64_char (n mod 64) else 61].
Proof.
  cbv zeta. unfold base64_chunk.
  pose proof (b2z_range b0). pose proof (b2z_range b1). pose proof (b2z_range b2).
  assert (Z.lor (Z.lor (Z.shiftl (b2z b0) 16) (Z.shiftl (b2z b1) 8)) (b2z b2) =
          b2z b0 * 65536 + b2z b1 * 256 + b2z b2) as ->.
  { rewrite (Z.shiftl_mul_pow2 (b2z b1)) by lia. rewrite lor_shiftl by lia.
    replace (b2z b0 * 2 ^ 16 + b2z b1 * 2 ^ 8) with (Z.shiftl (b2z b0 * 256 + b2z b1) 8)
      by (rewrite Z.shiftl_mul_pow2 by lia; lia).
    rewrite lor_shiftl by lia. lia. }
  rewrite !Z.shiftr_div_pow2 by lia. change 63 with (Z.ones 6). rewrite !Z.land_ones by lia.
  change (2 ^ 6) with 64. change (2 ^ 12) with 4096. change (2 ^ 18) with 262144.
  rewrite (Z.mod_small (_ / 262144)); [done|]. Z.div_mod_to_equations. lia.
Qed.

Lemma base64_digits n :
  0 ≤ n < 16777216 →
  n / 262144 * 262144 + n / 4096 mod 64 * 4096 + n / 64 mod 64 * 64 + n mod 64 = n.
Proof. intros. Z.div_mod_to_equations. lia. Qed.

Lemma z2b_high b x : x mod 256 = b2z b → z2b x = b.
Proof. intros Hx. apply b2z_inj. by rewrite b2z_z2b. Qed.

(** The four digits of a 24-bit number. *)
Lemma base64_digit_vals m :
  0 ≤ m < 16777216 →
  base64_val (base64_char (m / 262144)) = m / 262144 ∧
  base64_val (base64_char (m / 4096 mod 64)) = m / 4096 mod 64 ∧
  base64_val (base64_char (m / 64 mod 64)) = m / 64 mod 64 ∧
  base64_val (base64_char (m mod 64)) = m mod 64 ∧
  (base64_char (m / 64 mod 64) =? 61) = false ∧ (base64_char (m mod 64) =? 61) = false.
Proof.
  intros Hm. rewrite !Z.eqb_neq.
  assert (0 ≤ m / 262144 < 64) by (Z.div_mod_to_equations; lia).
  assert (∀ x, 0 ≤ x mod 64 < 64) as Hmod by (intros; apply Z.mod_pos_bound; lia).
  split_and!; by apply base64_char_val.
Qed.

Lemma base64_round_fuel n data :
  (length data ≤ n)%nat → base64_decode (base64_encode data) = data.
Proof.
  revert data. induction n as [|n IH]; intros data Hlen; [by destruct data; [|cbn in Hlen; lia]|].
  destruct data as [|b0 [|b1 [|b2 data]]]; [done|..]; cbn [base64_encode];
    rewrite base64_chunk_arith; cbv zeta; cbn [Nat.ltb Nat.leb app];
    change (b2z x00) with 0; pose proof (b2z_range b0).
  - set (m := b2z b0 * 65536 + 0 * 256 + 0).
    destruct (base64_digit_vals m) as (V0 & V1 & _); [lia|].
    cbn [base64_decode]. rewrite V0, V1. cbn [Z.eqb Pos.eqb]. f_equal. apply z2b_high.
    subst m. Z.div_mod_to_equations. lia.
  - pose proof (b2z_range b1). set (m := b2z b0 * 65536 + b2z b1 * 256 + 0).
    destruct (base64_digit_vals m) as (V0 & V1 & V2 & _ & N2 & _); [lia|].
    cbn [base64_decode]. rewrite N2, V0, V1, V2. cbn [Z.eqb Pos.eqb].
    f_equal; [|f_equal]; apply z2b_high; subst m; Z.div_mod_to_equations; lia.
  - pose proof (b2z_range b1). pose proof (b2z_range b2).
    set (m := b2z b0 * 65536 + b2z b1 * 256 + b2z b2).
    destruct (base64_digit_vals m) as (V0 & V1 & V2 & V3 & N2 & N3); [lia|].
    cbn [base64_decode]. rewrite N2, N3, V0, V1, V2, V3, base64_digits by lia.
    rewrite IH by (cbn in Hlen; lia).
    f_equal; [|f_equal; [|f_equal]]; apply z2b_high; subst m; Z.div_mod_to_equations; lia.
Qed.

(** Chunks put together again. *)
Lemma chunks_concat {A} n (l : list A) : (0 < n)%nat → mjoin (chunks n l) = l.
Proof.
  intros Hn. unfold chunks.
  assert (∀ fuel (k : list A), (length k ≤ fuel)%nat → mjoin (chunks_fuel fuel n k) = k) as Hf; [|by apply Hf].
  clear l. induction fuel as [|fuel IH]; intros l Hl; [by destruct l; [|cbn in Hl; lia]|].
  destruct l as [|x l]; [done|]. cbn [chunks_fuel]. change (mjoin (?a :: ?b)) with (a ++ mjoin b).
  rewrite IH; [apply take_drop|]. rewrite length_drop. cbn in *. lia.
Qed.

Lemma chunks_length {A} n (l : list A) : Forall (λ c, (length c ≤ n)%nat) (chunks n l).
Proof.
  unfold chunks. generalize (length l) as fuel. intros fuel. revert l.
  induction fuel as [|fuel IH]; intros l; [constructor|]. destruct l as [|x l]; [constructor|].
  cbn [chunks_fuel]. constructor; [rewrite length_take; lia|apply IH].
Qed.

Section identity_facts.
Context `{Blake3} `{Ed25519} `{X509} `{!SpkiPem} `{EmbeddedRoots}.

(** When the steps of phase 2 report an error. *)
Lemma select_roots_clean opts bundle_roots :
  clean (select_roots opts bundle_roots) ↔ (outcome (select_roots opts bundle_roots)).1 ≠ [].
Proof.
  unfold select_roots. destruct (vo_root_pem_override opts) as [pem|]; [by split; [|constructor]|].
  case_match; [by split; [|constructor]|].
  assert (∀ P : Prop, P ∨ ¬ clean (_ ← add Error "no_trust_root"; mret (@nil rstring, ""%string))) as Hn
    by (intros; right; apply error_unclean).
  destruct bundle_roots as [rf|]; [|split; [intros Hc; by destruct (Hn False)|done]].
  destruct (rf_roots rf) eqn:Hr; [split; [intros Hc; by destruct (Hn False)|done]|].
  split; [done|intros _; apply warning_clean].
Qed.

Lemma cert_map_clean certs_pem root_pems now :
  root_pems ≠ [] →
  clean (build_cert_map certs_pem root_pems now) ↔
  ∀ pem, certs_pem = Some pem → is_ok (parse_pem_chain pem) = true.
Proof.
  intros Hne. unfold build_cert_map. destruct certs_pem as [pem|]; [|by split; [|intros; apply warning_clean]].
  destruct root_pems as [|r rs]; [done|]. destruct (parse_pem_chain pem) as [ders|] eqn:Hp.
  - split; [by intros _ ? [= <-]; rewrite Hp|]. intros _.
    apply (fold_checked_clean_iff (λ _, True) (λ _, True)); [done| |done].
    intros m x _ _. unfold map_cert. split; [|done]. split; [done|intros _].
    destruct (validate_chain _ _ _ _); [apply clean_ret|apply warning_clean].
  - split; [by intros ?%error_unclean|]. intros Hok. specialize (Hok _ eq_refl). by rewrite Hp in Hok.
Qed.

(** The supplied Console key parses; without one, every attestation in the
    bundle is by a trusted root. *)
Definition console_keys_ok (opts : VerifyOptions) (bundle_roots : option RootsFile)
    (root_pems : list rstring) : Prop :=
  match vo_console_key_override opts with
  | Some pem => is_ok (vk_from_spki_pem pem) = true
  | None => ∀ rf e sg, bundle_roots = Some rf → e ∈ rf_console_keys rf → ack_signature e = Some sg →
      is_ok (vk_from_spki_pem (cks_public_key_pem (ack_statement e))) = true →
      attested_by (root_keys root_pems) (ack_statement e) sg = true
  end.

Lemma resolve_keys_clean opts bundle_roots root_pems :
  clean (resolve_console_keys opts bundle_roots root_pems) ↔ console_keys_ok opts bundle_roots root_pems.
Proof.
  unfold resolve_console_keys, console_keys_ok. destruct (vo_console_key_override opts) as [pem|].
  { destruct (vk_from_spki_pem pem); cbn; [by split; [|constructor]|].
    split; [by intros ?%error_unclean|done]. }
  destruct bundle_roots as [rf|]; [|by split; [|constructor]].
  rewrite (fold_checked_clean_iff (λ _, True) (λ e, ∀ sg, ack_signature e = Some sg →
      is_ok (vk_from_spki_pem (cks_public_key_pem (ack_statement e))) = true →
      attested_by (root_keys root_pems) (ack_statement e) sg = true)); [naive_solver|done|].
  intros m e _ _. split; [|done]. unfold resolve_key.
  destruct (vk_from_spki_pem _); cbn; [|by split; [|intros; apply warning_clean]].
  destruct (ack_signature e) as [sg|]; [|by split; [|intros; apply warning_clean]].
  destruct (attested_by _ _ sg) eqn:Ha.
  - split; [by intros _ ? [= <-]|constructor].
  - split; [by intros ?%error_unclean|]. intros Hok. specialize (Hok sg eq_refl eq_refl). congruence.
Qed.

(** Where a certificate of the map comes from. *)
Lemma cert_map_lookup certs_pem root_pems now fp vc :
  outcome (build_cert_map certs_pem root_pems now) !! fp = Some vc →
  ∃ pem inter, root_pems ≠ [] ∧
    validate_chain pem inter (join [10] root_pems) now = Ok vc ∧ vc_fingerprint vc = fp.
Proof.
  unfold build_cert_map. destruct certs_pem as [certs|]; [|done].
  destruct root_pems as [|r rs]; [done|]. destruct (parse_pem_chain certs) as [ders|]; [|done].
  cbv zeta. set (single := der_to_pem <$> ders). generalize single at 2. intros l.
  revert fp vc. apply (fold_checked_inv (λ m : gmap rstring ValidatedCert, ∀ fp vc, m !! fp = Some vc →
    ∃ pem inter, r :: rs ≠ [] ∧ validate_chain pem inter (join [10] (r :: rs)) now = Ok vc ∧
      vc_fingerprint vc = fp)).
  - intros fp vc. by rewrite lookup_empty.
  - intros m pem _ Hm fp vc. unfold map_cert. destruct (validate_chain _ _ _ _) as [v|] eqn:Hv.
    + cbn. rewrite lookup_insert_Some. intros [[<- <-]|[_ Hl]]; [|eauto]. eauto 10.
    + cbn. apply Hm.
Qed.

(** What makes a Console key trusted. *)
Definition key_entry (roots : list verifying_key) (entries : list AttestedConsoleKey)
    (fs : list Finding) (kid : rstring) (k : verifying_key) : Prop :=
  ∃ e, e ∈ entries ∧ cks_key_id (ack_statement e) = kid ∧
    vk_from_spki_pem (cks_public_key_pem (ack_statement e)) = Ok k ∧
    match ack_signature e with
    | Some sg => attested_by roots (ack_statement e) sg = true
    | None => ∃ f, f ∈ fs ∧ fd_severity f = Warning ∧ fd_class f = "console_key_unattested"%string
    end.

Lemma key_entry_mono roots es fs gs kid k :
  key_entry roots es fs kid k → key_entry roots es (fs ++ gs) kid k.
Proof.
  intros (e & He & Hid & Hk & Hm). exists e. split_and!; try done.
  destruct (ack_signature e); [done|]. destruct Hm as (f & Hf & Hs). exists f.
  split; [apply elem_of_app; by left|done].
Qed.

Lemma resolve_keys_entry roots entries kid k :
  outcome (fold_checked (resolve_key roots) ∅ entries) !! kid = Some k →
  key_entry roots entries (found (fold_checked (resolve_key roots) ∅ entries)) kid k.
Proof.
  pose proof (fold_checked_acc (λ fs (m : gmap rstring verifying_key), ∀ kid k, m !! kid = Some k →
    key_entry roots entries fs kid k) (resolve_key roots) [] ∅ entries) as Hacc. cbn in Hacc.
  revert kid k. apply Hacc; [intros kid k; by rewrite lookup_empty|]. clear Hacc.
  intros fs m e He Hm kid k. unfold resolve_key. cbv zeta.
  destruct (vk_from_spki_pem _) as [key|] eqn:Hkey; [|cbn; intros; by apply key_entry_mono, Hm].
  destruct (ack_signature e) as [sg|] eqn:Hsg.
  - destruct (attested_by roots _ sg) eqn:Hatt; cbn; [|intros; by apply key_entry_mono, Hm].
    rewrite lookup_insert_Some. intros [[<- <-]|[_ Hl]]; [|by apply key_entry_mono, Hm].
    exists e. by rewrite Hsg.
  - cbn. rewrite lookup_insert_Some. intros [[<- <-]|[_ Hl]]; [|by apply key_entry_mono, Hm].
    exists e. rewrite Hsg. split_and!; try done. eexists. split; [apply elem_of_app; right; left|done].
Qed.
End identity_facts.

(** ** Concrete identity

    Certificates of [toy_x509] in PEM armour: a root, an intermediate and a
    leaf, and a Console key that the root signed. *)

Fixpoint pem_blocks (lines : list rstring) (acc : option rstring) : list (option (rstring * bytes)) :=
  match lines with
  | [] => []
  | l :: lines =>
    if decide (l = str "-----BEGIN CERTIFICATE-----") then pem_blocks lines (Some [])
    else if decide (l = str "-----END CERTIFICATE-----") then
      match acc with
      | Some b => Some (str "CERTIFICATE", base64_decode b) :: pem_blocks lines None
      | None => pem_blocks lines None
      end
    else pem_blocks lines ((λ b, b ++ l) <$> acc)
  end.

Definition read_pem (bs : bytes) : list (option (rstring * bytes)) :=
  pem_blocks (chars <$> (split_lines bs).1) None.

(** Lines of plain text. *)
Definition plain (s : rstring) : Prop := Forall (λ c, 0 ≤ c < 128 ∧ c ≠ 10) s.

Lemma plain_bytes s : plain s → as_bytes s = unchars s ∧ chars (unchars s) = s ∧ x0a ∉ unchars s.
Proof.
  unfold as_bytes, unchars, chars. induction 1 as [|c s [Hc Hn] _ (IH1 & IH2 & IH3)]; cbn.
  { split_and!; [done..|by intros ?%not_elem_of_nil]. }
  rewrite IH1, IH2, b2z_z2b, Z.mod_small by lia. unfold encode_utf8.
  rewrite (proj2 (Z.ltb_lt _ _)) by lia. split_and!; [done..|]. apply not_elem_of_cons. split; [|done].
  intros Hx. apply Hn. apply (f_equal b2z) in Hx. rewrite b2z_z2b, Z.mod_small in Hx by lia. by rewrite <-Hx.
Qed.

Lemma split_plain ls bs :
  Forall plain ls →
  chars <$> (split_lines (as_bytes (ls ≫= λ l, l ++ [10]) ++ bs)).1 = ls ++ (chars <$> (split_lines bs).1).
Proof.
  induction 1 as [|l ls (Ha & Hc & Hn)%plain_bytes _ IH]; [done|]. cbn [mbind list_bind].
  rewrite !as_bytes_app, Ha, <-!app_assoc. change (as_bytes [10]) with [x0a]. cbn [app].
  rewrite split_lines_line by done. cbn [fst fmap list_fmap]. by rewrite Hc, IH.
Qed.

(** Base64 text is plain, and has no dashes. *)
Definition base64_text (s : rstring) : Prop := Forall (λ c, (0 ≤ c < 128 ∧ c ≠ 10) ∧ c ≠ 45) s.

Lemma base64_char_text i : (0 ≤ base64_char i < 128 ∧ base64_char i ≠ 10) ∧ base64_char i ≠ 45.
Proof.
  unfold base64_char. assert (base64_text BASE64_TABLE) as Ht by (by_compute).
  destruct (BASE64_TABLE !! Z.to_nat i) as [c|] eqn:Hc; cbn; [|lia].
  unfold base64_text in Ht. rewrite Forall_lookup in Ht. by apply (Ht _ _ Hc).
Qed.

Lemma base64_chunk_text b0 b1 b2 n : base64_text (base64_chunk b0 b1 b2 n).
Proof.
  unfold base64_chunk. repeat constructor; try apply base64_char_text; case_match; try apply base64_char_text; lia.
Qed.

Lemma base64_encode_text n data : (length data ≤ n)%nat → base64_text (base64_encode data).
Proof.
  revert data. induction n as [|n IH]; intros data Hlen.
  { destruct data; [constructor|cbn in Hlen; lia]. }
  destruct data as [|b0 [|b1 [|b2 data]]]; [constructor|apply base64_chunk_text..|].
  apply Forall_app. split; [apply base64_chunk_text|]. apply IH. cbn in Hlen. lia.
Qed.

Lemma pem_block_lines cs rest b :
  Forall base64_text cs → pem_blocks (cs ++ rest) (Some b) = pem_blocks rest (Some (b ++ mjoin cs)).
Proof.
  intros Hcs. revert b. induction Hcs as [|c cs Hc _ IH]; intros b; [by rewrite app_nil_r|].
  cbn [app pem_blocks]. rewrite !decide_False.
  - cbn [fmap option_fmap option_map]. rewrite IH. by rewrite <-app_assoc.
  - intros ->. apply Forall_inv in Hc. by destruct Hc.
  - intros ->. apply Forall_inv in Hc. by destruct Hc.
Qed.

(** [der_to_pem] is read back, whatever follows. *)
Lemma read_der_to_pem der bs :
  read_pem (as_bytes (der_to_pem der) ++ bs) = Some (str "CERTIFICATE", der) :: read_pem bs.
Proof.
  set (cs := chunks 64 (base64_encode der)).
  assert (Forall base64_text cs) as Hcs.
  { pose proof (base64_encode_text _ der (Nat.le_refl _)) as Ht. unfold base64_text in *.
    rewrite <-(chunks_concat 64 (base64_encode der)) in Ht by lia. fold cs in Ht.
    apply Forall_forall. intros c Hc. rewrite Forall_forall in Ht. apply Forall_forall. intros x Hx.
    apply Ht. apply list_elem_of_join. by exists c. }
  assert (der_to_pem der = (str "-----BEGIN CERTIFICATE-----" :: cs ++ [str "-----END CERTIFICATE-----"])
    ≫= λ l, l ++ [10]) as ->.
  { unfold der_to_pem. fold cs. rewrite bind_cons, bind_app, bind_cons. cbn [mbind list_bind].
    by rewrite app_nil_r, <-!app_assoc. }
  unfold read_pem. rewrite split_plain.
  - cbn [app pem_blocks]. rewrite decide_True by done. rewrite <-app_assoc, pem_block_lines by done.
    cbn [app pem_blocks]. rewrite decide_False, decide_True by done. f_equal.
    unfold cs. rewrite chunks_concat by lia. by rewrite (base64_round_fuel (length der)).
  - constructor; [by_compute|]. apply Forall_app. split; [|constructor; [by_compute|constructor]].
    eapply Forall_impl; [exact Hcs|]. intros c Hc. eapply Forall_impl; [exact Hc|]. by intros x [].
Qed.

Definition pem_x509 : X509 :=
  {| certificate := bytes; x509_name := byte; x509_name_eq_dec := _; asn1_time := Z;
     spki := byte; x509_extension := byte;
     pem_iter := read_pem;
     x509_from_der := @x509_from_der toy_x509;
     x509_issuer := @x509_issuer toy_x509; x509_subject := @x509_subject toy_x509;
     x509_common_names := @x509_common_names toy_x509;
     x509_public_key := @x509_public_key toy_x509; spki_key_data k := replicate 32 k;
     x509_is_valid_at _ t := 0 <=? t; x509_not_before _ := 0; x509_not_after _ := 1000;
     x509_extensions := @x509_extensions toy_x509;
     ext_basic_constraints := @ext_basic_constraints toy_x509;
     x509_verify_signature := @x509_verify_signature toy_x509;
     asn1_from_timestamp := Some |}.

Definition text_spki : @SpkiPem toy_ed25519 :=
  @Build_SpkiPem toy_ed25519 (λ pem, Some (as_bytes pem)) (λ k : bytes, Some (chars k)).

Definition demo_root_pem : rstring := Eval vm_compute in der_to_pem (byte_str "RRYrr").
Definition demo_certs_pem : rstring :=
  Eval vm_compute in der_to_pem (byte_str "LINli") ++ der_to_pem (byte_str "IRYir").

Definition demo_statement : ConsoleKeyStatement :=
  {| cks_key_id := str "k1"; cks_public_key_pem := str "console"; cks_not_before := str "0";
     cks_not_after := str "9" |}.

Definition demo_roots_file : RootsFile :=
  Eval vm_compute in
  {| rf_roots := [{| tr_name := str "root"; tr_cert_pem := demo_root_pem |}];
     rf_console_keys := [{| ack_statement := demo_statement;
       ack_signature := res_ok (@sign_jcs poly_blake3 toy_ed25519 _ _ (replicate 32 x72) demo_statement);
       ack_root_name := Some (str "root") |}] |}.

Definition demo_opts : VerifyOptions :=
  {| vo_root_pem_override := Some demo_root_pem; vo_console_key_override := None;
     vo_now_unix := Some 5; vo_expected_high_water := {[ str "S" := 1 ]} |}.

(** ** Properties *)

(** PEM armour. Base64 encoding is inverted by RFC 4648 decoding for every
    byte string, and the armour is the header line, lines of at most 64
    characters that concatenate to the encoding, and the footer line. *)
Theorem der_to_pem_spec der :
  base64_decode (base64_encode der) = der ∧
  ∃ lines, der_to_pem der =
      str "-----BEGIN CERTIFICATE-----" ++ [10] ++ (lines ≫= λ l, l ++ [10]) ++
      str "-----END CERTIFICATE-----" ++ [10] ∧
    mjoin lines = base64_encode der ∧ Forall (λ l, (length l ≤ 64)%nat) lines.
Proof.
  split; [by apply (base64_round_fuel (length der))|].
  exists (chunks 64 (base64_encode der)). split; [done|].
  split; [apply chunks_concat; lia|apply chunks_length].
Qed.

(** Trust roots. A supplied root wins over everything, embedded roots win
    over the bundle's; the bundle's own roots are only used together with a
    warning, and if there is no root at all an error is reported. *)
Theorem select_roots_spec `{EmbeddedRoots} opts bundle_roots :
  let m := select_roots opts bundle_roots in
  let roots := (outcome m).1 in
  (∀ pem, vo_root_pem_override opts = Some pem → roots = [pem] ∧ found m = []) ∧
  (vo_root_pem_override opts = None →
   negb (is_blank embedded_roots_pem) && contains (str "BEGIN CERTIFICATE") embedded_roots_pem = true →
   roots = [embedded_roots_pem] ∧ found m = []) ∧
  (compute_result (found m) = Pass →
   Some roots = (λ pem, [pem]) <$> vo_root_pem_override opts ∨ roots = [embedded_roots_pem]) ∧
  (clean m → roots ≠ []) ∧ ((outcome m).2 = ""%string ↔ roots = []).
Proof.
  cbv zeta. unfold select_roots. destruct (vo_root_pem_override opts) as [pem|]; cbn [fmap option_fmap option_map].
  { split_and!; try done; [by intros ? [= <-]|by left]. }
  destruct (negb _ && _) eqn:He.
  { split_and!; try done; by right. }
  destruct bundle_roots as [[[|r rs] ks]|]; cbn.
  - split_and!; try done. by intros [? _]%Forall_cons.
  - split_and!; done.
  - split_and!; try done. by intros [? _]%Forall_cons.
Qed.

Lemma select_roots_spec_witness :
  (outcome (@select_roots (str "") demo_opts None)).1 = [demo_root_pem].
Proof. apply (@select_roots_spec (str "") demo_opts None). reflexivity. Defined.

(** Every certificate that checkpoints may be signed with was validated
    against the trust roots: an entry of the map is the result of
    [validate_chain] under its own fingerprint. *)
Theorem cert_map_sound `{Blake3} `{Ed25519} `{X509} certs_pem root_pems now fp vc :
  outcome (build_cert_map certs_pem root_pems now) !! fp = Some vc →
  ∃ pem inter, root_pems ≠ [] ∧
    validate_chain pem inter (join [10] root_pems) now = Ok vc ∧ vc_fingerprint vc = fp.
Proof. apply cert_map_lookup. Qed.

Lemma cert_map_sound_witness :
  ∃ vc pem inter, @validate_chain poly_blake3 toy_ed25519 pem_x509 pem inter
    (join [10] [demo_root_pem]) 5 = Ok vc ∧
    vc_fingerprint vc = @blake3_hex poly_blake3 (byte_str "LINli").
Proof.
  assert (∃ vc, outcome (@build_cert_map poly_blake3 toy_ed25519 pem_x509 (Some demo_certs_pem)
    [demo_root_pem] 5) !! @blake3_hex poly_blake3 (byte_str "LINli") = Some vc) as [vc Hvc]
    by (eexists; vm_compute; reflexivity).
  destruct (@cert_map_sound poly_blake3 toy_ed25519 pem_x509 (Some demo_certs_pem) [demo_root_pem]
    5 _ vc Hvc) as (pem & inter & _ & Hv & Hf).
  exists vc, pem, inter. split; [exact Hv|exact Hf].
Defined.

(** C32: A Console key is trusted only if it was supplied, or if a trusted root
    signed its statement, or if its statement in the bundle carries no signature
    at all and the warning [console_key_unattested] is reported, which
    keeps the verdict from being Pass. *)
Theorem console_keys_attested `{Blake3} `{Ed25519} `{X509} `{!SpkiPem} opts bundle_roots root_pems kid k :
  let m := resolve_console_keys opts bundle_roots root_pems in
  outcome m !! kid = Some k →
  (∃ pem, vo_console_key_override opts = Some pem ∧ vk_from_spki_pem pem = Ok k) ∨
  (∃ rf e, bundle_roots = Some rf ∧ e ∈ rf_console_keys rf ∧ cks_key_id (ack_statement e) = kid ∧
     vk_from_spki_pem (cks_public_key_pem (ack_statement e)) = Ok k ∧
     match ack_signature e with
     | Some sg => ∃ rk, rk ∈ root_keys root_pems ∧
         verify_jcs rk (ack_statement e) sg "console key statement" = Ok tt
     | None => ∃ f, f ∈ found m ∧ fd_severity f = Warning ∧ fd_class f = "console_key_unattested"%string
     end).
Proof.
  cbv zeta. unfold resolve_console_keys. destruct (vo_console_key_override opts) as [pem|].
  { destruct (vk_from_spki_pem pem) as [k'|] eqn:Hk; [|done].
    unfold mret, checked_ret. cbn [outcome]. rewrite lookup_singleton_Some. intros [_ <-]. left. eauto. }
  destruct bundle_roots as [rf|]; [|done].
  intros (e & He & Hid & Hk & Hm)%resolve_keys_entry. right. exists rf, e. split_and!; try done.
  destruct (ack_signature e) as [sg|].
  - unfold attested_by in Hm. apply existsb_exists in Hm as (rk & Hrk & [[] Hv]%is_ok_true).
    exists rk. split; [by apply list_elem_of_In|done].
  - exact Hm.
Qed.

Lemma console_keys_attested_witness :
  ∃ rf e, Some demo_roots_file = Some rf ∧ e ∈ rf_console_keys rf ∧
    cks_key_id (ack_statement e) = str "k1".
Proof.
  assert (∃ k, outcome (@resolve_console_keys poly_blake3 toy_ed25519 pem_x509 text_spki demo_opts
    (Some demo_roots_file) [demo_root_pem]) !! str "k1" = Some k) as [k Hk]
    by (eexists; vm_compute; reflexivity).
  destruct (@console_keys_attested poly_blake3 toy_ed25519 pem_x509 text_spki demo_opts
    (Some demo_roots_file) [demo_root_pem] (str "k1") k Hk)
    as [(pem & Hp & _)|(rf & e & Hrf & He & Hid & _)]; [discriminate Hp|].
  exists rf, e. split; [exact Hrf|]. split; [exact He|exact Hid].
Defined.
