(* ===== verification/Issue.v ===== *)
(** * Certificate issuance (evidence/src/certs.rs, the first half)

    The hierarchy is root, tenant CA, recorder. The [rcgen] crate is the
    parameter [Rcgen], and keys go to it in PKCS#8; what a
    certificate that [rcgen] signed reads like to [x509-parser] is [RcgenLaws].
    Times are seconds, and [now] is the clock at the call. *)

From Stdlib Require Import Strings.Byte.
From S2P Require Import Prelude Text Errors Hash Json Record Keys Certs Identity.

Inductive DnType := CommonName | OrganizationName.
Inductive BasicConstraints := Unconstrained | Constrained (path_len : Z).
Inductive IsCa := NoCa | ExplicitNoCa | Ca (c : BasicConstraints).
Inductive KeyUsagePurpose := DigitalSignature | KeyCertSign | CrlSign.

(** [rcgen::CertificateParams]: the fields that are set here, and the others. *)
Record CertificateParams (DN Rest : Type) := {
  cp_dn : DN;
  cp_is_ca : IsCa;
  cp_key_usages : list KeyUsagePurpose;
  cp_not_before : Z;
  cp_not_after : Z;
  cp_rest : Rest;
}.
Arguments cp_dn {DN Rest}.
Arguments cp_is_ca {DN Rest}.
Arguments cp_key_usages {DN Rest}.
Arguments cp_not_before {DN Rest}.
Arguments cp_not_after {DN Rest}.
Arguments cp_rest {DN Rest}.

Class Rcgen := {
  rc_dn : Type;
  rc_rest : Type;
  rc_keypair : Type;
  rc_cert : Type;
  rc_csr : Type;
  rc_csr_key : Type;
  dn_push : rc_dn → DnType → rstring → rc_dn;
  params_default : CertificateParams rc_dn rc_rest;
  keypair_from_pkcs8 : rstring → option rc_keypair;
  self_signed : CertificateParams rc_dn rc_rest → rc_keypair → option rc_cert;
  (** Subject parameters and key, issuer certificate and key. *)
  signed_by : CertificateParams rc_dn rc_rest → rc_keypair → rc_cert → rc_keypair → option rc_cert;
  params_from_ca_cert_pem : rstring → option (CertificateParams rc_dn rc_rest);
  serialize_request : CertificateParams rc_dn rc_rest → rc_keypair → option rc_csr;
  csr_pem : rc_csr → option rstring;
  csr_from_pem : rstring → option (CertificateParams rc_dn rc_rest * rc_csr_key);
  csr_signed_by : CertificateParams rc_dn rc_rest * rc_csr_key → rc_cert → rc_keypair → option rc_cert;
  cert_pem : rc_cert → rstring;
  (** Accessors that only the laws mention. *)
  kp_public : rc_keypair → bytes;
  csr_public : rc_csr_key → bytes;
  cert_der : rc_cert → bytes;
  cert_params : rc_cert → CertificateParams rc_dn rc_rest;
}.

Definition ROOT_VALIDITY_DAYS : Z := 3650.
Definition TENANT_CA_VALIDITY_DAYS : Z := 730.
Definition RECORDER_CERT_VALIDITY_DAYS : Z := 90.

(** [now - 5 minutes, now + days]; the addition panics beyond the year 9999. *)
Definition validity (now days : Z) : Z * Z := (now - 5 * 60, now + days * 86400).

Section issue.
Context `{Ed25519} `{!Pkcs8} `{Rcgen}.

Definition rcgen_keypair (key : signing_key) : Result rc_keypair :=
  pem ← to_pkcs8_pem key;
  ok_or (keypair_from_pkcs8 pem) (Certificate "rcgen keypair").

(** The distinguished name of a CA. *)
Definition ca_name (common_name : rstring) : rc_dn :=
  dn_push (dn_push (cp_dn params_default) CommonName common_name) OrganizationName (str "Sealr").

(** The parameters of a CA certificate. *)
Definition ca_params (common_name : rstring) (constraints : BasicConstraints) (now days : Z)
    : CertificateParams rc_dn rc_rest :=
  {| cp_dn := ca_name common_name; cp_is_ca := Ca constraints;
     cp_key_usages := [KeyCertSign; CrlSign]; cp_not_before := (validity now days).1;
     cp_not_after := (validity now days).2; cp_rest := cp_rest params_default |}.

Definition generate_self_signed_ca (now : Z) (key : signing_key) (common_name : rstring) (days : Z)
    : Result rstring :=
  kp ← rcgen_keypair key;
  cert ← ok_or (self_signed (ca_params common_name Unconstrained now days) kp) (Certificate "self-sign");
  mret (cert_pem cert).

Definition issue_intermediate_ca (now : Z) (subject_key : signing_key) (common_name : rstring)
    (days : Z) (parent_key : signing_key) (parent_cert_pem : rstring) : Result rstring :=
  subject_kp ← rcgen_keypair subject_key;
  parent_kp ← rcgen_keypair parent_key;
  parent_params ← ok_or (params_from_ca_cert_pem parent_cert_pem) (Certificate "parse parent CA");
  parent_cert ← ok_or (self_signed parent_params parent_kp) (Certificate "rebuild parent CA");
  cert ← ok_or (signed_by (ca_params common_name (Constrained 0) now days) subject_kp parent_cert parent_kp)
           (Certificate "issue intermediate");
  mret (cert_pem cert).

Definition generate_csr (key : signing_key) (common_name : rstring) : Result rstring :=
  kp ← rcgen_keypair key;
  csr ← ok_or (serialize_request
      {| cp_dn := dn_push (cp_dn params_default) CommonName common_name;
         cp_is_ca := cp_is_ca params_default; cp_key_usages := cp_key_usages params_default;
         cp_not_before := cp_not_before params_default; cp_not_after := cp_not_after params_default;
         cp_rest := cp_rest params_default |} kp) (Certificate "serialize CSR");
  ok_or (csr_pem csr) (Certificate "CSR pem").

(** What the CA makes of the parameters of a request. *)
Definition recorder_params (p : CertificateParams rc_dn rc_rest) (now days : Z)
    : CertificateParams rc_dn rc_rest :=
  {| cp_dn := cp_dn p; cp_is_ca := ExplicitNoCa; cp_key_usages := [DigitalSignature];
     cp_not_before := (validity now days).1; cp_not_after := (validity now days).2;
     cp_rest := cp_rest p |}.

Definition sign_csr (now : Z) (request_pem : rstring) (ca_key : signing_key) (ca_cert_pem : rstring)
    (days : Z) : Result rstring :=
  ca_kp ← rcgen_keypair ca_key;
  params ← ok_or (params_from_ca_cert_pem ca_cert_pem) (Certificate "parse CA cert");
  ca_cert ← ok_or (self_signed params ca_kp) (Certificate "rebuild CA cert");
  csr ← ok_or (csr_from_pem request_pem) (Certificate "parse CSR");
  cert ← ok_or (csr_signed_by (recorder_params csr.1 now days, csr.2) ca_cert ca_kp) (Certificate "sign CSR");
  mret (cert_pem cert).
End issue.

(** ** Laws *)

(** The name that a distinguished name encodes to. *)
Class DnName `{X509} `{Rcgen} := dn_name : rc_dn → x509_name.

Section laws.
Context `{Ed25519} `{!Pkcs8} `{X509} `{Rcgen} `{!DnName}.

(** How [x509-parser] reads a certificate made with the parameters, for a
    subject key, under the name and with the key of an issuer. *)
Definition reads_as (c : rc_cert) (p : CertificateParams rc_dn rc_rest) (subject_key : bytes)
    (issuer : x509_name) (issuer_key : bytes) : Prop :=
  ∃ x, x509_from_der (cert_der c) = Some x ∧ x509_subject x = dn_name (cp_dn p) ∧
    x509_issuer x = issuer ∧ spki_key_data (x509_public_key x) = subject_key ∧
    (∀ t a, asn1_from_timestamp t = Some a → cp_not_before p ≤ t ≤ cp_not_after p →
       x509_is_valid_at x a = true) ∧
    is_ca x = match cp_is_ca p with Ca _ => true | _ => false end ∧
    ∀ y, spki_key_data (x509_public_key y) = issuer_key →
      x509_verify_signature x (x509_public_key y) = true.

Class RcgenLaws : Prop := {
  pkcs8_public : ∀ k pem kp, ed_to_pkcs8_pem k = Some pem → keypair_from_pkcs8 pem = Some kp →
    kp_public kp = ed_vk_as_bytes (ed_public k);
  pem_iter_nil : pem_iter [] = [];
  cert_pem_iter : ∀ c bs, pem_iter (as_bytes (cert_pem c) ++ bs) =
    Some (str "CERTIFICATE", cert_der c) :: pem_iter bs;
  ca_cert_params : ∀ c p, params_from_ca_cert_pem (cert_pem c) = Some p →
    dn_name (cp_dn p) = dn_name (cp_dn (cert_params c));
  self_signed_reads : ∀ p kp c, self_signed p kp = Some c → cert_params c = p ∧
    reads_as c p (kp_public kp) (dn_name (cp_dn p)) (kp_public kp);
  signed_by_reads : ∀ p kp issuer ikp c, signed_by p kp issuer ikp = Some c → cert_params c = p ∧
    reads_as c p (kp_public kp) (dn_name (cp_dn (cert_params issuer))) (kp_public ikp);
  csr_key : ∀ p kp r pem q, serialize_request p kp = Some r → csr_pem r = Some pem →
    csr_from_pem pem = Some q → csr_public q.2 = kp_public kp;
  csr_signed_reads : ∀ q issuer ikp c, csr_signed_by q issuer ikp = Some c →
    reads_as c q.1 (csr_public q.2) (dn_name (cp_dn (cert_params issuer))) (kp_public ikp);
}.
End laws.

(** ** Facts *)

Section issue_facts.
Context `{Blake3} `{Ed25519, !Ed25519Laws} `{!Pkcs8} `{X509} `{Rcgen} `{!DnName} `{!RcgenLaws}.

Abbreviation public_bytes k := (ed_vk_as_bytes (ed_public k)).

Lemma keypair_public k kp : rcgen_keypair k = Ok kp → kp_public kp = public_bytes k.
Proof. unfold rcgen_keypair, to_pkcs8_pem. intros Hk. ok_inv. by eapply pkcs8_public. Qed.

Lemma parse_issued c : parse_pem_chain (cert_pem c) = Ok [cert_der c].
Proof.
  unfold parse_pem_chain. rewrite <-(app_nil_r (as_bytes _)), cert_pem_iter, pem_iter_nil. cbn.
  by rewrite decide_True.
Qed.

Lemma root_reads now key cn days pem :
  generate_self_signed_ca now key cn days = Ok pem →
  ∃ c, pem = cert_pem c ∧ cert_params c = ca_params cn Unconstrained now days ∧
    reads_as c (ca_params cn Unconstrained now days) (public_bytes key) (dn_name (ca_name cn))
      (public_bytes key).
Proof.
  unfold generate_self_signed_ca. intros (kp & Hk%keypair_public & (c & Hc%ok_or_Ok & [= <-])%bind_Ok)%bind_Ok.
  apply self_signed_reads in Hc as [Hp Hr]. rewrite Hk in Hr. by exists c.
Qed.

(** The certificate that a CA is rebuilt from has its name. *)
Lemma rebuilt_name c p kp c' :
  params_from_ca_cert_pem (cert_pem c) = Some p → self_signed p kp = Some c' →
  dn_name (cp_dn (cert_params c')) = dn_name (cp_dn (cert_params c)).
Proof. intros Hp [-> _]%self_signed_reads. by apply ca_cert_params. Qed.

Lemma intermediate_reads now key cn days parent_key parent pem :
  issue_intermediate_ca now key cn days parent_key (cert_pem parent) = Ok pem →
  ∃ c, pem = cert_pem c ∧ cert_params c = ca_params cn (Constrained 0) now days ∧
    reads_as c (ca_params cn (Constrained 0) now days) (public_bytes key)
      (dn_name (cp_dn (cert_params parent))) (public_bytes parent_key).
Proof.
  unfold issue_intermediate_ca. intros (kp & Hk%keypair_public & Hi)%bind_Ok.
  apply bind_Ok in Hi as (pkp & Hpk%keypair_public & Hi).
  apply bind_Ok in Hi as (p & Hp%ok_or_Ok & (pc & Hpc%ok_or_Ok & (c & Hc%ok_or_Ok & [= <-])%bind_Ok)%bind_Ok).
  apply signed_by_reads in Hc as [Hcp Hr]. rewrite Hk, Hpk, (rebuilt_name _ _ _ _ Hp Hpc) in Hr. by exists c.
Qed.

Lemma recorder_reads now request ca_key ca days pem :
  sign_csr now request ca_key (cert_pem ca) days = Ok pem →
  ∃ c q, pem = cert_pem c ∧ csr_from_pem request = Some q ∧
    reads_as c (recorder_params q.1 now days) (csr_public q.2) (dn_name (cp_dn (cert_params ca)))
      (public_bytes ca_key).
Proof.
  unfold sign_csr. intros (kp & Hk%keypair_public & Hi)%bind_Ok.
  apply bind_Ok in Hi as (p & Hp%ok_or_Ok & (cc & Hcc%ok_or_Ok & Hi)%bind_Ok).
  apply bind_Ok in Hi as (q & Hq%ok_or_Ok & (c & Hc%ok_or_Ok & [= <-])%bind_Ok).
  apply csr_signed_reads in Hc. cbn [fst snd] in Hc. rewrite Hk, (rebuilt_name _ _ _ _ Hp Hcc) in Hc. by exists c, q.
Qed.

Lemma csr_public_bytes key cn request q :
  generate_csr key cn = Ok request → csr_from_pem request = Some q →
  csr_public q.2 = public_bytes key.
Proof.
  unfold generate_csr. intros (kp & Hk%keypair_public & (r & Hr%ok_or_Ok & Hp%ok_or_Ok)%bind_Ok)%bind_Ok Hq.
  rewrite <-Hk. by eapply csr_key.
Qed.

(** Root, tenant and recorder certificate of a hierarchy that was issued: the
    recorder's is not a CA, the tenant's is, and with any texts that parse to
    them the chain validates, and that of the tenant's certificate. *)
Lemma issued_hierarchy root_key root_cn tenant_key tenant_cn key cn d1 d2 d3 now1 now2 now3
    root_pem tenant_pem request pem t :
  generate_self_signed_ca now1 root_key root_cn d1 = Ok root_pem →
  issue_intermediate_ca now2 tenant_key tenant_cn d2 root_key root_pem = Ok tenant_pem →
  sign_csr now3 request tenant_key tenant_pem d3 = Ok pem →
  ∃ tc c tx x, tenant_pem = cert_pem tc ∧ pem = cert_pem c ∧
    x509_from_der (cert_der tc) = Some tx ∧ is_ca tx = true ∧
    x509_from_der (cert_der c) = Some x ∧ is_ca x = false ∧
    (generate_csr key cn = Ok request →
     dn_name (ca_name tenant_cn) ≠ dn_name (ca_name root_cn) →
     Forall (λ v : Z * Z, v.1 ≤ t ≤ v.2) [validity now1 d1; validity now2 d2; validity now3 d3] →
     is_Some (asn1_from_timestamp t) →
     ∀ leaf tenant, parse_pem_chain leaf = Ok [cert_der c] → parse_pem_chain tenant = Ok [cert_der tc] →
     (∃ v, validate_chain leaf [tenant] root_pem t = Ok v ∧
       ed_vk_as_bytes (vc_public_key v) = public_bytes key ∧ vc_fingerprint v = blake3_hex (cert_der c)) ∧
     is_ok (validate_chain tenant [leaf] root_pem t) = true).
Proof.
  intros (rc & -> & Hrp & rx & Hrx & Hrs & Hri & Hrk & Hrv & Hrca & Hrsig)%root_reads Ht Hl.
  apply intermediate_reads in Ht as (tc & -> & Htp & tx & Htx & Hts & Hti & Htk & Htv & Htca & Htsig).
  apply recorder_reads in Hl as (c & q & -> & Hq & x & Hx & Hs & Hi & Hk & Hv & Hca & Hsig).
  rewrite Hrp in Hti. rewrite Htp in Hi. cbn [ca_params cp_dn] in *.
  exists tc, c, tx, x. split_and!; try done. intros Hreq Hne Hall [a Ha] leaf tenant Hleaf Htenant.
  apply Forall_cons in Hall as [H1' [H2' [H3' _]%Forall_cons]%Forall_cons].
  rewrite (csr_public_bytes key cn request q Hreq Hq) in Hk.
  assert (∀ pem der, parse_pem_chain pem = Ok [der] → first_der pem = Ok der) as Hfirst
    by (intros pem' der Hp; unfold first_der; by rewrite Hp).
  assert (∀ der y, x509_from_der der = Some y → pool_regular [der]) as Hpool.
  { intros der y Hy. split; [intros d Hd; apply list_elem_of_singleton in Hd as ->; by exists y|].
    intros e1 e2 c1 c2 He1 He2 _ _ _. apply list_elem_of_singleton in He1, He2. congruence. }
  assert (first_der (cert_pem rc) = Ok (cert_der rc)) as Hroot by (by apply Hfirst, parse_issued). split.
  - destruct (decoded_key (ed_public key)) as (v & Hvk & Hvb). eexists.
    split; [eapply (chain_validates _ _ _ _ (cert_der c) (cert_der rc) [[cert_der tc]] x rx a 2 v)|done]; try done.
    + by apply Hfirst.
    + cbn. by rewrite Htenant.
    + by apply (Hv t).
    + by apply (Hrv t).
    + by apply (Hpool _ tx).
    + eapply chains_step with (c := x) (der' := cert_der tc) (c' := tx); try done.
      * by rewrite Hi, Hrs.
      * left.
      * by rewrite Hts, Hi.
      * by apply (Htv t).
      * by apply Hsig.
      * eapply chains_root with (c := tx); try done; [by rewrite Hti, Hrs|by apply Htsig].
    + unfold MAX_HOPS. lia.
    + unfold extract_ed25519_key. by rewrite Hk.
  - destruct (decoded_key (ed_public tenant_key)) as (v & Hvk & Hvb).
    erewrite (chain_validates _ _ _ _ (cert_der tc) (cert_der rc) [[cert_der c]] tx rx a 1 v); try done.
    + by apply Hfirst.
    + cbn. by rewrite Hleaf.
    + by apply (Htv t).
    + by apply (Hrv t).
    + by apply (Hpool _ x).
    + eapply chains_root with (c := tx); try done; [by rewrite Hti, Hrs|by apply Htsig].
    + unfold MAX_HOPS. lia.
    + unfold extract_ed25519_key. by rewrite Htk.
Qed.

(** A chain does not validate under another root. *)
Lemma foreign_root_rejected root_key root_cn tenant_key tenant_cn other_key other_cn d1 d2 d3 d4
    now1 now2 now3 now4 root_pem tenant_pem other_pem request pem t v :
  generate_self_signed_ca now1 root_key root_cn d1 = Ok root_pem →
  issue_intermediate_ca now2 tenant_key tenant_cn d2 root_key root_pem = Ok tenant_pem →
  sign_csr now3 request tenant_key tenant_pem d3 = Ok pem →
  generate_self_signed_ca now4 other_key other_cn d4 = Ok other_pem →
  NoDup [dn_name (ca_name root_cn); dn_name (ca_name tenant_cn); dn_name (ca_name other_cn)] →
  validate_chain pem [tenant_pem] other_pem t ≠ Ok v.
Proof.
  intros (rc & -> & Hrp & _)%root_reads Ht Hl Ho Hne Hv.
  apply intermediate_reads in Ht as (tc & -> & Htp & tx & Htx & Hts & Hti & _).
  apply recorder_reads in Hl as (c & q & -> & _ & x & Hx & _ & Hi & _).
  apply root_reads in Ho as (oc & -> & _ & ox & Hox & Hos & _).
  rewrite Hrp in Hti. rewrite Htp in Hi. cbn [ca_params cp_dn] in *.
  apply validated_path in Hv as (ld & rd & pools & leaf & root & at_ & n & Hld & Hrd & Hp & _ & Hroot & _ & _ & _ & _ & _ & Hch & _).
  unfold first_der in Hld, Hrd. rewrite parse_issued in Hld, Hrd. injection Hld as <-. injection Hrd as <-.
  cbn [mapM] in Hp. rewrite parse_issued in Hp. injection Hp as <-. rewrite Hox in Hroot. injection Hroot as <-.
  apply NoDup_cons in Hne as [Hrne [Htne _]%NoDup_cons]. rewrite !not_elem_of_cons in Hrne. rewrite not_elem_of_cons in Htne.
  inversion Hch as [? ? Hc Hic|? ? c1 d1' c1' Hc Hic Hin _ _ _ _ _ Hch2]; subst; rewrite Hx in Hc; injection Hc as <-.
  { rewrite Hi, Hos in Hic. by destruct Htne. }
  apply list_elem_of_singleton in Hin as ->.
  inversion Hch2 as [? ? Hc Hit|? ? c2 d2' c2' Hc _ Hin Hc2 Hs2 _]; subst; rewrite Htx in Hc; injection Hc as <-.
  - rewrite Hti, Hos in Hit. by destruct Hrne as (_ & ? & _).
  - apply list_elem_of_singleton in Hin as ->. rewrite Htx in Hc2. injection Hc2 as <-.
    rewrite Hts, Hti in Hs2. by destruct Hrne.
Qed.
End issue_facts.

(** ** A concrete certificate authority

    A certificate is a tuple whose binary code is its DER form, and it is signed
    by naming the key of the signer. *)

Fixpoint pos_bits (p : positive) : bytes :=
  match p with xH => [] | xO p => x00 :: pos_bits p | xI p => x01 :: pos_bits p end.

Fixpoint bits_pos (bs : bytes) : positive :=
  match bs with [] => xH | x00 :: bs => xO (bits_pos bs) | _ :: bs => xI (bits_pos bs) end.

Lemma bits_pos_bits p : bits_pos (pos_bits p) = p.
Proof. induction p; cbn; congruence. Qed.

Lemma as_bytes_bits p : as_bytes (chars (pos_bits p)) = pos_bits p.
Proof. unfold as_bytes. induction p as [p IH|p IH|]; cbn; [..|done]; by f_equal. Qed.

Definition to_bits `{Countable A} (a : A) : bytes := pos_bits (encode a).
Definition of_bits `{Countable A} (bs : bytes) : option A := decode (bits_pos bs).

Lemma as_bytes_to_bits `{Countable A} (a : A) : as_bytes (chars (to_bits a)) = to_bits a.
Proof. apply as_bytes_bits. Qed.

Lemma of_to_bits `{Countable A} (a : A) : of_bits (to_bits a) = Some a.
Proof. unfold of_bits, to_bits. by rewrite bits_pos_bits, decode_encode. Qed.

Definition toy_cert : Type := rstring * rstring * bool * Z * Z * list Z * list Z.

Definition authority_x509 : X509 :=
  {| certificate := toy_cert; x509_name := rstring; x509_name_eq_dec := _; asn1_time := Z;
     spki := list Z; x509_extension := bool;
     pem_iter := read_pem; x509_from_der := of_bits;
     x509_subject '(s, _, _, _, _, _, _) := s; x509_issuer '(_, i, _, _, _, _, _) := i;
     x509_common_names '(s, _, _, _, _, _, _) := [Some s];
     x509_public_key '(_, _, _, _, _, k, _) := k; spki_key_data := unchars;
     x509_is_valid_at '(_, _, _, nb, na, _, _) t := (nb <=? t) && (t <=? na);
     x509_not_before '(_, _, _, nb, _, _, _) := nb; x509_not_after '(_, _, _, _, na, _, _) := na;
     x509_extensions '(_, _, ca, _, _, _, _) := [ca]; ext_basic_constraints := Some;
     x509_verify_signature '(_, _, _, _, _, _, signer) k := bool_decide (unchars signer = unchars k);
     asn1_from_timestamp := Some |}.

Abbreviation toy_params := (CertificateParams rstring unit).

Definition named (dn : rstring) : toy_params :=
  {| cp_dn := dn; cp_is_ca := NoCa; cp_key_usages := []; cp_not_before := 0; cp_not_after := 0;
     cp_rest := () |}.

Record issued := { iss_params : toy_params; iss_key : bytes; iss_issuer : rstring; iss_signer : bytes }.

Definition issued_cert (c : issued) : toy_cert :=
  (cp_dn (iss_params c), iss_issuer c,
   match cp_is_ca (iss_params c) with Ca _ => true | _ => false end,
   cp_not_before (iss_params c), cp_not_after (iss_params c), chars (iss_key c), chars (iss_signer c)).

Definition authority : Rcgen :=
  {| rc_dn := rstring; rc_rest := unit; rc_keypair := bytes; rc_cert := issued;
     rc_csr := rstring * list Z; rc_csr_key := bytes;
     dn_push dn ty name := match ty with CommonName => name | OrganizationName => dn end;
     params_default := named []; keypair_from_pkcs8 pem := Some (pad32 (unchars pem));
     self_signed p kp := Some (Build_issued p kp (cp_dn p) kp);
     signed_by p kp i ikp := Some (Build_issued p kp (cp_dn (iss_params i)) ikp);
     params_from_ca_cert_pem pem :=
       '(_, der) ← mjoin (head (read_pem (as_bytes pem)));
       (λ '(s, _, _, _, _, _, _), named s) <$> of_bits (A:=toy_cert) der;
     serialize_request p kp := Some (cp_dn p, chars kp);
     csr_pem r := Some (chars (to_bits r));
     csr_from_pem pem :=
       (λ '(dn, k), (named dn, unchars k)) <$> of_bits (A:=rstring * list Z) (as_bytes pem);
     csr_signed_by q i ikp := Some (Build_issued q.1 q.2 (cp_dn (iss_params i)) ikp);
     cert_pem c := der_to_pem (to_bits (issued_cert c));
     kp_public kp := kp; csr_public k := k; cert_der c := to_bits (issued_cert c);
     cert_params := iss_params |}.

Definition authority_names : @DnName authority_x509 authority := λ dn : rstring, dn.

Lemma issued_reads c : @reads_as authority_x509 authority authority_names c (iss_params c) (iss_key c)
  (iss_issuer c) (iss_signer c).
Proof.
  destruct c as [p k i s]. eexists. split; [apply of_to_bits|]. cbn. split_and!; try done.
  - apply unchars_chars.
  - intros t a [= <-] [H1 H2]. by apply andb_true_iff; split; apply Z.leb_le.
  - unfold is_ca. cbn. by destruct (cp_is_ca p).
  - intros [[[[[[? ?] ?] ?] ?] k'] ?] Hk. cbn in *. rewrite Hk, unchars_chars. by apply bool_decide_eq_true.
Qed.

Lemma authority_laws : @RcgenLaws toy_ed25519 toy_pkcs8 authority_x509 authority authority_names.
Proof.
  split.
  - intros k pem kp [= <-] [= <-]. cbn. by rewrite unchars_chars.
  - done.
  - intros c bs. apply read_der_to_pem.
  - intros c p. unfold params_from_ca_cert_pem, authority, cert_pem.
    rewrite <-(app_nil_r (as_bytes _)), read_der_to_pem. cbn -[to_bits of_bits]. rewrite of_to_bits.
    by intros [= <-].
  - intros p kp c [= <-]. split; [done|]. apply (issued_reads (Build_issued p kp (cp_dn p) kp)).
  - intros p kp i ikp c [= <-]. split; [done|].
    apply (issued_reads (Build_issued p kp (cp_dn (iss_params i)) ikp)).
  - intros p kp r pem q [= <-] [= <-]. cbn -[to_bits of_bits as_bytes chars].
    rewrite as_bytes_to_bits, of_to_bits. intros [= <-]. apply unchars_chars.
  - intros q i ikp c [= <-]. apply (issued_reads (Build_issued q.1 q.2 (cp_dn (iss_params i)) ikp)).
Qed.

(** A root "O", a tenant "T" below it and a recorder "R" below that. *)
Definition or_empty (r : Result rstring) : rstring := match r with Ok s => s | Err _ => [] end.

Definition example_root_pem : rstring := Eval vm_compute in or_empty
  (@generate_self_signed_ca toy_ed25519 toy_pkcs8 authority 100000 (byte_str "root") (str "O")
    ROOT_VALIDITY_DAYS).

Definition example_tenant_pem : rstring := Eval vm_compute in or_empty
  (@issue_intermediate_ca toy_ed25519 toy_pkcs8 authority 150000 (byte_str "ten") (str "T")
    TENANT_CA_VALIDITY_DAYS (byte_str "root") example_root_pem).

Definition example_request : rstring := Eval vm_compute in or_empty
  (@generate_csr toy_ed25519 toy_pkcs8 authority (byte_str "rec") (str "R")).

Definition example_pem : rstring := Eval vm_compute in or_empty
  (@sign_csr toy_ed25519 toy_pkcs8 authority 200000 example_request (byte_str "ten")
    example_tenant_pem RECORDER_CERT_VALIDITY_DAYS).

(** ** Properties *)

(** C31: Issuing and validating fit together: a recorder certificate that was issued
    through root, tenant CA and request validates, with that tenant CA and root,
    at every time at which all three are valid, and the key it yields is that of
    the recorder; the names of tenant and root must differ. And whatever a
    request asks for, the certificate it is signed into is not a CA. *)
Theorem issued_chain_validates `{Blake3} `{Ed25519, !Ed25519Laws} `{!Pkcs8} `{X509} `{Rcgen}
    `{!DnName} `{!RcgenLaws} root_key root_cn tenant_key tenant_cn key cn d1 d2 d3 now1 now2 now3
    root_pem tenant_pem request pem t :
  generate_self_signed_ca now1 root_key root_cn d1 = Ok root_pem →
  issue_intermediate_ca now2 tenant_key tenant_cn d2 root_key root_pem = Ok tenant_pem →
  sign_csr now3 request tenant_key tenant_pem d3 = Ok pem →
  (∃ der x, first_der pem = Ok der ∧ x509_from_der der = Some x ∧ is_ca x = false) ∧
  (generate_csr key cn = Ok request →
   dn_name (ca_name tenant_cn) ≠ dn_name (ca_name root_cn) →
   Forall (λ v : Z * Z, v.1 ≤ t ≤ v.2) [validity now1 d1; validity now2 d2; validity now3 d3] →
   is_Some (asn1_from_timestamp t) →
   ∃ v, validate_chain pem [tenant_pem] root_pem t = Ok v ∧
     ed_vk_as_bytes (vc_public_key v) = ed_vk_as_bytes (ed_public key)).
Proof.
  intros Hr Ht Hl.
  destruct (issued_hierarchy _ _ _ _ key cn _ _ _ _ _ _ _ _ _ _ t Hr Ht Hl)
    as (tc & c & tx & x & -> & -> & _ & _ & Hx & Hca & Hv).
  assert (first_der (cert_pem c) = Ok (cert_der c)) as Hfirst by (unfold first_der; by rewrite parse_issued).
  split; [by exists (cert_der c), x|]. intros Hreq Hne Hall Ha.
  destruct (Hv Hreq Hne Hall Ha _ _ (parse_issued c) (parse_issued tc)) as [(v & ? & ? & _) _].
  by exists v.
Qed.

(** The example, a day into the lifetime of the recorder's certificate. *)
Lemma issued_chain_validates_witness :
  ∃ v, @validate_chain poly_blake3 toy_ed25519 authority_x509 example_pem [example_tenant_pem]
      example_root_pem 300000 = Ok v ∧
    @ed_vk_as_bytes toy_ed25519 (vc_public_key v) = pad32 (byte_str "rec").
Proof.
  apply (@issued_chain_validates poly_blake3 toy_ed25519 toy_ed25519_laws toy_pkcs8 authority_x509
    authority authority_names authority_laws (byte_str "root") (str "O") (byte_str "ten") (str "T")
    (byte_str "rec") (str "R") ROOT_VALIDITY_DAYS TENANT_CA_VALIDITY_DAYS RECORDER_CERT_VALIDITY_DAYS
    100000 150000 200000 example_root_pem example_tenant_pem example_request example_pem 300000);
    [by_compute..|done| |].
  - by repeat constructor.
  - by eexists.
Defined.
