(* ===== verification/Attest.v ===== *)
(** * Checkpoint verification of a stream (verify/src/engine.rs: [verify_checkpoints])

    The body of the loop is split at its blocks: [admission] for the guards
    before the fork test, [check_root], [check_countersignature] and
    [bookkeeping]. A block that may [continue] returns whether the body goes
    on. *)

From Stdlib Require Import Strings.Byte.
From S2P Require Import Prelude Text Errors Hash Merkle Json Jcs JcsFacts Record Chain Keys.
From S2P Require Import Checkpoint Revocation Certs Bundle Anchors Report Reader Ctx Streams.
From S2P Require Import Identity.

(** [HashMap::values().any(f)] and [HashMap::is_empty]. *)
Definition any_value {V} (f : V → bool) (m : gmap rstring V) : bool :=
  existsb (λ p, f p.2) (map_to_list m).

Definition map_is_empty {V} (m : gmap rstring V) : bool :=
  match map_to_list m with [] => true | _ => false end.

(** [(from..=to).map_while(|s| hashes.get(&s).cloned()).collect()]; a run of
    present keys is at most as long as the map is large. *)
Fixpoint covered_from (hashes : gmap Z rstring) (fuel : nat) (s to : Z) : list rstring :=
  match fuel with
  | O => []
  | S fuel =>
    if to <? s then []
    else match hashes !! s with
         | Some h => h :: covered_from hashes fuel (s + 1) to
         | None => []
         end
  end.

Definition covered (hashes : gmap Z rstring) (from to : Z) : list rstring :=
  covered_from hashes (S (size hashes)) from to.

(** [from..=to] as a list. *)
Definition range (from to : Z) : list Z := seqZ from (to - from + 1).

Abbreviation CheckedRange := (Z * Z * rstring)%type.

Definition range_of (n : CheckpointNote) : CheckedRange :=
  (cn_seq_from n, cn_seq_to n, cn_merkle_root n).

(** The same range under another root. *)
Definition forks (n : CheckpointNote) (r : CheckedRange) : bool :=
  let '(from, to, root) := r in
  (cn_seq_from n <=? to) && (from <=? cn_seq_to n) &&
  bool_decide ((from, to) = (cn_seq_from n, cn_seq_to n)) && bool_decide (root ≠ cn_merkle_root n).

Definition set_attested (a : gset Z) (d : CheckpointData) : CheckpointData :=
  {| st_attested_seqs := a; st_anchored_seqs := st_anchored_seqs d;
     st_checkpoint_digests := st_checkpoint_digests d;
     st_valid_checkpoint_ranges := st_valid_checkpoint_ranges d;
     st_checkpoint_note_hashes := st_checkpoint_note_hashes d;
     st_checkpoint_links := st_checkpoint_links d;
     st_countersigned_checkpoints := st_countersigned_checkpoints d;
     st_countersigned_high_water := st_countersigned_high_water d;
     st_top_checkpoint := st_top_checkpoint d |}.

Definition set_countersigned (ids : gset rstring) (hw : option Z) (d : CheckpointData)
    : CheckpointData :=
  {| st_attested_seqs := st_attested_seqs d; st_anchored_seqs := st_anchored_seqs d;
     st_checkpoint_digests := st_checkpoint_digests d;
     st_valid_checkpoint_ranges := st_valid_checkpoint_ranges d;
     st_checkpoint_note_hashes := st_checkpoint_note_hashes d;
     st_checkpoint_links := st_checkpoint_links d;
     st_countersigned_checkpoints := ids; st_countersigned_high_water := hw;
     st_top_checkpoint := st_top_checkpoint d |}.

(** The highest value so far: [opt.is_none_or(|c| hw > c)], then [Some(hw)]. *)
Definition raise (best : option Z) (x : Z) : option Z :=
  match best with
  | None => Some x
  | Some c => if c <? x then Some x else Some c
  end.

Section checkpoints.
Context `{Blake3} `{Ed25519} `{ChronoApi}.
Context (stream_id : rstring) (hashes_by_seq : gmap Z rstring)
  (cert_map : gmap rstring ValidatedCert) (revocations : option SignedRevocationList)
  (console_keys : gmap rstring verifying_key).

(** The revocation test; it needs a list and a wall time that parses. *)
Definition after_revocation (n : CheckpointNote) : bool :=
  match revocations, parse_wall (cn_ts_wall n) with
  | Some rev, Ok ts => is_revoked_at rev (cn_recorder_cert_fingerprint n) ts
  | _, _ => false
  end.

(** The guards up to the revocation boundary: the class of the error finding
    of the first one that fails. *)
Definition admission (sc : SignedCheckpoint) : option string :=
  let note := sc_note sc in
  if decide (cn_stream_id note ≠ stream_id) then Some "checkpoint_stream_mismatch"%string
  else match cert_map !! cn_recorder_cert_fingerprint note with
  | None => Some "checkpoint_cert_unknown"%string
  | Some cert =>
    if negb (is_ok (sc_verify sc (vc_public_key cert))) then Some "checkpoint_signature_invalid"%string
    else if after_revocation note then Some "checkpoint_after_revocation"%string
    else None
  end.

(** Merkle root recomputation over covered records. *)
Definition check_root (sc : SignedCheckpoint) (data : CheckpointData)
    : Checked (bool * CheckpointData) :=
  let note := sc_note sc in
  let hs := covered hashes_by_seq (cn_seq_from note) (cn_seq_to note) in
  if wrap_u64 (Z.of_nat (length hs)) =? u64_add (u64_sub (cn_seq_to note) (cn_seq_from note)) 1 then
    match verify_root sc hs with
    | Err _ => _ ← add_at Error "checkpoint_root_mismatch" stream_id None; mret (false, data)
    | Ok _ =>
      mret (true, set_attested (list_to_set (range (cn_seq_from note) (cn_seq_to note)) ∪
                                st_attested_seqs data) data)
    end
  else
    _ ← add_at Info "checkpoint_range_not_fully_exported" stream_id None;
    mret (true, data).

Definition check_countersignature (bc : BundleCheckpoint) (data : CheckpointData)
    : Checked (bool * CheckpointData) :=
  match bc_countersignature bc with
  | Some cs =>
    if any_value (λ k, is_ok (cs_verify cs k)) console_keys then
      mret (true, set_countersigned
        ({[cn_checkpoint_id (sc_note (bc_checkpoint bc))]} ∪ st_countersigned_checkpoints data)
        (match csn_stream_high_water_seq (cs_note cs) with
         | Some hw => raise (st_countersigned_high_water data) hw
         | None => st_countersigned_high_water data
         end) data)
    else if map_is_empty console_keys then
      _ ← add_at Warning "countersignature_unverifiable" stream_id None; mret (true, data)
    else
      _ ← add_at Error "countersignature_invalid" stream_id None; mret (false, data)
  | None => _ ← add_at Info "not_countersigned" stream_id None; mret (true, data)
  end.

(** What a valid checkpoint leaves behind for the anchors and the chain of
    checkpoints. *)
Definition bookkeeping (note : CheckpointNote) (d : CheckpointData) : CheckpointData :=
  {| st_attested_seqs := st_attested_seqs d; st_anchored_seqs := st_anchored_seqs d;
     st_checkpoint_digests :=
       match struct_to_jcs_bytes note with
       | Ok jcs => <[cn_checkpoint_id note := blake3_raw jcs]> (st_checkpoint_digests d)
       | Err _ => st_checkpoint_digests d
       end;
     st_valid_checkpoint_ranges :=
       <[cn_checkpoint_id note := (cn_seq_from note, cn_seq_to note)]> (st_valid_checkpoint_ranges d);
     st_checkpoint_note_hashes :=
       match note_hash note with
       | Ok h => {[h]} ∪ st_checkpoint_note_hashes d
       | Err _ => st_checkpoint_note_hashes d
       end;
     st_checkpoint_links :=
       match cn_prev_checkpoint_hash note with
       | Some prev => st_checkpoint_links d ++ [(cn_checkpoint_id note, prev)]
       | None => st_checkpoint_links d
       end;
     st_countersigned_checkpoints := st_countersigned_checkpoints d;
     st_countersigned_high_water := st_countersigned_high_water d;
     st_top_checkpoint :=
       match st_top_checkpoint d with
       | Some (id, s) =>
         if s <? cn_seq_to note then Some (cn_checkpoint_id note, cn_seq_to note) else Some (id, s)
       | None => Some (cn_checkpoint_id note, cn_seq_to note)
       end |}.

(** The body of the loop. *)
Definition verify_checkpoint (st : list CheckedRange * CheckpointData) (bc : BundleCheckpoint)
    : Checked (list CheckedRange * CheckpointData) :=
  let note := sc_note (bc_checkpoint bc) in
  match admission (bc_checkpoint bc) with
  | Some class => _ ← add_at Error class stream_id None; mret st
  | None =>
    _ ← each (λ r, when (forks note r) (add_at Error "chain_fork_detected" stream_id None)) st.1;
    let ranges := st.1 ++ [range_of note] in
    rooted ← check_root (bc_checkpoint bc) st.2;
    if negb rooted.1 then mret (ranges, rooted.2)
    else
      signed ← check_countersignature bc rooted.2;
      if negb signed.1 then mret (ranges, signed.2)
      else mret (ranges, bookkeeping note signed.2)
  end.

Definition verify_checkpoints (checkpoints : list BundleCheckpoint) (data : CheckpointData)
    : Checked CheckpointData :=
  st ← fold_checked verify_checkpoint ([], data) checkpoints;
  mret st.2.
End checkpoints.

(** ** Facts: ranges *)

Lemma elem_of_range s from to : s ∈ range from to ↔ from ≤ s ≤ to.
Proof. unfold range. rewrite elem_of_seqZ. lia. Qed.

Section covered_facts.
Context (hashes : gmap Z rstring).

(** [hs] are the hashes at the [length hs] keys from [s]. *)
Definition run_at (s : Z) (hs : list rstring) : Prop :=
  Forall2 (λ k h, hashes !! k = Some h) (seqZ s (Z.of_nat (length hs))) hs.

Lemma run_at_cons s h hs : run_at s (h :: hs) ↔ hashes !! s = Some h ∧ run_at (s + 1) hs.
Proof.
  unfold run_at. cbn [length]. rewrite seqZ_cons by lia.
  replace (Z.pred (Z.of_nat (S (length hs)))) with (Z.of_nat (length hs)) by lia.
  change (Z.succ s) with (s + 1). split; [by inversion 1|intros []; by constructor].
Qed.

Lemma run_at_size s hs : run_at s hs → (length hs ≤ size hashes)%nat.
Proof.
  intros Hr. rewrite <-size_dom.
  rewrite <-(Forall2_length _ _ _ Hr), <-(size_list_to_set (C:=gset Z)) by apply NoDup_seqZ.
  apply subseteq_size. intros k Hk%elem_of_list_to_set.
  destruct (Forall2_elem_l _ _ _ _ Hr Hk) as (h & _ & Hh). by eapply elem_of_dom_2.
Qed.

Lemma covered_from_spec fuel s to :
  let hs := covered_from hashes fuel s to in
  run_at s hs ∧ Z.of_nat (length hs) ≤ Z.max 0 (to - s + 1) ∧
  (length hs = fuel ∨ to < s + Z.of_nat (length hs) ∨ hashes !! (s + Z.of_nat (length hs)) = None).
Proof.
  cbv zeta. revert s; induction fuel as [|fuel IH]; intros s; cbn [covered_from].
  { split; [constructor|]. cbn. split; [lia|by left]. }
  destruct (Z.ltb_spec to s).
  { split; [constructor|]. cbn. split; [lia|right; left; lia]. }
  destruct (hashes !! s) as [h|] eqn:Hh.
  - destruct (IH (s + 1)) as (Hr & Hlen & Hend). rewrite run_at_cons. cbn [length].
    replace (s + Z.of_nat (S (length (covered_from hashes fuel (s + 1) to))))
      with (s + 1 + Z.of_nat (length (covered_from hashes fuel (s + 1) to))) by lia.
    split; [done|]. split; [lia|]. destruct Hend as [Hend|Hend]; [left; lia|by right].
  - split; [constructor|]. cbn. split; [lia|]. right; right. by rewrite Z.add_0_r.
Qed.

(** The fuel is enough: the run only ends where the range ends or a hash is
    missing. *)
Lemma covered_spec from to :
  let hs := covered hashes from to in
  run_at from hs ∧ Z.of_nat (length hs) ≤ Z.max 0 (to - from + 1) ∧
  (to < from + Z.of_nat (length hs) ∨ hashes !! (from + Z.of_nat (length hs)) = None).
Proof.
  cbv zeta. unfold covered. destruct (covered_from_spec (S (size hashes)) from to) as (Hr & Hlen & Hend).
  split; [done|]. split; [done|]. destruct Hend as [Heq|?]; [|done].
  apply run_at_size in Hr. lia.
Qed.

(** All the hashes of a range. *)
Definition hashes_in (from to : Z) : option (list rstring) := mapM (hashes !!.) (range from to).

Lemma covered_full from to :
  Z.of_nat (length (covered hashes from to)) = to - from + 1 →
  hashes_in from to = Some (covered hashes from to).
Proof.
  intros Hlen. destruct (covered_spec from to) as (Hr & _). apply mapM_Some.
  unfold run_at in Hr. by rewrite Hlen in Hr.
Qed.

Lemma covered_complete from to hs :
  hashes_in from to = Some hs → covered hashes from to = hs.
Proof.
  intros Hm%mapM_Some. destruct (covered_spec from to) as (Hr & Hlen & Hend).
  set (cs := covered hashes from to) in *. clearbody cs.
  assert (Z.of_nat (length cs) = Z.max 0 (to - from + 1)) as Heq.
  { destruct Hend as [Hend|Hnone]; [lia|].
    destruct (decide (from + Z.of_nat (length cs) ≤ to)); [|lia].
    assert (from + Z.of_nat (length cs) ∈ range from to) as Hin by (apply elem_of_range; lia).
    destruct (Forall2_elem_l _ _ _ _ Hm Hin) as (h & _ & Hh). congruence. }
  unfold run_at in Hr. rewrite Heq in Hr. unfold range in Hm.
  destruct (Z.max_spec 0 (to - from + 1)) as [[_ Hx]|[Hle Hx]]; rewrite Hx in Hr.
  - apply mapM_Some in Hr, Hm. congruence.
  - rewrite seqZ_nil in Hr, Hm by lia. by inversion Hr; inversion Hm.
Qed.

Lemma hashes_in_length from to hs :
  hashes_in from to = Some hs → Z.of_nat (length hs) = Z.max 0 (to - from + 1).
Proof.
  intros Hm%mapM_Some%Forall2_length. unfold range in Hm. rewrite length_seqZ in Hm. lia.
Qed.
End covered_facts.

Lemma any_value_true {V} (f : V → bool) (m : gmap rstring V) :
  any_value f m = true ↔ ∃ k v, m !! k = Some v ∧ f v = true.
Proof.
  unfold any_value. rewrite existsb_exists. split.
  - intros ([k v] & Hin & Hf). apply list_elem_of_In, elem_of_map_to_list in Hin. eauto.
  - intros (k & v & Hin & Hf). exists (k, v). split; [|done].
    by apply list_elem_of_In, elem_of_map_to_list.
Qed.

Lemma map_is_empty_true {V} (m : gmap rstring V) : map_is_empty m = true ↔ m = ∅.
Proof.
  unfold map_is_empty. rewrite <-map_to_list_empty_iff. by destruct (map_to_list m).
Qed.

Lemma raise_ge best x h :
  (∃ m, raise best x = Some m ∧ h ≤ m) ↔ h ≤ x ∨ ∃ m, best = Some m ∧ h ≤ m.
Proof.
  unfold raise. destruct best as [c|]; [destruct (Z.ltb_spec c x)|]; split.
  - intros (m & [= <-] & ?). by left.
  - intros [?|(m & [= <-] & ?)]; eexists; (split; [done|lia]).
  - intros (m & [= <-] & ?). right. eauto.
  - intros [?|(m & [= <-] & ?)]; eexists; (split; [done|lia]).
  - intros (m & [= <-] & ?). by left.
  - intros [?|(m & ? & ?)]; [|done]. eauto.
Qed.

(** ** Facts: one checkpoint *)

Section checkpoint_facts.
Context `{Blake3} `{Ed25519} `{ChronoApi}.
Context (sid : rstring) (hashes : gmap Z rstring) (certs : gmap rstring ValidatedCert)
  (revs : option SignedRevocationList) (keys : gmap rstring verifying_key).

(** A checkpoint of the stream that a validated certificate signed, and whose
    time is not at or after a revocation of that certificate. As in the code, a
    checkpoint whose time does not parse is admitted whatever the revocation
    list says. *)
Definition admitted (sc : SignedCheckpoint) : Prop :=
  cn_stream_id (sc_note sc) = sid ∧
  ∃ cert, certs !! cn_recorder_cert_fingerprint (sc_note sc) = Some cert ∧
    sc_verify sc (vc_public_key cert) = Ok tt ∧
    ∀ rev ts, revs = Some rev → parse_wall (cn_ts_wall (sc_note sc)) = Ok ts →
      is_revoked_at rev (cn_recorder_cert_fingerprint (sc_note sc)) ts = false.

(** All the records of its range are there and verify against its root. *)
Definition attests (sc : SignedCheckpoint) : Prop :=
  ∃ hs, hashes_in hashes (cn_seq_from (sc_note sc)) (cn_seq_to (sc_note sc)) = Some hs ∧
    verify_root sc hs = Ok tt.

(** A countersignature of a Console key over a high-water mark. *)
Definition countersigned (bc : BundleCheckpoint) (hw : Z) : Prop :=
  ∃ cs kid k, bc_countersignature bc = Some cs ∧ keys !! kid = Some k ∧
    cs_verify cs k = Ok tt ∧ csn_stream_high_water_seq (cs_note cs) = Some hw.

Lemma after_revocation_false n :
  after_revocation revs n = false ↔
  ∀ rev ts, revs = Some rev → parse_wall (cn_ts_wall n) = Ok ts →
    is_revoked_at rev (cn_recorder_cert_fingerprint n) ts = false.
Proof.
  unfold after_revocation. destruct revs as [rev|], (parse_wall (cn_ts_wall n)) as [ts|]; split;
    try done; [by intros Hr ?? [= <-] [= <-]|eauto].
Qed.

(** The note of an admitted checkpoint was hashed, so its sequences are safe
    integers. *)
Lemma admitted_safe sc :
  wf_struct (sc_note sc) = true → admitted sc → cn_seq_to (sc_note sc) ≤ MAX_SAFE_INTEGER.
Proof.
  intros [[_ Ht]%andb_true_iff _]%andb_true_iff (_ & cert & _ & Hv & _).
  unfold sc_verify, verify_jcs in Hv. apply bind_Ok in Hv as (bs & Hb & _).
  eapply (u64_member_safe _ (str "seq_to")); [exact Hb| |done]. do 4 right. left.
Qed.

Lemma is_ok_unit {E} (r : result E unit) : is_ok r = true ↔ r = Ok tt.
Proof. destruct r as [[]|]; cbn; split; done. Qed.

Lemma admission_None sc : admission sid certs revs sc = None ↔ admitted sc.
Proof.
  unfold admission, admitted. cbv zeta. case_decide as Hs; [split; [done|by intros []]|].
  destruct (certs !! _) as [cert|]; [|split; [done|by intros (_ & ? & ? & _)]].
  destruct (is_ok (sc_verify sc (vc_public_key cert))) eqn:Hv; cbn [negb].
  - apply is_ok_unit in Hv. destruct (after_revocation revs (sc_note sc)) eqn:Hr.
    + split; [done|]. intros (_ & c & [= <-] & _ & Ha%after_revocation_false). congruence.
    + split; [|done]. intros _. split; [done|]. exists cert. split; [done|]. split; [done|].
      by apply after_revocation_false.
  - split; [done|]. intros (_ & c & [= <-] & Hc & _). apply is_ok_unit in Hc. congruence.
Qed.

Lemma verify_root_nonempty sc hs : verify_root sc hs = Ok tt → hs ≠ [].
Proof. intros (_ & _ & Hl)%verify_root_Ok. by destruct hs. Qed.

(** The length test, with its wrap-around, only lets a full range pass. *)
Lemma full_range sc :
  wf_struct (sc_note sc) = true →
  let hs := covered hashes (cn_seq_from (sc_note sc)) (cn_seq_to (sc_note sc)) in
  wrap_u64 (Z.of_nat (length hs)) =
    u64_add (u64_sub (cn_seq_to (sc_note sc)) (cn_seq_from (sc_note sc))) 1 →
  hs = [] ∨ Z.of_nat (length hs) = cn_seq_to (sc_note sc) - cn_seq_from (sc_note sc) + 1.
Proof.
  intros [[Hf%is_u64_spec Ht%is_u64_spec]%andb_true_iff _]%andb_true_iff hs.
  destruct (covered_spec hashes (cn_seq_from (sc_note sc)) (cn_seq_to (sc_note sc))) as (_ & Hlen & _).
  fold hs in Hlen. destruct hs as [|h hs]; [by left|]. intros Heq. right.
  unfold u64_add, u64_sub, wrap_u64, u64_max in *. rewrite Zplus_mod_idemp_l in *.
  cbn [length] in *. set (n := Z.of_nat (S (length hs))) in *.
  assert (0 < n) by lia. clearbody n.
  destruct (decide (n = 2 ^ 64)) as [->|]; [lia|]. rewrite (Z.mod_small n) in Heq by lia.
  Z.div_mod_to_equations. lia.
Qed.

(** The root test: the three ways it ends. *)
Lemma check_root_cases sc data :
  wf_struct (sc_note sc) = true →
  let m := check_root sid hashes sc data in
  (attests sc ∧ found m = [] ∧
   outcome m = (true, set_attested (list_to_set (range (cn_seq_from (sc_note sc))
     (cn_seq_to (sc_note sc))) ∪ st_attested_seqs data) data)) ∨
  (¬ attests sc ∧ clean m ∧ outcome m = (true, data) ∧
   (hashes_in hashes (cn_seq_from (sc_note sc)) (cn_seq_to (sc_note sc)) = None ∨
    cn_seq_to (sc_note sc) < cn_seq_from (sc_note sc))) ∨
  (¬ attests sc ∧ ¬ clean m ∧ outcome m = (false, data)).
Proof.
  intros Hwf. cbv zeta. unfold check_root. cbv zeta.
  pose proof (full_range sc Hwf) as Hfull. cbv zeta in Hfull.
  set (hs := covered hashes (cn_seq_from (sc_note sc)) (cn_seq_to (sc_note sc))) in *.
  assert (attests sc → verify_root sc hs = Ok tt ∧
    Z.of_nat (length hs) = cn_seq_to (sc_note sc) - cn_seq_from (sc_note sc) + 1) as Hatt.
  { intros (hs' & Hin & Hr). pose proof (hashes_in_length _ _ _ _ Hin) as Hl.
    apply verify_root_nonempty in Hr as Hne. apply covered_complete in Hin. fold hs in Hin. subst hs'.
    split; [done|]. destruct hs; [done|]. cbn [length] in *. lia. }
  destruct (Z.eqb_spec (wrap_u64 (Z.of_nat (length hs)))
    (u64_add (u64_sub (cn_seq_to (sc_note sc)) (cn_seq_from (sc_note sc))) 1)) as [Heq|Hneq].
  - destruct (verify_root sc hs) as [[]|e] eqn:Hr.
    + left. split; [|done]. destruct (Hfull Heq) as [Hnil|Hlen]; [by apply verify_root_nonempty in Hr|].
      exists hs. split; [by apply covered_full|done].
    + right; right. split; [intros [? _]%Hatt; congruence|]. split; [|done].
      intros [Hc _]%clean_bind. by apply clean_add_at in Hc.
  - right; left. unfold u64_add, u64_sub, wrap_u64 in Hneq. rewrite Zplus_mod_idemp_l in Hneq.
    split; [intros [_ Hl]%Hatt; congruence|]. split; [by repeat constructor|].
    split; [done|]. destruct (hashes_in _ _ _) as [hs'|] eqn:Hin; [|by left]. right.
    apply hashes_in_length in Hin as Hl. apply covered_complete in Hin. fold hs in Hin. subst hs'.
    destruct (decide (cn_seq_to (sc_note sc) < cn_seq_from (sc_note sc))); [done|].
    exfalso. apply Hneq. f_equal. lia.
Qed.

(** If all the records of the range are there, then its root verifies (the
    empty range directly before its start counts as there, and has no root). *)
Definition root_ok (sc : SignedCheckpoint) : Prop :=
  ∀ hs, hashes_in hashes (cn_seq_from (sc_note sc)) (cn_seq_to (sc_note sc)) = Some hs →
    cn_seq_from (sc_note sc) ≤ cn_seq_to (sc_note sc) + 1 → verify_root sc hs = Ok tt.

Lemma check_root_clean sc data :
  wf_struct (sc_note sc) = true → cn_seq_to (sc_note sc) ≤ MAX_SAFE_INTEGER →
  clean (check_root sid hashes sc data) ↔ root_ok sc.
Proof.
  intros [[Hf%is_u64_spec Ht%is_u64_spec]%andb_true_iff _]%andb_true_iff Hsafe.
  unfold check_root, root_ok. cbv zeta.
  set (from := cn_seq_from (sc_note sc)) in *. set (to := cn_seq_to (sc_note sc)) in *.
  destruct (covered_spec hashes from to) as (_ & Hlen & _).
  unfold u64_add, u64_sub. rewrite (wrap_u64_id (Z.of_nat _))
    by (apply is_u64_spec; unfold u64_max, MAX_SAFE_INTEGER in *; lia).
  unfold wrap_u64, u64_max, MAX_SAFE_INTEGER in *. rewrite Zplus_mod_idemp_l.
  destruct (Z.eqb_spec (Z.of_nat (length (covered hashes from to))) ((to - from + 1) mod 2 ^ 64))
    as [Heq|Hneq].
  - assert (Z.of_nat (length (covered hashes from to)) = to - from + 1) as Hl
      by (Z.div_mod_to_equations; lia).
    rewrite (covered_full _ _ _ Hl). destruct (verify_root sc (covered hashes from to)) as [[]|e] eqn:Hr.
    + split; [|intros _; apply clean_ret]. by intros _ hs [= <-].
    + split; [intros [Hc _]%clean_bind; by apply clean_add_at in Hc|].
      intros Hok. specialize (Hok _ eq_refl ltac:(lia)). congruence.
  - split; [|by repeat constructor]. intros _ hs Hin Hle. exfalso. apply Hneq.
    apply hashes_in_length in Hin as Hl. apply covered_complete in Hin. rewrite Hin, Hl.
    rewrite Z.mod_small; lia.
Qed.

Lemma root_ok_passes sc data :
  wf_struct (sc_note sc) = true → cn_seq_to (sc_note sc) ≤ MAX_SAFE_INTEGER → root_ok sc →
  (outcome (check_root sid hashes sc data)).1 = true.
Proof.
  intros Hwf Hsafe. rewrite <-(check_root_clean _ data Hwf Hsafe).
  destruct (check_root_cases sc data Hwf) as [(_ & _ & ->)|[(_ & _ & -> & _)|(_ & ? & _)]]; done.
Qed.

(** A countersignature that a Console key verifies. *)
Definition cs_verified (cs : Countersignature) : Prop :=
  ∃ kid k, keys !! kid = Some k ∧ cs_verify cs k = Ok tt.

Lemma check_countersignature_cases bc data :
  let m := check_countersignature sid keys bc data in
  (∃ cs, bc_countersignature bc = Some cs ∧ cs_verified cs ∧ clean m ∧
     outcome m = (true, set_countersigned
       ({[cn_checkpoint_id (sc_note (bc_checkpoint bc))]} ∪ st_countersigned_checkpoints data)
       (match csn_stream_high_water_seq (cs_note cs) with
        | Some hw => raise (st_countersigned_high_water data) hw
        | None => st_countersigned_high_water data
        end) data)) ∨
  ((∀ cs, bc_countersignature bc = Some cs → ¬ cs_verified cs ∧ (clean m → keys = ∅)) ∧
   ((outcome m).1 = true ↔ clean m) ∧ (outcome m).2 = data).
Proof.
  cbv zeta. unfold check_countersignature. destruct (bc_countersignature bc) as [cs|].
  2: { right. split; [done|]. split; [|done]. split; [|done]. intros _. by repeat constructor. }
  assert (any_value (λ k, is_ok (cs_verify cs k)) keys = true ↔ cs_verified cs) as Hany.
  { rewrite any_value_true. unfold cs_verified. by setoid_rewrite is_ok_unit. }
  destruct (any_value _ keys) eqn:Hv.
  - left. exists cs. split; [done|]. split; [by apply Hany|]. split; [constructor|done].
  - right. assert (¬ cs_verified cs) by (by rewrite <-Hany). destruct (map_is_empty keys) eqn:He.
    + apply map_is_empty_true in He. split; [by intros ? [= <-]|]. split; [|done]. split; [|done].
      intros _. by repeat constructor.
    + assert (¬ clean (add_at Error "countersignature_invalid" sid None ≫= λ _,
        mret (false, data))) as Hnc by (intros [Hc _]%clean_bind; by apply clean_add_at in Hc).
      split; [by intros cs' [= <-]|]. split; [|done]. split; [done|intros Hc; by destruct Hnc].
Qed.

Lemma forks_clean n rs :
  clean (each (λ r, when (forks n r) (add_at Error "chain_fork_detected" sid None)) rs) ↔
  Forall (λ r, forks n r = false) rs.
Proof.
  rewrite clean_each. apply Forall_proper; [|done]. intros r. rewrite clean_when, clean_add_at.
  destruct (forks n r); naive_solver.
Qed.

(** The data after the root test. *)
Definition rooted (sc : SignedCheckpoint) (data data' : CheckpointData) : Prop :=
  attests sc ∧ data' = set_attested (list_to_set (range (cn_seq_from (sc_note sc))
    (cn_seq_to (sc_note sc))) ∪ st_attested_seqs data) data ∨
  ¬ attests sc ∧ data' = data.

(** One iteration: refused, stopped by an error finding, or completed. *)
Lemma verify_checkpoint_cases st bc :
  let sc := bc_checkpoint bc in
  let m := verify_checkpoint sid hashes certs revs keys st bc in
  wf_struct (sc_note sc) = true →
  (¬ admitted sc ∧ ¬ clean m ∧ outcome m = st) ∨
  (admitted sc ∧ ∃ d, rooted sc st.2 d ∧
   (¬ clean m ∧ outcome m = (st.1 ++ [range_of (sc_note sc)], d) ∨
    outcome m = (st.1 ++ [range_of (sc_note sc)],
      bookkeeping (sc_note sc) (outcome (check_countersignature sid keys bc d)).2) ∧
    (clean m → Forall (λ r, forks (sc_note sc) r = false) st.1 ∧
       clean (check_countersignature sid keys bc d)))).
Proof.
  cbv zeta. intros Hwf. unfold verify_checkpoint. cbv zeta.
  destruct (admission sid certs revs (bc_checkpoint bc)) as [class|] eqn:Ha.
  { left. split; [intros Hadm%admission_None; congruence|]. split; [|done].
    intros [Hc _]%clean_bind. by apply clean_add_at in Hc. }
  right. split; [by apply admission_None|].
  destruct (check_root_cases (bc_checkpoint bc) st.2 Hwf) as [(Hat & _ & Ho)|[(Hat & _ & Ho & _)|(Hat & Hnc & Ho)]].
  3: { exists st.2. split; [by right|]. left. rewrite !outcome_bind, Ho. split; [|done].
       by intros [_ [Hc _]%clean_bind]%clean_bind. }
  all: eexists; split; [first [by left|by right]|];
    rewrite clean_bind, clean_bind, !outcome_bind, Ho; cbn [fst snd negb];
    rewrite clean_bind, outcome_bind.
  all: match goal with |- context [check_countersignature _ _ _ ?d] =>
      destruct (check_countersignature_cases bc d) as [(cs & _ & _ & Hc & Ho2)|(_ & Hgo & Hd)] end;
    [right; rewrite Ho2; split; [done|intros (Hf%forks_clean & _); done]|].
  all: destruct (outcome (check_countersignature sid keys bc _)).1; cbn [negb];
    [right; split; [done|by intros (Hf%forks_clean & _ & Hc & _)]
    |left; split; [intros (_ & _ & Hc & _); by apply Hgo in Hc|by rewrite <-Hd at 2]].
Qed.

Lemma countersign_keeps bc d :
  let d' := (outcome (check_countersignature sid keys bc d)).2 in
  st_attested_seqs d' = st_attested_seqs d ∧ st_anchored_seqs d' = st_anchored_seqs d ∧
  st_checkpoint_digests d' = st_checkpoint_digests d ∧
  st_valid_checkpoint_ranges d' = st_valid_checkpoint_ranges d ∧
  st_checkpoint_note_hashes d' = st_checkpoint_note_hashes d ∧
  st_checkpoint_links d' = st_checkpoint_links d.
Proof.
  cbv zeta. destruct (check_countersignature_cases bc d) as [(cs & _ & _ & _ & ->)|(_ & _ & ->)]; done.
Qed.

(** ** Facts: the loop *)

(** A high-water mark of at least [h]. *)
Definition reaches (h : Z) (d : CheckpointData) : Prop :=
  ∃ m, st_countersigned_high_water d = Some m ∧ h ≤ m.

Lemma countersign_reaches bc d h :
  reaches h (outcome (check_countersignature sid keys bc d)).2 ↔
  (∃ h', countersigned bc h' ∧ h ≤ h') ∨ reaches h d.
Proof.
  unfold reaches, countersigned.
  destruct (check_countersignature_cases bc d) as [(cs & Hcs & (kid & k & Hk & Hv) & _ & ->)|(Hno & _ & ->)].
  - cbn [snd set_countersigned st_countersigned_high_water].
    destruct (csn_stream_high_water_seq (cs_note cs)) as [hw|] eqn:Hhw.
    + rewrite raise_ge. split; intros [Hl|Hr]; try (by right); left.
      * exists hw. split; [by exists cs, kid, k|done].
      * destruct Hl as (h' & (cs' & ? & ? & Hcs' & _ & _ & Hhw') & ?). by simplify_eq.
    + split; [by right|]. intros [(h' & (cs' & ? & ? & Hcs' & _ & _ & Hhw') & _)|?]; [|done].
      by simplify_eq.
  - split; [by right|]. intros [(h' & (cs & kid & k & Hcs & Hk & Hv & _) & _)|?]; [|done].
    destruct (Hno cs Hcs) as [[] _]. by exists kid, k.
Qed.

Abbreviation step := (verify_checkpoint sid hashes certs revs keys).
Abbreviation wf_bc := (λ bc : BundleCheckpoint, wf_struct (sc_note (bc_checkpoint bc)) = true).

Lemma attested_step s st bc :
  wf_bc bc →
  s ∈ st_attested_seqs (outcome (step st bc)).2 ↔
  (admitted (bc_checkpoint bc) ∧ attests (bc_checkpoint bc) ∧
   cn_seq_from (sc_note (bc_checkpoint bc)) ≤ s ≤ cn_seq_to (sc_note (bc_checkpoint bc))) ∨
  s ∈ st_attested_seqs st.2.
Proof.
  intros Hwf. destruct (verify_checkpoint_cases st bc Hwf) as [(Hna & _ & ->)|(Ha & d & Hd & Hm)].
  { split; [by right|]. intros [(? & _)|?]; done. }
  assert (st_attested_seqs (outcome (step st bc)).2 = st_attested_seqs d) as ->.
  { destruct Hm as [(_ & ->)|(-> & _)]; [done|]. cbn. apply countersign_keeps. }
  destruct Hd as [(Hat & ->)|(Hat & ->)]; cbn [set_attested st_attested_seqs].
  - rewrite elem_of_union, elem_of_list_to_set, elem_of_range. naive_solver.
  - naive_solver.
Qed.

Lemma reaches_step_origin h st bc :
  wf_bc bc → reaches h (outcome (step st bc)).2 →
  (admitted (bc_checkpoint bc) ∧ ∃ h', countersigned bc h' ∧ h ≤ h') ∨ reaches h st.2.
Proof.
  intros Hwf. destruct (verify_checkpoint_cases st bc Hwf) as [(Hna & _ & ->)|(Ha & d & Hd & Hm)];
    [by right|].
  assert (reaches h d ↔ reaches h st.2) as Hr by (by destruct Hd as [(_ & ->)|(_ & ->)]).
  destruct Hm as [(_ & ->)|(-> & _)]; cbn [snd]; [by rewrite Hr; right|].
  change (reaches h (bookkeeping ?n ?d)) with (reaches h d). rewrite countersign_reaches, Hr.
  intros [?|?]; [by left|by right].
Qed.

Lemma reaches_step_keep h st bc : wf_bc bc → reaches h st.2 → reaches h (outcome (step st bc)).2.
Proof.
  intros Hwf Hr. destruct (verify_checkpoint_cases st bc Hwf) as [(_ & _ & ->)|(_ & d & Hd & Hm)]; [done|].
  assert (reaches h d) as Hrd by (by destruct Hd as [(_ & ->)|(_ & ->)]).
  destruct Hm as [(_ & ->)|(-> & _)]; cbn [snd]; [done|].
  change (reaches h (bookkeeping ?n ?d)) with (reaches h d). rewrite countersign_reaches. by right.
Qed.

(** A countersignature verifies, if there is a Console key at all. *)
Definition cs_ok (bc : BundleCheckpoint) : Prop :=
  ∀ cs, bc_countersignature bc = Some cs → cs_verified cs ∨ keys = ∅.

Lemma check_countersignature_clean bc d :
  clean (check_countersignature sid keys bc d) ↔ cs_ok bc.
Proof.
  unfold cs_ok. destruct (check_countersignature_cases bc d) as [(cs & Hcs & Hv & Hc & _)|(Hno & Hgo & _)].
  - split; [|done]. intros _ cs' Hcs'. left. congruence.
  - split; [intros Hc cs Hcs; right; by apply (Hno cs)|]. intros Hok. apply Hgo.
    unfold check_countersignature. destruct (bc_countersignature bc) as [cs|]; [|done].
    destruct (any_value _ keys); [done|]. destruct (Hok cs eq_refl) as [Hv| ->]; [by destruct (Hno cs eq_refl)|done].
Qed.

(** Exactly when an iteration reports no error. *)
Lemma clean_step_iff st bc :
  wf_bc bc →
  let sc := bc_checkpoint bc in
  clean (step st bc) ↔
  admitted sc ∧ root_ok sc ∧ cs_ok bc ∧ Forall (λ r, forks (sc_note sc) r = false) st.1.
Proof.
  intros Hwf. cbv zeta. unfold verify_checkpoint. cbv zeta.
  destruct (admission sid certs revs (bc_checkpoint bc)) as [class|] eqn:Ha.
  { split; [intros [Hc _]%clean_bind; by apply clean_add_at in Hc|].
    intros (Hadm%admission_None & _). congruence. }
  apply admission_None in Ha. pose proof (admitted_safe _ Hwf Ha) as Hsafe.
  rewrite clean_bind, forks_clean, clean_bind, (check_root_clean _ _ Hwf Hsafe).
  pose proof (root_ok_passes _ st.2 Hwf Hsafe) as Hroot.
  split.
  - intros (Hf & Hr & Hc). split_and!; try done. rewrite (Hroot Hr) in Hc. cbn [negb] in Hc.
    apply clean_bind in Hc as [Hc _]. by apply check_countersignature_clean in Hc.
  - intros (_ & Hr & Hcs & Hf). split_and!; [done..|]. rewrite (Hroot Hr). cbn [negb].
    apply clean_bind. split; [by apply check_countersignature_clean|]. case_match; apply clean_ret.
Qed.

(** What an iteration without error findings has checked and left behind. *)
Lemma clean_step st bc :
  wf_bc bc → clean (step st bc) →
  let sc := bc_checkpoint bc in
  let st' := outcome (step st bc) in
  admitted sc ∧ Forall (λ r, forks (sc_note sc) r = false) st.1 ∧
  st'.1 = st.1 ++ [range_of (sc_note sc)] ∧
  (∀ cs, bc_countersignature bc = Some cs → cs_verified cs ∨ keys = ∅) ∧
  (∀ h, countersigned bc h → reaches h st'.2) ∧
  (∀ h, note_hash (sc_note sc) = Ok h → h ∈ st_checkpoint_note_hashes st'.2) ∧
  (∀ p, cn_prev_checkpoint_hash (sc_note sc) = Some p →
     (cn_checkpoint_id (sc_note sc), p) ∈ st_checkpoint_links st'.2).
Proof.
  intros Hwf Hc. cbv zeta.
  destruct (verify_checkpoint_cases st bc Hwf) as [(_ & [] & _)|(Ha & d & _ & Hm)]; [done|].
  destruct Hm as [([] & _)|(-> & Hm)]; [done|]. destruct (Hm Hc) as (Hf & Hcc). cbn [fst snd].
  split_and!; try done.
  - intros cs Hcs. destruct (check_countersignature_cases bc d) as [(cs' & Hcs' & Hv & _)|(Hno & _)].
    + left. congruence.
    + right. by apply (Hno cs).
  - intros h Hh. change (reaches h (bookkeeping ?n ?d)) with (reaches h d).
    apply countersign_reaches. left. by exists h.
  - intros h Hh. cbn [bookkeeping st_checkpoint_note_hashes]. rewrite Hh. set_solver.
  - intros p Hp. cbn [bookkeeping st_checkpoint_links]. rewrite Hp. apply elem_of_app. right. left.
Qed.

(** The loop only adds note hashes and links, and never touches the anchored
    sequences. *)
Lemma notes_keep st bc :
  wf_bc bc →
  let st' := outcome (step st bc) in
  st_checkpoint_note_hashes st.2 ⊆ st_checkpoint_note_hashes st'.2 ∧
  st_checkpoint_links st.2 ⊆ st_checkpoint_links st'.2 ∧
  st_anchored_seqs st'.2 = st_anchored_seqs st.2.
Proof.
  intros Hwf. cbv zeta.
  destruct (verify_checkpoint_cases st bc Hwf) as [(_ & _ & ->)|(Ha & d & Hd & Hm)]; [done|].
  assert (st_checkpoint_note_hashes d = st_checkpoint_note_hashes st.2 ∧
    st_checkpoint_links d = st_checkpoint_links st.2 ∧
    st_anchored_seqs d = st_anchored_seqs st.2) as (<- & <- & <-)
    by (by destruct Hd as [(_ & ->)|(_ & ->)]).
  destruct Hm as [(_ & ->)|(-> & _)]; cbn [snd]; [done|].
  pose proof (countersign_keeps bc d) as (_ & K3 & _ & _ & K1 & K2).
  cbn [bookkeeping st_checkpoint_note_hashes st_checkpoint_links st_anchored_seqs].
  rewrite K1, K2, K3. split_and!; [|case_match; set_solver|done].
  destruct (note_hash _); set_solver.
Qed.

(** The digest and the range of the checkpoint are there for the anchors. *)
Definition known (id : rstring) (d : CheckpointData) : Prop :=
  is_Some (st_checkpoint_digests d !! id) ∧ is_Some (st_valid_checkpoint_ranges d !! id).

Lemma bookkeeping_known id n d :
  (id = cn_checkpoint_id n ∧ is_ok (struct_to_jcs_bytes n) = true) ∨ known id d → known id (bookkeeping n d).
Proof.
  unfold known. cbn [bookkeeping st_checkpoint_digests st_valid_checkpoint_ranges]. intros [[-> Hj]|[Hd Hr]].
  - split; [|by rewrite lookup_insert_eq]. destruct (struct_to_jcs_bytes n); [|done]. by rewrite lookup_insert_eq.
  - rewrite lookup_insert_is_Some'. split; [|by right].
    destruct (struct_to_jcs_bytes n); [rewrite lookup_insert_is_Some'; by right|done].
Qed.

Lemma clean_step_known st bc :
  wf_bc bc → clean (step st bc) → known (cn_checkpoint_id (sc_note (bc_checkpoint bc))) (outcome (step st bc)).2.
Proof.
  intros Hwf Hc. destruct (verify_checkpoint_cases st bc Hwf) as [(_ & [] & _)|(Ha & d & _ & Hm)]; [done|].
  destruct Hm as [([] & _)|(-> & _)]; [done|]. cbn [snd]. apply bookkeeping_known. left. split; [done|].
  destruct Ha as (_ & cert & _ & Hv & _). unfold sc_verify, verify_jcs in Hv.
  apply bind_Ok in Hv as (bs & Hb & _). by rewrite Hb.
Qed.

Lemma known_keep id st bc : wf_bc bc → known id st.2 → known id (outcome (step st bc)).2.
Proof.
  intros Hwf Hk. destruct (verify_checkpoint_cases st bc Hwf) as [(_ & _ & ->)|(_ & d & Hd & Hm)]; [done|].
  assert (known id d) as Hkd by (by destruct Hd as [(_ & ->)|(_ & ->)]).
  destruct Hm as [(_ & ->)|(-> & _)]; cbn [snd]; [done|]. apply bookkeeping_known. right.
  unfold known. by destruct (countersign_keeps bc d) as (_ & _ & -> & -> & _).
Qed.

(** Where the note hashes and the digests of the data come from. *)
Lemma notes_origin st bc :
  wf_bc bc →
  let st' := outcome (step st bc) in
  (∀ h, h ∈ st_checkpoint_note_hashes st'.2 →
     (admitted (bc_checkpoint bc) ∧ note_hash (sc_note (bc_checkpoint bc)) = Ok h) ∨
     h ∈ st_checkpoint_note_hashes st.2) ∧
  (∀ id d, st_checkpoint_digests st'.2 !! id = Some d →
     (admitted (bc_checkpoint bc) ∧ cn_checkpoint_id (sc_note (bc_checkpoint bc)) = id ∧
      ∃ jcs, struct_to_jcs_bytes (sc_note (bc_checkpoint bc)) = Ok jcs ∧ d = blake3_raw jcs) ∨
     st_checkpoint_digests st.2 !! id = Some d) ∧
  (∀ id r, st_valid_checkpoint_ranges st'.2 !! id = Some r →
     (admitted (bc_checkpoint bc) ∧ cn_checkpoint_id (sc_note (bc_checkpoint bc)) = id ∧
      r = (cn_seq_from (sc_note (bc_checkpoint bc)), cn_seq_to (sc_note (bc_checkpoint bc)))) ∨
     st_valid_checkpoint_ranges st.2 !! id = Some r).
Proof.
  intros Hwf. cbv zeta.
  destruct (verify_checkpoint_cases st bc Hwf) as [(_ & _ & ->)|(Ha & d & Hd & Hm)];
    [split_and!; by right|].
  assert (st_checkpoint_note_hashes d = st_checkpoint_note_hashes st.2 ∧
    st_checkpoint_digests d = st_checkpoint_digests st.2 ∧
    st_valid_checkpoint_ranges d = st_valid_checkpoint_ranges st.2) as (E1 & E2 & E3)
    by (by destruct Hd as [(_ & ->)|(_ & ->)]).
  destruct Hm as [(_ & ->)|(-> & _)]; cbn [snd]; [rewrite E1, E2, E3; split_and!; by right|].
  pose proof (countersign_keeps bc d) as (_ & _ & K2 & K3 & K1 & _).
  cbn [bookkeeping st_checkpoint_note_hashes st_checkpoint_digests st_valid_checkpoint_ranges].
  rewrite K1, K2, K3, E1, E2, E3. split_and!.
  - intros h. destruct (note_hash _) as [h'|]; [|by right].
    rewrite elem_of_union, elem_of_singleton. intros [->|?]; [by left|by right].
  - intros id x. destruct (struct_to_jcs_bytes _) as [jcs|]; [|by right].
    rewrite lookup_insert_Some. intros [[<- <-]|[_ ?]]; [|by right]. left. eauto.
  - intros id r. rewrite lookup_insert_Some. intros [[<- <-]|[_ ?]]; [|by right]. by left.
Qed.
End checkpoint_facts.

(** ** Facts: all the checkpoints of a stream *)

Section pass_facts.
Context `{Blake3} `{Ed25519} `{ChronoApi}.
Context (sid : rstring) (hashes : gmap Z rstring) (certs : gmap rstring ValidatedCert)
  (revs : option SignedRevocationList) (keys : gmap rstring verifying_key).
Context (cps : list BundleCheckpoint)
  (Hwf : Forall (λ bc, wf_struct (sc_note (bc_checkpoint bc)) = true) cps).

Abbreviation pass := (verify_checkpoints sid hashes certs revs keys cps).

Lemma wf_elem bc : bc ∈ cps → wf_struct (sc_note (bc_checkpoint bc)) = true.
Proof. intros Hbc. rewrite Forall_forall in Hwf. exact (Hwf bc Hbc). Qed.

Lemma pass_attested s d :
  s ∈ st_attested_seqs (outcome (pass d)) ↔
  (∃ bc, bc ∈ cps ∧ admitted sid certs revs (bc_checkpoint bc) ∧
     attests hashes (bc_checkpoint bc) ∧
     cn_seq_from (sc_note (bc_checkpoint bc)) ≤ s ≤ cn_seq_to (sc_note (bc_checkpoint bc))) ∨
  s ∈ st_attested_seqs d.
Proof.
  unfold verify_checkpoints. rewrite outcome_bind.
  apply (fold_checked_collect (λ st, s ∈ st_attested_seqs st.2)).
  intros st bc Hbc. by apply attested_step, wf_elem.
Qed.

Lemma pass_reaches_origin h d :
  reaches h (outcome (pass d)) →
  (∃ bc, bc ∈ cps ∧ admitted sid certs revs (bc_checkpoint bc) ∧
     ∃ h', countersigned keys bc h' ∧ h ≤ h') ∨ reaches h d.
Proof.
  unfold verify_checkpoints. rewrite outcome_bind.
  apply (fold_checked_origin (λ st, reaches h st.2)).
  intros st bc Hbc. by apply reaches_step_origin, wf_elem.
Qed.

Lemma pass_notes_origin d :
  (∀ h, h ∈ st_checkpoint_note_hashes (outcome (pass d)) →
     (∃ bc, bc ∈ cps ∧ admitted sid certs revs (bc_checkpoint bc) ∧
        note_hash (sc_note (bc_checkpoint bc)) = Ok h) ∨ h ∈ st_checkpoint_note_hashes d) ∧
  (∀ id x, st_checkpoint_digests (outcome (pass d)) !! id = Some x →
     (∃ bc, bc ∈ cps ∧ admitted sid certs revs (bc_checkpoint bc) ∧
        cn_checkpoint_id (sc_note (bc_checkpoint bc)) = id ∧
        ∃ jcs, struct_to_jcs_bytes (sc_note (bc_checkpoint bc)) = Ok jcs ∧ x = blake3_raw jcs) ∨
     st_checkpoint_digests d !! id = Some x) ∧
  (∀ id r, st_valid_checkpoint_ranges (outcome (pass d)) !! id = Some r →
     (∃ bc, bc ∈ cps ∧ admitted sid certs revs (bc_checkpoint bc) ∧
        cn_checkpoint_id (sc_note (bc_checkpoint bc)) = id ∧
        r = (cn_seq_from (sc_note (bc_checkpoint bc)), cn_seq_to (sc_note (bc_checkpoint bc)))) ∨
     st_valid_checkpoint_ranges d !! id = Some r).
Proof.
  unfold verify_checkpoints. rewrite !outcome_bind. split_and!.
  - intros h. apply (fold_checked_origin (λ st, h ∈ st_checkpoint_note_hashes st.2)).
    intros st bc Hbc. by apply notes_origin, wf_elem.
  - intros id x. apply (fold_checked_origin (λ st, st_checkpoint_digests st.2 !! id = Some x)).
    intros st bc Hbc. by apply notes_origin, wf_elem.
  - intros id r. apply (fold_checked_origin (λ st, st_valid_checkpoint_ranges st.2 !! id = Some r)).
    intros st bc Hbc. by apply notes_origin, wf_elem.
Qed.

Lemma pass_links_origin d id prev :
  (id, prev) ∈ st_checkpoint_links (outcome (pass d)) →
  (∃ bc, bc ∈ cps ∧ cn_prev_checkpoint_hash (sc_note (bc_checkpoint bc)) = Some prev) ∨
  (id, prev) ∈ st_checkpoint_links d.
Proof.
  unfold verify_checkpoints. rewrite outcome_bind.
  apply (fold_checked_origin (λ st, (id, prev) ∈ st_checkpoint_links st.2)).
  intros st bc Hbc.
  destruct (verify_checkpoint_cases sid hashes certs revs keys st bc (wf_elem bc Hbc))
    as [(_ & _ & ->)|(_ & d' & Hd & Hm)]; [by right|].
  assert (st_checkpoint_links d' = st_checkpoint_links st.2) as El
    by (by destruct Hd as [(_ & ->)|(_ & ->)]).
  destruct Hm as [(_ & ->)|(-> & _)]; cbn [snd]; [rewrite El; by right|].
  pose proof (countersign_keeps sid keys bc d') as Hk.
  assert (st_checkpoint_links (outcome (check_countersignature sid keys bc d')).2 =
          st_checkpoint_links d') as Ek by apply Hk.
  cbn [bookkeeping st_checkpoint_links]. rewrite Ek, El.
  destruct (cn_prev_checkpoint_hash _) as [p|] eqn:Hp; [|by right].
  intros [?|Hin]%elem_of_app; [by right|]. apply list_elem_of_singleton in Hin as [= -> ->].
  by left.
Qed.

Lemma pass_anchored d : st_anchored_seqs (outcome (pass d)) = st_anchored_seqs d.
Proof.
  unfold verify_checkpoints. rewrite outcome_bind.
  apply (fold_checked_inv (λ st, st_anchored_seqs st.2 = st_anchored_seqs d)); [done|].
  intros st bc Hbc <-. by apply notes_keep, wf_elem.
Qed.

(** A pass without error findings has checked every checkpoint. *)
Lemma pass_clean d :
  clean (pass d) →
  (∀ bc, bc ∈ cps →
     let sc := bc_checkpoint bc in
     admitted sid certs revs sc ∧
     (∀ cs, bc_countersignature bc = Some cs → cs_verified keys cs ∨ keys = ∅) ∧
     (∀ h, countersigned keys bc h → reaches h (outcome (pass d))) ∧
     (∀ h, note_hash (sc_note sc) = Ok h → h ∈ st_checkpoint_note_hashes (outcome (pass d))) ∧
     (∀ p, cn_prev_checkpoint_hash (sc_note sc) = Some p →
        (cn_checkpoint_id (sc_note sc), p) ∈ st_checkpoint_links (outcome (pass d)))).
Proof.
  unfold verify_checkpoints. intros [Hc _]%clean_bind bc Hbc. cbv zeta. rewrite !outcome_bind.
  destruct (fold_checked_clean_elem _ _ _ _ Hc Hbc) as [t Ht].
  pose proof (clean_step _ _ _ _ _ _ _ (wf_elem bc Hbc) Ht) as (Ha & _ & _ & Hcs & _).
  split; [done|]. split; [done|]. split_and!.
  - intros h Hh. apply (fold_checked_establish (λ st, reaches h st.2) _ _ _ bc); [done|done|..].
    + intros s Hs. by apply (clean_step _ _ _ _ _ _ _ (wf_elem bc Hbc) Hs).
    + intros s y Hy. by apply reaches_step_keep, wf_elem.
  - intros h Hh.
    apply (fold_checked_establish (λ st, h ∈ st_checkpoint_note_hashes st.2) _ _ _ bc); [done|done|..].
    + intros s Hs. by apply (clean_step _ _ _ _ _ _ _ (wf_elem bc Hbc) Hs).
    + intros s y Hy. by apply notes_keep, wf_elem.
  - intros p Hp.
    apply (fold_checked_establish (λ st, _ ∈ st_checkpoint_links st.2) _ _ _ bc); [done|done|..].
    + intros s Hs. by apply (clean_step _ _ _ _ _ _ _ (wf_elem bc Hbc) Hs).
    + intros s y Hy. by apply notes_keep, wf_elem.
Qed.

(** A pass without error findings knows all its checkpoints. *)
Lemma pass_known d bc :
  clean (pass d) → bc ∈ cps → known (cn_checkpoint_id (sc_note (bc_checkpoint bc))) (outcome (pass d)).
Proof.
  unfold verify_checkpoints. rewrite outcome_bind. intros [Hc _]%clean_bind Hbc.
  apply (fold_checked_establish (λ st, known _ st.2) _ _ _ bc); [done|done|..].
  - intros st Hs. by apply clean_step_known; [apply wf_elem|].
  - intros st y Hy. by apply known_keep, wf_elem.
Qed.

Abbreviation note bc := (sc_note (bc_checkpoint bc)).

(** No fork: not the same nonempty range under another root. *)
Lemma forks_false n m :
  forks n (range_of m) = false ↔
  ((cn_seq_from m, cn_seq_to m) = (cn_seq_from n, cn_seq_to n) → cn_seq_from m ≤ cn_seq_to m →
   cn_merkle_root m = cn_merkle_root n).
Proof.
  unfold forks, range_of. rewrite !andb_false_iff, !Z.leb_gt, !bool_decide_eq_false.
  split.
  - intros [[[Hc|Hc]|Hne]|Hr] [= Hf Ht] Hle; [lia|lia|by rewrite Hf, Ht in Hne|by apply dec_stable].
  - intros Hm. destruct (decide ((cn_seq_from m, cn_seq_to m) = (cn_seq_from n, cn_seq_to n)))
      as [Heq|]; [|by left; right].
    destruct (decide (cn_seq_from m ≤ cn_seq_to m)) as [Hle|].
    + right. intros Hne. by apply Hne, Hm.
    + injection Heq as Hf Ht. left. left. left. lia.
Qed.

Lemma forks_refl n : forks n (range_of n) = false.
Proof. by apply forks_false. Qed.

Lemma forks_sym n m : forks n (range_of m) = false → forks m (range_of n) = false.
Proof.
  rewrite !forks_false. intros Hf Heq Hle. injection Heq as Hfrom Hto. symmetry.
  apply Hf; [by rewrite Hfrom, Hto|lia].
Qed.

(** When the loop reports no error. *)
Lemma loop_clean l st :
  (∀ bc, bc ∈ l → wf_struct (note bc) = true) →
  clean (fold_checked (verify_checkpoint sid hashes certs revs keys) st l) ↔
  (∀ bc, bc ∈ l → admitted sid certs revs (bc_checkpoint bc) ∧ root_ok hashes (bc_checkpoint bc) ∧
     cs_ok keys bc ∧ Forall (λ r, forks (note bc) r = false) st.1) ∧
  (∀ a b, a ∈ l → b ∈ l → forks (note b) (range_of (note a)) = false).
Proof.
  revert st. induction l as [|x l IH]; intros st Hw; cbn [fold_checked].
  { split; [|intros _; apply clean_ret]. intros _. by split; [intros bc Hbc|intros a b Ha];
      match goal with H : _ ∈ [] |- _ => apply not_elem_of_nil in H end. }
  pose proof (Hw x ltac:(left)) as Hx. rewrite clean_bind, (IH _ ltac:(intros; apply Hw; by right)).
  rewrite (clean_step_iff _ _ _ _ _ _ _ Hx). split.
  - intros [Hok [Hall Hff]].
    assert ((outcome (verify_checkpoint sid hashes certs revs keys st x)).1 =
            st.1 ++ [range_of (note x)]) as Hst
      by (by apply clean_step; [|apply clean_step_iff]).
    rewrite Hst in Hall. setoid_rewrite Forall_app in Hall. setoid_rewrite Forall_singleton in Hall.
    split.
    + intros bc [->|Hbc]%elem_of_cons; [done|]. by destruct (Hall bc Hbc) as (? & ? & ? & ? & _).
    + intros a b [->|Ha]%elem_of_cons [->|Hb]%elem_of_cons; [apply forks_refl|..|by apply Hff].
      * by destruct (Hall b Hb) as (_ & _ & _ & _ & ?).
      * apply forks_sym. by destruct (Hall a Ha) as (_ & _ & _ & _ & ?).
  - intros [Hall Hff]. pose proof (Hall x ltac:(left)) as Hok. split; [done|].
    assert ((outcome (verify_checkpoint sid hashes certs revs keys st x)).1 =
            st.1 ++ [range_of (note x)]) as ->
      by (by apply clean_step; [|apply clean_step_iff]).
    split; [|intros a b Ha Hb; apply Hff; by right].
    intros bc Hbc. rewrite Forall_app, Forall_singleton.
    destruct (Hall bc ltac:(by right)) as (? & ? & ? & ?). split_and!; try done.
    apply Hff; [left|by right].
Qed.

(** The checkpoints of a stream are in order: each was admitted, verifies
    against the records of its range, if these are all there, and carries a
    valid countersignature, if any; and no two fork. *)
Definition checkpoints_ok : Prop :=
  (∀ bc, bc ∈ cps → admitted sid certs revs (bc_checkpoint bc) ∧
     root_ok hashes (bc_checkpoint bc) ∧ cs_ok keys bc) ∧
  ∀ a b, a ∈ cps → b ∈ cps →
    (cn_seq_from (note a), cn_seq_to (note a)) = (cn_seq_from (note b), cn_seq_to (note b)) →
    cn_seq_from (note a) ≤ cn_seq_to (note a) → cn_merkle_root (note a) = cn_merkle_root (note b).

Lemma pass_clean_iff d : clean (pass d) ↔ checkpoints_ok.
Proof.
  unfold verify_checkpoints, checkpoints_ok. rewrite clean_bind, (loop_clean _ _ wf_elem). split.
  - intros [[Hall Hff] _]. split; [|intros a b Ha Hb; by apply forks_false, Hff].
    intros bc Hbc. by destruct (Hall bc Hbc) as (? & ? & ? & _).
  - intros [Hall Hff]. split; [|apply clean_ret]. split.
    + intros bc Hbc. destruct (Hall bc Hbc) as (? & ? & ?). by split_and!.
    + intros a b Ha Hb. by apply forks_false, Hff.
Qed.
End pass_facts.

(** ** Facts: attested records are checkpointed records *)

Lemma root_leaf `{Blake3} hs root i h :
  merkle_root_of_record_hashes hs = Ok root → hs !! i = Some h →
  ∃ x, hex_decode_digest "record_hash" h = Ok x ∧ leaves_of hs !! i = Some x.
Proof.
  intros (ls & Hf & _)%root_of_hashes_Ok Hi.
  destruct (Forall2_lookup_l _ _ _ _ _ Hf Hi) as (x & Hx & Hd).
  exists x. by rewrite (leaves_of_Forall2 _ _ Hf).
Qed.

Lemma hashes_in_lookup hashes from to hs s :
  hashes_in hashes from to = Some hs → from ≤ s ≤ to →
  ∃ h, hashes !! s = Some h ∧ hs !! Z.to_nat (s - from) = Some h.
Proof.
  intros Hm%mapM_Some Hs. unfold range in Hm.
  assert (seqZ from (to - from + 1) !! Z.to_nat (s - from) = Some s) as Hl
    by (apply lookup_seqZ; lia).
  destruct (Forall2_lookup_l _ _ _ _ _ Hm Hl) as (h & Hh & Hk). eauto.
Qed.

(** The hashes that the pass recomputes roots from. *)
Definition covered_hashes (hashes : gmap Z rstring) (bc : BundleCheckpoint) : list rstring :=
  covered hashes (cn_seq_from (sc_note (bc_checkpoint bc))) (cn_seq_to (sc_note (bc_checkpoint bc))).

(** ** Concrete checkpoints *)

Definition demo_hashes : gmap Z rstring :=
  {[ 0 := hex_encode (pad32 [x0a]); 1 := hex_encode (pad32 [x0b]) ]}.

Definition demo_cert_map : gmap rstring (@ValidatedCert toy_ed25519) :=
  {[ str "fp" := @Build_ValidatedCert toy_ed25519 (str "leaf") [x07] (str "fp") 0 1000 ]}.

Definition demo_console_keys : gmap rstring (@verifying_key toy_ed25519) := {[ str "k1" := [x08] ]}.

Definition demo_countersignature : option Countersignature :=
  Eval vm_compute in
  res_ok (@cs_create poly_blake3 toy_ed25519 (str "cp") (str "2001") (str "k1") (Some 1) [x08]).

Definition demo_bc : BundleCheckpoint :=
  {| bc_checkpoint := demo_checkpoint; bc_countersignature := demo_countersignature |}.

(** ** Properties *)

(** C13: Exactly the attested records: after the checkpoint pass a sequence is
    attested if and only if some checkpoint of the bundle covers it that is for
    this stream, carries a valid signature of a validated certificate, is not
    found to be after the revocation of that certificate (a time that does not
    parse is not compared), and whose Merkle root, size and chain head verify
    against all the record hashes of its range. Nothing else matters: a
    checkpoint that forks with another one, or whose countersignature is bad, is
    reported, but it still attests. *)
Theorem attested_iff `{Blake3} `{Ed25519} `{ChronoApi} sid hashes certs revs keys cps s :
  Forall (λ bc, wf_struct (sc_note (bc_checkpoint bc)) = true) cps →
  s ∈ st_attested_seqs (outcome (verify_checkpoints sid hashes certs revs keys cps
    CheckpointData_default)) ↔
  ∃ bc, bc ∈ cps ∧ admitted sid certs revs (bc_checkpoint bc) ∧
    attests hashes (bc_checkpoint bc) ∧
    cn_seq_from (sc_note (bc_checkpoint bc)) ≤ s ≤ cn_seq_to (sc_note (bc_checkpoint bc)).
Proof.
  intros Hwf. rewrite pass_attested by done. split; [|by left].
  intros [?|Hs%not_elem_of_empty]; done.
Qed.

Lemma attested_iff_witness :
  ∃ bc, bc ∈ [demo_bc] ∧ @attests poly_blake3 demo_hashes (bc_checkpoint bc).
Proof.
  destruct (proj1 (@attested_iff poly_blake3 toy_ed25519 millis_chrono (str "S") demo_hashes
    demo_cert_map None demo_console_keys [demo_bc] 1 ltac:(by_compute)))
    as (bc & Hbc & _ & Hat & _); [by_compute|].
  exists bc. split; [exact Hbc|exact Hat].
Defined.

(** C7: Attested records are authentic: if the signatures on the bundle's
    checkpoints are not forgeries (they only verify for digests of notes that
    the recorders built and signed), then the hash of every attested sequence
    is the hash of the record at that place of one of these notes' batches,
    unless BLAKE3 collides on the bytes hashed here. *)
Theorem attested_authentic `{Blake3, !Blake3Len} `{Ed25519} `{ChronoApi} sid hashes certs revs keys
    cps (batches : list (CheckpointNote * list EvRecord)) s :
  s ∈ st_attested_seqs (outcome (verify_checkpoints sid hashes certs revs keys cps
    CheckpointData_default)) →
  (∀ bc cert, bc ∈ cps →
     certs !! cn_recorder_cert_fingerprint (sc_note (bc_checkpoint bc)) = Some cert →
     not_forged (vc_public_key cert) (sc_signature (bc_checkpoint bc))
       ((λ n, blake3_raw (signed_bytes n)) <$> batches.*1)) →
  Forall built batches →
  Forall (λ n, wf_struct n = true ∧ wf_value (to_value n) = true ∧
               is_ok (struct_to_jcs_bytes n) = true)
    ((sc_note ∘ bc_checkpoint <$> cps) ++ batches.*1) →
  collision_free_on blake3_hash
    ((signed_bytes <$> (sc_note ∘ bc_checkpoint <$> cps) ++ batches.*1) ++
     (cps ≫= λ bc, merkle_inputs (leaves_of (covered_hashes hashes bc))) ++
     (batches ≫= λ p, merkle_inputs (leaves_of (rec_record_hash <$> p.2)))) →
  ∃ h p r x, hashes !! s = Some h ∧ p ∈ batches ∧
    p.2 !! Z.to_nat (s - cn_seq_from p.1) = Some r ∧
    hex_decode_digest "record_hash" h = Ok x ∧
    hex_decode_digest "record_hash" (rec_record_hash r) = Ok x.
Proof.
  intros Hs Hnf Hb [Hw1 Hw2]%Forall_app Hcf. apply pass_attested in Hs as [Hs|Hs].
  2: { by apply not_elem_of_empty in Hs. }
  2: { rewrite Forall_fmap in Hw1. eapply Forall_impl; [exact Hw1|]. by intros bc (? & _). }
  destruct Hs as (bc & Hbc & (_ & cert & Hcert & Hv & _) & (hs & Hin & Hr) & Hrange).
  assert (sc_note (bc_checkpoint bc) ∈ sc_note ∘ bc_checkpoint <$> cps) as Hn
    by (apply list_elem_of_fmap; by exists bc).
  destruct (checkpoint_signed (bc_checkpoint bc) (vc_public_key cert) hs batches)
    as (p & Hp & Hnote & Hleaves); try done.
  - by apply (Hnf bc).
  - apply Forall_cons. split; [|done]. rewrite Forall_forall in Hw1. by apply Hw1.
  - eapply collision_free_mono; [|exact Hcf]. intros y [Hy|[Hy|Hy]%elem_of_app]%elem_of_app.
    + apply elem_of_app; left. apply list_elem_of_fmap in Hy as (n & -> & Hy).
      apply list_elem_of_fmap. exists n. split; [done|]. apply elem_of_app.
      apply elem_of_cons in Hy as [->|?]; [by left|by right].
    + apply elem_of_app; right. apply elem_of_app; left. apply list_elem_of_bind. exists bc.
      split; [|done]. unfold covered_hashes. by rewrite (covered_complete _ _ _ hs).
    + apply elem_of_app; right. apply elem_of_app; by right.
  - destruct (hashes_in_lookup _ _ _ _ s Hin Hrange) as (h & Hh & Hi).
    apply verify_root_Ok in Hr as (_ & Hr & _). destruct (root_leaf _ _ _ _ Hr Hi) as (x & Hx & Hlx).
    rewrite Forall_forall in Hb. destruct (built_root p (Hb p Hp)) as (Hroot & _).
    rewrite Hleaves in Hlx. apply root_of_hashes_Ok in Hroot as (ls & Hf & _).
    rewrite (leaves_of_Forall2 _ _ Hf) in Hlx.
    destruct (Forall2_lookup_r _ _ _ _ _ Hf Hlx) as (rh & Hrh & Hrx).
    apply list_lookup_fmap_Some in Hrh as (r & -> & Hrr). rewrite Hnote in Hrr. eauto 10.
Qed.

Lemma attested_authentic_witness :
  ∃ h p r x, demo_hashes !! 1 = Some h ∧ p ∈ [(demo_note, demo_records)] ∧
    p.2 !! Z.to_nat (1 - cn_seq_from p.1) = Some r ∧
    hex_decode_digest "record_hash" h = Ok x ∧
    hex_decode_digest "record_hash" (rec_record_hash r) = Ok x.
Proof.
  apply (@attested_authentic poly_blake3 poly_blake3_len toy_ed25519 millis_chrono (str "S")
    demo_hashes demo_cert_map None demo_console_keys [demo_bc] [(demo_note, demo_records)] 1).
  - by_compute.
  - intros bc cert Hbc Hcert. apply list_elem_of_singleton in Hbc. subst bc.
    unfold demo_cert_map in Hcert. apply lookup_singleton_Some in Hcert as [_ <-].
    apply toy_not_forged. eexists. split; [left|]. vm_compute. split; reflexivity.
  - constructor; [|constructor]. exists (str "cp"), (str "2000"), (str "fp"), (Some (str "00")).
    vm_compute. reflexivity.
  - repeat constructor.
  - by_compute.
Defined.

(** C21: The checkpoint pass decides whether the checkpoints of a stream are in
    order: it reports no error exactly if each of them was admitted (it is for
    the stream, signed by a validated certificate and not found to be after the
    revocation of that certificate), its root verifies against the records of its
    range if these are all there, its countersignature, if it has one, verifies
    under a Console key unless no Console key is known at all (the code only
    warns then), and no two checkpoints cover the same non-empty range with
    different roots. In that case every high-water mark that a known Console key
    countersigned is accounted for. *)
Theorem clean_checkpoints `{Blake3} `{Ed25519} `{ChronoApi} sid hashes certs revs keys cps :
  Forall (λ bc, wf_struct (sc_note (bc_checkpoint bc)) = true) cps →
  let m := verify_checkpoints sid hashes certs revs keys cps CheckpointData_default in
  (clean m ↔ checkpoints_ok sid hashes certs revs keys cps) ∧
  (clean m → ∀ bc h, bc ∈ cps → countersigned keys bc h →
     ∃ hw, st_countersigned_high_water (outcome m) = Some hw ∧ h ≤ hw).
Proof.
  intros Hwf m. split; [by apply pass_clean_iff|]. intros Hc bc h Hbc Hh.
  destruct (pass_clean _ _ _ _ _ _ Hwf _ Hc bc Hbc) as (_ & _ & Hr & _). by apply Hr.
Qed.

Lemma clean_checkpoints_witness :
  @checkpoints_ok poly_blake3 toy_ed25519 millis_chrono (str "S") demo_hashes demo_cert_map None
    demo_console_keys [demo_bc] ∧
  ∃ hw, st_countersigned_high_water (outcome (@verify_checkpoints poly_blake3 toy_ed25519
    millis_chrono (str "S") demo_hashes demo_cert_map None demo_console_keys [demo_bc]
    CheckpointData_default)) = Some hw ∧ 1 ≤ hw.
Proof.
  destruct (@clean_checkpoints poly_blake3 toy_ed25519 millis_chrono (str "S") demo_hashes
    demo_cert_map None demo_console_keys [demo_bc] ltac:(by_compute)) as [Hiff Hhw].
  split; [apply Hiff; by_compute|]. apply (Hhw ltac:(by_compute) demo_bc); [left|].
  eexists _, (str "k1"), [x08]. split; [reflexivity|]. split; [reflexivity|].
  vm_compute. split; reflexivity.
Defined.
