(* ===== verification/Anchoring.v ===== *)
(** * Anchor verification (verify/src/engine.rs: [verify_anchors])

    A batch binds checkpoint digests to a time-stamp token: the token is over
    SHA-256 of the batch root, and each inclusion proves a leaf under the root.
    The streams are a [BTreeMap], modelled as its list of entries in key order. *)

From Stdlib Require Import Strings.Byte.
From S2P Require Import Prelude Text Errors Hash Merkle Json Jcs JcsFacts Record Chain Keys.
From S2P Require Import Checkpoint Revocation Certs Bundle Anchors Report Reader Tsa Ctx Streams.
From S2P Require Import Identity Attest.

Abbreviation PerStream := (list (rstring * StreamData)).

(** [BTreeMap::insert] and [get_mut] on the list of entries. *)
Fixpoint bt_insert {V} (k : rstring) (v : V) (m : list (rstring * V)) : list (rstring * V) :=
  match m with
  | [] => [(k, v)]
  | (k', v') :: m =>
    if decide (k = k') then (k, v) :: m
    else if str_ltb k k' then (k, v) :: (k', v') :: m
    else (k', v') :: bt_insert k v m
  end.

Definition bt_alter {V} (f : V → V) (k : rstring) (m : list (rstring * V)) : list (rstring * V) :=
  (λ e, if decide (e.1 = k) then (e.1, f e.2) else e) <$> m.

Global Instance DailyRoot_serialize : Serialize DailyRoot := λ d,
  Object ([(str "day", String (dr_day d)); (str "root_blake3", String (dr_root_blake3 d));
           (str "root_sha256", String (dr_root_sha256 d))] ++
          opt_field "prev_day_hash" (String <$> dr_prev_day_hash d) ++
          [(str "batch_roots", Array (String <$> dr_batch_roots d))] ++
          opt_field "qts_file" (String <$> dr_qts_file d) ++
          opt_field "signature" (String <$> dr_signature d) ++
          opt_field "console_key_id" (String <$> dr_console_key_id d)).

Definition set_anchored (a : gset Z) (d : CheckpointData) : CheckpointData :=
  {| st_attested_seqs := st_attested_seqs d; st_anchored_seqs := a;
     st_checkpoint_digests := st_checkpoint_digests d;
     st_valid_checkpoint_ranges := st_valid_checkpoint_ranges d;
     st_checkpoint_note_hashes := st_checkpoint_note_hashes d;
     st_checkpoint_links := st_checkpoint_links d;
     st_countersigned_checkpoints := st_countersigned_checkpoints d;
     st_countersigned_high_water := st_countersigned_high_water d;
     st_top_checkpoint := st_top_checkpoint d |}.

(** The loop over the range of an anchored checkpoint. *)
Definition anchor_range (cp_id : rstring) (d : CheckpointData) : CheckpointData :=
  match st_valid_checkpoint_ranges d !! cp_id with
  | Some (from, to) =>
    set_anchored (list_to_set (filter (λ s, s ∈ st_attested_seqs d) (range from to)) ∪
                  st_anchored_seqs d) d
  | None => d
  end.

Definition anchor_stream (cp_id : rstring) (data : StreamData) : StreamData :=
  {| st_chain := st_chain data; st_cps := anchor_range cp_id (st_cps data) |}.

(** The loop over the checkpoints of a batch whose token verified. *)
Definition mark_anchored (per_stream : PerStream) (batch_checkpoints : list (rstring * rstring))
    : PerStream :=
  foldl (λ ps p, bt_alter (anchor_stream p.2) p.1 ps) per_stream batch_checkpoints.

(** The first stream that has a digest for the checkpoint. *)
Fixpoint find_checkpoint (cp_id : rstring) (per_stream : PerStream) : option (rstring * bytes) :=
  match per_stream with
  | [] => None
  | (stream_id, data) :: per_stream =>
    match st_checkpoint_digests (st_cps data) !! cp_id with
    | Some digest => Some (stream_id, digest)
    | None => find_checkpoint cp_id per_stream
    end
  end.

Section anchors.
Context `{Blake3} `{Sha256} `{Ed25519} `{TsaApi} `{ZipApi}.
Context (reader : BundleReader) (console_keys : gmap rstring verifying_key).

(** One iteration of the loop over the inclusions of a batch. *)
Definition check_inclusion (root_blake3 : rstring) (per_stream : PerStream)
    (batch_checkpoints : list (rstring * rstring)) (inc : CheckpointInclusion)
    : Checked (list (rstring * rstring)) :=
  match verify_stored_inclusion inc root_blake3 with
  | Err _ => _ ← add Error "anchor_inclusion_invalid"; mret batch_checkpoints
  | Ok _ =>
    match find_checkpoint (ci_checkpoint_id inc) per_stream with
    | Some (stream_id, digest) =>
      let leaf := default (replicate 32 x00) (res_ok (hex_decode_digest "inclusion.leaf" (ci_leaf inc))) in
      if decide (leaf = digest) then
        mret (batch_checkpoints ++ [(stream_id, ci_checkpoint_id inc)])
      else _ ← add Error "anchor_leaf_mismatch"; mret batch_checkpoints
    | None => _ ← add Info "anchor_checkpoint_not_in_export"; mret batch_checkpoints
    end
  end.

Abbreviation AnchorState := (PerStream * option rstring)%type.

(** The token of a batch. *)
Definition check_token (batch : AnchorBatch) (batch_checkpoints : list (rstring * rstring))
    (st : AnchorState) : Checked AnchorState :=
  match ab_tsr_file batch with
  | Some path =>
    match hex_decode "root_sha256" (ab_root_sha256 batch) with
    | Err _ => mret st
    | Ok sha =>
      if decide (length sha = 32%nat) then
        match entry_bytes reader path with
        | Ok bytes =>
          match verify_token bytes sha with
          | Ok token =>
            _ ← add Info "anchor_verified";
            mret (mark_anchored st.1 batch_checkpoints,
                  keep_best str_ltb st.2 (vt_gen_time token))
          | Err _ => _ ← add Error "anchor_invalid"; mret st
          end
        | Err _ => _ ← add Error "anchor_token_missing"; mret st
        end
      else mret st
    end
  | None => _ ← add Warning "anchor_pending"; mret st
  end.

(** One iteration of the loop over the batches. *)
Definition check_batch (st : AnchorState) (batch : AnchorBatch) : Checked AnchorState :=
  match hex_decode_digest "root_blake3" (ab_root_blake3 batch) with
  | Err _ => _ ← add Error "anchor_invalid"; mret st
  | Ok root_raw =>
    if decide (sha256_hex root_raw ≠ ab_root_sha256 batch) then
      _ ← add Error "anchor_digest_binding_broken"; mret st
    else
      batch_checkpoints ← fold_checked (check_inclusion (ab_root_blake3 batch) st.1) []
        (ab_checkpoints batch);
      check_token batch batch_checkpoints st
  end.

Definition unsigned_day (d : DailyRoot) : DailyRoot :=
  {| dr_day := dr_day d; dr_root_blake3 := dr_root_blake3 d; dr_root_sha256 := dr_root_sha256 d;
     dr_prev_day_hash := dr_prev_day_hash d; dr_batch_roots := dr_batch_roots d;
     dr_qts_file := dr_qts_file d; dr_signature := None; dr_console_key_id := dr_console_key_id d |}.

Definition check_day_signature (day : DailyRoot) : Checked unit :=
  match dr_signature day, dr_console_key_id day with
  | Some sg, Some _ =>
    let ok := any_value (λ k, is_ok (verify_jcs k (unsigned_day day) sg "daily root")) console_keys in
    when (negb ok && negb (map_is_empty console_keys)) (add Error "daily_root_signature_invalid")
  | _, _ => mret tt
  end.

(** The qualified time-stamp of a day. *)
Definition check_qts (earliest : option rstring) (day : DailyRoot) : Checked (option rstring) :=
  match dr_qts_file day with
  | Some qts =>
    match hex_decode_digest "daily.root_blake3" (dr_root_blake3 day) with
    | Err _ => mret earliest
    | Ok root_raw =>
      let sha := sha256_raw root_raw in
      match entry_bytes reader qts with
      | Ok bytes =>
        match verify_token bytes sha with
        | Ok token => _ ← add Info "qts_verified"; mret (keep_best str_ltb earliest (vt_gen_time token))
        | Err _ => _ ← add Error "qts_invalid"; mret earliest
        end
      | Err _ => _ ← add Error "qts_token_missing"; mret earliest
      end
    end
  | None => mret earliest
  end.

(** One iteration of the loop over the daily roots. *)
Definition check_day (earliest : option rstring) (day : DailyRoot) : Checked (option rstring) :=
  match mapM (hex_decode_digest "batch_root") (dr_batch_roots day) with
  | Err _ => _ ← add Error "daily_root_invalid"; mret earliest
  | Ok leaves =>
    if decide (hex_encode (merkle_root leaves) ≠ dr_root_blake3 day) then
      _ ← add Error "daily_root_mismatch"; mret earliest
    else
      _ ← check_day_signature day;
      check_qts earliest day
  end.

Definition verify_anchors (proofs : AnchorProofs) (per_stream : PerStream) : Checked AnchorState :=
  st ← fold_checked check_batch (per_stream, None) (ap_batches proofs);
  earliest ← fold_checked check_day st.2 (ap_daily proofs);
  mret (st.1, earliest).
End anchors.

(** ** Facts: what is anchored *)

Lemma set_anchored_self d : set_anchored (st_anchored_seqs d) d = d.
Proof. by destruct d. Qed.

Lemma find_checkpoint_Some id ps sid x :
  find_checkpoint id ps = Some (sid, x) →
  ∃ data, (sid, data) ∈ ps ∧ st_checkpoint_digests (st_cps data) !! id = Some x.
Proof.
  induction ps as [|[k data] ps IH]; [done|]. cbn.
  destruct (st_checkpoint_digests (st_cps data) !! id) as [y|] eqn:Hl.
  - intros [= -> ->]. exists data. split; [left|done].
  - intros Hf. destruct (IH Hf) as (d & Hd & Hx). exists d. split; [by right|done].
Qed.

Lemma find_checkpoint_exists id ps sid data :
  (sid, data) ∈ ps → is_Some (st_checkpoint_digests (st_cps data) !! id) → is_Some (find_checkpoint id ps).
Proof.
  induction ps as [|[k d] ps IH]; [by intros ?%not_elem_of_nil|]. cbn.
  intros Hin Hd. destruct (st_checkpoint_digests (st_cps d) !! id) as [x|] eqn:Hx; [by eexists|].
  apply elem_of_cons in Hin as [Heq|Hin]; [|by apply IH]. injection Heq as <- <-.
  rewrite Hx in Hd. by destruct Hd.
Qed.

(** Marking keeps the digests, so it does not change what a proof must show. *)
Definition same_digests (e0 e : rstring * StreamData) : Prop :=
  e.1 = e0.1 ∧ st_checkpoint_digests (st_cps e.2) = st_checkpoint_digests (st_cps e0.2).

Lemma find_checkpoint_same id ps ps' :
  Forall2 same_digests ps ps' → find_checkpoint id ps' = find_checkpoint id ps.
Proof.
  induction 1 as [|[k0 d0] [k d] l l' [Hk Hd] _ IH]; [done|]. cbn in *. by rewrite Hk, Hd, IH.
Qed.

(** An entry of the map and what it has become when exactly the sequences of
    [Q] were anchored. *)
Definition anchors_to (Q : rstring → CheckpointData → Z → Prop) (e0 e : rstring * StreamData) : Prop :=
  e.1 = e0.1 ∧ st_chain e.2 = st_chain e0.2 ∧
  ∃ a, st_cps e.2 = set_anchored a (st_cps e0.2) ∧
    ∀ s, s ∈ a ↔ s ∈ st_anchored_seqs (st_cps e0.2) ∨ Q e0.1 (st_cps e0.2) s.

(** An attested sequence in the range of that checkpoint of that stream. *)
Definition in_checkpoint (sid id : rstring) (k : rstring) (d : CheckpointData) (s : Z) : Prop :=
  k = sid ∧ s ∈ st_attested_seqs d ∧
  ∃ from to, st_valid_checkpoint_ranges d !! id = Some (from, to) ∧ from ≤ s ≤ to.

Lemma anchors_to_iff Q Q' ps0 ps :
  (∀ k d s, Q k d s ↔ Q' k d s) → Forall2 (anchors_to Q) ps0 ps → Forall2 (anchors_to Q') ps0 ps.
Proof.
  intros HQ Hps. eapply Forall2_impl; [exact Hps|]. intros e0 e (Hk & Hc & a & Ha & Hs).
  split; [done|]. split; [done|]. exists a. split; [done|]. intros s. by rewrite Hs, HQ.
Qed.

Lemma anchors_to_refl ps : Forall2 (anchors_to (λ _ _ _, False)) ps ps.
Proof.
  apply Forall_Forall2_diag, Forall_forall. intros e _. split; [done|]. split; [done|].
  exists (st_anchored_seqs (st_cps e.2)). rewrite set_anchored_self. split; [done|]. intros s. naive_solver.
Qed.

Lemma anchors_to_keys Q ps0 ps : Forall2 (anchors_to Q) ps0 ps → ps.*1 = ps0.*1.
Proof. induction 1 as [|e0 e ps0 ps (Heq & _) _ IH]; [done|]. cbn. by rewrite Heq, IH. Qed.

Lemma anchors_to_elem Q ps0 ps e :
  Forall2 (anchors_to Q) ps0 ps → e ∈ ps → ∃ e0, e0 ∈ ps0 ∧ anchors_to Q e0 e.
Proof.
  intros Hps (i & Hi)%list_elem_of_lookup. destruct (Forall2_lookup_r _ _ _ _ _ Hps Hi) as (e0 & He0 & ?).
  exists e0. split; [by eapply list_elem_of_lookup_2|done].
Qed.

Lemma anchors_to_same Q ps0 ps : Forall2 (anchors_to Q) ps0 ps → Forall2 same_digests ps0 ps.
Proof.
  intros Hps. eapply Forall2_impl; [exact Hps|]. intros e0 e (Hk & _ & a & Ha & _).
  split; [done|]. by rewrite Ha.
Qed.

Lemma bt_alter_anchors Q id sid ps0 ps :
  Forall2 (anchors_to Q) ps0 ps →
  Forall2 (anchors_to (λ k d s, Q k d s ∨ in_checkpoint sid id k d s)) ps0
    (bt_alter (anchor_stream id) sid ps).
Proof.
  intros Hps. unfold bt_alter. apply Forall2_fmap_r. eapply Forall2_impl; [exact Hps|].
  intros e0 e (Hk & Hc & a & Ha & Hs). unfold anchors_to, in_checkpoint, compose.
  case_decide as Hsid.
  - cbn [fst snd anchor_stream st_chain st_cps]. split; [done|]. split; [done|].
    unfold anchor_range. rewrite Ha. cbn [st_valid_checkpoint_ranges set_anchored].
    destruct (st_valid_checkpoint_ranges (st_cps e0.2) !! id) as [[from to]|] eqn:Hr.
    + eexists. split; [reflexivity|]. intros s. cbn [set_anchored st_anchored_seqs st_attested_seqs].
      rewrite elem_of_union, elem_of_list_to_set, list_elem_of_filter, elem_of_range, Hs. naive_solver.
    + exists a. split; [done|]. intros s. rewrite Hs. naive_solver.
  - split; [done|]. split; [done|]. exists a. split; [done|]. intros s. rewrite Hs.
    split; [naive_solver|]. intros [?|[?|(Heq & _)]]; [by left|by right|congruence].
Qed.

Lemma mark_anchored_to Q ps0 ps cps :
  Forall2 (anchors_to Q) ps0 ps →
  Forall2 (anchors_to (λ k d s, Q k d s ∨ ∃ p, p ∈ cps ∧ in_checkpoint p.1 p.2 k d s)) ps0
    (mark_anchored ps cps).
Proof.
  unfold mark_anchored. revert Q ps. induction cps as [|p cps IH]; intros Q ps Hps; cbn.
  - eapply anchors_to_iff; [|exact Hps]. intros k d s. setoid_rewrite elem_of_nil. naive_solver.
  - eapply anchors_to_iff; [|apply IH, bt_alter_anchors, Hps]. intros k d s. cbn beta.
    setoid_rewrite elem_of_cons. naive_solver.
Qed.

Section facts.
Context `{Blake3} `{Sha256} `{Ed25519} `{TsaApi} `{ZipApi}.
Context (reader : BundleReader) (ps0 : PerStream).

(** When a batch anchors a sequence of a stream: an inclusion proof that
    verifies against the batch root names a checkpoint that is found in this
    stream with the leaf as its digest and that has the sequence in its range;
    and the token of the batch verifies for the SHA-256 digest of the root. *)
Definition batch_anchors (batch : AnchorBatch) (k : rstring) (d : CheckpointData) (s : Z) : Prop :=
  ∃ inc root leaf from to path bs t,
    inc ∈ ab_checkpoints batch ∧
    hex_decode_digest "root_blake3" (ab_root_blake3 batch) = Ok root ∧
    sha256_hex root = ab_root_sha256 batch ∧ length (sha256_raw root) = 32%nat ∧
    verify_stored_inclusion inc (ab_root_blake3 batch) = Ok tt ∧
    hex_decode_digest "inclusion.leaf" (ci_leaf inc) = Ok leaf ∧
    find_checkpoint (ci_checkpoint_id inc) ps0 = Some (k, leaf) ∧
    st_valid_checkpoint_ranges d !! ci_checkpoint_id inc = Some (from, to) ∧ from ≤ s ≤ to ∧
    ab_tsr_file batch = Some path ∧ entry_bytes reader path = Ok bs ∧
    verify_token bs (sha256_raw root) = Ok t.

Definition anchored_by (batches : list AnchorBatch) (k : rstring) (d : CheckpointData) (s : Z) : Prop :=
  s ∈ st_attested_seqs d ∧ ∃ batch, batch ∈ batches ∧ batch_anchors batch k d s.

Lemma stored_inclusion_leaf inc root :
  verify_stored_inclusion inc root = Ok tt →
  ∃ leaf, hex_decode_digest "inclusion.leaf" (ci_leaf inc) = Ok leaf.
Proof. unfold verify_stored_inclusion. intros (leaf & Hl & _)%bind_Ok. eauto. Qed.

(** The checkpoints that a batch is found to contain. *)
Lemma inclusions_found root ps incs p :
  p ∈ outcome (fold_checked (check_inclusion root ps) [] incs) ↔
  ∃ inc, inc ∈ incs ∧ ci_checkpoint_id inc = p.2 ∧ verify_stored_inclusion inc root = Ok tt ∧
    ∃ leaf, hex_decode_digest "inclusion.leaf" (ci_leaf inc) = Ok leaf ∧
      find_checkpoint (ci_checkpoint_id inc) ps = Some (p.1, leaf).
Proof.
  rewrite (fold_checked_collect (λ acc, p ∈ acc) (λ inc, ci_checkpoint_id inc = p.2 ∧
    verify_stored_inclusion inc root = Ok tt ∧
    ∃ leaf, hex_decode_digest "inclusion.leaf" (ci_leaf inc) = Ok leaf ∧
      find_checkpoint (ci_checkpoint_id inc) ps = Some (p.1, leaf))).
  - split; [intros [?|Hp%not_elem_of_nil]; done|by left].
  - intros acc inc _. unfold check_inclusion.
    destruct (verify_stored_inclusion inc root) as [[]|] eqn:Hv; [|cbn; naive_solver].
    destruct (stored_inclusion_leaf _ _ Hv) as [leaf Hl]. rewrite Hl. cbn [res_ok from_option default id].
    destruct (find_checkpoint _ ps) as [[sid dg]|] eqn:Hf; [|cbn; naive_solver].
    case_decide as Hd; cbn [outcome mret checked_ret mbind checked_bind].
    + subst dg. rewrite elem_of_app, list_elem_of_singleton. destruct p as [p1 p2]. cbn. naive_solver.
    + naive_solver.
Qed.

(** One batch anchors what it says. *)
Lemma check_batch_to Q st batch :
  Forall2 (anchors_to Q) ps0 st.1 →
  Forall2 (anchors_to (λ k d s, Q k d s ∨ (s ∈ st_attested_seqs d ∧ batch_anchors batch k d s))) ps0
    (outcome (check_batch reader st batch)).1.
Proof.
  intros Hps. pose proof (anchors_to_same _ _ _ Hps) as Hsame. unfold check_batch.
  assert ((∀ k d s, ¬ batch_anchors batch k d s) → Forall2 (anchors_to (λ k d s,
    Q k d s ∨ (s ∈ st_attested_seqs d ∧ batch_anchors batch k d s))) ps0 st.1) as Hnone.
  { intros Hn. eapply anchors_to_iff; [|exact Hps]. intros k d s. specialize (Hn k d s). naive_solver. }
  destruct (hex_decode_digest _ _) as [root|] eqn:Hroot.
  2: { apply Hnone. intros k d s (? & ? & ? & ? & ? & ? & ? & ? & _ & ? & _). congruence. }
  case_decide as Hsha.
  { apply Hnone. intros k d s (? & ? & ? & ? & ? & ? & ? & ? & _ & ? & ? & _). congruence. }
  rewrite outcome_bind. unfold check_token.
  assert (∀ k d s, batch_anchors batch k d s → length (sha256_raw root) = 32%nat ∧
    ∃ path bs t, ab_tsr_file batch = Some path ∧ entry_bytes reader path = Ok bs ∧
      verify_token bs (sha256_raw root) = Ok t) as Htok.
  { intros k d s (? & r & ? & ? & ? & p & b & t & _ & ? & _ & ? & _ & _ & _ & _ & _ & ? & ? & ?).
    assert (r = root) as -> by congruence. split; [done|]. by exists p, b, t. }
  destruct (ab_tsr_file batch) as [path|] eqn:Hpath.
  2: { apply Hnone. by intros k d s (_ & ? & ? & ? & ? & _)%Htok. }
  rewrite <-Hsha. unfold sha256_hex. rewrite hex_decode_encode.
  case_decide as Hlen; [|apply Hnone; by intros k d s [? _]%Htok].
  destruct (entry_bytes reader path) as [bs|] eqn:Hbs.
  2: { apply Hnone. intros k d s (_ & ? & ? & ? & [= <-] & ? & _)%Htok. congruence. }
  destruct (verify_token bs (sha256_digest root)) as [t|] eqn:Ht.
  2: { apply Hnone. intros k d s (_ & ? & ? & ? & [= <-] & ? & Hv)%Htok. unfold sha256_raw in Hv. congruence. }
  cbn [mbind checked_bind mret checked_ret outcome fst].
  eapply anchors_to_iff; [|by apply mark_anchored_to]. intros k d s. apply or_iff_compat_l.
  setoid_rewrite inclusions_found. setoid_rewrite (find_checkpoint_same _ _ _ Hsame).
  unfold in_checkpoint, batch_anchors. split.
  - intros (p & (inc & Hinc & Hid & Hv & leaf & Hl & Hf) & -> & Hat & from & to & Hr & Hrg).
    split; [done|]. rewrite <-Hid in Hr. exists inc, root, leaf, from, to, path, bs, t. split_and!; try done; apply Hrg.
  - intros (Hat & inc & root' & leaf & from & to & path' & bs' & t' & Hinc & Hroot' & _ & _ & Hv & Hl & Hf &
      Hr & Hrg & _).
    exists (k, ci_checkpoint_id inc). split; [exists inc; by eauto 10|]. split; [done|]. split; [done|]. by eauto.
Qed.

(** The anchor pass anchors exactly what the batches anchor. *)
Lemma check_batches_to batches Q st :
  Forall2 (anchors_to Q) ps0 st.1 →
  Forall2 (anchors_to (λ k d s, Q k d s ∨ anchored_by batches k d s)) ps0
    (outcome (fold_checked (check_batch reader) st batches)).1.
Proof.
  revert Q st. induction batches as [|b batches IH]; intros Q st Hps.
  - eapply anchors_to_iff; [|exact Hps]. intros k d s. unfold anchored_by.
    setoid_rewrite elem_of_nil. naive_solver.
  - cbn [fold_checked]. rewrite outcome_bind.
    eapply anchors_to_iff; [|by apply IH, check_batch_to]. intros k d s. cbn beta. unfold anchored_by.
    setoid_rewrite elem_of_cons. clear. naive_solver.
Qed.
End facts.

Section pass_facts.
Context `{Blake3} `{Sha256} `{Ed25519} `{TsaApi} `{ZipApi}.

Lemma anchors_exactly reader keys proofs ps :
  Forall2 (anchors_to (anchored_by reader ps (ap_batches proofs))) ps
    (outcome (verify_anchors reader keys proofs ps)).1.
Proof.
  unfold verify_anchors. rewrite !outcome_bind. cbn [outcome mret checked_ret fst].
  eapply anchors_to_iff; [|apply check_batches_to, anchors_to_refl]. intros k d s. naive_solver.
Qed.

(** A time that a verified token over the root of a batch or of a day gives. *)
Definition token_time (reader : BundleReader) (file : option rstring) (root_hex : rstring)
    (g : rstring) : Prop :=
  ∃ field path root bs t, file = Some path ∧ hex_decode_digest field root_hex = Ok root ∧
    entry_bytes reader path = Ok bs ∧ verify_token bs (sha256_raw root) = Ok t ∧ vt_gen_time t = g.

Lemma keep_best_Some better best x g : keep_best better best x = Some g → x = g ∨ best = Some g.
Proof. unfold keep_best. repeat case_match; naive_solver. Qed.

Lemma check_batch_time reader st batch g :
  (outcome (check_batch reader st batch)).2 = Some g →
  token_time reader (ab_tsr_file batch) (ab_root_blake3 batch) g ∨ st.2 = Some g.
Proof.
  unfold check_batch. destruct (hex_decode_digest _ _) as [root|] eqn:Hroot; [|by right].
  case_decide as Hsha; [by right|]. rewrite outcome_bind. unfold check_token.
  destruct (ab_tsr_file batch) as [path|]; [|by right].
  rewrite <-Hsha. unfold sha256_hex. rewrite hex_decode_encode. case_decide; [|by right].
  destruct (entry_bytes reader path) as [bs|] eqn:Hbs; [|by right].
  destruct (verify_token bs (sha256_digest root)) as [t|] eqn:Ht; [|by right].
  cbn [mbind checked_bind mret checked_ret outcome snd]. intros [<-|?]%keep_best_Some; [|by right].
  left. by exists "root_blake3"%string, path, root, bs, t.
Qed.

Lemma check_day_time reader keys earliest day g :
  outcome (check_day reader keys earliest day) = Some g →
  token_time reader (dr_qts_file day) (dr_root_blake3 day) g ∨ earliest = Some g.
Proof.
  unfold check_day. destruct (mapM _ _) as [leaves|]; [|by right]. case_decide; [by right|].
  rewrite outcome_bind. unfold check_qts. destruct (dr_qts_file day) as [path|]; [|by right].
  destruct (hex_decode_digest _ _) as [root|] eqn:Hroot; [|by right].
  destruct (entry_bytes reader path) as [bs|] eqn:Hbs; [|by right].
  destruct (verify_token bs (sha256_raw root)) as [t|] eqn:Ht; [|by right].
  cbn [mbind checked_bind mret checked_ret outcome]. intros [<-|?]%keep_best_Some; [|by right].
  left. by exists "daily.root_blake3"%string, path, root, bs, t.
Qed.

Lemma anchors_time reader keys proofs ps g :
  (outcome (verify_anchors reader keys proofs ps)).2 = Some g →
  (∃ b, b ∈ ap_batches proofs ∧ token_time reader (ab_tsr_file b) (ab_root_blake3 b) g) ∨
  (∃ d, d ∈ ap_daily proofs ∧ token_time reader (dr_qts_file d) (dr_root_blake3 d) g).
Proof.
  unfold verify_anchors. rewrite !outcome_bind. cbn [outcome mret checked_ret snd].
  intros [Hd|Hb]%(fold_checked_origin (λ e, e = Some g)
    (λ d, token_time reader (dr_qts_file d) (dr_root_blake3 d) g)); [by right| |].
  - left. apply (fold_checked_origin (λ st, st.2 = Some g)
      (λ b, token_time reader (ab_tsr_file b) (ab_root_blake3 b) g)) in Hb as [?|?]; [done|done|].
    intros st b _. apply check_batch_time.
  - intros e d _. apply check_day_time.
Qed.
End pass_facts.

(** ** Facts: when the anchors raise no error *)

Section anchor_spec.
Context `{Blake3, !Blake3Len} `{Sha256, !Sha256Len} `{Ed25519} `{TsaApi} `{ZipApi}.
Context (reader : BundleReader) (console_keys : gmap rstring verifying_key) (ps : PerStream).

(** A time-stamp token of the bundle over the digest of a root. *)
Definition token_ok (path : rstring) (root : bytes) : Prop :=
  ∃ bs t, entry_bytes reader path = Ok bs ∧ verify_token bs (sha256_raw root) = Ok t.

(** An inclusion proof that verifies, for the note of the checkpoint that it
    names if that checkpoint is in the bundle. *)
Definition inclusion_ok (root_blake3 : rstring) (inc : CheckpointInclusion) : Prop :=
  verify_stored_inclusion inc root_blake3 = Ok tt ∧
  ∀ sid digest, find_checkpoint (ci_checkpoint_id inc) ps = Some (sid, digest) →
    hex_decode_digest "inclusion.leaf" (ci_leaf inc) = Ok digest.

Definition batch_ok (batch : AnchorBatch) : Prop :=
  ∃ root, hex_decode_digest "root_blake3" (ab_root_blake3 batch) = Ok root ∧
    ab_root_sha256 batch = sha256_hex root ∧
    (∀ inc, inc ∈ ab_checkpoints batch → inclusion_ok (ab_root_blake3 batch) inc) ∧
    ∀ path, ab_tsr_file batch = Some path → token_ok path root.

Definition day_ok (day : DailyRoot) : Prop :=
  ∃ leaves, mapM (hex_decode_digest "batch_root") (dr_batch_roots day) = Ok leaves ∧
    dr_root_blake3 day = hex_encode (merkle_root leaves) ∧
    (∀ sg kid, dr_signature day = Some sg → dr_console_key_id day = Some kid →
       console_keys = ∅ ∨ ∃ kid' k, console_keys !! kid' = Some k ∧
         verify_jcs k (unsigned_day day) sg "daily root" = Ok tt) ∧
    ∀ path, dr_qts_file day = Some path → token_ok path (merkle_root leaves).

Definition anchors_ok (proofs : AnchorProofs) : Prop :=
  (∀ batch, batch ∈ ap_batches proofs → batch_ok batch) ∧
  (∀ day, day ∈ ap_daily proofs → day_ok day).

Lemma bt_alter_same id sid l l' :
  Forall2 same_digests l l' → Forall2 same_digests l (bt_alter (anchor_stream id) sid l').
Proof.
  unfold bt_alter. induction 1 as [|e0 e l l' [Hk Hd] _ IH]; [constructor|].
  cbn. constructor; [|exact IH].
  case_decide; [|done]. split; [done|]. cbn [snd anchor_stream st_cps]. rewrite <-Hd. unfold anchor_range.
  by destruct (st_valid_checkpoint_ranges (st_cps e.2) !! id) as [[]|].
Qed.

Lemma mark_anchored_same cps ps' : Forall2 same_digests ps ps' → Forall2 same_digests ps (mark_anchored ps' cps).
Proof.
  unfold mark_anchored. revert ps'. induction cps as [|p cps IH]; intros ps' Hps; [done|]. cbn.
  by apply IH, bt_alter_same.
Qed.

Lemma check_inclusion_clean root_blake3 ps' acc inc :
  Forall2 same_digests ps ps' →
  clean (check_inclusion root_blake3 ps' acc inc) ↔ inclusion_ok root_blake3 inc.
Proof.
  intros Hps. unfold check_inclusion, inclusion_ok. rewrite (find_checkpoint_same _ _ _ Hps).
  destruct (verify_stored_inclusion inc root_blake3) as [[]|] eqn:Hv;
    [|split; [by intros ?%error_unclean|by intros [? _]]].
  destruct (stored_inclusion_leaf _ _ Hv) as [leaf Hl]. rewrite Hl. cbn [res_ok from_option default id].
  destruct (find_checkpoint _ ps) as [[sid digest]|]; [|by split; [|repeat constructor]].
  case_decide as Hd.
  - subst. split; [by intros _; split; [|intros ? ? [= _ <-]]|constructor].
  - split; [by intros ?%error_unclean|]. intros [_ Hok]. destruct Hd. by injection (Hok _ _ eq_refl).
Qed.

Lemma check_day_signature_clean day :
  clean (check_day_signature console_keys day) ↔
  ∀ sg kid, dr_signature day = Some sg → dr_console_key_id day = Some kid →
    console_keys = ∅ ∨ ∃ kid' k, console_keys !! kid' = Some k ∧
      verify_jcs k (unsigned_day day) sg "daily root" = Ok tt.
Proof.
  unfold check_day_signature. destruct (dr_signature day) as [sg|]; [|by split; [|constructor]].
  destruct (dr_console_key_id day) as [kid|]; [|by split; [|constructor]].
  rewrite clean_when, clean_add, andb_true_iff, !negb_true_iff, <-not_true_iff_false, any_value_true.
  rewrite <-not_true_iff_false, map_is_empty_true. setoid_rewrite is_ok_unit. split.
  - intros Hc ? ? [= <-] [= <-]. destruct (decide (console_keys = ∅)); [by left|right].
    destruct (any_value (λ k, is_ok (verify_jcs k (unsigned_day day) sg "daily root")) console_keys) eqn:Ha.
    + apply any_value_true in Ha. by setoid_rewrite is_ok_unit in Ha.
    + exfalso. apply Hc; [|done]. split; [|done]. intros Hex.
      apply not_true_iff_false in Ha. apply Ha, any_value_true. by setoid_rewrite is_ok_unit.
  - intros Hok [Hn Hne]. destruct (Hok _ _ eq_refl eq_refl); [done|by destruct Hn].
Qed.

Lemma check_batch_clean st batch :
  Forall2 same_digests ps st.1 →
  (clean (check_batch reader st batch) ↔ batch_ok batch) ∧
  Forall2 same_digests ps (outcome (check_batch reader st batch)).1.
Proof.
  intros Hps. unfold check_batch, batch_ok.
  destruct (hex_decode_digest "root_blake3" (ab_root_blake3 batch)) as [root|] eqn:Hroot.
  2: { split; [|done]. split; [by intros ?%error_unclean|by intros (? & ? & _)]. }
  case_decide as Hsha.
  { split; [|done]. split; [by intros ?%error_unclean|]. intros (? & [= <-] & Hs & _). by destruct Hsha. }
  rewrite clean_bind, outcome_bind.
  rewrite (fold_checked_clean_iff (λ _, True) (inclusion_ok (ab_root_blake3 batch)))
    by first [exact I|intros acc inc _ _; split; [by apply check_inclusion_clean|exact I]].
  set (cps := outcome (fold_checked _ _ _)). unfold check_token. rewrite <-Hsha. unfold sha256_hex, token_ok.
  rewrite hex_decode_encode. cbv beta iota. unfold sha256_raw.
  destruct (ab_tsr_file batch) as [path|].
  2: { split; [|done]. split; [|by intros (? & _ & _ & ? & _); split; [|repeat constructor]].
       intros [? _]. exists root. by split_and!. }
  rewrite !(decide_True _ _ (sha256_length root)). destruct (entry_bytes reader path) as [bs|] eqn:Hb.
  2: { split; [|done]. split; [by intros [_ ?%error_unclean]|].
       intros (? & _ & _ & _ & Ht). destruct (Ht path eq_refl) as (? & ? & ? & _). congruence. }
  destruct (verify_token bs (sha256_digest root)) as [t|] eqn:Ht.
  2: { split; [|done]. split; [by intros [_ ?%error_unclean]|]. intros (? & [= <-] & _ & _ & Hok).
       destruct (Hok path eq_refl) as (? & ? & ? & ?). congruence. }
  split; [|by apply mark_anchored_same].
  split; [|by intros (? & _ & _ & ? & _); split; [|repeat constructor]].
  intros [? _]. exists root. split_and!; try done. intros p [= <-]. by exists bs, t.
Qed.

Lemma check_day_clean earliest day :
  clean (check_day reader console_keys earliest day) ↔ day_ok day.
Proof.
  unfold check_day, day_ok, token_ok. destruct (mapM _ (dr_batch_roots day)) as [leaves|].
  2: { split; [by intros ?%error_unclean|by intros (? & ? & _)]. }
  case_decide as Hroot.
  { split; [by intros ?%error_unclean|]. intros (? & [= <-] & Hr & _). by destruct Hroot. }
  rewrite clean_bind, check_day_signature_clean. unfold check_qts. rewrite <-Hroot.
  rewrite hex_decode_digest_encode by apply merkle_root_length.
  destruct (dr_qts_file day) as [path|].
  2: { split; [|by intros (? & _ & _ & ? & _); split; [|apply clean_ret]].
       intros [? _]. exists leaves. by split_and!. }
  destruct (entry_bytes reader path) as [bs|] eqn:Hb.
  2: { split; [by intros [_ ?%error_unclean]|].
       intros (? & _ & _ & _ & Ht). destruct (Ht path eq_refl) as (? & ? & ? & _). congruence. }
  destruct (verify_token bs (sha256_raw (merkle_root leaves))) as [t|] eqn:Ht.
  2: { split; [by intros [_ ?%error_unclean]|]. intros (? & [= <-] & _ & _ & Hok).
       destruct (Hok path eq_refl) as (? & ? & ? & ?). congruence. }
  split; [|by intros (? & _ & _ & ? & _); split; [|repeat constructor]].
  intros [? _]. exists leaves. split_and!; try done. intros p [= <-]. by exists bs, t.
Qed.

(** The anchor pass decides [anchors_ok]. *)
Lemma anchors_clean proofs :
  clean (verify_anchors reader console_keys proofs ps) ↔ anchors_ok proofs.
Proof.
  unfold verify_anchors, anchors_ok. rewrite !clean_bind.
  rewrite (fold_checked_clean_iff (λ st, Forall2 same_digests ps st.1) batch_ok).
  - rewrite (fold_checked_clean_iff (λ _, True) day_ok).
    + split; [naive_solver|]. intros []. split_and!; [done..|apply clean_ret].
    + done.
    + intros e d _ _. split; [apply check_day_clean|done].
  - cbn. by apply Forall_Forall2_diag, Forall_true.
  - intros st b _. apply check_batch_clean.
Qed.
End anchor_spec.

(** ** Concrete anchors *)

Definition demo_cp_data : CheckpointData :=
  Eval vm_compute in
  outcome (@verify_checkpoints poly_blake3 toy_ed25519 millis_chrono (str "S") demo_hashes
    demo_cert_map None demo_console_keys [demo_bc] CheckpointData_default).

Definition demo_per_stream : PerStream :=
  [(str "S", {| st_chain := ChainData_default; st_cps := demo_cp_data |})].

(** A batch over the digest of the checkpoint's note. *)
Definition demo_batch : AnchorBatch :=
  Eval vm_compute in
  let note := @signed_bytes _ CheckpointNote_serialize demo_note in
  match @build_batch poly_blake3 poly_sha256 (str "b1") (str "2002")
    [(str "other", replicate 32 x09); (str "cp", @blake3_raw poly_blake3 note)] true with
  | Ok b => {| ab_batch_id := ab_batch_id b; ab_created_at := ab_created_at b;
               ab_root_blake3 := ab_root_blake3 b; ab_root_sha256 := ab_root_sha256 b;
               ab_tsr_file := Some (str "b1.tsr"); ab_qualified := true;
               ab_checkpoints := ab_checkpoints b |}
  | Err _ => {| ab_batch_id := []; ab_created_at := []; ab_root_blake3 := []; ab_root_sha256 := [];
                ab_tsr_file := None; ab_qualified := false; ab_checkpoints := [] |}
  end.

Definition demo_proofs : AnchorProofs := {| ap_batches := [demo_batch]; ap_daily := [] |}.

(** A reader whose archive holds the token of that batch. *)
Definition demo_anchor_reader : @BundleReader list_zip :=
  Eval vm_compute in
  @Build_BundleReader list_zip
    [(str "b1.tsr", default [] (res_ok (hex_decode "root_sha256" (ab_root_sha256 demo_batch))))]
    demo_manifest.

Definition demo_stream : StreamData := {| st_chain := ChainData_default; st_cps := demo_cp_data |}.

Definition demo_anchored : StreamData :=
  Eval vm_compute in
  match (outcome (@verify_anchors poly_blake3 poly_sha256 toy_ed25519 toy_tsa list_zip
    demo_anchor_reader demo_console_keys demo_proofs demo_per_stream)).1 with
  | (_, d) :: _ => d
  | [] => demo_stream
  end.

(** ** Properties *)

(** C16: Anchoring is sound and complete: the anchor pass changes nothing of a
    stream but its anchored sequences, and a sequence is anchored at the end
    exactly if it was before, or if it is attested and lies in the range of a
    checkpoint of the stream whose note digest an inclusion proof places under
    the root of a batch, the time-stamp token of which verifies for the SHA-256
    digest of that root; and the earliest anchor time it returns is the time of
    a token that verifies over the root of a batch or of a day. *)
Theorem anchors_sound `{Blake3} `{Sha256} `{Ed25519} `{TsaApi} `{ZipApi}
    reader keys proofs ps :
  let st := outcome (verify_anchors reader keys proofs ps) in
  Forall2 (λ e0 e : rstring * StreamData,
    e.1 = e0.1 ∧ st_chain e.2 = st_chain e0.2 ∧
    st_cps e.2 = set_anchored (st_anchored_seqs (st_cps e.2)) (st_cps e0.2) ∧
    ∀ s, s ∈ st_anchored_seqs (st_cps e.2) ↔
      s ∈ st_anchored_seqs (st_cps e0.2) ∨
      anchored_by reader ps (ap_batches proofs) e0.1 (st_cps e0.2) s) ps st.1 ∧
  (∀ g, st.2 = Some g →
     (∃ b, b ∈ ap_batches proofs ∧ token_time reader (ab_tsr_file b) (ab_root_blake3 b) g) ∨
     (∃ d, d ∈ ap_daily proofs ∧ token_time reader (dr_qts_file d) (dr_root_blake3 d) g)).
Proof.
  intros st. split; [|apply anchors_time].
  eapply Forall2_impl; [apply anchors_exactly|]. intros e0 e (Hk & Hc & a & Ha & Hs).
  split; [done|]. split; [done|]. rewrite Ha. cbn [st_anchored_seqs set_anchored]. by split.
Qed.

Lemma anchors_sound_witness :
  ∃ s, @anchored_by poly_blake3 poly_sha256 toy_tsa list_zip demo_anchor_reader demo_per_stream
    [demo_batch] (str "S") demo_cp_data s.
Proof.
  exists 1.
  destruct (@anchors_sound poly_blake3 poly_sha256 toy_ed25519 toy_tsa list_zip demo_anchor_reader
    demo_console_keys demo_proofs demo_per_stream) as [Hps _].
  assert ((outcome (@verify_anchors poly_blake3 poly_sha256 toy_ed25519 toy_tsa list_zip
    demo_anchor_reader demo_console_keys demo_proofs demo_per_stream)).1 =
    [(str "S", demo_anchored)]) as Hd by (vm_compute; reflexivity).
  rewrite Hd in Hps.
  destruct (Forall2_lookup_lr _ _ _ 0%nat (str "S", demo_stream) (str "S", demo_anchored) Hps
    eq_refl eq_refl) as (_ & _ & _ & Hs).
  assert (1 ∈ st_anchored_seqs (st_cps demo_anchored)) as Hin by by_compute.
  assert (1 ∉ st_anchored_seqs demo_cp_data) as Hempty by by_compute.
  destruct (proj1 (Hs 1) Hin) as [Hn|Ha]; [destruct (Hempty Hn)|exact Ha].
Defined.
