(* ===== verification/Honest.v ===== *)
(** * What honest parties hand over

    A recorder that appends records from genesis and checkpoints runs of them
    with its certified key, and a Console that countersigns: the chain pass
    and the checkpoint pass of the verifier find them in order. *)

From Stdlib Require Import Strings.Byte.
From S2P Require Import Prelude Text Errors Hash Merkle Json Jcs JcsFacts Record Chain Keys.
From S2P Require Import Checkpoint Revocation Certs Bundle Anchors Report Reader Tsa Ctx Streams.
From S2P Require Import Identity Issue Attest Anchoring.

(** ** Streams *)

Section streams.
Context `{Blake3} `{UlidApi, !UlidLaws} `{ChronoApi}.

(** [final] is what the recorder made of some records that it appended from
    genesis, with clocks within tolerance. *)
Definition recorded (u : ulid) (final : list EvRecord) : Prop :=
  ∃ rs h, append_all (genesis u) rs = Ok (h, final) ∧ clocks_ok rs = true ∧
    Forall (λ r, is_u64 (rec_ts_mono_ns r) = true) rs.

Lemma append_all_records rs h h' final :
  Forall (λ r, is_u64 (rec_ts_mono_ns r) = true) rs → append_all h rs = Ok (h', final) →
  Forall (λ r, self_hashed (to_value r) (view_of r) ∧
               rec_stream_id r = ulid_to_string (ch_stream_id h)) final.
Proof.
  intros Hm. revert h h' final. induction Hm as [|r rs Hr _ IH]; intros h h' final Ha.
  - injection Ha as <- <-. constructor.
  - apply append_all_cons in Ha as (h1 & r1 & rs1 & Hap & Ha & ->).
    pose proof (append_self_hashed _ _ _ _ Hr Hap) as Hsh.
    apply append_Ok in Hap as (Hsid & hash & _ & _ & Hr1 & _ & Hh1). constructor.
    + split; [done|]. by rewrite Hr1.
    + apply IH in Ha. by rewrite Hh1 in Ha.
Qed.

Lemma recorded_spec u final :
  recorded u final →
  Forall (λ r, self_hashed (to_value r) (view_of r) ∧ rec_stream_id r = ulid_to_string u) final ∧
  rec_seq <$> final = seqZ 0 (Z.of_nat (length final)) ∧
  ∃ sv sv', new_verifier (ulid_to_string u) = Ok sv ∧ verify_stream sv (to_value <$> final) = Ok (sv', []).
Proof.
  intros (rs & h & Ha & Hc & Hm). pose proof (append_all_records _ _ _ _ Hm Ha) as Hall.
  destruct (appended_stream_clean u rs h final Ha Hc Hm) as (sv & sv' & Hn & Hv & _ & Hseq).
  split; [done|]. split; [|eauto]. rewrite Hseq. f_equal.
  apply (f_equal length) in Hseq. rewrite length_fmap, length_seqZ in Hseq. lia.
Qed.

(** The chain pass over such a stream: nothing is found. *)
Lemma recorded_silent `{ZipApi} `{ZstdApi} `{JsonParser} reader u final lines count :
  recorded u final → stream_lines reader (ulid_to_string u) = (lines, Ok count) →
  Forall2 (λ l r, parse_value l = Some (to_value r)) lines final →
  found (verify_stream_chain reader (ulid_to_string u)) = [].
Proof.
  intros (_ & _ & sv & sv' & Hn & Hv)%recorded_spec Hl Hp.
  apply (verify_stream_chain_silent _ _ sv lines (to_value <$> final) count sv'); try done.
  by apply Forall2_fmap_r.
Qed.

(** It is intact, and the collected hashes are those of its records. *)
Lemma recorded_intact `{ZipApi} `{ZstdApi} `{JsonParser} reader u final lines count :
  recorded u final → stream_lines reader (ulid_to_string u) = (lines, Ok count) →
  Forall2 (λ l r, parse_value l = Some (to_value r)) lines final →
  stream_intact reader (ulid_to_string u) (outcome (verify_stream_chain reader (ulid_to_string u)))
    (view_of <$> final).
Proof.
  intros Hrec Hl Hp. destruct (recorded_spec _ _ Hrec) as (Hall & _).
  assert (Forall2 (λ l v, parse_value l = Some v) lines (to_value <$> final)) as Hp'
    by (by apply Forall2_fmap_r).
  destruct (stream_chain_intact reader (ulid_to_string u)) as (vs & Hi).
  { unfold clean. erewrite recorded_silent by done. constructor. }
  enough (vs = view_of <$> final) as <- by done.
  destruct Hi as (u' & c & lines' & raws & _ & Hl' & Hpr & Hsh & _).
  assert (lines' = lines) as -> by congruence.
  assert (raws = to_value <$> final) as -> by (by eapply parsed_values).
  eapply self_hashed_views; [exact Hsh|]. apply Forall2_fmap. clear -Hall.
  induction Hall as [|r rs [] _ IH]; by constructor.
Qed.
End streams.

(** ** The hashes of a recorded stream *)

Section hashes.
Context (final : list EvRecord) (Hseq : rec_seq <$> final = seqZ 0 (Z.of_nat (length final))).

Abbreviation hashes := (hashes_of (view_of <$> final)).

Lemma recorded_seq i r : final !! i = Some r → rec_seq r = Z.of_nat i.
Proof.
  intros Hi. assert ((rec_seq <$> final) !! i = Some (rec_seq r)) as Hs by (by rewrite list_lookup_fmap, Hi).
  rewrite Hseq in Hs. by apply lookup_seqZ in Hs as [-> _].
Qed.

Lemma recorded_hash i r : final !! i = Some r → hashes !! Z.of_nat i = Some (rec_record_hash r).
Proof.
  intros Hi. apply hashes_of_spec.
  - rewrite <-list_fmap_compose. change (rv_seq ∘ view_of) with rec_seq. rewrite Hseq. apply NoDup_seqZ.
  - exists (view_of r). split_and!; [|by apply recorded_seq|done].
    apply list_elem_of_fmap. exists r. split; [done|]. by eapply list_elem_of_lookup_2.
Qed.

(** There is a hash at each of their sequences and nowhere else. *)
Lemma recorded_dom : dom hashes = list_to_set (seqZ 0 (Z.of_nat (length final))).
Proof.
  apply set_eq. intros s. rewrite elem_of_dom, elem_of_list_to_set, elem_of_seqZ. split.
  - intros [h Hh]. apply hashes_of_spec in Hh as (v & Hv & <- & _).
    + apply list_elem_of_fmap in Hv as (r & -> & [i Hi]%list_elem_of_lookup). cbn.
      rewrite (recorded_seq _ _ Hi). apply lookup_lt_Some in Hi. lia.
    + rewrite <-list_fmap_compose. change (rv_seq ∘ view_of) with rec_seq. rewrite Hseq. apply NoDup_seqZ.
  - intros [Hge Hlt]. destruct (lookup_lt_is_Some_2 final (Z.to_nat s)) as [r Hr]; [lia|].
    exists (rec_record_hash r). rewrite <-(Z2Nat.id s) by done. by apply recorded_hash.
Qed.

Lemma recorded_size : size hashes = length final.
Proof.
  rewrite <-size_dom, recorded_dom, size_list_to_set by apply NoDup_seqZ. rewrite length_seqZ. lia.
Qed.

(** The hashes in the range of a run of the records. *)
Lemma recorded_run pre batch post :
  final = pre ++ batch ++ post →
  mapM (hashes !!.) (seqZ (Z.of_nat (length pre)) (Z.of_nat (length batch))) =
    Some (rec_record_hash <$> batch).
Proof.
  intros Hf. apply mapM_Some, Forall2_lookup. intros i.
  destruct (batch !! i) as [r|] eqn:Hi.
  - rewrite list_lookup_fmap, Hi. pose proof (lookup_lt_Some _ _ _ Hi).
    rewrite lookup_seqZ_lt by lia. constructor. rewrite <-Nat2Z.inj_add. apply recorded_hash.
    rewrite Hf, lookup_app_r by lia. replace (length pre + i - length pre)%nat with i by lia.
    by rewrite lookup_app_l.
  - rewrite list_lookup_fmap, Hi. apply lookup_ge_None in Hi. rewrite lookup_seqZ_ge by lia. constructor.
Qed.
End hashes.

(** ** Checkpoints *)

Section checkpoints.
Context `{Blake3} `{Ed25519, !Ed25519Laws} `{ChronoApi}.
Context (sid : rstring) (final : list EvRecord).

Abbreviation note bc := (sc_note (bc_checkpoint bc)).
Abbreviation hashes := (hashes_of (view_of <$> final)).

(** A note over a run of the records, for the recorder's certificate, signed
    with the recorder's key. *)
Definition checkpointed_by (key : signing_key) (fp : rstring) (sc : SignedCheckpoint) : Prop :=
  ∃ id pre batch post ts prev, final = pre ++ batch ++ post ∧
    build_note_linked id batch ts fp prev = Ok (sc_note sc) ∧ sign_note (sc_note sc) key = Ok sc.

(** A countersignature with the Console's key, for no more than was recorded. *)
Definition countersigned_by (key : signing_key) (bc : BundleCheckpoint) : Prop :=
  ∀ cs, bc_countersignature bc = Some cs →
    ∃ received kid hw, cs_create (cn_checkpoint_id (note bc)) received kid hw key = Ok cs ∧
      ∀ z, hw = Some z → z < Z.of_nat (length final).

(** The checkpoints of the stream: each is the recorder's, countersigned by
    the Console if at all, and a predecessor that it names is there too. *)
Definition honest_checkpoints (key : signing_key) (fp : rstring) (ckey : signing_key)
    (cps : list BundleCheckpoint) : Prop :=
  ∀ bc, bc ∈ cps → checkpointed_by key fp (bc_checkpoint bc) ∧ countersigned_by ckey bc ∧
    ∀ prev, cn_prev_checkpoint_hash (note bc) = Some prev →
      ∃ bc', bc' ∈ cps ∧ note_hash (note bc') = Ok prev.

Context (Hseq : rec_seq <$> final = seqZ 0 (Z.of_nat (length final))).
Context (Hsid : Forall (λ r, rec_stream_id r = sid) final).

Lemma checkpoint_run id pre batch post ts fp prev n :
  final = pre ++ batch ++ post → build_note_linked id batch ts fp prev = Ok n →
  batch ≠ [] ∧ cn_stream_id n = sid ∧ cn_recorder_cert_fingerprint n = fp ∧
  hashes_in hashes (cn_seq_from n) (cn_seq_to n) = Some (rec_record_hash <$> batch).
Proof.
  intros Hf (n' & Hn & Heq)%bind_Ok. injection Heq as <-.
  apply build_note_Ok in Hn as (first & lst & root & Hh & Hl & _ & _ & ->). cbn.
  destruct batch as [|r batch]; [done|]. injection Hh as ->.
  rewrite last_lookup in Hl. cbn [length pred] in Hl.
  assert (final !! length pre = Some first) as Hfst by (rewrite Hf; cbn; by apply list_lookup_middle).
  assert (final !! (length pre + length batch)%nat = Some lst) as Hlst.
  { rewrite Hf, lookup_app_r by lia. replace (length pre + length batch - length pre)%nat with (length batch) by lia.
    rewrite lookup_app_l; [done|cbn; lia]. }
  split; [done|]. split; [|split; [done|]].
  - rewrite Forall_lookup in Hsid. by eapply Hsid.
  - unfold hashes_in, range. rewrite (recorded_seq _ Hseq _ _ Hfst), (recorded_seq _ Hseq _ _ Hlst).
    rewrite <-(recorded_run final Hseq pre (first :: batch) post Hf). do 2 f_equal. cbn [length]. lia.
Qed.

Lemma signed_verifies {A} `{Serialize A} key vk (x : A) sg ctx :
  ed_vk_as_bytes vk = ed_vk_as_bytes (ed_public key) → sign_jcs key x = Ok sg →
  verify_jcs vk x sg ctx = Ok tt.
Proof.
  intros Hb Hs. pose proof (verify_sign_jcs key x sg ctx Hs) as Hv. revert Hv.
  unfold verify_jcs. rewrite !bind_Ok. intros (bs & Hbs & Hv). exists bs. split; [done|].
  apply verify_digest_Ok in Hv as (s & Hd & Hl & Hv). apply verify_digest_Ok. exists s.
  split_and!; [done..|]. by rewrite (ed_verify_same vk (ed_public key)).
Qed.

Context (key ckey : signing_key) (fp : rstring) (certs : gmap rstring ValidatedCert)
  (revs : option SignedRevocationList) (keys : gmap rstring verifying_key)
  (cps : list BundleCheckpoint).
Context (Hcps : honest_checkpoints key fp ckey cps).

(** They pass with any trust that has the recorder's certificate and the
    Console's key, when the certificate was not revoked at the time. *)
Lemma honest_checkpoints_ok cert :
  certs !! fp = Some cert → ed_vk_as_bytes (vc_public_key cert) = ed_vk_as_bytes (ed_public key) →
  (∃ kid, keys !! kid = Some (ed_public ckey)) →
  (∀ bc rev ts, bc ∈ cps → revs = Some rev → parse_wall (cn_ts_wall (note bc)) = Ok ts →
     is_revoked_at rev fp ts = false) →
  checkpoints_ok sid hashes certs revs keys cps.
Proof.
  intros Hcert Hkey [kid Hkid] Hrev. split.
  - intros bc Hbc. destruct (Hcps bc Hbc) as ((id & pre & batch & post & ts & prev & Hf & Hn & Hs) & Hcs & _).
    destruct (checkpoint_run _ _ _ _ _ _ _ _ Hf Hn) as (_ & Hst & Hfp & Hin). split_and!.
    + split; [done|]. exists cert. rewrite Hfp. split; [done|]. split; [|by intros; eapply Hrev].
      unfold sc_verify. unfold sign_note in Hs. apply bind_Ok in Hs as (sg & Hs & Heq).
      injection Heq as Heq. rewrite <-Heq. by apply (signed_verifies key).
    + intros hs Hin' _. rewrite Hin in Hin'. injection Hin' as <-.
      destruct (built_root (sc_note (bc_checkpoint bc), batch)) as (Hr & Hl & Ht); [by exists id, ts, fp, prev|].
      by apply verify_root_Ok.
    + intros cs Hc. left. destruct (Hcs cs Hc) as (received & kid' & hw & Hcr & _).
      exists kid, (ed_public ckey). split; [done|]. unfold cs_create in Hcr.
      apply bind_Ok in Hcr as (sg & Hsg & Heq). injection Heq as <-. by apply (signed_verifies ckey).
  - intros b1 b2 Hb1 Hb2 Heq _.
    destruct (Hcps b1 Hb1) as ((i1 & p1 & x1 & q1 & t1 & v1 & Hf1 & Hn1 & _) & _).
    destruct (Hcps b2 Hb2) as ((i2 & p2 & x2 & q2 & t2 & v2 & Hf2 & Hn2 & _) & _).
    destruct (checkpoint_run _ _ _ _ _ _ _ _ Hf1 Hn1) as (_ & _ & _ & Hin1).
    destruct (checkpoint_run _ _ _ _ _ _ _ _ Hf2 Hn2) as (_ & _ & _ & Hin2).
    injection Heq as H1' H2'. rewrite H1', H2', Hin2 in Hin1. injection Hin1 as Hhs.
    destruct (built_root (note b1, x1)) as (Hr1 & _); [by exists i1, t1, fp, v1|].
    destruct (built_root (note b2, x2)) as (Hr2 & _); [by exists i2, t2, fp, v2|].
    cbn in *. rewrite Hhs in Hr2. congruence.
Qed.

(** No high-water mark is beyond the records. *)
Lemma honest_high_water bc hw :
  bc ∈ cps → countersigned keys bc hw → ∃ s h, hw ≤ s ∧ hashes !! s = Some h.
Proof.
  intros Hbc (cs & _ & _ & Hc & _ & _ & Hhw).
  destruct (Hcps bc Hbc) as ((id & pre & batch & post & ts & prev & Hf & Hn & _) & Hcs & _).
  destruct (Hcs cs Hc) as (received & kid & hw' & Hcr & Hle). unfold cs_create in Hcr.
  apply bind_Ok in Hcr as (sg & _ & Heq). injection Heq as <-. cbn in Hhw. apply Hle in Hhw.
  destruct (checkpoint_run _ _ _ _ _ _ _ _ Hf Hn) as (Hne & _).
  assert (final ≠ []) as Hfin by (rewrite Hf; by destruct pre, batch).
  destruct (last final) as [r|] eqn:Hl; [|by apply last_None in Hl]. rewrite last_lookup in Hl.
  pose proof (lookup_lt_Some _ _ _ Hl).
  exists (Z.of_nat (pred (length final))), (rec_record_hash r). split; [lia|]. by apply recorded_hash.
Qed.
End checkpoints.

(** ** Anchors *)

Section anchors.
Context `{Blake3, !Blake3Len} `{Sha256, !Sha256Len} `{Ed25519, !Ed25519Laws} `{TsaApi}.
Context (leaf_of token : rstring → bytes → Prop) (ckey : signing_key).

(** Batches and days as the Console makes them, when [leaf_of] relates the ids
    of checkpoints to digests and [token] relates paths to time-stamp tokens. *)
Definition honest_token (path : rstring) (root : bytes) : Prop :=
  ∃ bs t, token path bs ∧ verify_token bs (sha256_raw root) = Ok t.

Definition with_tsr_file (file : option rstring) (b : AnchorBatch) : AnchorBatch :=
  {| ab_batch_id := ab_batch_id b; ab_created_at := ab_created_at b;
     ab_root_blake3 := ab_root_blake3 b; ab_root_sha256 := ab_root_sha256 b; ab_tsr_file := file;
     ab_qualified := ab_qualified b; ab_checkpoints := ab_checkpoints b |}.

Definition honest_batch (b : AnchorBatch) : Prop :=
  ∃ id at_ leaves q b' file, build_batch id at_ leaves q = Ok b' ∧ b = with_tsr_file file b' ∧
    Forall (λ p, length p.2 = DIGEST_LEN ∧ leaf_of p.1 p.2) leaves ∧
    ∀ path, file = Some path → honest_token path (merkle_root leaves.*2).

Definition honest_day (d : DailyRoot) : Prop :=
  ∃ roots, dr_batch_roots d = hex_encode <$> roots ∧ Forall (λ r, length r = DIGEST_LEN) roots ∧
    dr_root_blake3 d = hex_encode (merkle_root roots) ∧
    (∀ sg, dr_signature d = Some sg → sign_jcs ckey (unsigned_day d) = Ok sg) ∧
    ∀ path, dr_qts_file d = Some path → honest_token path (merkle_root roots).

Definition honest_proofs (proofs : AnchorProofs) : Prop :=
  Forall honest_batch (ap_batches proofs) ∧ Forall honest_day (ap_daily proofs).

(** They pass when the bundle has the tokens, and no digest other than that of
    [leaf_of] for a checkpoint. *)
Context `{ZipApi} (reader : BundleReader) (keys : gmap rstring verifying_key) (ps : PerStream).
Context (Htoken : ∀ path bs, token path bs → entry_bytes reader path = Ok bs).
Context (Hleaf : ∀ id sid d d', find_checkpoint id ps = Some (sid, d) → leaf_of id d' → d = d').
Context (Hkey : ∃ kid, keys !! kid = Some (ed_public ckey)).

Lemma honest_token_ok path root : honest_token path root → token_ok reader path root.
Proof. intros (bs & t & Ht & Hv). exists bs, t. auto. Qed.

Lemma honest_batch_ok b : honest_batch b → batch_ok reader ps b.
Proof.
  intros (id & at_ & leaves & q & b' & file & Hb & -> & Hall & Hfile).
  apply Forall_and in Hall as [Hlen Hof].
  destruct (build_batch_verifies id at_ leaves q Hlen) as (b & Hb' & Hids & Hlvs & Hsha & Hinc).
  assert (b' = b) as -> by congruence.
  assert (ab_root_blake3 b = hex_encode (merkle_root leaves.*2)) as Hroot
    by (unfold build_batch in Hb'; apply bind_Ok in Hb' as (c & _ & Heq); by injection Heq as <-).
  exists (merkle_root leaves.*2). cbn [with_tsr_file ab_root_blake3 ab_root_sha256 ab_checkpoints ab_tsr_file].
  split_and!.
  - rewrite Hroot. apply hex_decode_digest_encode, merkle_root_length.
  - done.
  - intros inc Hin. rewrite Forall_forall in Hinc. split; [by apply Hinc|].
    intros sid digest Hf. apply list_elem_of_lookup in Hin as [i Hi].
    apply (f_equal (.!! i)) in Hids, Hlvs. rewrite !list_lookup_fmap, Hi in Hids, Hlvs. cbn in Hids, Hlvs.
    destruct (leaves !! i) as [[cid d]|] eqn:Hl; [|done]. injection Hids as Hid. injection Hlvs as ->.
    rewrite Forall_lookup in Hlen, Hof. rewrite Hid in Hf.
    rewrite (Hleaf _ _ _ d Hf (Hof _ _ Hl)). apply hex_decode_digest_encode, (Hlen _ _ Hl).
  - intros path Hp. by apply honest_token_ok, Hfile.
Qed.

Lemma honest_day_ok d : honest_day d → day_ok reader keys d.
Proof.
  intros (roots & Hr & Hlen & Hroot & Hsig & Hqts). exists roots. split_and!; [|done|..].
  - rewrite Hr. apply mapM_Ok. clear -Hlen.
    induction Hlen as [|r roots Hl _ IH]; cbn; constructor; [by apply hex_decode_digest_encode|done].
  - intros sg _ Hs _. right. destruct Hkey as [kid Hk]. exists kid, (ed_public ckey).
    split; [done|]. by apply verify_sign_jcs, Hsig.
  - intros path Hp. by apply honest_token_ok, Hqts.
Qed.

Lemma honest_proofs_ok proofs : honest_proofs proofs → anchors_ok reader keys ps proofs.
Proof.
  intros [Hb Hd]. rewrite Forall_forall in Hb. rewrite Forall_forall in Hd.
  split; [intros; by apply honest_batch_ok, Hb|intros; by apply honest_day_ok, Hd].
Qed.
End anchors.

(** ** Certificates *)

(** [x509-parser] reads the PEM text that the verifier makes of a certificate. *)
Class PemLaws `{X509} : Prop :=
  der_to_pem_iter : ∀ der bs, pem_iter (as_bytes (der_to_pem der) ++ bs) =
    Some (str "CERTIFICATE", der) :: pem_iter bs.

Section certificates.
Context `{Blake3} `{Ed25519, !Ed25519Laws} `{!Pkcs8} `{X509, !PemLaws} `{Rcgen} `{!DnName} `{!RcgenLaws}.

(** The recorder's key has a certificate with the fingerprint below the root,
    by way of a tenant CA; [certs_pem] is the two certificates, and all of
    them are valid at the time [t]. *)
Definition certified (key : signing_key) (fp root_pem certs_pem : rstring) (t : Z) : Prop :=
  ∃ root_key root_cn tenant_key tenant_cn cn d1 d2 d3 now1 now2 now3 tenant_pem request pem ders,
    generate_self_signed_ca now1 root_key root_cn d1 = Ok root_pem ∧
    issue_intermediate_ca now2 tenant_key tenant_cn d2 root_key root_pem = Ok tenant_pem ∧
    generate_csr key cn = Ok request ∧ sign_csr now3 request tenant_key tenant_pem d3 = Ok pem ∧
    cert_fingerprint pem = Ok fp ∧ certs_pem = pem ++ tenant_pem ∧
    dn_name (ca_name tenant_cn) ≠ dn_name (ca_name root_cn) ∧
    Forall (λ v : Z * Z, v.1 ≤ t ≤ v.2) [validity now1 d1; validity now2 d2; validity now3 d3] ∧
    is_Some (asn1_from_timestamp t) ∧
    mapM first_der [pem; tenant_pem] = Ok ders ∧ collision_free_on blake3_hash ders.

Lemma parse_der_to_pem der : parse_pem_chain (der_to_pem der) = Ok [der].
Proof.
  unfold parse_pem_chain. rewrite <-(app_nil_r (as_bytes _)), der_to_pem_iter, pem_iter_nil. cbn.
  by rewrite decide_True.
Qed.

Lemma validate_fingerprint pem inter root_pem t v :
  validate_chain pem inter root_pem t = Ok v →
  ∃ der, first_der pem = Ok der ∧ vc_fingerprint v = blake3_hex der.
Proof.
  unfold validate_chain. intros (der & Hd & Hv)%bind_Ok. exists der. split; [done|]. ok_inv. by subst v.
Qed.

(** The certificates validate, and the verifier's map has the recorder's, with
    its key. *)
Lemma certified_mapped key fp root_pem certs_pem t :
  certified key fp root_pem certs_pem t →
  (∃ ders, parse_pem_chain certs_pem = Ok ders ∧ ∀ der, der ∈ ders →
     is_ok (validate_chain (der_to_pem der) (filter (λ p, p ≠ der_to_pem der) (der_to_pem <$> ders))
       root_pem t) = true) ∧
  ∃ cert, outcome (build_cert_map (Some certs_pem) [root_pem] t) !! fp = Some cert ∧
    ed_vk_as_bytes (vc_public_key cert) = ed_vk_as_bytes (ed_public key).
Proof.
  intros (root_key & root_cn & tenant_key & tenant_cn & cn & d1 & d2 & d3 & now1 & now2 & now3 &
    tenant_pem & request & pem & ders & Hr & Ht & Hreq & Hp & Hfp & -> & Hne & Hval & Ht' & Hders & Hcf).
  destruct (issued_hierarchy _ _ _ _ key cn _ _ _ _ _ _ _ _ _ _ t Hr Ht Hp)
    as (tc & c & tx & x & -> & -> & Htx & Htca & Hx & Hca & Hv).
  assert (∀ c, first_der (cert_pem c) = Ok (cert_der c)) as Hfirst
    by (intros; unfold first_der; by rewrite parse_issued).
  assert (∀ der, first_der (der_to_pem der) = Ok der) as Hdfirst
    by (intros; unfold first_der; by rewrite parse_der_to_pem).
  unfold cert_fingerprint in Hfp. rewrite Hfirst in Hfp. injection Hfp as <-.
  cbn in Hders. rewrite !Hfirst in Hders. injection Hders as <-.
  destruct (Hv Hreq Hne Hval Ht' _ _ (parse_der_to_pem (cert_der c)) (parse_der_to_pem (cert_der tc)))
    as [(v & Hvc & Hvk & Hvf) Hvt].
  assert (cert_der c ≠ cert_der tc) as Hder by (intros Heq; rewrite Heq in Hx; simplify_eq; congruence).
  assert (der_to_pem (cert_der tc) ≠ der_to_pem (cert_der c)) as Hpem.
  { intros Heq. apply Hder. pose proof (Hdfirst (cert_der c)) as Hc. rewrite <-Heq, Hdfirst in Hc. congruence. }
  assert (parse_pem_chain (cert_pem c ++ cert_pem tc) = Ok [cert_der c; cert_der tc]) as Hparse.
  { unfold parse_pem_chain.
    rewrite as_bytes_app, <-(app_nil_r (as_bytes (cert_pem tc))), !cert_pem_iter, pem_iter_nil.
    cbn. by rewrite !decide_True. }
  split.
  { exists [cert_der c; cert_der tc]. split; [done|]. cbn [fmap list_fmap].
    intros der [->|Hin%list_elem_of_singleton]%elem_of_cons; [|subst der].
    - rewrite filter_cons_False, filter_cons_True, filter_nil by auto. by rewrite Hvc.
    - rewrite filter_cons_True, filter_cons_False, filter_nil by auto. done. }
  clear Hvt. exists v. split; [|done].
  unfold build_cert_map. rewrite Hparse. cbn [join fmap list_fmap fold_checked]. rewrite !outcome_bind.
  unfold map_cert at 2. rewrite filter_cons_False, filter_cons_True, filter_nil by auto. rewrite Hvc.
  cbn [outcome mret checked_ret]. rewrite <-Hvf. unfold map_cert.
  destruct (validate_chain (der_to_pem (cert_der tc)) _ _ _) as [v2|] eqn:Hv2; cbn; [|apply lookup_insert_eq].
  apply validate_fingerprint in Hv2 as (der & Hd & Hf2). rewrite Hdfirst in Hd. injection Hd as <-.
  rewrite lookup_insert_ne; [apply lookup_insert_eq|]. rewrite Hf2, Hvf. intros Heq%blake3_hex_inj.
  apply Hder. symmetry. apply Hcf; [right; left|left|done].
Qed.
End certificates.
