(* ===== verification/Writer.v ===== *)
(** * Writing bundles (bundle/src/write.rs)

    The [ZipWriter] of the [zip] crate, the [zstd] encoder and the pretty
    printers of [serde_json] are parameters. An operation on the writer keeps
    the state it reached also when it fails, so operations are functions from
    a state to a state and a result. *)

From Stdlib Require Import Strings.Byte.
From S2P Require Import Prelude Text Errors Hash Json Jcs JcsFacts Record Chain Checkpoint.
From S2P Require Import Revocation Bundle Anchors Reader Streams Identity.

(** [ZipWriter]: starting an entry and writing to it may fail, and leave the
    writer in some state then. *)
Class ZipWriterApi `{ZipApi} := {
  zip_writer : Type;
  zw_new : zip_writer;
  zw_start_file : zip_writer → rstring → zip_writer * bool;
  zw_write_all : zip_writer → bytes → zip_writer * bool;
  zw_finish : zip_writer → option archive;
}.

(** [zstd::stream::encode_all] at the level of the writer. *)
Class ZstdEncode := zstd_encode : bytes → option bytes.

(** [serde_json::to_vec_pretty] at each document type. *)
Class JsonPrinter := {
  print_record_index : RecordIndex → option bytes;
  print_stream_checkpoints : StreamCheckpoints → option bytes;
  print_anchor_proofs : AnchorProofs → option bytes;
  print_revocations : SignedRevocationList → option bytes;
  print_roots : RootsFile → option bytes;
}.

Definition MEDIA_TYPE : rstring := str "application/vnd.sealr.bundle+zip".
Definition BUNDLE_SCHEMA_VERSION : rstring := str "1".
Definition SHARD_SIZE_BYTES : Z := 512 * 1024 * 1024.

Inductive Phase := Records | Checkpoints | Anchors_ | Identity_ | Vault | Finished.

Global Instance Phase_eq_dec : EqDecision Phase.
Proof. solve_decision. Defined.

(** The derived order. *)
Definition phase_rank (p : Phase) : Z :=
  match p with
  | Records => 0 | Checkpoints => 1 | Anchors_ => 2 | Identity_ => 3 | Vault => 4 | Finished => 5
  end.

(** [{n:05}]. *)
Definition dec_05 (n : Z) : rstring :=
  let digits := b2z <$> dec_bytes n in
  replicate (5 - length digits) 48 ++ digits.

(** [s.starts_with(c)]. *)
Definition starts_with (c : char) (s : rstring) : bool := bool_decide (head s = Some c).

Definition nl : rstring := [10].

Definition verify_md_template (tool : ToolInfo) : rstring :=
  str "# Verifying this Seal bundle" ++ nl ++ nl ++
  str "This is an Sealr evidence bundle (`" ++ MEDIA_TYPE ++ str "`)." ++ nl ++ nl ++
  str "To verify it offline, without contacting Sealr:" ++ nl ++ nl ++
  str "```" ++ nl ++ str "sealr-verify <this-file>.seal" ++ nl ++ str "```" ++ nl ++ nl ++
  str "The verifier is open source (Apache-2.0): https://github.com/sealr/sealr " ++ nl ++
  str "Verifier releases embed the Sealr root public keys; you may also pass" ++ nl ++
  str "`--root <pem>` to pin your own trusted root, and `--json` for machine output." ++ nl ++ nl ++
  str "The bundle manifest (`manifest.json`) lists the BLAKE3-256 hash of every entry." ++ nl ++
  str "The manifest's own canonical hash is `BLAKE3-256(JCS(manifest.json))`; the" ++ nl ++
  str "exporter prints it at export time " ++ [0x2014] ++
  str " compare it with the value communicated to" ++ nl ++
  str "you out of band." ++ nl ++ nl ++
  str "Standing limits (also printed by the verifier): Sealr evidence is" ++ nl ++
  str "tamper-evident, not tamper-proof; it proves integrity, ordering, timing, and" ++ nl ++
  str "origin of the recorded stream only; proven time comes from timestamp anchors;" ++ nl ++
  str "subject attribution quality is as recorded, not independently proven." ++ nl ++ nl ++
  str "Exported by " ++ ti_name tool ++ str " " ++ ti_version tool ++ str "." ++ nl.

Section writer.
Context `{Blake3} `{ZipWriterApi} `{ZstdEncode} `{JsonPrinter} `{JsonParser}.

Record BundleWriter := {
  bw_zip : zip_writer;
  bw_contents : list ContentEntry;
  bw_index : RecordIndex;
  bw_phase : Phase;
  bw_tool : ToolInfo;
  bw_bundle_id : rstring;
  bw_created_at : rstring;
  bw_shard_threshold : Z;
}.

(** ** The state and error monad of [&mut self] methods *)

Definition Wr (A : Type) : Type := BundleWriter → BundleWriter * BResult A.

Global Instance wr_ret : MRet Wr := λ A a w, (w, Ok a).
Global Instance wr_bind : MBind Wr := λ A B f m w,
  match m w with
  | (w, Ok a) => f a w
  | (w, Err e) => (w, Err e)
  end.

Definition wr_get : Wr BundleWriter := λ w, (w, Ok w).
Definition wr_put (w : BundleWriter) : Wr unit := λ _, (w, Ok tt).
Definition wr_lift {A} (r : BResult A) : Wr A := λ w, (w, r).

Definition set_zip (z : zip_writer) (w : BundleWriter) : BundleWriter :=
  {| bw_zip := z; bw_contents := bw_contents w; bw_index := bw_index w; bw_phase := bw_phase w;
     bw_tool := bw_tool w; bw_bundle_id := bw_bundle_id w; bw_created_at := bw_created_at w;
     bw_shard_threshold := bw_shard_threshold w |}.

Definition set_contents (c : list ContentEntry) (w : BundleWriter) : BundleWriter :=
  {| bw_zip := bw_zip w; bw_contents := c; bw_index := bw_index w; bw_phase := bw_phase w;
     bw_tool := bw_tool w; bw_bundle_id := bw_bundle_id w; bw_created_at := bw_created_at w;
     bw_shard_threshold := bw_shard_threshold w |}.

Definition set_index (i : RecordIndex) (w : BundleWriter) : BundleWriter :=
  {| bw_zip := bw_zip w; bw_contents := bw_contents w; bw_index := i; bw_phase := bw_phase w;
     bw_tool := bw_tool w; bw_bundle_id := bw_bundle_id w; bw_created_at := bw_created_at w;
     bw_shard_threshold := bw_shard_threshold w |}.

Definition set_phase (p : Phase) (w : BundleWriter) : BundleWriter :=
  {| bw_zip := bw_zip w; bw_contents := bw_contents w; bw_index := bw_index w; bw_phase := p;
     bw_tool := bw_tool w; bw_bundle_id := bw_bundle_id w; bw_created_at := bw_created_at w;
     bw_shard_threshold := bw_shard_threshold w |}.

(** ** Operations *)

Definition new_writer (bundle_id created_at : rstring) (tool : ToolInfo) : BundleWriter :=
  {| bw_zip := zw_new; bw_contents := []; bw_index := {| idx_streams := [] |};
     bw_phase := Records; bw_tool := tool; bw_bundle_id := bundle_id; bw_created_at := created_at;
     bw_shard_threshold := SHARD_SIZE_BYTES |}.

Definition with_shard_threshold (bytes : Z) (w : BundleWriter) : BundleWriter :=
  {| bw_zip := bw_zip w; bw_contents := bw_contents w; bw_index := bw_index w;
     bw_phase := bw_phase w; bw_tool := bw_tool w; bw_bundle_id := bw_bundle_id w;
     bw_created_at := bw_created_at w; bw_shard_threshold := bytes |}.

Definition require_phase (at_most next : Phase) : Wr unit := λ w,
  if phase_rank at_most <? phase_rank (bw_phase w) then (w, Err (Invalid "bundle writer phase error"))
  else (set_phase next w, Ok tt).

Definition content_entry (path : rstring) (bs : bytes) : ContentEntry :=
  {| ce_path := path; ce_blake3 := blake3_hex bs; ce_bytes := wrap_u64 (Z.of_nat (length bs)) |}.

Definition zip_start (path : rstring) : Wr unit := λ w,
  let '(z, ok) := zw_start_file (bw_zip w) path in
  (set_zip z w, if ok then Ok tt else Err Zip).

Definition zip_write (bs : bytes) : Wr unit := λ w,
  let '(z, ok) := zw_write_all (bw_zip w) bs in
  (set_zip z w, if ok then Ok tt else Err Io).

Definition write_entry (path : rstring) (bs : bytes) : Wr unit :=
  _ ← zip_start path;
  _ ← zip_write bs;
  w ← wr_get;
  wr_put (set_contents (bw_contents w ++ [content_entry path bs]) w).

(** The variables of the loop over the lines. *)
Record ShardLoop := {
  sh_shards : list rstring;
  sh_buf : bytes;
  sh_no : Z;
  sh_count : Z;
  sh_first : option bytes;
  sh_last : option bytes;
}.

Definition shard_path (stream_id : rstring) (no : Z) : rstring :=
  str "records/" ++ stream_id ++ str ".part-" ++ dec_05 no ++ str ".ndjson.zst".

Definition flush_shard (stream_id : rstring) (s : ShardLoop) : Wr ShardLoop :=
  match sh_buf s with
  | [] => mret s
  | buf =>
    compressed ← wr_lift (ok_or (zstd_encode buf) Io);
    let path := shard_path stream_id (sh_no s) in
    _ ← write_entry path compressed;
    mret {| sh_shards := sh_shards s ++ [path]; sh_buf := []; sh_no := sh_no s;
            sh_count := sh_count s; sh_first := sh_first s; sh_last := sh_last s |}
  end.

(** [shard_no += 1] on a [u32]. *)
Definition next_shard (s : ShardLoop) : ShardLoop :=
  {| sh_shards := sh_shards s; sh_buf := sh_buf s; sh_no := (sh_no s + 1) mod 2 ^ 32;
     sh_count := sh_count s; sh_first := sh_first s; sh_last := sh_last s |}.

Definition push_line (line : bytes) (s : ShardLoop) : ShardLoop :=
  {| sh_shards := sh_shards s; sh_buf := sh_buf s ++ line; sh_no := sh_no s;
     sh_count := u64_add (sh_count s) 1;
     sh_first := match sh_first s with Some l => Some l | None => Some line end;
     sh_last := Some line |}.

Definition add_line (stream_id : rstring) (s : ShardLoop) (line : BResult bytes) : Wr ShardLoop :=
  line ← wr_lift line;
  let s := push_line line s in
  w ← wr_get;
  if bw_shard_threshold w <=? wrap_u64 (Z.of_nat (length (sh_buf s))) then
    s ← flush_shard stream_id s;
    mret (next_shard s)
  else mret s.

Fixpoint add_lines (stream_id : rstring) (s : ShardLoop) (lines : list (BResult bytes))
    : Wr ShardLoop :=
  match lines with
  | [] => mret s
  | line :: lines => s ← add_line stream_id s line; add_lines stream_id s lines
  end.

Definition seq_of (line : bytes) : BResult Z :=
  v ← ok_or (parse_value line) BundleJson;
  ok_or (get_u64 "seq" v) (Invalid "record line missing seq").

Definition start_shards : ShardLoop :=
  {| sh_shards := []; sh_buf := []; sh_no := 1; sh_count := 0; sh_first := None; sh_last := None |}.

(** [count > 0] makes the two [expect]s succeed. *)
Definition add_stream_records (stream_id : rstring) (lines : list (BResult bytes))
    : Wr RecordIndexStream :=
  _ ← require_phase Records Records;
  s ← add_lines stream_id start_shards lines;
  s ← flush_shard stream_id s;
  if sh_count s =? 0 then wr_lift (Err (Invalid "cannot export zero records"))
  else
    seq_from ← wr_lift (seq_of (default [] (sh_first s)));
    seq_to ← wr_lift (seq_of (default [] (sh_last s)));
    let entry := {| ris_stream_id := stream_id; ris_shards := sh_shards s; ris_seq_from := seq_from;
                    ris_seq_to := seq_to; ris_record_count := sh_count s |} in
    w ← wr_get;
    _ ← wr_put (set_index {| idx_streams := idx_streams (bw_index w) ++ [entry] |} w);
    mret entry.

Definition finish_records : Wr unit :=
  w ← wr_get;
  bs ← wr_lift (ok_or (print_record_index (bw_index w)) BundleJson);
  _ ← write_entry (str "records/index.json") bs;
  w ← wr_get;
  wr_put (set_phase Checkpoints w).

(** [if self.phase == Phase::Records { self.finish_records()?; }]. *)
Definition close_records : Wr unit :=
  w ← wr_get;
  if decide (bw_phase w = Records) then finish_records else mret tt.

Definition add_stream_checkpoints (stream_id : rstring) (checkpoints : list BundleCheckpoint)
    : Wr unit :=
  _ ← close_records;
  _ ← require_phase Checkpoints Checkpoints;
  bs ← wr_lift (ok_or (print_stream_checkpoints
         {| scs_stream_id := stream_id; scs_checkpoints := checkpoints |}) BundleJson);
  write_entry (str "checkpoints/" ++ stream_id ++ str ".json") bs.

Definition add_rfc3161_token (batch_id : rstring) (token_der : bytes) : Wr unit :=
  _ ← close_records;
  _ ← require_phase Anchors_ Anchors_;
  write_entry (str "anchors/rfc3161/" ++ batch_id ++ str ".tsr") token_der.

Definition add_qts_token (day : rstring) (token_der : bytes) : Wr unit :=
  _ ← close_records;
  _ ← require_phase Anchors_ Anchors_;
  write_entry (str "anchors/qts/" ++ day ++ str ".der") token_der.

Definition add_anchor_proofs (proofs : AnchorProofs) : Wr unit :=
  _ ← close_records;
  _ ← require_phase Anchors_ Anchors_;
  bs ← wr_lift (ok_or (print_anchor_proofs proofs) BundleJson);
  write_entry (str "anchors/proofs.json") bs.

Definition add_identity (certs_pem : rstring) (revocations : option SignedRevocationList)
    (roots : RootsFile) : Wr unit :=
  _ ← close_records;
  _ ← require_phase Anchors_ Identity_;
  _ ← write_entry (str "identity/certs.pem") (as_bytes certs_pem);
  _ ← match revocations with
      | Some rev =>
        bs ← wr_lift (ok_or (print_revocations rev) BundleJson);
        write_entry (str "identity/revocations.json") bs
      | None => mret tt
      end;
  bs ← wr_lift (ok_or (print_roots roots) BundleJson);
  write_entry (str "identity/roots.json") bs.

Definition add_vault_entry (name : rstring) (bs : bytes) : Wr unit :=
  _ ← require_phase Vault Vault;
  if contains (str "..") name || starts_with 47 name then
    wr_lift (Err (Invalid "invalid vault entry name"))
  else write_entry (str "vault/" ++ name) bs.

Definition scope_of (s : RecordIndexStream) : StreamScope :=
  {| ss_stream_id := ris_stream_id s; ss_seq_from := ris_seq_from s; ss_seq_to := ris_seq_to s;
     ss_record_count := ris_record_count s |}.

Definition manifest_of (level : ExportLevel) (ts_from ts_to : option rstring)
    (resources : list rstring) (w : BundleWriter) : Manifest :=
  {| man_schema_version := BUNDLE_SCHEMA_VERSION; man_bundle_id := bw_bundle_id w;
     man_created_at := bw_created_at w; man_tool := bw_tool w;
     man_scope := {| bs_level := level; bs_ts_from := ts_from; bs_ts_to := ts_to;
                     bs_resources := resources;
                     bs_streams := scope_of <$> idx_streams (bw_index w) |};
     man_contents := bw_contents w |}.

Definition finish (level : ExportLevel) (ts_from ts_to : option rstring) (resources : list rstring)
    : Wr (Manifest * rstring * archive) :=
  _ ← close_records;
  w ← wr_get;
  _ ← write_entry (str "VERIFY.md") (as_bytes (verify_md_template (bw_tool w)));
  w ← wr_get;
  let manifest := manifest_of level ts_from ts_to resources w in
  hash ← wr_lift (map_err Evidence (jcs_hash manifest));
  manifest_bytes ← wr_lift (map_err Evidence (struct_to_jcs_bytes manifest));
  _ ← zip_start (str "manifest.json");
  _ ← zip_write manifest_bytes;
  w ← wr_get;
  _ ← wr_put (set_phase Finished w);
  target ← wr_lift (ok_or (zw_finish (bw_zip w)) Zip);
  mret (manifest, hash, target).
End writer.

(** ** Facts: operations that keep a property when they succeed *)

Section keeps.
Context `{Blake3} `{ZipWriterApi}.

Definition keeps {A} (I : BundleWriter → Prop) (m : Wr A) : Prop :=
  ∀ w w' a, I w → m w = (w', Ok a) → I w'.

Lemma keeps_ret {A} I (a : A) : keeps I (mret a).
Proof. by intros w w' b Hw [= <- _]. Qed.

Lemma keeps_bind {A B} I (m : Wr A) (f : A → Wr B) :
  keeps I m → (∀ a, keeps I (f a)) → keeps I (m ≫= f).
Proof.
  intros Hm Hf w w' b Hw. unfold mbind, wr_bind. destruct (m w) as [w1 [a|]] eqn:Hmw; [|done].
  apply Hf. by eapply Hm.
Qed.

Lemma keeps_get {A} I (f : BundleWriter → Wr A) :
  (∀ w w' a, I w → f w w = (w', Ok a) → I w') → keeps I (w ← wr_get; f w).
Proof. intros Hf w w' a Hw. apply Hf, Hw. Qed.

Lemma keeps_lift {A} I (r : BResult A) : keeps I (wr_lift r).
Proof. by intros w w' a Hw [= <- _]. Qed.

Lemma bind_run {A B} (m : Wr A) (f : A → Wr B) w w' b :
  (m ≫= f) w = (w', Ok b) → ∃ w1 a, m w = (w1, Ok a) ∧ f a w1 = (w', Ok b).
Proof. unfold mbind, wr_bind. destruct (m w) as [w1 [a|]]; [|done]. eauto. Qed.
End keeps.

#[export] Hint Resolve keeps_ret keeps_bind keeps_lift : sealr.

(** Case analysis of a chain of operations that succeeded. *)
Ltac wr_inv :=
  repeat match goal with
  | H : (_ ≫= _) _ = (_, Ok _) |- _ => apply bind_run in H; destruct H as (? & ? & ? & H)
  | H : wr_lift _ _ = (_, Ok _) |- _ => injection H as ? H; subst
  | H : wr_get _ = (_, Ok _) |- _ => injection H as ? ?; subst
  | H : wr_put _ _ = (_, Ok _) |- _ => injection H as ? ?; subst
  | H : mret _ _ = (_, Ok _) |- _ => injection H as ? ?; subst
  end.

(** ** The archive of a writer *)

(** The entries that were written, and the documented behaviour of [ZipWriter]:
    a name is only accepted once, writing appends to the last entry, and the
    finished archive holds the entries in their order. *)
Class ZipWriterLaws `{ZipWriterApi} := {
  zw_entries : zip_writer → list (rstring * bytes);
  zw_new_entries : zw_entries zw_new = [];
  zw_start_ok : ∀ z p z', zw_start_file z p = (z', true) →
    p ∉ (zw_entries z).*1 ∧ zw_entries z' = zw_entries z ++ [(p, [])];
  zw_write_ok : ∀ z bs z' es p old, zw_write_all z bs = (z', true) →
    zw_entries z = es ++ [(p, old)] → zw_entries z' = es ++ [(p, old ++ bs)];
  zw_finish_ok : ∀ z a, zw_finish z = Some a → NoDup (zw_entries z).*1 →
    zip_names a = Some <$> (zw_entries z).*1 ∧
    (∀ p bs, (p, bs) ∈ zw_entries z → zip_by_name a p = ZipFound bs true) ∧
    (∀ p, p ∉ (zw_entries z).*1 → zip_by_name a p = ZipFileNotFound);
}.

Lemma NoDup_snoc_key {V} (l : list (rstring * V)) k v :
  NoDup l.*1 → k ∉ l.*1 → NoDup (l ++ [(k, v)]).*1.
Proof.
  intros Hnd Hk. rewrite fmap_app. apply NoDup_app. split; [done|]. split; [|apply NoDup_singleton].
  intros x Hx Hp%list_elem_of_singleton. cbn in Hp. congruence.
Qed.

Section archive_facts.
Context `{Blake3} `{ZipWriterLaws} `{ZstdEncode} `{JsonPrinter} `{JsonParser}.

Abbreviation entries w := (zw_entries (bw_zip w)).

(** The manifest's list describes the archive. *)
Definition listed (w : BundleWriter) : Prop :=
  bw_contents w = (λ e, content_entry e.1 e.2) <$> entries w ∧ NoDup (entries w).*1.

Lemma start_write p bs w w1 w2 u v :
  zip_start p w = (w1, Ok u) → zip_write bs w1 = (w2, Ok v) →
  p ∉ (entries w).*1 ∧ entries w2 = entries w ++ [(p, bs)] ∧
  w2 = set_zip (bw_zip w2) w.
Proof.
  unfold zip_start, zip_write.
  destruct (zw_start_file (bw_zip w) p) as [z1 [|]] eqn:Hs; [|done]. intros [= <- _]. cbn.
  destruct (zw_write_all z1 bs) as [z2 [|]] eqn:Hw; [|done]. intros [= <- _]. cbn.
  apply zw_start_ok in Hs as [Hni He]. split; [done|]. split; [|done].
  by rewrite (zw_write_ok _ _ _ _ _ _ Hw He).
Qed.

(** What a written entry adds. *)
Lemma write_entry_Ok p bs w w' u :
  write_entry p bs w = (w', Ok u) →
  p ∉ (entries w).*1 ∧ entries w' = entries w ++ [(p, bs)] ∧
  w' = set_contents (bw_contents w ++ [content_entry p bs]) (set_zip (bw_zip w') w).
Proof.
  unfold write_entry. intros Hw. wr_inv.
  match goal with Hs : zip_start _ _ = _, Hz : zip_write _ _ = _ |- _ =>
    destruct (start_write _ _ _ _ _ _ _ Hs Hz) as (Hni & He & Hw2) end. split; [done|].
  cbn. split; [done|]. by rewrite Hw2.
Qed.

Lemma write_entry_listed p bs : keeps listed (write_entry p bs).
Proof.
  intros w w' u [Hc Hnd] (Hni & He & Hw)%write_entry_Ok. unfold listed. rewrite He.
  rewrite Hw. cbn [set_contents set_zip bw_contents]. rewrite Hc, fmap_app. split; [done|].
  by apply NoDup_snoc_key.
Qed.
End archive_facts.

(** ** Sequences of operations *)

Section ops.
Context `{Blake3} `{ZipWriterApi} `{ZstdEncode} `{JsonPrinter} `{JsonParser}.

Inductive op :=
| OpRecords (stream_id : rstring) (lines : list (BResult bytes))
| OpCheckpoints (stream_id : rstring) (checkpoints : list BundleCheckpoint)
| OpToken (batch_id : rstring) (token : bytes)
| OpQts (day : rstring) (token : bytes)
| OpProofs (proofs : AnchorProofs)
| OpIdentity (certs_pem : rstring) (revocations : option SignedRevocationList) (roots : RootsFile)
| OpVault (name : rstring) (bs : bytes).

Definition run_op (o : op) : Wr unit :=
  match o with
  | OpRecords sid lines => _ ← add_stream_records sid lines; mret tt
  | OpCheckpoints sid cps => add_stream_checkpoints sid cps
  | OpToken id bs => add_rfc3161_token id bs
  | OpQts day bs => add_qts_token day bs
  | OpProofs proofs => add_anchor_proofs proofs
  | OpIdentity certs revs roots => add_identity certs revs roots
  | OpVault name bs => add_vault_entry name bs
  end.

Fixpoint run_ops (os : list op) : Wr unit :=
  match os with [] => mret tt | o :: os => _ ← run_op o; run_ops os end.

(** A property that shards and the index do not break is kept by
    [add_stream_records]. *)
Section keep_records.
Context (I : BundleWriter → Prop) (sid : rstring).
Context (Hshard : ∀ no bs, keeps I (write_entry (shard_path sid no) bs)).
Context (Hphase : ∀ w, I w → I (set_phase Records w)).
Context (Hindex : ∀ e w, I w →
  I (set_index {| idx_streams := idx_streams (bw_index w) ++ [e] |} w)).

Lemma flush_shard_keeps s : keeps I (flush_shard sid s).
Proof.
  unfold flush_shard. destruct (sh_buf s); [apply keeps_ret|].
  apply keeps_bind; [apply keeps_lift|]. intros c. cbv zeta. apply keeps_bind; [apply Hshard|].
  intros. apply keeps_ret.
Qed.

Lemma add_line_keeps s line : keeps I (add_line sid s line).
Proof.
  unfold add_line. apply keeps_bind; [apply keeps_lift|]. intros l. cbv zeta. apply keeps_get.
  intros w w' a Hw Hr. case_match; [|by injection Hr as <- _]. wr_inv.
  by eapply flush_shard_keeps.
Qed.

Lemma add_lines_keeps s lines : keeps I (add_lines sid s lines).
Proof.
  revert s; induction lines as [|l lines IH]; intros s; cbn; [apply keeps_ret|].
  apply keeps_bind; [apply add_line_keeps|]. intros; apply IH.
Qed.

Lemma add_stream_records_keeps lines : keeps I (add_stream_records sid lines).
Proof.
  unfold add_stream_records. apply keeps_bind.
  { intros w w' u Hw. unfold require_phase. case_match; [done|]. intros [= <- _]. by apply Hphase. }
  intros _. apply keeps_bind; [apply add_lines_keeps|]. intros s.
  apply keeps_bind; [apply flush_shard_keeps|]. intros s'. case_match; [apply keeps_lift|].
  apply keeps_bind; [apply keeps_lift|]. intros f. apply keeps_bind; [apply keeps_lift|]. intros t.
  intros w w' e Hw He. wr_inv. by apply Hindex.
Qed.
End keep_records.

(** A property that the steps of the operations keep is kept by the
    operations. *)
Section keep_ops.
Context (I : BundleWriter → Prop) (allowed : rstring → Prop).
Context (Hrecords : ∀ sid lines, allowed sid → keeps I (add_stream_records sid lines)).
Context (Hclose : keeps I close_records).
Context (Hphase : ∀ a b, b ≠ Records → keeps I (require_phase a b)).
Context (Hwrite : ∀ p bs, p ≠ str "records/index.json" → keeps I (write_entry p bs)).

Lemma run_op_keeps o : (∀ sid lines, o = OpRecords sid lines → allowed sid) → keeps I (run_op o).
Proof.
  intros Ho. destruct o; cbn [run_op].
  1: apply keeps_bind; [by eapply Hrecords, Ho|intros; apply keeps_ret].
  6: { unfold add_vault_entry. apply keeps_bind; [by apply Hphase|]. intros _.
       case_match; [apply keeps_lift|by apply Hwrite]. }
  all: unfold add_stream_checkpoints, add_rfc3161_token, add_qts_token, add_anchor_proofs, add_identity;
    (apply keeps_bind; [apply Hclose|]; intros _);
    (apply keeps_bind; [by apply Hphase|]; intros _); try by apply Hwrite.
  - apply keeps_bind; [apply keeps_lift|]. intros; by apply Hwrite.
  - apply keeps_bind; [apply keeps_lift|]. intros; by apply Hwrite.
  - apply keeps_bind; [by apply Hwrite|]. intros _. apply keeps_bind.
    + destruct revocations; [|apply keeps_ret]. apply keeps_bind; [apply keeps_lift|].
      intros; by apply Hwrite.
    + intros _. apply keeps_bind; [apply keeps_lift|]. intros; by apply Hwrite.
Qed.

Lemma run_ops_keeps os :
  (∀ sid lines, OpRecords sid lines ∈ os → allowed sid) → keeps I (run_ops os).
Proof.
  induction os as [|o os IH]; intros Hos; cbn; [apply keeps_ret|].
  apply keeps_bind; [|intros _; apply IH; intros sid lines Hin; eapply Hos; right; exact Hin].
  apply run_op_keeps. intros sid lines ->. eapply Hos. left.
Qed.
End keep_ops.

(** A property that entries, phases and the index do not break is kept by
    every operation. *)
Section keep_all.
Context (I : BundleWriter → Prop).
Context (Hwrite : ∀ p bs, keeps I (write_entry p bs)).
Context (Hphase : ∀ p w, I w → I (set_phase p w)).

Lemma close_records_keeps : keeps I close_records.
Proof.
  unfold close_records. apply keeps_get. intros w w' u Hw. case_decide; [|by intros [= <- _]].
  unfold finish_records. intros He. wr_inv. apply Hphase. by eapply Hwrite.
Qed.

Context (Hindex : ∀ e w, I w →
  I (set_index {| idx_streams := idx_streams (bw_index w) ++ [e] |} w)).

Lemma run_ops_keep_all os : keeps I (run_ops os).
Proof.
  apply (run_ops_keeps I (λ _, True)); [|apply close_records_keeps| |intros; apply Hwrite|done].
  - intros. apply add_stream_records_keeps; [intros; apply Hwrite|apply Hphase|apply Hindex].
  - intros a b _ w w' u Hw. unfold require_phase. case_match; [done|]. intros [= <- _]. by apply Hphase.
Qed.
End keep_all.
End ops.

(** ** Facts: finished bundles *)

Lemma filter_none {A} (P : A → Prop) `{∀ x, Decision (P x)} l :
  (∀ x, x ∈ l → ¬ P x) → filter P l = [].
Proof.
  induction l as [|x l IH]; intros Hl; [done|].
  rewrite filter_cons_False by (apply Hl; left). apply IH. intros y Hy. apply Hl. by right.
Qed.

Section finish_facts.
Context `{Blake3} `{ZipWriterLaws} `{ZstdEncode} `{JsonPrinter} `{JsonParser}.

Abbreviation entries w := (zw_entries (bw_zip w)).

Lemma finish_Ok level f t rs w w' m h a :
  finish level f t rs w = (w', Ok (m, h, a)) →
  ∃ w1 w2 mb z, close_records w = (w1, Ok tt) ∧
    write_entry (str "VERIFY.md") (as_bytes (verify_md_template (bw_tool w1))) w1 = (w2, Ok tt) ∧
    m = manifest_of level f t rs w2 ∧ jcs_hash m = Ok h ∧ struct_to_jcs_bytes m = Ok mb ∧
    str "manifest.json" ∉ (entries w2).*1 ∧
    zw_entries z = entries w2 ++ [(str "manifest.json", mb)] ∧ zw_finish z = Some a.
Proof.
  unfold finish. intros Hf. apply bind_run in Hf as (w1 & [] & Hc & Hf).
  apply bind_run in Hf as (w1' & x & [= <- <-] & Hf).
  apply bind_run in Hf as (w2 & [] & Hw & Hf). apply bind_run in Hf as (w2' & x & [= <- <-] & Hf).
  cbv zeta in Hf. apply bind_run in Hf as (w3 & h' & [= <- Hh] & Hf).
  apply bind_run in Hf as (w3' & mb & [= <- Hb] & Hf). apply bind_run in Hf as (w4 & [] & Hs & Hf).
  apply bind_run in Hf as (w5 & [] & Hz & Hf). apply bind_run in Hf as (w6 & x & [= <- <-] & Hf).
  apply bind_run in Hf as (w7 & [] & [= <-] & Hf).
  apply bind_run in Hf as (w8 & a' & [= <- Ha] & Hf). injection Hf as <- <- <- <-.
  destruct (start_write _ _ _ _ _ _ _ Hs Hz) as (Hni & He & _).
  apply map_err_Ok in Hh, Hb. apply ok_or_Ok in Ha.
  exists w1, w2, mb, (bw_zip w5). by split_and!.
Qed.

(** A finished archive verifies against its manifest. *)
Lemma finish_verifies level f t rs w w' m h a :
  listed w → finish level f t rs w = (w', Ok (m, h, a)) →
  verify_content_hashes {| br_zip := a; br_manifest := m |} = Ok [] ∧
  ∃ mb, struct_to_jcs_bytes m = Ok mb ∧ read_entry a (str "manifest.json") = Ok mb ∧
    jcs_hash m = Ok h.
Proof.
  intros Hl (w1 & w2 & mb & z & Hc & Hw & Hm & Hh & Hb & Hni & He & Ha)%finish_Ok.
  assert (listed w2) as [Hlist Hnd].
  { eapply (write_entry_listed _ _ w1); [|exact Hw].
    eapply (close_records_keeps listed); [apply write_entry_listed|done|exact Hl|exact Hc]. }
  assert (NoDup (zw_entries z).*1) as Hndz by (rewrite He; by apply NoDup_snoc_key).
  destruct (zw_finish_ok _ _ Ha Hndz) as (Hnames & Hread & _). rewrite He in Hnames, Hread.
  split; [|exists mb; split; [done|]; split; [|done]].
  - apply verify_content_hashes_Ok. cbn [br_zip br_manifest]. rewrite Hm.
    cbn [manifest_of man_contents]. rewrite Hlist. split.
    + apply Forall_fmap, Forall_forall. intros [p bs] Hin. exists bs. cbn. unfold read_entry.
      rewrite (Hread p bs) by (apply elem_of_app; by left). done.
    + eexists. split; [exact Hnames|]. symmetry.
      apply filter_none.
      intros n Hn. rewrite fmap_app in Hn. apply elem_of_app in Hn as [Hn|Hn].
      * unfold is_unlisted. rewrite <-list_fmap_compose.
        rewrite (bool_decide_eq_true_2 (n ∈ _)); [by rewrite andb_false_r|]. exact Hn.
      * apply list_elem_of_singleton in Hn as ->. done.
  - unfold read_entry. by rewrite (Hread (str "manifest.json") mb)
      by (apply elem_of_app; right; left).
Qed.
End finish_facts.

(** ** Facts: records are read back *)

(** A line without its newline; the reader skips empty lines. *)
Definition valid_line (l : bytes) : Prop := l ≠ [] ∧ x0a ∉ l.
Definition line_of (l : bytes) : bytes := l ++ [x0a].

(** What is decoded is what was encoded. *)
Class ZstdLaws `{ZstdApi} `{ZstdEncode} : Prop :=
  zstd_round_trip : ∀ bs c, zstd_encode bs = Some c → zstd_stream c true = Some (bs, true).

Section record_facts.
Context `{Blake3} `{ZipWriterLaws} `{ZstdEncode} `{JsonPrinter} `{JsonParser}.

Abbreviation entries w := (zw_entries (bw_zip w)).

(** The shards hold the lines, in order. *)
Definition shards_hold (es : list (rstring * bytes)) (shards : list rstring) (lines : list bytes)
    : Prop :=
  ∃ chunks, mjoin chunks = lines ∧
    Forall2 (λ p chunk, ∃ c, (p, c) ∈ es ∧ zstd_encode (chunk ≫= line_of) = Some c) shards chunks.

Lemma shards_hold_mono es es' shards lines :
  es ⊆ es' → shards_hold es shards lines → shards_hold es' shards lines.
Proof.
  intros Hsub (chunks & Hj & Hf). exists chunks. split; [done|].
  eapply Forall2_impl; [exact Hf|]. intros p ch (c & Hc & Hz). exists c. split; [by apply Hsub|done].
Qed.

Lemma shards_hold_snoc es shards lines p chunk c :
  shards_hold es shards lines → (p, c) ∈ es → zstd_encode (chunk ≫= line_of) = Some c →
  shards_hold es (shards ++ [p]) (lines ++ chunk).
Proof.
  intros (chunks & <- & Hf) Hp Hz. exists (chunks ++ [chunk]).
  rewrite join_app. split; [cbn; by rewrite app_nil_r|]. apply Forall2_app; [done|].
  constructor; [|constructor]. by exists c.
Qed.

Lemma lines_nil pend : pend ≫= line_of = [] → pend = [].
Proof. destruct pend as [|[|b l] pend]; done. Qed.

(** [done] lines are in shards, [pend] lines are in the buffer. *)
Definition loop_ok (w : BundleWriter) (s : ShardLoop) (done pend : list bytes) : Prop :=
  sh_buf s = pend ≫= line_of ∧ shards_hold (entries w) (sh_shards s) done.

(** The writer but for its archive and list of contents. *)
Definition same_state (w w' : BundleWriter) : Prop :=
  entries w ⊆ entries w' ∧ bw_index w' = bw_index w ∧ bw_phase w' = bw_phase w.

Lemma same_state_refl w : same_state w w.
Proof. done. Qed.

Lemma same_state_trans w1 w2 w3 : same_state w1 w2 → same_state w2 w3 → same_state w1 w3.
Proof. intros (? & ? & ?) (? & ? & ?). split_and!; [by etrans|congruence..]. Qed.

Lemma write_entry_same p bs w w' u : write_entry p bs w = (w', Ok u) → same_state w w'.
Proof.
  intros (_ & He & Hw)%write_entry_Ok. split; [|by rewrite Hw].
  rewrite He. intros x Hx. apply elem_of_app. by left.
Qed.

Lemma flush_shard_ok sid s w w' s' dn pend :
  loop_ok w s dn pend → flush_shard sid s w = (w', Ok s') →
  loop_ok w' s' (dn ++ pend) [] ∧ same_state w w' ∧ sh_count s' = sh_count s.
Proof.
  intros [Hb Hs] Hf. unfold flush_shard in Hf. destruct (sh_buf s) as [|b buf] eqn:Hbuf.
  - wr_inv. symmetry in Hb. apply lines_nil in Hb as ->. rewrite app_nil_r. done.
  - apply bind_run in Hf as (w1 & c & [= <- Hc%ok_or_Ok] & Hf). cbv zeta in Hf.
    apply bind_run in Hf as (w2 & [] & Hw & Hf). injection Hf as <- <-.
    apply write_entry_same in Hw as Hsame. apply write_entry_Ok in Hw as (_ & He & _).
    split; [|done]. split; [done|]. cbn [sh_shards]. apply (shards_hold_snoc _ _ _ _ _ c).
    + eapply shards_hold_mono; [apply Hsame|done].
    + rewrite He. apply elem_of_app. right. left.
    + by rewrite <-Hb.
Qed.

Lemma add_line_ok sid s w w' s' l dn pend :
  loop_ok w s dn pend → add_line sid s (Ok (line_of l)) w = (w', Ok s') →
  ∃ dn' pend', loop_ok w' s' dn' pend' ∧ dn' ++ pend' = dn ++ pend ++ [l] ∧ same_state w w' ∧
    sh_count s' = u64_add (sh_count s) 1.
Proof.
  intros [Hb Hs] Hl. unfold add_line in Hl.
  apply bind_run in Hl as (w1 & l' & [= <- <-] & Hl). cbv zeta in Hl.
  apply bind_run in Hl as (w2 & w2' & [= <- <-] & Hl).
  assert (loop_ok w (push_line (line_of l) s) dn (pend ++ [l])) as Hok.
  { split; [|done]. cbn. rewrite bind_app, Hb. cbn. by rewrite app_nil_r. }
  case_match.
  - apply bind_run in Hl as (w3 & s3 & Hf & Hl). injection Hl as <- <-.
    destruct (flush_shard_ok _ _ _ _ _ _ _ Hok Hf) as ([Hb3 Hs3] & Hsame & Hc).
    exists (dn ++ pend ++ [l]), []. rewrite app_nil_r. by split_and!.
  - injection Hl as <- <-. exists dn, (pend ++ [l]). by split_and!.
Qed.

Lemma add_lines_ok sid s w w' s' lines dn pend :
  loop_ok w s dn pend → add_lines sid s ((λ l, Ok (line_of l)) <$> lines) w = (w', Ok s') →
  ∃ dn' pend', loop_ok w' s' dn' pend' ∧ dn' ++ pend' = dn ++ pend ++ lines ∧ same_state w w' ∧
    sh_count s' = foldl (λ c _, u64_add c 1) (sh_count s) lines.
Proof.
  revert s w dn pend; induction lines as [|l lines IH]; intros s w dn pend Hok; cbn [fmap list_fmap add_lines].
  - intros [= <- <-]. exists dn, pend. rewrite app_nil_r. split_and!; [done..|apply same_state_refl|done].
  - intros (w1 & s1 & H1' & H2')%bind_run.
    destruct (add_line_ok _ _ _ _ _ _ _ _ Hok H1') as (d1 & p1 & Hok1 & Heq1 & Hs1 & Hc1).
    destruct (IH _ _ _ _ Hok1 H2') as (d2 & p2 & Hok2 & Heq2 & Hs2 & Hc2).
    exists d2, p2. split; [done|]. split; [|split; [by eapply same_state_trans|]].
    + rewrite Heq2, app_assoc, Heq1, <-!app_assoc. done.
    + cbn [foldl]. by rewrite <-Hc1.
Qed.

(** What [add_stream_records] adds to the index. *)
Lemma add_stream_records_ok sid lines w w' e :
  add_stream_records sid ((λ l, Ok (line_of l)) <$> lines) w = (w', Ok e) →
  bw_phase w = Records ∧ bw_phase w' = Records ∧ entries w ⊆ entries w' ∧
  bw_index w' = {| idx_streams := idx_streams (bw_index w) ++ [e] |} ∧
  ris_stream_id e = sid ∧ shards_hold (entries w') (ris_shards e) lines ∧
  ris_record_count e = foldl (λ c _, u64_add c 1) 0 lines.
Proof.
  intros Ha. unfold add_stream_records in Ha. apply bind_run in Ha as (w1 & [] & Hp & Ha).
  unfold require_phase in Hp. destruct (Z.ltb_spec (phase_rank Records) (phase_rank (bw_phase w))); [done|].
  assert (bw_phase w = Records) as Hph by (destruct (bw_phase w); cbn in *; by try lia).
  injection Hp as <-. apply bind_run in Ha as (w2 & s2 & Hl & Ha).
  destruct (add_lines_ok sid start_shards (set_phase Records w) w2 s2 lines [] []) as
    (d2 & p2 & Hok2 & Heq2 & (Hsub2 & Hi2 & Hp2) & Hc2); [|done|].
  { split; [done|]. exists []. split; [done|constructor]. }
  apply bind_run in Ha as (w3 & s3 & Hf & Ha).
  destruct (flush_shard_ok _ _ _ _ _ _ _ Hok2 Hf) as ([_ Hs3] & (Hsub3 & Hi3 & Hp3) & Hc3).
  case_match; [done|]. apply bind_run in Ha as (w4 & sf & [= <- Hsf] & Ha).
  apply bind_run in Ha as (w5 & st & [= <- Hst] & Ha). cbv zeta in Ha.
  apply bind_run in Ha as (w6 & x & [= <- <-] & Ha). apply bind_run in Ha as (w7 & [] & [= <-] & Ha).
  injection Ha as <- <-. cbn in *. rewrite Heq2 in Hs3. split_and!; try done.
  - by rewrite Hp3, Hp2.
  - by etrans.
  - by rewrite Hi3, Hi2.
  - by rewrite Hc3, Hc2.
Qed.
End record_facts.

(** ** Facts: the index is written once, and is final *)

Section index_facts.
Context `{Blake3} `{ZipWriterLaws} `{ZstdEncode} `{JsonPrinter} `{JsonParser}.

Abbreviation entries w := (zw_entries (bw_zip w)).
Abbreviation INDEX := (str "records/index.json").

(** If the index is in the archive, then it is the printed index of the writer,
    and the records phase is over. *)
Definition index_final (w : BundleWriter) : Prop :=
  ∀ bs, (INDEX, bs) ∈ entries w →
    print_record_index (bw_index w) = Some bs ∧ bw_phase w ≠ Records.

Lemma shard_path_not_index sid no : shard_path sid no ≠ INDEX.
Proof.
  unfold shard_path. intros Heq. apply (f_equal last) in Heq.
  rewrite !app_assoc, last_app in Heq. discriminate Heq.
Qed.

Lemma elem_of_keys {V} (l : list (rstring * V)) k v : (k, v) ∈ l → k ∈ l.*1.
Proof. intros Hin. apply list_elem_of_fmap. by exists (k, v). Qed.

Lemma write_entry_index p bs : p ≠ INDEX → keeps index_final (write_entry p bs).
Proof.
  intros Hp w w' u Hw (_ & He & Hw')%write_entry_Ok bs' Hin. rewrite He in Hin.
  apply elem_of_app in Hin as [Hin|Hin]; [by rewrite Hw'; apply Hw|].
  apply list_elem_of_singleton in Hin. by injection Hin as <- <-.
Qed.

Lemma close_records_index : keeps index_final close_records.
Proof.
  unfold close_records. apply keeps_get. intros w w' u Hw. case_decide as Hp; [|by intros [= <- _]].
  unfold finish_records. intros He. wr_inv.
  match goal with Hx : write_entry _ _ _ = _ |- _ => apply write_entry_Ok in Hx as (Hni & Hen & Hw') end.
  intros bs Hin. cbn in Hin. rewrite Hen in Hin. split; [|done].
  apply elem_of_app in Hin as [Hin|Hin]; [by destruct (Hw bs Hin)|].
  apply list_elem_of_singleton in Hin. injection Hin as ->. rewrite Hw'. cbn. by ok_inv.
Qed.

Lemma add_stream_records_index sid lines : keeps index_final (add_stream_records sid lines).
Proof.
  intros w w' e Hw He.
  assert (bw_phase w = Records) as Hp.
  { unfold add_stream_records in He. apply bind_run in He as (w1 & u & Hr & _).
    unfold require_phase in Hr. destruct (bw_phase w); done. }
  enough (INDEX ∉ (entries w').*1) as Hni by (by intros bs Hin%elem_of_keys).
  eapply (add_stream_records_keeps (λ w, INDEX ∉ (entries w).*1)); [|done|done| |exact He].
  - intros no bs w1 w2 u Hni (_ & Hen & _)%write_entry_Ok. rewrite Hen, fmap_app.
    rewrite not_elem_of_app. split; [done|]. intros Heq%list_elem_of_singleton. cbn in Heq.
    by destruct (shard_path_not_index sid no).
  - intros Hin. apply list_elem_of_fmap in Hin as ([k bs] & [= <-] & Hin). by destruct (Hw bs Hin).
Qed.

Lemma run_ops_index os : keeps index_final (run_ops os).
Proof.
  apply (run_ops_keeps index_final (λ _, True));
    [intros; apply add_stream_records_index|apply close_records_index| |apply write_entry_index|done].
  intros a b Hb w w' u Hw. unfold require_phase. case_match; [done|]. intros [= <- _] bs Hin.
  split; [|done]. by apply (Hw bs).
Qed.
End index_facts.

(** ** Facts: reading back *)

Section read_facts.
Context `{Blake3} `{ZipWriterLaws} `{ZstdApi} `{ZstdEncode, !ZstdLaws} `{JsonPrinter} `{JsonParser}.

Abbreviation snoc_line := (λ (acc : list bytes) (l : bytes), (acc ++ [l], Ok tt : BResult unit)).

Lemma read_shard_back zip p c chunk acc count :
  zip_by_name zip p = ZipFound c true → zstd_encode (chunk ≫= line_of) = Some c →
  Forall valid_line chunk →
  read_shard zip snoc_line acc count p =
    (acc ++ chunk, Ok (foldl (λ c _, u64_add c 1) count chunk)).
Proof.
  intros Hz Hc Hv. unfold read_shard. rewrite Hz, (zstd_round_trip _ _ Hc).
  change (chunk ≫= line_of) with (chunk ≫= λ l, l ++ [x0a]).
  rewrite split_lines_concat by (eapply Forall_impl; [exact Hv|]; by intros l []).
  rewrite feed_total by done.
  assert (filter (λ l : bytes, l ≠ []) chunk = chunk) as ->.
  { clear -Hv. induction Hv as [|l chunk [Hl _] _ IH]; [done|]. by rewrite filter_cons_True, IH. }
  cbn [and_then feed]. f_equal. clear. revert acc. induction chunk as [|l chunk IH]; intros acc; cbn.
  - by rewrite app_nil_r.
  - rewrite IH. by rewrite <-app_assoc.
Qed.

Lemma read_shards_back zip es shards lines acc count :
  (∀ p c, (p, c) ∈ es → zip_by_name zip p = ZipFound c true) →
  shards_hold es shards lines → Forall valid_line lines →
  read_shards zip snoc_line acc count shards =
    (acc ++ lines, Ok (foldl (λ c _, u64_add c 1) count lines)).
Proof.
  intros Hz (chunks & <- & Hf). revert acc count.
  induction Hf as [|p chunk shards chunks (c & Hp & Hc) _ IH]; intros acc count Hv; cbn [read_shards].
  - cbn. by rewrite app_nil_r.
  - change (mjoin (chunk :: chunks)) with (chunk ++ mjoin chunks) in *.
    apply Forall_app in Hv as [Hv1 Hv2].
    rewrite (read_shard_back zip p c chunk) by eauto. cbn [and_then]. rewrite IH by done.
    by rewrite foldl_app, <-app_assoc.
Qed.
End read_facts.

(** ** Facts: runs *)

Section run_facts.
Context `{Blake3} `{ZipWriterLaws} `{ZstdEncode} `{JsonPrinter} `{JsonParser}.

Abbreviation entries w := (zw_entries (bw_zip w)).

Lemma run_ops_app os1 os2 w w' u :
  run_ops (os1 ++ os2) w = (w', Ok u) →
  ∃ w1, run_ops os1 w = (w1, Ok tt) ∧ run_ops os2 w1 = (w', Ok u).
Proof.
  revert w; induction os1 as [|o os1 IH]; intros w; cbn [app run_ops].
  - intros Hr. by exists w.
  - intros (w1 & [] & Ho & Hr)%bind_run. destruct (IH _ Hr) as (w2 & Hr1 & Hr2).
    exists w2. split; [|done]. unfold mbind, wr_bind. by rewrite Ho.
Qed.

(** The index entry of a stream carries its identifier. *)
Lemma add_stream_records_id sid lines w w' e :
  add_stream_records sid lines w = (w', Ok e) →
  bw_index w' = {| idx_streams := idx_streams (bw_index w) ++ [e] |} ∧ ris_stream_id e = sid.
Proof.
  intros Ha. unfold add_stream_records in Ha. apply bind_run in Ha as (w1 & [] & Hp & Ha).
  assert (bw_index w1 = bw_index w) as Hi1.
  { unfold require_phase in Hp. case_match; [done|]. by injection Hp as <-. }
  assert (∀ sid' no bs, keeps (λ v, bw_index v = bw_index w) (write_entry (shard_path sid' no) bs)) as Hk.
  { intros ??? v v' u Hv (_ & _ & ->)%write_entry_Ok. done. }
  apply bind_run in Ha as (w2 & s2 & Hl & Ha).
  apply (add_lines_keeps (λ v, bw_index v = bw_index w)) in Hl as Hi2; [|done|done].
  apply bind_run in Ha as (w3 & s3 & Hf & Ha).
  apply (flush_shard_keeps (λ v, bw_index v = bw_index w)) in Hf as Hi3; [|done|done].
  case_match; [done|]. wr_inv. by rewrite Hi3.
Qed.

(** Operations that do not add the stream leave it out of the index. *)
Lemma run_ops_without sid os w w' :
  (∀ lines, OpRecords sid lines ∉ os) → run_ops os w = (w', Ok tt) →
  Forall (λ e, ris_stream_id e ≠ sid) (idx_streams (bw_index w)) →
  Forall (λ e, ris_stream_id e ≠ sid) (idx_streams (bw_index w')).
Proof.
  intros Hno Hr Hw.
  eapply (run_ops_keeps (λ w, Forall (λ e, ris_stream_id e ≠ sid) (idx_streams (bw_index w)))
    (λ sid', sid' ≠ sid)); [..|exact Hw|exact Hr].
  - intros sid' lines Hs v v' e Hv (Hi & Hid)%add_stream_records_id. rewrite Hi. cbn.
    apply Forall_app. split; [done|]. apply Forall_singleton. congruence.
  - apply close_records_keeps; [|done]. intros p bs v v' u Hv (_ & _ & ->)%write_entry_Ok. done.
  - intros a b _ v v' u Hv. unfold require_phase. case_match; [done|]. by intros [= <- _].
  - intros p bs _ v v' u Hv (_ & _ & ->)%write_entry_Ok. done.
  - intros sid' lines Hin ->. by eapply Hno.
Qed.

(** What was written stays, and the index only grows. *)
Definition later (w w' : BundleWriter) : Prop :=
  entries w ⊆ entries w' ∧ ∃ more, idx_streams (bw_index w') = idx_streams (bw_index w) ++ more.

Lemma write_entry_later w0 p bs : keeps (later w0) (write_entry p bs).
Proof.
  intros v v' u [Hsub Hi] (_ & He & Hv)%write_entry_Ok. split; [|by rewrite Hv].
  rewrite He. intros x Hx. apply elem_of_app. left. by apply Hsub.
Qed.

Lemma run_ops_later os w w' : run_ops os w = (w', Ok tt) → later w w'.
Proof.
  intros Hr. eapply (run_ops_keep_all (later w)); [apply write_entry_later|done| |..|exact Hr].
  - intros e v [Hsub [more Hm]]. split; [done|]. exists (more ++ [e]). cbn. by rewrite Hm, app_assoc.
  - split; [done|]. exists []. by rewrite app_nil_r.
Qed.

Lemma find_first {A} (f : A → bool) l1 x l2 :
  Forall (λ y, f y = false) l1 → f x = true → find f (l1 ++ x :: l2) = Some x.
Proof. intros Hl Hx. induction Hl as [|y l1 Hy _ IH]; cbn; [by rewrite Hx|]. by rewrite Hy. Qed.

(** The archive and the manifest of a finished run. *)
Lemma finish_later level f t rs w w' m h a :
  listed w → index_final w → finish level f t rs w = (w', Ok (m, h, a)) →
  ∃ w2, later w w2 ∧ bw_index w2 = bw_index w ∧ index_final w2 ∧
    m = manifest_of level f t rs w2 ∧ ce_path <$> man_contents m = (entries w2).*1 ∧
    ∀ p bs, (p, bs) ∈ entries w2 → zip_by_name a p = ZipFound bs true.
Proof.
  intros Hl Hx (w1 & w2 & mb & z & Hc & Hw & Hm & _ & _ & Hni & He & Ha)%finish_Ok.
  assert (listed w2) as [Hlist Hnd].
  { eapply (write_entry_listed _ _ w1); [|exact Hw].
    eapply (close_records_keeps listed); [apply write_entry_listed|done|exact Hl|exact Hc]. }
  assert (NoDup (zw_entries z).*1) as Hndz by (rewrite He; by apply NoDup_snoc_key).
  destruct (zw_finish_ok _ _ Ha Hndz) as (_ & Hread & _).
  assert (later w w2 ∧ bw_index w2 = bw_index w) as [Hlat Hi].
  { assert (∀ p bs, keeps (λ v, later w v ∧ bw_index v = bw_index w) (write_entry p bs)) as Hk.
    { intros p bs v v' u [Hv Hvi] Hwr. apply write_entry_Ok in Hwr as Hwr'.
      destruct Hwr' as (_ & _ & Hv'). split; [by eapply write_entry_later|by rewrite Hv']. }
    eapply (Hk _ _ w1); [|exact Hw].
    eapply (close_records_keeps (λ v, later w v ∧ bw_index v = bw_index w)); [exact Hk|done| |exact Hc].
    split; [split; [done|exists []; by rewrite app_nil_r]|done]. }
  exists w2. split_and!; try done.
  - eapply write_entry_index; [|eapply close_records_index; [exact Hx|exact Hc]|exact Hw]. done.
  - rewrite Hm. cbn [manifest_of man_contents]. rewrite Hlist, <-list_fmap_compose. done.
  - intros p bs Hin. apply Hread. rewrite He. apply elem_of_app. by left.
Qed.

Lemma new_writer_ok id created tool n :
  listed (with_shard_threshold n (new_writer id created tool)) ∧
  index_final (with_shard_threshold n (new_writer id created tool)).
Proof.
  split.
  - split; cbn; rewrite zw_new_entries; [done|constructor].
  - intros bs Hin. cbn in Hin. rewrite zw_new_entries in Hin. by apply not_elem_of_nil in Hin.
Qed.
End run_facts.

(** ** Facts: the canonical order of the entries *)

Definition starts_str (prefix s : rstring) : bool := bool_decide (take (length prefix) s = prefix).

(** The place of a path in the order of ADR-014: shards, index, checkpoints,
    anchors, identity, vault, the rest. *)
Definition path_rank (p : rstring) : Z :=
  if decide (p = str "records/index.json") then 1
  else if starts_str (str "records/") p then 0
  else if starts_str (str "checkpoints/") p then 2
  else if starts_str (str "anchors/") p then 3
  else if starts_str (str "identity/") p then 4
  else if starts_str (str "vault/") p then 5
  else 6.

Definition in_canonical_order (paths : list rstring) : Prop :=
  StronglySorted (λ a b, path_rank a ≤ path_rank b) paths.

(** The highest place that a phase writes to. *)
Definition phase_bound (p : Phase) : Z :=
  match p with
  | Records => 0 | Checkpoints => 2 | Anchors_ => 3 | Identity_ => 4 | Vault => 5 | Finished => 6
  end.

Section order_facts.
Context `{Blake3} `{ZipWriterLaws} `{ZstdEncode} `{JsonPrinter} `{JsonParser}.

Abbreviation entries w := (zw_entries (bw_zip w)).

Definition ordered_upto (b : Z) (w : BundleWriter) : Prop :=
  in_canonical_order (entries w).*1 ∧ Forall (λ p, path_rank p ≤ b) (entries w).*1.

Definition ordered (w : BundleWriter) : Prop := ordered_upto (phase_bound (bw_phase w)) w.
Definition ordered_in (p : Phase) (w : BundleWriter) : Prop := ordered w ∧ bw_phase w = p.

Lemma ordered_upto_mono a b w : a ≤ b → ordered_upto a w → ordered_upto b w.
Proof. intros Hle [Hs Hf]. split; [done|]. eapply Forall_impl; [exact Hf|]. cbv beta. intros; lia. Qed.

Lemma write_entry_ordered b p bs w w' u :
  ordered_upto b w → b ≤ path_rank p → write_entry p bs w = (w', Ok u) →
  ordered_upto (path_rank p) w' ∧ bw_phase w' = bw_phase w.
Proof.
  intros [Hs Hf] Hb (_ & He & Hw)%write_entry_Ok. split; [|by rewrite Hw].
  unfold ordered_upto. rewrite He, fmap_app. cbn [fmap list_fmap fst]. split.
  - unfold in_canonical_order in *. revert Hs Hf. generalize (entries w).*1 as ps.
    induction ps as [|q ps IH]; cbn [app]; intros Hs Hf; [by repeat constructor|].
    apply StronglySorted_inv in Hs as [Hs Hq]. apply Forall_cons in Hf as [Hq' Hf].
    constructor; [by apply IH|]. apply Forall_app. split; [done|].
    constructor; [by etrans|constructor].
  - apply Forall_app. split; [|constructor; [lia|constructor]].
    eapply Forall_impl; [exact Hf|]. cbv beta. intros; lia.
Qed.

Lemma write_in_phase ph p bs : path_rank p = phase_bound ph → keeps (ordered_in ph) (write_entry p bs).
Proof.
  intros Hp w w' u [Hw Hph] Hwr. unfold ordered in Hw. rewrite Hph in Hw.
  rewrite <-Hp in Hw. destruct (write_entry_ordered _ _ _ _ _ _ Hw (Z.le_refl _) Hwr) as [Ho Hph'].
  split; [|congruence]. unfold ordered. by rewrite Hph', Hph, <-Hp.
Qed.

Lemma phase_bound_mono p q : phase_rank p ≤ phase_rank q → phase_bound p ≤ phase_bound q.
Proof. destruct p, q; cbn; lia. Qed.

Lemma require_ordered a b w w' u :
  phase_rank a ≤ phase_rank b → ordered w → require_phase a b w = (w', Ok u) → ordered_in b w'.
Proof.
  intros Hab Hw. unfold require_phase. destruct (Z.ltb_spec (phase_rank a) (phase_rank (bw_phase w))); [done|].
  intros [= <- _]. split; [|done]. eapply ordered_upto_mono; [|exact Hw]. cbn.
  apply phase_bound_mono. lia.
Qed.

Lemma close_ordered : keeps ordered close_records.
Proof.
  unfold close_records. apply keeps_get. intros w w' u Hw. case_decide as Hp; [|by intros [= <- _]].
  unfold finish_records. intros Hr. wr_inv. unfold ordered in *. rewrite Hp in Hw.
  match goal with Hx : write_entry _ _ _ = _ |- _ =>
    apply (write_entry_ordered _ _ _ _ _ _ Hw) in Hx as [Ho _] end; [|done].
  eapply ordered_upto_mono; [|exact Ho]. done.
Qed.

(** The common shape of the operations. *)
Lemma phased_ordered {A} a b (rest : Wr A) :
  phase_rank a ≤ phase_rank b → keeps (ordered_in b) rest →
  keeps ordered (_ ← require_phase a b; rest).
Proof.
  intros Hab Hrest w w' x Hw (w1 & u & Hr & Hx)%bind_run.
  eapply Hrest; [|exact Hx]. by eapply require_ordered.
Qed.

Lemma shard_path_rank sid no : path_rank (shard_path sid no) = 0.
Proof. unfold path_rank. rewrite decide_False by apply shard_path_not_index. done. Qed.

Lemma add_stream_records_ordered sid lines : keeps ordered (add_stream_records sid lines).
Proof.
  intros w w' e Hw He.
  assert (bw_phase w = Records) as Hp.
  { unfold add_stream_records in He. apply bind_run in He as (w1 & u & Hr & _).
    unfold require_phase in Hr. destruct (bw_phase w); done. }
  eapply (add_stream_records_keeps (ordered_in Records)); [..|exact He].
  - intros sid' no bs. apply write_in_phase. apply shard_path_rank.
  - intros v [Hv Hpv]. split; [|done]. unfold ordered in *. by rewrite Hpv in Hv.
  - done.
  - done.
Qed.

Lemma run_op_ordered o : keeps ordered (run_op o).
Proof.
  destruct o; cbn [run_op].
  1: apply keeps_bind; [apply add_stream_records_ordered|intros; apply keeps_ret].
  6: { unfold add_vault_entry. apply phased_ordered; [done|].
       case_match; [apply keeps_lift|by apply write_in_phase]. }
  all: unfold add_stream_checkpoints, add_rfc3161_token, add_qts_token, add_anchor_proofs, add_identity;
    (apply keeps_bind; [apply close_ordered|intros _]); (apply phased_ordered; [done|]);
    try by apply write_in_phase.
  - apply keeps_bind; [apply keeps_lift|]. intros; by apply write_in_phase.
  - apply keeps_bind; [apply keeps_lift|]. intros; by apply write_in_phase.
  - apply keeps_bind; [by apply write_in_phase|]. intros _. apply keeps_bind.
    + destruct revocations; [|apply keeps_ret]. apply keeps_bind; [apply keeps_lift|].
      intros; by apply write_in_phase.
    + intros _. apply keeps_bind; [apply keeps_lift|]. intros; by apply write_in_phase.
Qed.

Lemma run_ops_ordered os : keeps ordered (run_ops os).
Proof.
  induction os as [|o os IH]; cbn; [apply keeps_ret|].
  apply keeps_bind; [apply run_op_ordered|]. intros; apply IH.
Qed.
End order_facts.

(** [serde_json] parses back what was printed: the canonical bytes of a
    manifest, and an index. *)
Definition manifest_parses `{JsonParser} (m : Manifest) : Prop :=
  ∀ bs, struct_to_jcs_bytes m = Ok bs → parse_manifest bs = Some m.

Definition index_parses `{JsonPrinter} `{JsonParser} (i : RecordIndex) : Prop :=
  ∀ bs, print_record_index i = Some bs → parse_record_index bs = Some i.

(** A stream that was added, without the lines that come back. *)
Lemma stream_added `{Blake3} `{ZipWriterLaws} `{ZstdEncode} `{JsonPrinter} `{JsonParser}
    os1 os2 sid lines bundle_id created_at tool threshold level ts_from ts_to resources w w' m h a :
  run_ops (os1 ++ OpRecords sid ((λ l, Ok (line_of l)) <$> lines) :: os2)
    (with_shard_threshold threshold (new_writer bundle_id created_at tool)) = (w, Ok tt) →
  finish level ts_from ts_to resources w = (w', Ok (m, h, a)) →
  (∀ ls, OpRecords sid ls ∉ os1) →
  ∃ w2 before e after, bw_index w = {| idx_streams := before ++ e :: after |} ∧ bw_index w2 = bw_index w ∧
    Forall (λ x, ris_stream_id x ≠ sid) before ∧ ris_stream_id e = sid ∧
    shards_hold (zw_entries (bw_zip w2)) (ris_shards e) lines ∧
    ris_record_count e = foldl (λ c _, u64_add c 1) 0 lines ∧ index_final w2 ∧
    m = manifest_of level ts_from ts_to resources w2 ∧
    ce_path <$> man_contents m = (zw_entries (bw_zip w2)).*1 ∧
    ∀ p bs, (p, bs) ∈ zw_entries (bw_zip w2) → zip_by_name a p = ZipFound bs true.
Proof.
  intros Hr Hf Hno. destruct (new_writer_ok bundle_id created_at tool threshold) as [Hl Hx].
  apply (run_ops_keep_all listed) in Hr as Hl'; [|apply write_entry_listed|done..].
  apply run_ops_index in Hr as Hx'; [|done].
  destruct (finish_later _ _ _ _ _ _ _ _ _ Hl' Hx' Hf) as (w2 & [Hsub _] & Hi2 & Hx2 & Hm & Hpaths & Hread).
  apply run_ops_app in Hr as (v1 & Hr1 & Hr2). cbn [run_ops run_op] in Hr2.
  apply bind_run in Hr2 as (v2 & [] & Ho & Hr2). apply bind_run in Ho as (v2' & e & Ho & Hu).
  injection Hu as ->. apply run_ops_without with (sid := sid) in Hr1; [|done|by constructor].
  destruct (add_stream_records_ok _ _ _ _ _ Ho) as (_ & _ & _ & Hie & Hid & Hs & Hc).
  destruct (run_ops_later _ _ _ Hr2) as [Hsub2 [more Hmore]].
  rewrite Hie in Hmore. cbn in Hmore. rewrite <-app_assoc in Hmore.
  exists w2, (idx_streams (bw_index v1)), e, more. split_and!; try done.
  - destruct (bw_index w). cbn in Hmore. by rewrite Hmore.
  - eapply shards_hold_mono; [|exact Hs]. by etrans.
Qed.

(** It is in the scope of the manifest. *)
Lemma stream_scope `{Blake3} `{ZipWriterLaws} `{ZstdEncode} `{JsonPrinter} `{JsonParser}
    os1 os2 sid lines bundle_id created_at tool threshold level ts_from ts_to resources w w' m h a :
  run_ops (os1 ++ OpRecords sid ((λ l, Ok (line_of l)) <$> lines) :: os2)
    (with_shard_threshold threshold (new_writer bundle_id created_at tool)) = (w, Ok tt) →
  finish level ts_from ts_to resources w = (w', Ok (m, h, a)) →
  (∀ ls, OpRecords sid ls ∉ os1) →
  ∃ sc, sc ∈ bs_streams (man_scope m) ∧ ss_stream_id sc = sid ∧
    ss_record_count sc = foldl (λ c _, u64_add c 1) 0 lines.
Proof.
  intros Hr Hf Hno.
  destruct (stream_added _ _ _ _ _ _ _ _ _ _ _ _ _ _ _ _ _ Hr Hf Hno)
    as (w2 & l1 & e & l2 & Hi & Hi2 & _ & Hid & _ & Hc & _ & -> & _).
  exists (scope_of e). split; [|done]. cbn. rewrite Hi2, Hi. apply list_elem_of_fmap.
  exists e. split; [done|]. apply elem_of_app. right. left.
Qed.

(** Its lines are read back. *)
Lemma stream_back `{Blake3} `{ZipWriterLaws} `{ZstdApi} `{ZstdEncode, !ZstdLaws}
    `{JsonPrinter} `{JsonParser} os1 os2 sid lines bundle_id created_at tool threshold
    level ts_from ts_to resources w w' m h a :
  run_ops (os1 ++ OpRecords sid ((λ l, Ok (line_of l)) <$> lines) :: os2)
    (with_shard_threshold threshold (new_writer bundle_id created_at tool)) = (w, Ok tt) →
  finish level ts_from ts_to resources w = (w', Ok (m, h, a)) →
  (∀ ls, OpRecords sid ls ∉ os1) → Forall valid_line lines →
  str "records/index.json" ∈ ce_path <$> man_contents m → index_parses (bw_index w) →
  stream_lines {| br_zip := a; br_manifest := m |} sid = (lines, Ok (foldl (λ c _, u64_add c 1) 0 lines)).
Proof.
  intros Hr Hf Hno Hv Hidx Hp.
  destruct (stream_added _ _ _ _ _ _ _ _ _ _ _ _ _ _ _ _ _ Hr Hf Hno)
    as (w2 & l1 & e & l2 & Hi & Hi2 & Hl1 & Hid & Hs & Hc & Hx2 & _ & Hpaths & Hread).
  rewrite Hpaths in Hidx. apply list_elem_of_fmap in Hidx as ([k bs] & [= <-] & Hin).
  unfold stream_lines, read_stream_records, record_index, read_entry. cbn [br_zip].
  rewrite (Hread _ _ Hin). cbn [mbind result_bind].
  destruct (Hx2 bs Hin) as [Hpr _]. rewrite Hi2 in Hpr. rewrite (Hp bs Hpr). cbn [ok_or mbind result_bind].
  rewrite Hi. cbn [idx_streams]. rewrite find_first; [|..|by apply bool_decide_eq_true]; cbn [ok_or].
  - by rewrite (read_shards_back a (zw_entries (bw_zip w2)) _ lines).
  - eapply Forall_impl; [exact Hl1|]. intros x Hx3. by apply bool_decide_eq_false.
Qed.

(** ** A concrete archive writer *)

Definition list_zip_writer : @ZipWriterApi list_zip :=
  {| zip_writer := list (rstring * bytes); zw_new := [];
     zw_start_file z p := if decide (p ∈ z.*1) then (z, false) else (z ++ [(p, [])], true);
     zw_write_all z bs :=
       match reverse z with
       | (p, old) :: es => (reverse es ++ [(p, old ++ bs)], true)
       | [] => (z, false)
       end;
     zw_finish z := Some (z : @archive list_zip) |}.

Global Program Instance list_zip_writer_laws : @ZipWriterLaws list_zip list_zip_writer :=
  {| zw_entries z := z |}.
Next Obligation. done. Qed.
Next Obligation. intros z p z'. cbn. case_decide; [done|]. by intros [= <-]. Qed.
Next Obligation.
  intros z bs z' es p old. cbn. intros Hw ->. rewrite reverse_snoc, reverse_involutive in Hw.
  by injection Hw as <-.
Qed.
Next Obligation.
  intros z a [= <-] Hnd. split; [done|]. split.
  2: { intros p Hp. cbn. assert (map_get p z = None) as ->; [|done]. cbn in Hp. clear Hnd.
       induction z as [|[k v] z IH]; [done|]. cbn in Hp |- *. apply not_elem_of_cons in Hp as [Hk Hp].
       rewrite decide_False by done. by apply IH. }
  intros p bs Hin. cbn.
  assert (map_get p z = Some bs) as ->; [|done]. cbn in Hnd. revert Hnd Hin.
  induction z as [|[k v] z IH]; intros Hnd Hin; [by apply not_elem_of_nil in Hin|].
  cbn in Hnd |- *. apply NoDup_cons in Hnd as [Hk Hnd]. apply elem_of_cons in Hin as [[= -> ->]|Hin].
  - by rewrite decide_True.
  - rewrite decide_False; [by apply IH|]. intros ->. apply Hk. apply list_elem_of_fmap. by exists (k, bs).
Qed.

(** Encoders that store, and a printer and parser of one index and one
    manifest. *)
Definition stored_encode : ZstdEncode := Some.

Lemma stored_zstd_laws : @ZstdLaws stored_zstd stored_encode.
Proof. intros bs c [= <-]. done. Qed.

Definition empty_printer : JsonPrinter :=
  {| print_record_index _ := Some []; print_stream_checkpoints _ := Some [];
     print_anchor_proofs _ := Some []; print_revocations _ := Some []; print_roots _ := Some [] |}.

Definition written_lines : list bytes := jcs_line <$> two_raws.

Definition written_ops : list op :=
  [OpRecords (str "S") ((λ l, Ok (line_of l)) <$> written_lines);
   OpCheckpoints (str "S") []; OpToken (str "b1") [x01]; OpProofs {| ap_batches := []; ap_daily := [] |};
   OpIdentity (str "pem") None {| rf_roots := []; rf_console_keys := [] |};
   OpVault (str "blob") [x02]].

(** A parser of the lines of records, without the documents. *)
Definition line_parser (m : option Manifest) (i : option RecordIndex) : JsonParser :=
  {| parse_value bs := find (λ v, bool_decide (line_of (jcs_line v) = bs)) two_raws;
     parse_manifest _ := m; parse_record_index _ := i; parse_stream_checkpoints _ := None;
     parse_anchor_proofs _ := None; parse_revocations _ := None; parse_roots _ := None |}.

(** A run with small shards: each record gets a shard of its own. *)
Definition written_run (p : JsonParser) : @BundleWriter list_zip list_zip_writer :=
  (@run_ops poly_blake3 list_zip list_zip_writer stored_encode empty_printer p written_ops
    (with_shard_threshold 10 (new_writer (str "b") (str "t") (man_tool demo_manifest)))).1.

Definition written_index : RecordIndex := Eval vm_compute in bw_index (written_run (line_parser None None)).

Definition written_bundle : Manifest * rstring * list (rstring * bytes) :=
  Eval vm_compute in
  match (@finish poly_blake3 list_zip list_zip_writer empty_printer Full None None []
    (written_run (line_parser None None))).2 with
  | Ok b => b
  | Err _ => (demo_manifest, [], [])
  end.

Definition written_parser : JsonParser := line_parser (Some written_bundle.1.1) (Some written_index).

(** ** Properties *)

(** C10: What the writer finishes, the reader accepts: for every sequence of
    operations that succeeds, the finished archive opens with the manifest that
    [finish] returned, all its contents verify with nothing unlisted, and the
    manifest hash is the one that [finish] reported. *)
Theorem bundle_round_trip `{Blake3} `{ZipWriterLaws} `{ZstdEncode} `{JsonPrinter} `{JsonParser}
    ops bundle_id created_at tool threshold level ts_from ts_to resources w w' m h a :
  run_ops ops (with_shard_threshold threshold (new_writer bundle_id created_at tool)) = (w, Ok tt) →
  finish level ts_from ts_to resources w = (w', Ok (m, h, a)) →
  manifest_parses m →
  open_bundle (Some a) = Ok {| br_zip := a; br_manifest := m |} ∧
  verify_content_hashes {| br_zip := a; br_manifest := m |} = Ok [] ∧
  manifest_hash {| br_zip := a; br_manifest := m |} = Ok h.
Proof.
  intros Hr Hf Hp. destruct (new_writer_ok bundle_id created_at tool threshold) as [Hl _].
  apply (run_ops_keep_all listed) in Hr; [|apply write_entry_listed|done..].
  destruct (finish_verifies _ _ _ _ _ _ _ _ _ Hr Hf) as (Hv & mb & Hmb & Hrd & Hh).
  split_and!; [|done|].
  - unfold open_bundle. cbn [ok_or mbind result_bind]. rewrite Hrd. cbn. by rewrite (Hp _ Hmb).
  - unfold manifest_hash. cbn [br_manifest]. by rewrite Hh.
Qed.

Lemma bundle_round_trip_witness :
  @verify_content_hashes poly_blake3 list_zip
    (@Build_BundleReader list_zip written_bundle.2 written_bundle.1.1) = Ok [].
Proof.
  assert (∃ w', @finish poly_blake3 list_zip list_zip_writer empty_printer Full None None []
    (written_run written_parser) = (w', Ok written_bundle)) as [w' Hf]
    by (eexists; vm_compute; reflexivity).
  apply (@bundle_round_trip poly_blake3 list_zip list_zip_writer list_zip_writer_laws stored_encode
    empty_printer written_parser written_ops (str "b") (str "t") (man_tool demo_manifest) 10
    Full None None [] (written_run written_parser) w' written_bundle.1.1 written_bundle.1.2
    written_bundle.2); [vm_compute; reflexivity|exact Hf|intros bs _; reflexivity].
Defined.

(** C20: The canonical entry order: whatever operations succeed, in whatever
    order they are called, the contents of the manifest are in the order shards,
    index, checkpoints, anchors, identity, vault, VERIFY.md. *)
Theorem entries_canonical `{Blake3} `{ZipWriterLaws} `{ZstdEncode} `{JsonPrinter} `{JsonParser}
    ops bundle_id created_at tool threshold level ts_from ts_to resources w w' m h a :
  run_ops ops (with_shard_threshold threshold (new_writer bundle_id created_at tool)) = (w, Ok tt) →
  finish level ts_from ts_to resources w = (w', Ok (m, h, a)) →
  in_canonical_order (ce_path <$> man_contents m) ∧
  last (ce_path <$> man_contents m) = Some (str "VERIFY.md").
Proof.
  intros Hr Hf. destruct (new_writer_ok bundle_id created_at tool threshold) as [Hl _].
  apply (run_ops_keep_all listed) in Hr as Hl'; [|apply write_entry_listed|done..].
  apply run_ops_ordered in Hr as Ho.
  2: { split; cbn; rewrite zw_new_entries; constructor. }
  apply finish_Ok in Hf as (w1 & w2 & mb & z & Hc & Hw & Hm & _).
  apply close_ordered in Hc as Ho1; [|done].
  apply (close_records_keeps listed) in Hc as Hl1; [|apply write_entry_listed|done..].
  apply write_entry_listed in Hw as Hl2; [|done]. destruct Hl2 as [Hlist _].
  assert (ce_path <$> man_contents m = (zw_entries (bw_zip w2)).*1) as ->
    by (rewrite Hm; cbn [manifest_of man_contents]; by rewrite Hlist, <-list_fmap_compose).
  apply write_entry_Ok in Hw as Hw'. destruct Hw' as (_ & He & _). split.
  - eapply write_entry_ordered in Hw as [[Hs _] _]; [exact Hs|exact Ho1|].
    unfold phase_bound. change (path_rank (str "VERIFY.md")) with 6. destruct (bw_phase w1); lia.
  - rewrite He, fmap_app. cbn [fmap list_fmap fst]. by rewrite last_snoc.
Qed.

Lemma entries_canonical_witness :
  in_canonical_order (ce_path <$> man_contents written_bundle.1.1).
Proof.
  assert (∃ w', @finish poly_blake3 list_zip list_zip_writer empty_printer Full None None []
    (written_run written_parser) = (w', Ok written_bundle)) as [w' Hf]
    by (eexists; vm_compute; reflexivity).
  apply (@entries_canonical poly_blake3 list_zip list_zip_writer list_zip_writer_laws stored_encode
    empty_printer written_parser written_ops (str "b") (str "t") (man_tool demo_manifest) 10
    Full None None [] (written_run written_parser) w' written_bundle.1.1 written_bundle.1.2
    written_bundle.2); [vm_compute; reflexivity|exact Hf].
Defined.

(** A vault entry straight after the records closes the records phase
    without writing the index: the finished bundle lists no
    [records/index.json], so the records in it cannot be found by a reader. *)
Theorem vault_after_records_drops_index `{Blake3} `{ZipWriterLaws} `{ZstdEncode} `{JsonPrinter}
    `{JsonParser} sid lines name bs bundle_id created_at tool threshold
    level ts_from ts_to resources w w' m h a :
  run_ops [OpRecords sid lines; OpVault name bs]
    (with_shard_threshold threshold (new_writer bundle_id created_at tool)) = (w, Ok tt) →
  finish level ts_from ts_to resources w = (w', Ok (m, h, a)) →
  str "records/index.json" ∉ ce_path <$> man_contents m.
Proof.
  intros Hr Hf. destruct (new_writer_ok bundle_id created_at tool threshold) as [Hl Hx].
  apply (run_ops_keep_all listed) in Hr as Hl'; [|apply write_entry_listed|done..].
  apply run_ops_index in Hr as Hx'; [|done].
  cbn [run_ops run_op] in Hr. apply bind_run in Hr as (w1 & [] & H1' & Hr).
  apply bind_run in H1' as (w1' & e & H1' & Hu). injection Hu as ->.
  apply bind_run in Hr as (w2 & [] & H2' & Hr). injection Hr as ->.
  apply add_stream_records_index in H1' as Hx1; [|done].
  assert (bw_phase w1 = Records) as Hp1.
  { eapply (add_stream_records_keeps (λ v, bw_phase v = Records)); [|done|done| |exact H1']; [|done].
    intros ?? v v' u Hv (_ & _ & ->)%write_entry_Ok. done. }
  assert (str "records/index.json" ∉ (zw_entries (bw_zip w1)).*1) as Hni1.
  { intros Hin. apply list_elem_of_fmap in Hin as ([k c] & [= <-] & Hin). by destruct (Hx1 c Hin). }
  unfold add_vault_entry in H2'. apply bind_run in H2' as (w1'' & [] & Hph & H2').
  unfold require_phase in Hph. rewrite Hp1 in Hph. cbn in Hph. injection Hph as <-. case_match; [done|].
  apply write_entry_Ok in H2' as (_ & He & Hw2).
  apply finish_Ok in Hf as (w3 & w4 & mb & z & Hc & Hw & Hm & _).
  unfold close_records in Hc. apply bind_run in Hc as (w3' & v & [= <- <-] & Hc).
  rewrite decide_False in Hc by (by rewrite Hw2). injection Hc as <-.
  apply write_entry_listed in Hw as Hl2; [|done]. destruct Hl2 as [Hlist _].
  apply write_entry_Ok in Hw as (_ & He2 & _).
  rewrite Hm. cbn [manifest_of man_contents]. rewrite Hlist, <-list_fmap_compose.
  change (ce_path ∘ _) with (@fst rstring bytes). rewrite He2, He, !fmap_app, !not_elem_of_app.
  split_and!; [done|..]; intros Hin%list_elem_of_singleton; by cbn in Hin.
Qed.

Lemma vault_after_records_drops_index_witness :
  ∃ w m, str "records/index.json" ∉ ce_path <$> man_contents m ∧
    @bw_index list_zip list_zip_writer w = written_index.
Proof.
  assert (∃ w, @run_ops poly_blake3 list_zip list_zip_writer stored_encode empty_printer
    (line_parser None None) [OpRecords (str "S") ((λ l, Ok (line_of l)) <$> written_lines);
      OpVault (str "blob") [x02]]
    (with_shard_threshold 10 (new_writer (str "b") (str "t") (man_tool demo_manifest))) = (w, Ok tt) ∧
    bw_index w = written_index ∧
    ∃ w' m h a, @finish poly_blake3 list_zip list_zip_writer empty_printer Full None None [] w =
      (w', Ok (m, h, a))) as (w & Hr & Hi & w' & m & h & a & Hf).
  { eexists. split; [vm_compute; reflexivity|]. split; [vm_compute; reflexivity|].
    do 4 eexists. vm_compute. reflexivity. }
  exists w, m. split; [|exact Hi].
  apply (@vault_after_records_drops_index poly_blake3 list_zip list_zip_writer list_zip_writer_laws
    stored_encode empty_printer (line_parser None None) (str "S")
    ((λ l, Ok (line_of l)) <$> written_lines) (str "blob") [x02] (str "b") (str "t")
    (man_tool demo_manifest) 10 Full None None [] w w' m h a Hr Hf).
Defined.
