(* ===== verification/Readback.v ===== *)
(** * Reading back what a run of the writer wrote

    For any sequence of operations of [BundleWriter] that succeeds and is
    finished: which entries the archive has, and what the reader makes of
    them. *)

From Stdlib Require Import Strings.Byte.
From S2P Require Import Prelude Text Errors Hash Json Jcs JcsFacts Record Chain Checkpoint.
From S2P Require Import Revocation Bundle Anchors Reader Streams Identity Writer.

Abbreviation INDEX := (str "records/index.json").

Definition checkpoints_path (sid : rstring) : rstring :=
  str "checkpoints/" ++ sid ++ str ".json".

(** The paths that an operation writes to, shards and index apart. *)
Definition op_paths (o : op) : list rstring :=
  match o with
  | OpRecords _ _ => []
  | OpCheckpoints sid _ => [checkpoints_path sid]
  | OpToken id _ => [str "anchors/rfc3161/" ++ id ++ str ".tsr"]
  | OpQts day _ => [str "anchors/qts/" ++ day ++ str ".der"]
  | OpProofs _ => [str "anchors/proofs.json"]
  | OpIdentity _ revs _ =>
    str "identity/certs.pem" :: str "identity/roots.json" ::
    match revs with Some _ => [str "identity/revocations.json"] | None => [] end
  | OpVault name _ => [str "vault/" ++ name]
  end.

(** The streams whose records are written. *)
Definition op_stream (o : op) : option rstring :=
  match o with OpRecords sid _ => Some sid | _ => None end.

Definition op_streams (os : list op) : list rstring := omap op_stream os.

Lemma elem_of_op_streams os sid : sid ∈ op_streams os ↔ ∃ ls, OpRecords sid ls ∈ os.
Proof.
  unfold op_streams. rewrite list_elem_of_omap. split.
  - intros ([] & Hin & Ho); try done. injection Ho as <-. eauto.
  - intros [ls Hin]. exists (OpRecords sid ls). done.
Qed.

Section readback.
Context `{Blake3} `{ZipWriterLaws} `{ZstdEncode} `{JsonPrinter} `{JsonParser}.

Abbreviation entries w := (zw_entries (bw_zip w)).

(** ** Invariants over the paths that are written *)

Section keep_paths.
Context (I : BundleWriter → Prop) (allowed streams : rstring → Prop).
Context (Hwrite : ∀ p bs, allowed p → keeps I (write_entry p bs)).
Context (Hphase : ∀ p w, I w → I (set_phase p w)).
Context (Hindex : ∀ e w, I w → I (set_index {| idx_streams := idx_streams (bw_index w) ++ [e] |} w)).
Context (Hshard : ∀ sid no, streams sid → allowed (shard_path sid no)) (Hidx : allowed INDEX).

Lemma require_phase_keeps a b : keeps I (require_phase a b).
Proof. intros w w' u Hw. unfold require_phase. case_match; [done|]. intros [= <- _]. by apply Hphase. Qed.

Lemma close_keeps_paths : keeps I close_records.
Proof.
  unfold close_records. apply keeps_get. intros w w' u Hw. case_decide; [|by intros [= <- _]].
  unfold finish_records. intros He. wr_inv. apply Hphase. by eapply Hwrite.
Qed.

Lemma print_keeps_paths p r : allowed p → keeps I (bs ← wr_lift r; write_entry p bs).
Proof. intros Hp. apply keeps_bind; [apply keeps_lift|]. intros; by apply Hwrite. Qed.

Lemma run_op_keeps_paths o :
  (∀ sid, op_stream o = Some sid → streams sid) → Forall allowed (op_paths o) → keeps I (run_op o).
Proof.
  intros Hs Ho. destruct o; cbn [run_op op_paths op_stream] in *.
  1: { apply keeps_bind; [|intros; apply keeps_ret].
       apply add_stream_records_keeps; [intros; by apply Hwrite, Hshard, Hs|apply Hphase|apply Hindex]. }
  6: { unfold add_vault_entry. apply keeps_bind; [apply require_phase_keeps|]. intros _.
       case_match; [apply keeps_lift|]. apply Hwrite. by apply Forall_inv in Ho. }
  all: unfold add_stream_checkpoints, add_rfc3161_token, add_qts_token, add_anchor_proofs, add_identity;
    apply Forall_cons in Ho as [Hp Ho];
    (apply keeps_bind; [apply close_keeps_paths|]; intros _);
    (apply keeps_bind; [apply require_phase_keeps|]; intros _).
  1,4: by apply print_keeps_paths.
  1,2: by apply Hwrite.
  apply Forall_cons in Ho as [Hp2 Ho]. apply keeps_bind; [by apply Hwrite|]. intros _.
  apply keeps_bind; [|intros _; by apply print_keeps_paths].
  destruct revocations; [|apply keeps_ret]. apply print_keeps_paths. by apply Forall_inv in Ho.
Qed.

Lemma run_ops_keep_paths os :
  (∀ sid, sid ∈ op_streams os → streams sid) → Forall allowed (os ≫= op_paths) → keeps I (run_ops os).
Proof.
  induction os as [|o os IH]; cbn [mbind list_bind run_ops]; intros Hs Hos; [apply keeps_ret|].
  apply Forall_app in Hos as [Ho Hos]. apply keeps_bind; [apply run_op_keeps_paths; [|done]|intros _; apply IH; [|done]].
  - intros sid Hsid. apply Hs. unfold op_streams. cbn. rewrite Hsid. left.
  - intros sid Hsid. apply Hs. unfold op_streams in *. cbn. destruct (op_stream o); [by right|done].
Qed.
End keep_paths.

(** Only paths that some operation writes to are in the archive. *)
Lemma run_ops_paths (allowed : rstring → Prop) os w w' :
  (∀ sid no, sid ∈ op_streams os → allowed (shard_path sid no)) → allowed INDEX →
  Forall allowed (os ≫= op_paths) → Forall allowed (entries w).*1 → run_ops os w = (w', Ok tt) → Forall allowed (entries w').*1.
Proof.
  intros Hs Hi Hos Hw Hr. revert w w' Hw Hr.
  enough (keeps (λ w, Forall allowed (entries w).*1) (run_ops os)) as Hk by (intros; by eapply Hk).
  apply (run_ops_keep_paths _ allowed (λ sid, sid ∈ op_streams os)); try done.
  intros p bs Hp w w' u Hw (_ & He & _)%write_entry_Ok. rewrite He, fmap_app. apply Forall_app.
  by split; [|repeat constructor].
Qed.
(** ** The index is written when the records are over *)

(** In the phases that [close_records] precedes, the index is there. *)
Definition indexed (w : BundleWriter) : Prop :=
  1 ≤ phase_rank (bw_phase w) ≤ 3 → INDEX ∈ (entries w).*1.

Lemma write_entry_grows p bs w w' u : write_entry p bs w = (w', Ok u) → (entries w).*1 ⊆ (entries w').*1.
Proof. intros (_ & -> & _)%write_entry_Ok x Hx. rewrite fmap_app. apply elem_of_app. by left. Qed.

(** Closing the records writes the index, if it is not there. *)
Lemma close_indexed w w' :
  bw_phase w = Records ∨ INDEX ∈ (entries w).*1 → close_records w = (w', Ok tt) →
  INDEX ∈ (entries w').*1.
Proof.
  intros Hw Hc. unfold close_records in Hc. apply bind_run in Hc as (w0 & w0' & [= <- <-] & Hc). case_decide as Hph.
  - unfold finish_records in Hc. apply bind_run in Hc as (w3 & w3' & [= <- <-] & Hc).
    apply bind_run in Hc as (w4 & bs & [= <- _] & Hc). apply bind_run in Hc as (w5 & [] & Hwr & Hc).
    apply bind_run in Hc as (w6 & w6' & [= <- <-] & Hc). injection Hc as <-. cbn [set_phase bw_zip].
    apply write_entry_Ok in Hwr as (_ & -> & _). rewrite fmap_app. apply elem_of_app. right. left.
  - injection Hc as <-. by destruct Hw.
Qed.

(** It changes nothing once they are over. *)
Lemma close_records_over w w' : bw_phase w ≠ Records → close_records w = (w', Ok tt) → w' = w.
Proof.
  intros Hp Hc. unfold close_records in Hc. apply bind_run in Hc as (w0 & w0' & [= <- <-] & Hc).
  rewrite decide_False in Hc by done. by injection Hc.
Qed.

(** The operations that close the records and go on in a phase up to that of
    the identity. *)
Lemma closed_indexed {A} a b (rest : Wr A) w w' x :
  phase_rank a ≤ 3 → keeps (λ w, INDEX ∈ (entries w).*1) rest → indexed w →
  (_ ← close_records; _ ← require_phase a b; rest) w = (w', Ok x) → INDEX ∈ (entries w').*1.
Proof.
  intros Ha Hrest Hw Hr. apply bind_run in Hr as (w1 & [] & Hc & Hr).
  apply bind_run in Hr as (w2 & [] & Hp & Hr). eapply Hrest; [|exact Hr].
  unfold require_phase in Hp. destruct (Z.ltb_spec (phase_rank a) (phase_rank (bw_phase w1))) as [|Hle]; [done|].
  injection Hp as <-. cbn [set_phase bw_zip]. eapply close_indexed; [|exact Hc].
  destruct (decide (bw_phase w = Records)) as [|Hph]; [by left|right].
  apply close_records_over in Hc as ->; [|done]. apply Hw. split; [|lia]. destruct (bw_phase w); cbn; by try lia.
Qed.

Lemma keeps_written P p bs : keeps (λ w, P ∈ (entries w).*1) (write_entry p bs).
Proof. intros w w' u Hw Hwr. by eapply write_entry_grows. Qed.

Lemma keeps_printed P p r : keeps (λ w, P ∈ (entries w).*1) (bs ← wr_lift r; write_entry p bs).
Proof. apply keeps_bind; [apply keeps_lift|]. intros; apply keeps_written. Qed.

Lemma keeps_identity P certs revs roots : keeps (λ w, P ∈ (entries w).*1)
  (_ ← write_entry (str "identity/certs.pem") (as_bytes certs);
   _ ← match revs with
       | Some rev =>
         bs ← wr_lift (ok_or (print_revocations rev) BundleJson);
         write_entry (str "identity/revocations.json") bs
       | None => mret tt
       end;
   bs ← wr_lift (ok_or (print_roots roots) BundleJson);
   write_entry (str "identity/roots.json") bs).
Proof.
  apply keeps_bind; [apply keeps_written|intros _]. apply keeps_bind; [|intros _; apply keeps_printed].
  destruct revs; [apply keeps_printed|apply keeps_ret].
Qed.

Lemma identity_indexed certs revs roots w w' :
  indexed w → add_identity certs revs roots w = (w', Ok tt) → INDEX ∈ (entries w').*1.
Proof. intros Hw. by apply closed_indexed; [|apply keeps_identity|]. Qed.

Lemma write_entry_phase ph p bs : keeps (λ w, bw_phase w = ph) (write_entry p bs).
Proof. intros w w' u Hw (_ & _ & ->)%write_entry_Ok. done. Qed.

Lemma records_phase sid lines w w' e :
  add_stream_records sid lines w = (w', Ok e) → bw_phase w' = Records.
Proof.
  intros Ha. assert (bw_phase w = Records) as Hp.
  { unfold add_stream_records in Ha. apply bind_run in Ha as (w1 & u & Hr & _).
    unfold require_phase in Hr. destruct (bw_phase w); done. }
  eapply (add_stream_records_keeps (λ v, bw_phase v = Records)); [|done|done|exact Hp|exact Ha].
  intros. apply write_entry_phase.
Qed.

Lemma run_op_indexed o : keeps indexed (run_op o).
Proof.
  intros w w' u Hw Ho. destruct o; cbn [run_op] in Ho.
  1: { apply bind_run in Ho as (w1 & e & Ho%records_phase & [= <-]). unfold indexed. rewrite Ho. cbn. lia. }
  6: { unfold add_vault_entry in Ho. apply bind_run in Ho as (w1 & [] & Hp & Ho).
       unfold require_phase in Hp. destruct (_ <? _) in Hp; [done|]. injection Hp as <-. destruct (_ || _) in Ho; [done|].
       apply (write_entry_phase Vault) in Ho; [|done]. unfold indexed. rewrite Ho. cbn. lia. }
  all: intros _; revert Ho; unfold add_stream_checkpoints, add_rfc3161_token, add_qts_token, add_anchor_proofs,
    add_identity; apply closed_indexed; try done.
  1,4: apply keeps_printed. 1,2: apply keeps_written. apply keeps_identity.
Qed.

Lemma run_ops_indexed os : keeps indexed (run_ops os).
Proof.
  induction os as [|o os IH]; cbn; [apply keeps_ret|].
  apply keeps_bind; [apply run_op_indexed|intros _; apply IH].
Qed.

(** A run that adds an identity has an index. *)
Lemma run_ops_identity certs revs roots os w w' :
  indexed w → OpIdentity certs revs roots ∈ os → run_ops os w = (w', Ok tt) →
  INDEX ∈ (entries w').*1.
Proof.
  intros Hw (os1 & os2 & ->)%list_elem_of_split (w1 & Hr1 & Hr2)%run_ops_app. cbn [run_ops run_op] in Hr2.
  apply bind_run in Hr2 as (w2 & [] & Ho & Hr2).
  apply run_ops_indexed in Hr1 as Hw1; [|done]. apply identity_indexed in Ho; [|done].
  apply run_ops_later in Hr2 as [Hsub _]. apply list_elem_of_fmap in Ho as (e & -> & He).
  apply list_elem_of_fmap. exists e. auto.
Qed.

(** What a finished bundle lists, and that a reader finds nothing else. *)
Lemma finish_reads level f t rs w w' m h a :
  listed w → finish level f t rs w = (w', Ok (m, h, a)) →
  ∃ w1, close_records w = (w1, Ok tt) ∧
    ce_path <$> man_contents m = (entries w1).*1 ++ [str "VERIFY.md"] ∧
    ∀ p, p ≠ str "manifest.json" → p ∉ ce_path <$> man_contents m → read_entry a p = Err (MissingEntry p).
Proof.
  intros Hl (w1 & w2 & mb & z & Hc & Hw & -> & _ & _ & Hni & He & Ha)%finish_Ok. exists w1. split; [done|].
  assert (listed w2) as [Hlist Hnd].
  { eapply (write_entry_listed _ _ w1); [|exact Hw].
    eapply (close_records_keeps listed); [apply write_entry_listed|done|exact Hl|exact Hc]. }
  assert (ce_path <$> man_contents (manifest_of level f t rs w2) = (entries w2).*1) as ->
    by (cbn [manifest_of man_contents]; by rewrite Hlist, <-list_fmap_compose).
  apply write_entry_Ok in Hw as (_ & He2 & _). split; [by rewrite He2, fmap_app|]. intros p Hp Hp2.
  assert (NoDup (zw_entries z).*1) as Hndz by (rewrite He; by apply NoDup_snoc_key).
  destruct (zw_finish_ok _ _ Ha Hndz) as (_ & _ & Habs). unfold read_entry. rewrite Habs; [done|].
  rewrite He, fmap_app, not_elem_of_app. split; [done|]. by intros Heq%list_elem_of_singleton.
Qed.

(** ** What each operation writes *)

(** The entries of an operation but for records. *)
Definition op_writes (o : op) (es : list (rstring * bytes)) : Prop :=
  match o with
  | OpRecords _ _ => True
  | OpCheckpoints sid cps => ∃ bs, print_stream_checkpoints
      {| scs_stream_id := sid; scs_checkpoints := cps |} = Some bs ∧ (checkpoints_path sid, bs) ∈ es
  | OpToken id bs => (str "anchors/rfc3161/" ++ id ++ str ".tsr", bs) ∈ es
  | OpQts day bs => (str "anchors/qts/" ++ day ++ str ".der", bs) ∈ es
  | OpProofs proofs => ∃ bs, print_anchor_proofs proofs = Some bs ∧ (str "anchors/proofs.json", bs) ∈ es
  | OpIdentity certs revs roots =>
    (str "identity/certs.pem", as_bytes certs) ∈ es ∧
    (∀ rev, revs = Some rev → ∃ bs, print_revocations rev = Some bs ∧
       (str "identity/revocations.json", bs) ∈ es) ∧
    ∃ bs, print_roots roots = Some bs ∧ (str "identity/roots.json", bs) ∈ es
  | OpVault name bs => (str "vault/" ++ name, bs) ∈ es
  end.

Lemma op_writes_mono o es es' : es ⊆ es' → op_writes o es → op_writes o es'.
Proof. intros Hs. destruct o; cbn; naive_solver. Qed.

Lemma write_entry_has p bs w w' u : write_entry p bs w = (w', Ok u) → (p, bs) ∈ entries w'.
Proof. intros (_ & -> & _)%write_entry_Ok. apply elem_of_app. right. left. Qed.

Lemma write_entry_sub p bs w w' u : write_entry p bs w = (w', Ok u) → entries w ⊆ entries w'.
Proof. intros (_ & -> & _)%write_entry_Ok x Hx. apply elem_of_app. by left. Qed.

Lemma printed_has p r w w' u :
  (bs ← wr_lift (ok_or r BundleJson); write_entry p bs) w = (w', Ok u) →
  ∃ bs, r = Some bs ∧ (p, bs) ∈ entries w' ∧ entries w ⊆ entries w'.
Proof.
  intros (w1 & bs & [= <- Hr%ok_or_Ok] & Hw)%bind_run. exists bs.
  split_and!; [done|by eapply write_entry_has|by eapply write_entry_sub].
Qed.

Lemma run_op_writes o w w' : run_op o w = (w', Ok tt) → op_writes o (entries w').
Proof.
  destruct o; cbn [run_op op_writes]; [done|..]; intros Ho.
  6: { unfold add_vault_entry in Ho. apply bind_run in Ho as (w1 & [] & _ & Ho). case_match; [done|].
       by eapply write_entry_has. }
  all: unfold add_stream_checkpoints, add_rfc3161_token, add_qts_token, add_anchor_proofs, add_identity in Ho;
    apply bind_run in Ho as (w1 & [] & _ & Ho); apply bind_run in Ho as (w2 & [] & _ & Ho).
  1,4: apply printed_has in Ho as (bs & Hp & Hin & _); by exists bs.
  1,2: by eapply write_entry_has.
  apply bind_run in Ho as (w3 & [] & Hc & Ho). apply bind_run in Ho as (w4 & [] & Hv & Ho).
  apply write_entry_has in Hc. apply printed_has in Ho as (bs & Hp & Hin & Hsub).
  destruct revocations as [rev|].
  - apply printed_has in Hv as (rbs & Hrp & Hrin & Hrsub). split; [by apply Hsub, Hrsub|].
    split; [|by exists bs]. intros r [= <-]. exists rbs. split; [done|by apply Hsub].
  - injection Hv as <-. split; [by apply Hsub|]. split; [done|by exists bs].
Qed.

Lemma run_ops_writes o os w w' :
  o ∈ os → run_ops os w = (w', Ok tt) → op_writes o (entries w').
Proof.
  intros (os1 & os2 & ->)%list_elem_of_split (w1 & _ & Hr)%run_ops_app. cbn [run_ops] in Hr.
  apply bind_run in Hr as (w2 & [] & Ho & Hr). apply run_ops_later in Hr as [Hs _].
  eapply op_writes_mono; [exact Hs|]. by eapply run_op_writes.
Qed.
End readback.

(** The documents of an operation parse back. *)
Definition op_parses `{JsonPrinter} `{JsonParser} (o : op) : Prop :=
  match o with
  | OpCheckpoints sid cps =>
    let doc := {| scs_stream_id := sid; scs_checkpoints := cps |} in
    ∀ bs, print_stream_checkpoints doc = Some bs → parse_stream_checkpoints bs = Some doc
  | OpProofs proofs => ∀ bs, print_anchor_proofs proofs = Some bs → parse_anchor_proofs bs = Some proofs
  | OpIdentity certs revs roots =>
    valid_str certs = true ∧
    (∀ rev bs, revs = Some rev → print_revocations rev = Some bs → parse_revocations bs = Some rev) ∧
    ∀ bs, print_roots roots = Some bs → parse_roots bs = Some roots
  | _ => True
  end.

Lemma no_revocations_path o :
  (∀ c rev ro, o ≠ OpIdentity c (Some rev) ro) → str "identity/revocations.json" ∉ op_paths o.
Proof.
  intros Ho Hin. destruct o as [| | | | |c [rev|] ro|]; cbn [op_paths] in Hin;
    rewrite ?elem_of_cons, ?elem_of_nil in Hin; destruct_or?; try discriminate; try done.
  by apply (Ho c rev ro).
Qed.

(** ** The finished bundle *)

Section finished.
Context `{Blake3} `{ZipWriterLaws} `{ZstdEncode} `{JsonPrinter} `{JsonParser}.
Context (ops : list op) (bundle_id created_at : rstring) (tool : ToolInfo) (threshold : Z).
Context (level : ExportLevel) (ts_from ts_to : option rstring) (resources : list rstring).
Context (w w' : BundleWriter) (m : Manifest) (h : rstring) (a : archive).
Context (Hrun : run_ops ops (with_shard_threshold threshold (new_writer bundle_id created_at tool))
  = (w, Ok tt)).
Context (Hfinish : finish level ts_from ts_to resources w = (w', Ok (m, h, a))).

Abbreviation entries w := (zw_entries (bw_zip w)).

Lemma run_listed : listed w ∧ index_final w.
Proof.
  destruct (new_writer_ok bundle_id created_at tool threshold) as [Hl Hx]. split.
  - eapply (run_ops_keep_all listed); [apply write_entry_listed|done..|exact Hl|exact Hrun].
  - by eapply run_ops_index.
Qed.

Lemma finished_verifies : verify_content_hashes {| br_zip := a; br_manifest := m |} = Ok [].
Proof. by destruct (finish_verifies _ _ _ _ _ _ _ _ _ (proj1 run_listed) Hfinish). Qed.

(** The bundle opens, with the manifest and the manifest hash of [finish]. *)
Lemma finished_opens :
  manifest_parses m →
  open_bundle (Some a) = Ok {| br_zip := a; br_manifest := m |} ∧
  manifest_hash {| br_zip := a; br_manifest := m |} = Ok h.
Proof.
  intros Hp. destruct (finish_verifies _ _ _ _ _ _ _ _ _ (proj1 run_listed) Hfinish) as (_ & mb & Hmb & Hrd & Hh).
  split; [|unfold manifest_hash; cbn [br_manifest]; by rewrite Hh].
  unfold open_bundle. cbn [ok_or mbind result_bind]. rewrite Hrd. cbn. by rewrite (Hp _ Hmb).
Qed.

Lemma finished_schema : man_schema_version m = BUNDLE_SCHEMA_VERSION.
Proof.
  destruct run_listed as [Hl Hx]. by destruct (finish_later _ _ _ _ _ _ _ _ _ Hl Hx Hfinish) as (? & _ & _ & _ & -> & _).
Qed.

(** What was written is read. *)
Lemma finished_read p bs : (p, bs) ∈ entries w → read_entry a p = Ok bs.
Proof.
  intros Hin. destruct run_listed as [Hl Hx].
  destruct (finish_later _ _ _ _ _ _ _ _ _ Hl Hx Hfinish) as (w2 & [Hsub _] & _ & _ & _ & _ & Hread).
  unfold read_entry. by rewrite (Hread p bs) by auto.
Qed.

Lemma finished_index : INDEX ∈ (entries w).*1 → INDEX ∈ ce_path <$> man_contents m.
Proof.
  intros Hin. destruct run_listed as [Hl Hx].
  destruct (finish_later _ _ _ _ _ _ _ _ _ Hl Hx Hfinish) as (w2 & [Hsub _] & _ & _ & _ & -> & _).
  apply list_elem_of_fmap in Hin as (e & -> & He). apply list_elem_of_fmap. exists e. auto.
Qed.

(** What no operation writes to is missing. *)
Lemma finished_missing p :
  (∀ sid no, p ≠ shard_path sid no) → p ∉ [INDEX; str "VERIFY.md"; str "manifest.json"] →
  p ∉ (ops ≫= op_paths) → read_entry a p = Err (MissingEntry p).
Proof.
  intros Hs Hn Hp. rewrite !not_elem_of_cons in Hn. destruct Hn as (Hi & Hv & Hm & _).
  destruct (finish_reads _ _ _ _ _ _ _ _ _ (proj1 run_listed) Hfinish) as (w1 & Hc & Hpaths & Hread).
  apply Hread; [done|]. rewrite Hpaths, not_elem_of_app.
  split; [|intros Heq%list_elem_of_singleton; done].
  enough (Forall (λ q, p ≠ q) (entries w1).*1) as Hf
    by (intros Hin; rewrite Forall_forall in Hf; by apply (Hf p)).
  assert (∀ q bs, p ≠ q → keeps (λ w, Forall (λ q, p ≠ q) (entries w).*1) (write_entry q bs)) as Hk.
  { intros q bs Hq v v' u Hf (_ & -> & _)%write_entry_Ok. rewrite fmap_app. apply Forall_app.
    by split; [|repeat constructor]. }
  eapply (close_keeps_paths _ (λ q, p ≠ q) Hk); [done..| |exact Hc].
  eapply (run_ops_paths (λ q, p ≠ q)); [done|done| | |exact Hrun].
  - apply Forall_forall. by intros q Hq ->.
  - cbn. rewrite zw_new_entries. constructor.
Qed.

(** The scope of the manifest is the streams that were added. *)
Lemma finished_scope sc :
  sc ∈ bs_streams (man_scope m) → ∃ ls, OpRecords (ss_stream_id sc) ls ∈ ops.
Proof.
  intros Hsc. apply elem_of_op_streams, dec_stable. intros Hno. destruct run_listed as [Hl Hx].
  destruct (finish_later _ _ _ _ _ _ _ _ _ Hl Hx Hfinish) as (w2 & _ & Hi & _ & Hm & _).
  rewrite Hm in Hsc. cbn in Hsc. rewrite Hi in Hsc. apply list_elem_of_fmap in Hsc as (e & -> & He).
  apply (run_ops_without (ris_stream_id e)) in Hrun; [|intros ls Hin; apply Hno, elem_of_op_streams; eauto|constructor].
  rewrite Forall_forall in Hrun. by apply (Hrun e He).
Qed.

(** The lines of a stream that was added once are read back; it is in scope. *)
Lemma finished_lines `{!ZstdApi, !ZstdLaws} sid lines :
  OpRecords sid ((λ l, Ok (line_of l)) <$> lines) ∈ ops → NoDup (op_streams ops) →
  Forall valid_line lines → INDEX ∈ (entries w).*1 → index_parses (bw_index w) →
  (∃ count, stream_lines {| br_zip := a; br_manifest := m |} sid = (lines, Ok count)) ∧
  sid ∈ ss_stream_id <$> bs_streams (man_scope m).
Proof.
  intros (os1 & os2 & Hos)%list_elem_of_split Hnd Hv Hidx%finished_index Hp.
  rewrite Hos in Hnd. pose proof Hrun as Hr. rewrite Hos in Hr.
  enough (∀ ls, OpRecords sid ls ∉ os1) as Hno.
  { destruct (stream_scope _ _ _ _ _ _ _ _ _ _ _ _ _ _ _ _ _ Hr Hfinish Hno) as (sc & Hsc & <- & _).
    split; [eexists; by eapply stream_back|]. apply list_elem_of_fmap. by exists sc. }
  intros ls Hin. unfold op_streams in Hnd. rewrite omap_app in Hnd. cbn in Hnd.
  apply NoDup_app in Hnd as (_ & Hd & _). apply (Hd sid); [|left]. apply elem_of_op_streams. eauto.
Qed.
(** *** Documents that parse back *)

Lemma finished_index_read :
  INDEX ∈ (entries w).*1 → index_parses (bw_index w) →
  record_index {| br_zip := a; br_manifest := m |} = Ok (bw_index w).
Proof.
  intros Hin Hp. apply list_elem_of_fmap in Hin as ([k bs] & [= <-] & Hin). unfold record_index. cbn [br_zip].
  rewrite (finished_read _ _ Hin). cbn [mbind result_bind]. destruct run_listed as [_ Hx].
  destruct (Hx bs Hin) as [Hpr _]. by rewrite (Hp bs Hpr).
Qed.

Lemma finished_streams : bs_streams (man_scope m) = scope_of <$> idx_streams (bw_index w).
Proof.
  destruct run_listed as [Hl Hx].
  destruct (finish_later _ _ _ _ _ _ _ _ _ Hl Hx Hfinish) as (w2 & _ & Hi & _ & -> & _). cbn. by rewrite Hi.
Qed.

Context (Hparses : Forall op_parses ops).

Lemma finished_op o : o ∈ ops → op_writes o (entries w) ∧ op_parses o.
Proof. intros Ho. split; [by eapply run_ops_writes|]. rewrite Forall_forall in Hparses. auto. Qed.

Lemma finished_document sid cps :
  OpCheckpoints sid cps ∈ ops →
  stream_checkpoints {| br_zip := a; br_manifest := m |} sid = Ok {| scs_stream_id := sid; scs_checkpoints := cps |}.
Proof.
  intros Ho. destruct (finished_op _ Ho) as [(bs & Hp & Hin) Hd]. specialize (Hd _ Hp).
  unfold stream_checkpoints. cbn [br_zip].
  change (str "checkpoints/" ++ sid ++ str ".json") with (checkpoints_path sid).
  rewrite (finished_read _ _ Hin). cbn [mbind result_bind]. by rewrite Hd.
Qed.

Lemma finished_identity certs revs roots :
  OpIdentity certs revs roots ∈ ops → (∀ c r ro, OpIdentity c r ro ∈ ops → r = revs) →
  identity {| br_zip := a; br_manifest := m |} = Ok {| bi_certs_pem := certs; bi_revocations := revs; bi_roots := roots |}.
Proof.
  intros Ho Hu. destruct (finished_op _ Ho) as [(Hc & Hr & rbs & Hrp & Hrin) (Hval & Hrev & Hroots)].
  unfold identity. cbn [br_zip]. rewrite (finished_read _ _ Hc). cbn [mbind result_bind].
  rewrite (proj2 (from_utf8_spec _ certs)) by done. cbn [ok_or mbind result_bind].
  assert (match read_entry a (str "identity/revocations.json") with
    | Ok bytes => Some <$> ok_or (parse_revocations bytes) BundleJson
    | Err (MissingEntry _) => Ok None
    | Err e => Err e
    end = Ok revs) as ->.
  { destruct revs as [rev|].
    - destruct (Hr rev eq_refl) as (bs & Hp & Hin). rewrite (finished_read _ _ Hin).
      by rewrite (Hrev rev bs).
    - erewrite finished_missing; try done; [by_compute|].
      intros (o & Hin & Hoin)%list_elem_of_bind. revert Hin. apply no_revocations_path.
      intros c rev ro ->. by specialize (Hu _ _ _ Hoin). }
  cbn [mbind result_bind]. rewrite (finished_read _ _ Hrin). cbn [mbind result_bind].
  by rewrite (Hroots rbs Hrp).
Qed.
End finished.
