(* ===== verification/Success.v ===== *)
(** * When the bundle writer succeeds (bundle/src/write.rs)

    The phases of [BundleWriter] as a protocol: with an archive, a compressor
    and a serializer that do not fail, a sequence of operations succeeds exactly
    if they come in the order of the phases. *)

From Stdlib Require Import Strings.Byte.
From S2P Require Import Prelude Text Errors Hash Json Jcs JcsFacts Record Chain Recorder Checkpoint.
From S2P Require Import Revocation Bundle Anchors Reader Streams Identity Writer Readback.

(** ** The protocol *)

(** The last phase in which an operation is accepted, and the phase it leads
    to. *)
Definition op_limit (o : op) : Z :=
  match o with
  | OpRecords _ _ => 0 | OpCheckpoints _ _ => 1 | OpToken _ _ | OpQts _ _ | OpProofs _ => 2
  | OpIdentity _ _ _ => 2 | OpVault _ _ => 4
  end.

Definition op_phase (o : op) : Phase :=
  match o with
  | OpRecords _ _ => Records | OpCheckpoints _ _ => Checkpoints
  | OpToken _ _ | OpQts _ _ | OpProofs _ => Anchors_
  | OpIdentity _ _ _ => Identity_ | OpVault _ _ => Vault
  end.

(** The operations come in the order of the phases, from the given one on. *)
Fixpoint in_phases (p : Phase) (ops : list op) : bool :=
  match ops with
  | [] => true
  | o :: ops => (phase_rank p <=? op_limit o) && in_phases (op_phase o) ops
  end.

(** What an operation needs of its arguments. *)
Definition op_ready `{JsonParser} (o : op) : Prop :=
  match o with
  | OpRecords _ lines => ∃ ls, lines = Ok <$> ls ∧ ls ≠ [] ∧ Z.of_nat (length ls) < 2 ^ 32 - 1 ∧
      Forall (λ l, is_ok (seq_of l) = true) ls
  | OpVault name _ => contains (str "..") name || starts_with 47 name = false
  | _ => True
  end.

(** What the writer relies on: an archive that takes every new name and every
    write, and a compressor and serializers that do not fail. *)
Record tools_work `{ZipWriterLaws} `{ZstdEncode} `{JsonPrinter} : Prop := {
  zip_starts : ∀ z p, p ∉ (zw_entries z).*1 → (zw_start_file z p).2 = true;
  zip_writes : ∀ z bs, zw_entries z ≠ [] → (zw_write_all z bs).2 = true;
  zip_ends : ∀ z, is_Some (zw_finish z);
  zstd_encodes : ∀ bs, is_Some (zstd_encode bs);
  index_prints : ∀ i, is_Some (print_record_index i);
  checkpoints_print : ∀ c, is_Some (print_stream_checkpoints c);
  proofs_print : ∀ p, is_Some (print_anchor_proofs p);
  revocations_print : ∀ r, is_Some (print_revocations r);
  roots_print : ∀ r, is_Some (print_roots r);
}.

(** ** Facts: steps that succeed *)

Section steps.
Context `{Blake3} `{ZipWriterLaws} `{ZstdEncode} `{JsonPrinter} `{JsonParser} (Hworks : tools_work).

Abbreviation entries w := (zw_entries (bw_zip w)).
Abbreviation keys w := (entries w).*1.

Lemma run_bind {A B} (m : Wr A) (f : A → Wr B) w w1 a w' b :
  m w = (w1, Ok a) → f a w1 = (w', Ok b) → (m ≫= f) w = (w', Ok b).
Proof. intros Hm Hf. unfold mbind, wr_bind. by rewrite Hm. Qed.

Lemma write_succeeds p bs w :
  p ∉ keys w → ∃ w', write_entry p bs w = (w', Ok tt) ∧ keys w' = keys w ++ [p] ∧ bw_phase w' = bw_phase w.
Proof.
  intros Hp. assert (∃ w', write_entry p bs w = (w', Ok tt)) as [w' Hw].
  { unfold write_entry, zip_start, zip_write, mbind, wr_bind.
    pose proof (zip_starts Hworks _ _ Hp) as Hs. destruct (zw_start_file (bw_zip w) p) as [z1 ok1] eqn:H1'.
    cbn in Hs. subst ok1. apply zw_start_ok in H1' as [_ He1]. cbn [set_zip bw_zip].
    pose proof (zip_writes Hworks z1 bs) as Hz. rewrite He1 in Hz. specialize (Hz ltac:(by destruct (entries w))).
    destruct (zw_write_all z1 bs) as [z2 ok2]. cbn in Hz. subst ok2. by eexists. }
  exists w'. split; [done|]. apply write_entry_Ok in Hw as (_ & He & Hw'). rewrite He, fmap_app. split; [done|].
  by rewrite Hw'.
Qed.

Lemma print_succeeds p (o : option bytes) w :
  is_Some o → p ∉ keys w →
  ∃ w', (bs ← wr_lift (ok_or o BundleJson); write_entry p bs) w = (w', Ok tt) ∧ keys w' = keys w ++ [p] ∧
    bw_phase w' = bw_phase w.
Proof. intros [bs ->] Hp. by apply write_succeeds. Qed.

(** [close_records] at most adds the index, and leaves the records. *)
Lemma close_succeeds w :
  (bw_phase w = Records → INDEX ∉ keys w) →
  ∃ w', close_records w = (w', Ok tt) ∧ keys w' ⊆ keys w ++ [INDEX] ∧
    bw_phase w' = if decide (bw_phase w = Records) then Checkpoints else bw_phase w.
Proof.
  intros Hi. unfold close_records, wr_get, mbind at 1, wr_bind at 1. case_decide as Hp.
  - destruct (index_prints Hworks (bw_index w)) as [bs Hbs].
    destruct (write_succeeds INDEX bs w (Hi Hp)) as (w1 & Hw & Hk & _). exists (set_phase Checkpoints w1).
    split; [|split; [cbn [set_phase bw_zip]; by rewrite Hk|done]]. unfold finish_records, wr_get, wr_lift, mbind, wr_bind.
    rewrite Hbs. cbn [ok_or]. by rewrite Hw.
  - exists w. split_and!; [done| |done]. intros x Hx. apply elem_of_app. by left.
Qed.

Lemma require_succeeds a b w :
  phase_rank (bw_phase w) ≤ phase_rank a → require_phase a b w = (set_phase b w, Ok tt).
Proof. intros Ha. unfold require_phase. by rewrite (proj2 (Z.ltb_ge _ _)). Qed.

(** The start of the operations after the records. *)
Lemma opened w a b :
  (bw_phase w = Records → INDEX ∉ keys w) → phase_rank (bw_phase w) ≤ phase_rank a → 1 ≤ phase_rank a →
  ∃ w1, (∀ A (k : unit → Wr A) w' r, k tt (set_phase b w1) = (w', Ok r) →
      (_ ← close_records; u ← require_phase a b; k u) w = (w', Ok r)) ∧
    ∀ p, p ≠ INDEX → p ∉ keys w → p ∉ keys w1.
Proof.
  intros Hi Ha Ha1. destruct (close_succeeds w Hi) as (w1 & Hc & Hk & Hp). exists w1. split.
  - intros A k w' r Hr. eapply run_bind; [exact Hc|]. eapply run_bind; [|exact Hr]. apply require_succeeds.
    rewrite Hp. case_decide; [cbn; lia|done].
  - intros p Hne Hp' Hin%Hk. apply elem_of_app in Hin as [Hin|Hin%list_elem_of_singleton]; done.
Qed.
End steps.

(** ** Facts: the numbers of shards *)

Lemma leading_zeros k u :
  replicate k "0"%byte ++ uint_bytes u = uint_bytes (Nat.iter k Decimal.D0 u).
Proof. induction k as [|k IH]; [done|]. cbn. by rewrite IH. Qed.

Lemma leading_zeros_value k u : Z.of_uint (Nat.iter k Decimal.D0 u) = Z.of_uint u.
Proof. induction k as [|k IH]; [done|]. exact IH. Qed.

(** A number and its padded digits. *)
Lemma dec_05_digits n :
  0 ≤ n → ∃ u, Z.of_uint u = n ∧ dec_05 n = b2z <$> uint_bytes u.
Proof.
  intros Hn. unfold dec_05, dec_bytes. pose proof (DecimalZ.of_to n) as Hof.
  destruct (Z.to_int n) as [u|u] eqn:Hu; [|by destruct n].
  set (k := (5 - length (b2z <$> uint_bytes u))%nat). exists (Nat.iter k Decimal.D0 u).
  split; [by rewrite leading_zeros_value|]. rewrite <-leading_zeros, fmap_app. f_equal.
  by rewrite fmap_replicate.
Qed.

Lemma dec_05_inj a b : 0 ≤ a → 0 ≤ b → dec_05 a = dec_05 b → a = b.
Proof.
  intros (u & <- & ->)%dec_05_digits (v & <- & ->)%dec_05_digits Heq.
  assert (Inj (=) (=) b2z) as Hinj by (intros x y; apply b2z_inj).
  apply (inj (fmap b2z)), uint_bytes_inj in Heq. by subst.
Qed.

Lemma shard_path_reverse sid n :
  reverse (shard_path sid n) =
    reverse (str ".ndjson.zst") ++ reverse (dec_05 n) ++ 45 :: reverse (str ".part") ++ reverse sid ++ reverse (str "records/").
Proof.
  unfold shard_path. rewrite !reverse_app, <-!(assoc_L app). f_equal.
Qed.

Lemma digits_reverse n : 0 ≤ n → Forall (λ c, c ≠ 45) (reverse (dec_05 n)).
Proof.
  intros (u & _ & ->)%dec_05_digits. rewrite Forall_reverse. apply Forall_fmap.
  eapply Forall_impl; [apply uint_bytes_digits|]. intros c [Hc _] Heq. change (b2z c = 45) in Heq.
  rewrite Heq in Hc. by apply Hc.
Qed.

Lemma sign_reverse n :
  n < 0 → ∃ ds k, Forall (λ c, c ≠ 45) ds ∧ reverse (dec_05 n) = ds ++ 45 :: replicate k 48.
Proof.
  intros Hn. unfold dec_05, dec_bytes. destruct (Z.to_int n) as [u|u] eqn:Hu; [by destruct n|].
  cbn [fmap list_fmap]. change (b2z "-"%byte) with 45. set (k := (5 - _)%nat).
  exists (reverse (b2z <$> uint_bytes u)), k. split.
  - rewrite Forall_reverse. apply Forall_fmap. eapply Forall_impl; [apply uint_bytes_digits|].
    intros c [Hc _] Heq. change (b2z c = 45) in Heq. rewrite Heq in Hc. by apply Hc.
  - by rewrite reverse_app, reverse_cons, reverse_replicate, <-(assoc_L app).
Qed.

(** The stream and the number are read off the path of a shard. *)
Lemma shard_path_inj sid sid' a b :
  0 ≤ b → shard_path sid a = shard_path sid' b → sid = sid' ∧ (0 ≤ a → a = b).
Proof.
  intros Hb Heq%(f_equal reverse). rewrite !shard_path_reverse in Heq. apply app_inv_head in Heq.
  pose proof (digits_reverse b Hb) as Hdb.
  assert (∀ (x : Z) l, head (45 :: l) = Some x → ¬ (λ c, c ≠ 45) x) as Hdash by (intros x l [= <-] Hx; by apply Hx).
  destruct (Z.lt_ge_cases a 0) as [Ha|Ha].
  - destruct (sign_reverse a Ha) as (ds & k & Hds & Hr). rewrite Hr, <-(assoc_L app) in Heq. cbn [app] in Heq.
    apply (span_unique (λ c, c ≠ 45)) in Heq as [_ Heq]; [|done|done|intros x; apply Hdash..].
    injection Heq as Heq. by destruct k.
  - apply (span_unique (λ c, c ≠ 45)) in Heq as [Hab Heq]; [|by apply digits_reverse|done|intros x; apply Hdash..].
    apply (inj reverse) in Hab. apply dec_05_inj in Hab; [|done..]. injection Heq as Heq.
    apply app_inv_tail in Heq. by apply (inj reverse) in Heq.
Qed.

(** ** Facts: the shards of a stream *)

Section shards.
Context `{Blake3} `{ZipWriterLaws} `{ZstdEncode} `{JsonPrinter} `{JsonParser} (Hworks : tools_work).
Context (sid : rstring).

Abbreviation entries w := (zw_entries (bw_zip w)).
Abbreviation keys w := (entries w).*1.

(** No shard with that number or a later one is in the archive. *)
Definition room (n : Z) (w : BundleWriter) : Prop := ∀ k, n ≤ k < 2 ^ 32 → shard_path sid k ∉ keys w.

Lemma flush_succeeds s w :
  0 ≤ sh_no s < 2 ^ 32 → room (sh_no s) w →
  ∃ w' s', flush_shard sid s w = (w', Ok s') ∧ sh_no s' = sh_no s ∧ sh_count s' = sh_count s ∧
    sh_first s' = sh_first s ∧ sh_last s' = sh_last s ∧ room (sh_no s + 1) w' ∧
    sh_buf s' = [] ∧ length (sh_shards s') = (length (sh_shards s) + match sh_buf s with [] => 0 | _ => 1 end)%nat ∧
    bw_shard_threshold w' = bw_shard_threshold w ∧ bw_phase w' = bw_phase w.
Proof.
  intros Hn Hroom. unfold flush_shard. destruct (sh_buf s) as [|b buf] eqn:Hb.
  - exists w, s. split_and!; try done; try lia. intros k Hk. apply Hroom. lia.
  - destruct (zstd_encodes Hworks (b :: buf)) as [c Hc].
    destruct (write_succeeds Hworks (shard_path sid (sh_no s)) c w) as (w' & Hw & Hk & Hp); [apply Hroom; lia|].
    eexists w', _. split.
    { eapply run_bind; [by rewrite Hc|]. cbv zeta. eapply run_bind; [exact Hw|]. reflexivity. }
    apply write_entry_Ok in Hw as (_ & _ & Hw). split_and!; try done.
    + intros k Hk'. rewrite Hk, not_elem_of_app. split; [apply Hroom; lia|].
      intros Heq%list_elem_of_singleton. apply shard_path_inj in Heq as [_ Heq]; lia.
    + cbn [sh_shards]. rewrite length_app. cbn. lia.
    + by rewrite Hw.
Qed.

(** Every line gets into a shard that can be written; if each is as long as a
    shard, then each gets its own. *)
Lemma lines_succeed ls s w :
  1 ≤ sh_no s → sh_no s + Z.of_nat (length ls) < 2 ^ 32 → 0 ≤ sh_count s → sh_count s + Z.of_nat (length ls) < 2 ^ 32 →
  room (sh_no s) w →
  ∃ w' s', add_lines sid s (Ok <$> ls) w = (w', Ok s') ∧
    sh_count s' = sh_count s + Z.of_nat (length ls) ∧ 0 ≤ sh_no s' < 2 ^ 32 ∧ room (sh_no s') w' ∧
    sh_first s' = (match sh_first s with Some l => Some l | None => head ls end) ∧
    sh_last s' = (match last ls with Some l => Some l | None => sh_last s end) ∧
    bw_phase w' = bw_phase w ∧
    (sh_buf s = [] → Forall (λ l, l ≠ [] ∧ bw_shard_threshold w ≤ wrap_u64 (Z.of_nat (length l))) ls →
     sh_buf s' = [] ∧ length (sh_shards s') = (length (sh_shards s) + length ls)%nat).
Proof.
  revert s w; induction ls as [|l ls IH]; intros s w Hn Hnl Hc Hcl Hroom.
  { exists w, s. split_and!; try done; cbn in *; try lia. by destruct (sh_first s). }
  cbn [length] in *.
  assert (∃ w1 s1, add_line sid s (Ok l) w = (w1, Ok s1) ∧ sh_no s ≤ sh_no s1 ≤ sh_no s + 1 ∧
    sh_count s1 = sh_count s + 1 ∧ sh_first s1 = Some (default l (sh_first s)) ∧ sh_last s1 = Some l ∧
    room (sh_no s1) w1 ∧ bw_shard_threshold w1 = bw_shard_threshold w ∧ bw_phase w1 = bw_phase w ∧
    (sh_buf s = [] → l ≠ [] ∧ bw_shard_threshold w ≤ wrap_u64 (Z.of_nat (length l)) →
     sh_buf s1 = [] ∧ length (sh_shards s1) = S (length (sh_shards s))))
    as (w1 & s1 & Hl & Hn1 & Hc1 & Hf1 & Hl1 & Hr1 & Ht1 & Hp1 & Hb1).
  { assert (u64_add (sh_count s) 1 = sh_count s + 1) as Hadd
      by (apply wrap_u64_id, is_u64_spec; unfold u64_max; lia).
    unfold add_line, wr_lift, wr_get, mbind, wr_bind. destruct (Z.leb_spec (bw_shard_threshold w)
      (wrap_u64 (Z.of_nat (length (sh_buf (push_line l s)))))) as [Hle|Hgt].
    - destruct (flush_succeeds (push_line l s) w) as (w1 & s1 & Hf & Hn1 & Hc1 & Hf1 & Hl1 & Hr1 & Hb1 & Hs1 & Ht1 & Hp1);
        [cbn; lia|done|]. cbn [push_line sh_no sh_count sh_first sh_last sh_buf sh_shards] in *.
      rewrite Hf. exists w1, (next_shard s1). cbn [next_shard sh_no sh_count sh_first sh_last sh_buf sh_shards].
      rewrite Hn1, Z.mod_small, Hc1, Hf1 by lia. split_and!; try done; try lia; [by destruct (sh_first s)|].
      intros Hb [Hne _]. split; [done|]. rewrite Hs1, Hb. destruct l; [done|]. cbn. lia.
    - exists w, (push_line l s). cbn [push_line sh_no sh_count sh_first sh_last sh_buf sh_shards] in *.
      split_and!; try done; try lia; [by destruct (sh_first s)|]. intros Hb [_ Hle]. rewrite Hb in Hgt. cbn in Hgt. lia. }
  destruct (IH s1 w1) as (w2 & s2 & Hls & Hc2 & Hn2 & Hr2 & Hf2 & Hl2 & Hp2 & Hb2); [lia..|done|].
  exists w2, s2. split_and!; try done; try lia.
  - cbn [fmap list_fmap add_lines]. eapply run_bind; [exact Hl|exact Hls].
  - rewrite Hf2, Hf1. by destruct (sh_first s).
  - rewrite Hl2, Hl1. destruct ls as [|l2 ls]; [done|]. change (last (l :: l2 :: ls)) with (last (l2 :: ls)). destruct (last_is_Some (l2 :: ls)) as [_ [z ->]]; done.
  - by rewrite Hp2.
  - intros Hb [Hl' Hls']%Forall_cons. destruct (Hb1 Hb Hl') as [Hb' Hs']. rewrite Ht1 in Hb2.
    destruct (Hb2 Hb' Hls') as [-> ->]. split; [done|]. lia.
Qed.

Lemma records_succeed ls w :
  bw_phase w = Records → ls ≠ [] → Z.of_nat (length ls) < 2 ^ 32 - 1 → Forall (λ l, is_ok (seq_of l) = true) ls →
  room 1 w →
  ∃ w' e, add_stream_records sid (Ok <$> ls) w = (w', Ok e) ∧ bw_phase w' = Records ∧
    ris_record_count e = Z.of_nat (length ls) ∧
    (Forall (λ l, l ≠ [] ∧ bw_shard_threshold w ≤ wrap_u64 (Z.of_nat (length l))) ls →
     length (ris_shards e) = length ls).
Proof.
  intros Hp Hne Hlen Hseq Hroom.
  destruct (lines_succeed ls start_shards (set_phase Records w)) as
    (w1 & s1 & Hl & Hc & Hn & Hr & Hf & Hla & Hp1 & Hb); cbn [start_shards sh_no sh_count]; [lia..|done|].
  destruct (flush_succeeds s1 w1 Hn Hr) as (w2 & s2 & Hfl & _ & Hc2 & Hf2 & Hl2 & _ & _ & Hs2 & _ & Hp2).
  destruct ls as [|l ls]; [done|]. set (all := l :: ls) in *.
  destruct (last_is_Some all) as [_ [z Hz]]; [done|]. rewrite Hz in Hla.
  apply Forall_cons in Hseq as Hl'. destruct Hl' as [Hl' _].
  assert (is_ok (seq_of z) = true) as Hz' by (rewrite Forall_forall in Hseq; by apply Hseq, last_Some_elem_of).
  destruct (seq_of l) as [a|] eqn:Ha; [|done]. destruct (seq_of z) as [b|] eqn:Hb'; [|done].
  assert (sh_count s2 =? 0 = false) as Hnz by (apply Z.eqb_neq; rewrite Hc2, Hc; unfold all; cbn [start_shards sh_count length]; lia).
  eexists _, {| ris_stream_id := sid; ris_shards := sh_shards s2; ris_seq_from := a; ris_seq_to := b;
    ris_record_count := sh_count s2 |}. split_and!.
  - unfold add_stream_records. eapply run_bind; [apply require_succeeds; by rewrite Hp|].
    eapply run_bind; [exact Hl|]. eapply run_bind; [exact Hfl|]. rewrite Hnz.
    rewrite Hf2, Hf, Hl2, Hla. cbn [start_shards sh_first head all default from_option Datatypes.id].
    rewrite Ha, Hb'. reflexivity.
  - cbn [set_index bw_phase]. by rewrite Hp2, Hp1.
  - cbn [ris_record_count]. rewrite Hc2, Hc. cbn [start_shards sh_count]. lia.
  - intros Hall. cbn [ris_shards]. destruct (Hb eq_refl Hall) as [Hbuf Hs]. rewrite Hs2, Hbuf, Hs. cbn. lia.
Qed.
End shards.

(** ** Facts: operations that succeed *)

(** Documents are in one of four directories: shards, the index and the files
    at the top are not among them. *)
Lemma document_head o p : p ∈ op_paths o → head p ∈ Some <$> str "caiv".
Proof.
  intros Hp. enough (Forall (λ p, head p ∈ Some <$> str "caiv") (op_paths o)) as Hall
    by (rewrite Forall_forall in Hall; auto).
  clear Hp. destruct o as [| | | | |? [] ?|]; repeat constructor; cbn; set_solver.
Qed.

Lemma document_path o p : p ∈ op_paths o → head p ≠ Some 114.
Proof. intros Hp%document_head Heq. rewrite Heq in Hp. revert Hp. by_compute. Qed.

Lemma documents_head ops p : head p ∉ Some <$> str "caiv" → p ∉ (ops ≫= op_paths).
Proof. by intros Hp (o & Hin%document_head & _)%list_elem_of_bind. Qed.

Lemma document_not_shard o p sid no : p ∈ op_paths o → p ≠ shard_path sid no.
Proof. by intros Hp%document_path ->. Qed.

Lemma document_not_index o p : p ∈ op_paths o → p ≠ INDEX.
Proof. by intros Hp%document_path ->. Qed.

Section runs.
Context `{Blake3} `{ZipWriterLaws} `{ZstdEncode} `{JsonPrinter} `{JsonParser}.

Abbreviation entries w := (zw_entries (bw_zip w)).
Abbreviation keys w := (entries w).*1.

(** An operation that succeeds was in phase. *)
Lemma run_op_phase o w w' :
  run_op o w = (w', Ok tt) → phase_rank (bw_phase w) ≤ op_limit o ∧ bw_phase w' = op_phase o.
Proof.
  assert (∀ a b v v' u, require_phase a b v = (v', Ok u) → phase_rank (bw_phase v) ≤ phase_rank a ∧ bw_phase v' = b) as Hreq.
  { intros a b v v' u. unfold require_phase. case_match eqn:Hle; [done|]. intros [= <- _]. apply Z.ltb_ge in Hle. done. }
  assert (∀ v v' u, close_records v = (v', Ok u) →
    phase_rank (bw_phase v) ≤ phase_rank (bw_phase v') ∧ (bw_phase v = Records ∨ bw_phase v' = bw_phase v)) as Hclose.
  { intros v v' u Hc. unfold close_records in Hc. apply bind_run in Hc as (v1 & x & [= <- <-] & Hc).
    case_decide as Hp; [|injection Hc as <- _; split; [done|by right]]. unfold finish_records in Hc. wr_inv.
    split; [rewrite Hp; cbn; lia|by left]. }
  intros Ho. destruct o; cbn [run_op] in Ho.
  1: { apply bind_run in Ho as (w1 & e & Ho & Hr). injection Hr as <-.
       unfold add_stream_records in Ho. apply bind_run in Ho as (w2 & u & [Hle Hp]%Hreq & Ho). split; [done|].
       assert (keeps (λ v, bw_phase v = Records) (s ← add_lines stream_id start_shards lines;
         s0 ← flush_shard stream_id s; mret s0)) as Hk.
       { apply keeps_bind; [|intros s; apply keeps_bind; [|intros; apply keeps_ret]];
           [apply add_lines_keeps|apply flush_shard_keeps]; try done.
         all: intros no bs v v' x Hv Hw; by apply write_entry_Ok in Hw as (_ & _ & ->). }
       apply bind_run in Ho as (w3 & s & Hl & Ho). apply bind_run in Ho as (w4 & s' & Hf & Ho).
       assert (bw_phase w4 = Records) as Hp4.
       { eapply Hk; [exact Hp|]. eapply run_bind; [exact Hl|]. eapply run_bind; [exact Hf|]. reflexivity. }
       case_match; [done|]. wr_inv. exact Hp4. }
  6: { unfold add_vault_entry in Ho. apply bind_run in Ho as (w1 & u & [Hle Hp]%Hreq & Ho).
       case_match; [done|]. apply write_entry_Ok in Ho as (_ & _ & ->). done. }
  all: unfold add_stream_checkpoints, add_rfc3161_token, add_qts_token, add_anchor_proofs, add_identity in Ho;
    apply bind_run in Ho as (w1 & u & [Hmono _]%Hclose & Ho);
    apply bind_run in Ho as (w2 & u2 & [Hle Hp]%Hreq & Ho);
    (split; [cbn [op_limit] in *; cbn [phase_rank] in Hle; lia|]).
  1,4: apply bind_run in Ho as (w3 & bs & [= <- _] & Ho).
  1,2,3,4: by apply write_entry_Ok in Ho as (_ & _ & ->).
  apply bind_run in Ho as (w3 & u3 & Hw3 & Ho). apply bind_run in Ho as (w4 & u4 & Hw4 & Ho).
  apply bind_run in Ho as (w5 & bs & [= <- _] & Ho). apply write_entry_Ok in Ho as (_ & _ & ->).
  apply write_entry_Ok in Hw3 as (_ & _ & Hw3). destruct revocations.
  - apply bind_run in Hw4 as (w6 & bs' & [= <- _] & Hw4). apply write_entry_Ok in Hw4 as (_ & _ & ->). by rewrite Hw3.
  - injection Hw4 as <-. by rewrite Hw3.
Qed.

Lemma run_ops_in_phases ops w w' :
  run_ops ops w = (w', Ok tt) → in_phases (bw_phase w) ops = true.
Proof.
  revert w; induction ops as [|o ops IH]; intros w Hr; [done|].
  cbn [run_ops] in Hr. apply bind_run in Hr as (w1 & [] & [Hle Hp]%run_op_phase & Hr%IH).
  cbn [in_phases]. rewrite <-Hp. apply andb_true_iff. split; [by apply Z.leb_le|done].
Qed.

(** The revocations are written when there are any; nothing else is. *)
Lemma revocations_succeed (revs : option SignedRevocationList) w :
  tools_work → (is_Some revs → str "identity/revocations.json" ∉ keys w) →
  ∃ w', (match revs with
    | Some rev => bs ← wr_lift (ok_or (print_revocations rev) BundleJson); write_entry (str "identity/revocations.json") bs
    | None => mret tt end : Wr unit) w = (w', Ok tt) ∧
    ∀ p, p ∈ keys w' → p ∈ keys w ∨ p = str "identity/revocations.json".
Proof.
  intros Hworks Hfresh. destruct revs as [rev|]; [|exists w; split; [done|by left]].
  destruct (print_succeeds Hworks (str "identity/revocations.json") (print_revocations rev) w) as (w' & Hw & Hk & _);
    [apply (revocations_print Hworks)|by apply Hfresh|].
  exists w'. split; [done|]. intros p. rewrite Hk, elem_of_app, list_elem_of_singleton. done.
Qed.

Lemma identity_succeeds certs revs roots w :
  tools_work → phase_rank (bw_phase w) ≤ op_limit (OpIdentity certs revs roots) →
  (bw_phase w = Records → INDEX ∉ keys w) → (∀ p, p ∈ op_paths (OpIdentity certs revs roots) → p ∉ keys w) →
  ∃ w', add_identity certs revs roots w = (w', Ok tt).
Proof.
  intros Hworks Hle Hi Hfresh. cbn [op_limit] in Hle.
  destruct (opened Hworks w Anchors_ Identity_) as (w1 & Hopen & Hkeys); [done|cbn; lia|cbn; lia|].
  assert (∀ p, p ∈ op_paths (OpIdentity certs revs roots) → p ∉ keys (set_phase Identity_ w1)) as Hk
    by (intros p Hp; apply Hkeys; [by eapply document_not_index|by apply Hfresh]).
  destruct (write_succeeds Hworks (str "identity/certs.pem") (as_bytes certs) (set_phase Identity_ w1)) as (w2 & Hw2 & Hk2 & _);
    [apply Hk; left|].
  assert (∀ p, p ∈ op_paths (OpIdentity certs revs roots) → p ≠ str "identity/certs.pem" → p ∉ keys w2) as Hk2'.
  { intros p Hp Hne. rewrite Hk2, not_elem_of_app, list_elem_of_singleton. split; [by apply Hk|done]. }
  destruct (revocations_succeed revs w2 Hworks) as (w3 & Hw3 & Hk3).
  { intros [rev ->]. apply Hk2'; [right; right; left|done]. }
  destruct (print_succeeds Hworks (str "identity/roots.json") (print_roots roots) w3) as (w4 & Hw4 & _);
    [apply (roots_print Hworks)|intros [Hin|Hin]%Hk3; [by eapply Hk2'; [right; left| |exact Hin]|done]|].
  exists w4. apply Hopen. eapply run_bind; [exact Hw2|]. eapply run_bind; [exact Hw3|exact Hw4].
Qed.

Lemma op_succeeds o w :
  tools_work → phase_rank (bw_phase w) ≤ op_limit o → op_ready o → NoDup (op_paths o) →
  (bw_phase w = Records → INDEX ∉ keys w) → (∀ p, p ∈ op_paths o → p ∉ keys w) →
  (∀ sid lines, o = OpRecords sid lines → ∀ k, 0 ≤ k → shard_path sid k ∉ keys w) →
  ∃ w', run_op o w = (w', Ok tt).
Proof.
  intros Hworks Hle Hready Hnd Hi Hfresh Hroom. destruct o as [sid lines|sid cps|id tok|day tok|proofs|certs revs roots|name bs];
    cbn [run_op op_limit op_ready] in *.
  - destruct Hready as (ls & -> & Hne & Hlen & Hseq).
    destruct (records_succeed Hworks sid ls w) as (w' & e & Hr & _); try done.
    + by destruct (bw_phase w); cbn in Hle; try lia.
    + intros k Hk. by apply (Hroom _ _ eq_refl); lia.
    + exists w'. eapply run_bind; [exact Hr|reflexivity].
  - destruct (opened Hworks w Checkpoints Checkpoints) as (w1 & Hopen & Hkeys); [done|cbn; lia|cbn; lia|].
    destruct (print_succeeds Hworks (checkpoints_path sid) (print_stream_checkpoints {| scs_stream_id := sid; scs_checkpoints := cps |})
      (set_phase Checkpoints w1)) as (w' & Hw & _).
    + apply (checkpoints_print Hworks).
    + apply Hkeys; [by apply (document_not_index (OpCheckpoints sid cps)); left|apply Hfresh; left].
    + exists w'. by apply Hopen.
  - destruct (opened Hworks w Anchors_ Anchors_) as (w1 & Hopen & Hkeys); [done|cbn; lia|cbn; lia|].
    destruct (write_succeeds Hworks (str "anchors/rfc3161/" ++ id ++ str ".tsr") tok (set_phase Anchors_ w1)) as (w' & Hw & _).
    + apply Hkeys; [by apply (document_not_index (OpToken id tok)); left|apply Hfresh; left].
    + exists w'. by apply Hopen.
  - destruct (opened Hworks w Anchors_ Anchors_) as (w1 & Hopen & Hkeys); [done|cbn; lia|cbn; lia|].
    destruct (write_succeeds Hworks (str "anchors/qts/" ++ day ++ str ".der") tok (set_phase Anchors_ w1)) as (w' & Hw & _).
    + apply Hkeys; [by apply (document_not_index (OpQts day tok)); left|apply Hfresh; left].
    + exists w'. by apply Hopen.
  - destruct (opened Hworks w Anchors_ Anchors_) as (w1 & Hopen & Hkeys); [done|cbn; lia|cbn; lia|].
    destruct (print_succeeds Hworks (str "anchors/proofs.json") (print_anchor_proofs proofs) (set_phase Anchors_ w1)) as (w' & Hw & _).
    + apply (proofs_print Hworks).
    + apply Hkeys; [by apply (document_not_index (OpProofs proofs)); left|apply Hfresh; left].
    + exists w'. by apply Hopen.
  - by apply identity_succeeds.
  - destruct (write_succeeds Hworks (str "vault/" ++ name) bs (set_phase Vault w)) as (w' & Hw & _); [apply Hfresh; left|].
    exists w'. unfold add_vault_entry. eapply run_bind; [by apply require_succeeds|]. by rewrite Hready.
Qed.
End runs.

(** ** Facts: finishing *)

(** A value that fits in a canonical number. *)
Abbreviation safe_u64_range z := (0 ≤ z ≤ MAX_SAFE_INTEGER).

Lemma safe_number z : safe_u64_range z → safe_value (u64_value z) = true.
Proof. intros Hz. unfold MAX_SAFE_INTEGER in *. rewrite safe_u64; [|apply is_u64_spec; unfold u64_max]; unfold MAX_SAFE_INTEGER; lia. Qed.

Lemma manifest_safe m :
  Forall (λ e, safe_u64_range (ce_bytes e)) (man_contents m) →
  Forall (λ s, safe_u64_range (ss_seq_from s) ∧ safe_u64_range (ss_seq_to s) ∧ safe_u64_range (ss_record_count s))
    (bs_streams (man_scope m)) →
  safe_value (to_value m) = true.
Proof.
  intros Hc Hs. unfold to_value, Manifest_serialize. rewrite safe_object. cbn [forallb snd safe_value andb].
  assert (safe_value (to_value (man_tool m)) = true) as -> by done.
  assert (safe_value (to_value (man_scope m)) = true) as ->.
  { unfold to_value, BundleScope_serialize. rewrite safe_object, !forallb_app, !safe_opt_field, safe_vec_field.
    cbn [forallb snd safe_value andb]. rewrite andb_true_r.
    assert (∀ o : option rstring, match o with Some x => safe_value (String x) | None => true end = true) as Ho
      by (by intros []).
    rewrite !Ho. cbn [andb]. apply forallb_Forall, Forall_fmap. eapply Forall_impl; [exact Hs|].
    intros s (Hf & Ht & Hn). unfold compose, to_value, StreamScope_serialize.
    rewrite safe_object. cbn [forallb snd]. rewrite !safe_number by done. done. }
  cbn [andb]. rewrite andb_true_r. apply forallb_Forall, Forall_fmap. eapply Forall_impl; [exact Hc|].
  intros e He. unfold compose, to_value, ContentEntry_serialize.
  rewrite safe_object. cbn [forallb snd]. by rewrite !safe_number by done.
Qed.

(** Nothing that was written has 2^53 bytes, and no stream as many records. *)
Record small_run `{ZipWriterLaws} `{JsonPrinter} (w : BundleWriter) : Prop := {
  entries_small : Forall (λ e, Z.of_nat (length e.2) ≤ MAX_SAFE_INTEGER) (zw_entries (bw_zip w));
  index_small : ∀ bs, print_record_index (bw_index w) = Some bs → Z.of_nat (length bs) ≤ MAX_SAFE_INTEGER;
  instructions_small : Z.of_nat (length (as_bytes (verify_md_template (bw_tool w)))) ≤ MAX_SAFE_INTEGER;
  streams_small : Forall (λ s, safe_u64_range (ris_seq_from s) ∧ safe_u64_range (ris_seq_to s) ∧
    safe_u64_range (ris_record_count s)) (idx_streams (bw_index w));
}.

Section finishing.
Context `{Blake3} `{ZipWriterLaws} `{ZstdEncode} `{JsonPrinter} `{JsonParser}.

Abbreviation entries w := (zw_entries (bw_zip w)).
Abbreviation keys w := (entries w).*1.

Lemma close_small w w' u :
  small_run w → close_records w = (w', Ok u) →
  Forall (λ e, Z.of_nat (length e.2) ≤ MAX_SAFE_INTEGER) (entries w') ∧ bw_index w' = bw_index w ∧ bw_tool w' = bw_tool w.
Proof.
  intros [He Hi _ _] Hc. unfold close_records in Hc. apply bind_run in Hc as (v1 & x & [= <- <-] & Hc).
  case_decide; [|by injection Hc as <- _]. unfold finish_records in Hc.
  apply bind_run in Hc as (v1 & x & [= <- <-] & Hc). apply bind_run in Hc as (v2 & bs & [= <- Hbs%ok_or_Ok] & Hc).
  apply bind_run in Hc as (v3 & [] & (_ & Hen & Hv3)%write_entry_Ok & Hc).
  apply bind_run in Hc as (v4 & x & [= <- <-] & Hc). injection Hc as <- _. cbn [set_phase bw_zip bw_index bw_tool].
  rewrite Hen. split; [|by rewrite Hv3]. apply Forall_app. split; [done|]. repeat constructor. by apply Hi.
Qed.

Lemma finish_succeeds level f t rs w :
  tools_work → listed w → small_run w → (bw_phase w = Records → INDEX ∉ keys w) →
  str "VERIFY.md" ∉ keys w → str "manifest.json" ∉ keys w →
  ∃ w' r, finish level f t rs w = (w', Ok r).
Proof.
  intros Hworks Hl Hsmall Hi Hv Hm. destruct (close_succeeds Hworks w Hi) as (w1 & Hc & Hk & _).
  destruct (close_small _ _ _ Hsmall Hc) as (He1 & Hi1 & Ht1).
  assert (∀ p, p ≠ INDEX → p ∉ keys w → p ∉ keys w1) as Hfresh.
  { intros p Hne Hp Hin%Hk. apply elem_of_app in Hin as [Hin|Hin%list_elem_of_singleton]; done. }
  assert (listed w1) as Hl1 by (eapply (close_records_keeps listed); [apply write_entry_listed|done|exact Hl|exact Hc]).
  destruct (write_succeeds Hworks (str "VERIFY.md") (as_bytes (verify_md_template (bw_tool w1))) w1)
    as (w2 & Hw & Hk2 & _); [by apply Hfresh|].
  apply (write_entry_listed _ _ w1 w2 tt Hl1) in Hw as Hl2. apply write_entry_Ok in Hw as Hw'. destruct Hw' as (_ & He2 & Hw2).
  destruct Hl2 as [Hlist _].
  assert (safe_value (to_value (manifest_of level f t rs w2)) = true) as Hsafe.
  { apply manifest_safe; cbn [manifest_of man_contents man_scope bs_streams].
    - rewrite Hlist, Forall_fmap, He2, Forall_app. split.
      + eapply Forall_impl; [exact He1|]. intros e He. cbn [compose content_entry ce_bytes].
        rewrite wrap_u64_id; [|apply is_u64_spec]; unfold u64_max, MAX_SAFE_INTEGER in *; lia.
      + apply Forall_singleton. cbn [compose content_entry ce_bytes snd]. pose proof (instructions_small _ Hsmall) as Hins.
        rewrite Ht1. rewrite wrap_u64_id; [|apply is_u64_spec]; unfold u64_max, MAX_SAFE_INTEGER in *; lia.
    - rewrite Hw2. cbn [set_contents set_zip bw_index]. rewrite Hi1, Forall_fmap. exact (streams_small _ Hsmall). }
  pose proof (write_value_outcome (to_value (manifest_of level f t rs w2))) as Ho. rewrite Hsafe in Ho.
  destruct (write_value (to_value (manifest_of level f t rs w2))) as [mb|] eqn:Hmb; [|by destruct Ho].
  assert (struct_to_jcs_bytes (manifest_of level f t rs w2) = Ok mb) as Hjcs by exact Hmb.
  assert (str "manifest.json" ∉ keys w2) as Hm2.
  { rewrite Hk2, not_elem_of_app. split; [by apply Hfresh|by intros Heq%list_elem_of_singleton]. }
  destruct (write_succeeds Hworks (str "manifest.json") mb w2 Hm2) as (w3 & Hw3 & _).
  unfold write_entry in Hw3. apply bind_run in Hw3 as (w4 & [] & Hs & Hw3). apply bind_run in Hw3 as (w5 & [] & Hz & _).
  destruct (zip_ends Hworks (bw_zip w5)) as [a Ha]. eexists _, (_, _, a). unfold finish.
  eapply run_bind; [exact Hc|]. eapply run_bind; [reflexivity|]. eapply run_bind; [exact Hw|].
  eapply run_bind; [reflexivity|]. cbv zeta. unfold jcs_hash. rewrite Hjcs.
  eapply run_bind; [reflexivity|]. eapply run_bind; [reflexivity|]. eapply run_bind; [exact Hs|]. eapply run_bind; [exact Hz|].
  eapply run_bind; [reflexivity|]. eapply run_bind; [reflexivity|]. cbn [set_phase bw_zip]. rewrite Ha.
  eapply run_bind; [reflexivity|]. reflexivity.
Qed.

(** ** Facts: runs that succeed *)

Context (bundle_id created_at : rstring) (tool : ToolInfo) (threshold : Z).

Abbreviation start := (with_shard_threshold threshold (new_writer bundle_id created_at tool)).

(** The arguments of the operations: no document twice, no stream twice, and
    every operation has what it needs. *)
Record ops_ready (ops : list op) : Prop := {
  or_documents : NoDup (ops ≫= op_paths);
  or_streams : NoDup (op_streams ops);
  or_ready : Forall op_ready ops;
}.

(** What is not in the archive after some operations. *)
Lemma run_without_index ops w : run_ops ops start = (w, Ok tt) → bw_phase w = Records → INDEX ∉ keys w.
Proof.
  intros Hr Hp Hin. destruct (new_writer_ok bundle_id created_at tool threshold) as [_ Hx].
  apply run_ops_index in Hr; [|done]. apply list_elem_of_fmap in Hin as ([k bs] & [= <-] & Hin).
  by destruct (Hr bs Hin).
Qed.

Lemma run_without_document ops w p :
  run_ops ops start = (w, Ok tt) → head p ≠ Some 114 → p ∉ (ops ≫= op_paths) → p ∉ keys w.
Proof.
  intros Hr Hp Hno. enough (Forall (λ q, p ≠ q) (keys w)) as Hall by (intros Hin; rewrite Forall_forall in Hall; by apply (Hall p)).
  eapply (run_ops_paths (λ q, p ≠ q)); [| | | |exact Hr].
  - intros sid no _ ->. by apply Hp.
  - intros ->. by apply Hp.
  - apply Forall_forall. by intros q Hq ->.
  - cbn. rewrite zw_new_entries. constructor.
Qed.

Lemma run_without_shard ops w sid k :
  run_ops ops start = (w, Ok tt) → sid ∉ op_streams ops → 0 ≤ k → shard_path sid k ∉ keys w.
Proof.
  intros Hr Hno Hk. enough (Forall (λ q, shard_path sid k ≠ q) (keys w)) as Hall
    by (intros Hin; rewrite Forall_forall in Hall; by apply (Hall (shard_path sid k))).
  eapply (run_ops_paths (λ q, shard_path sid k ≠ q)); [| | | |exact Hr].
  - intros sid' no Hin Heq. by apply eq_sym, shard_path_inj in Heq as [-> _].
  - intros Heq. by apply shard_path_not_index in Heq.
  - apply Forall_forall. intros q (o & Hq & _)%list_elem_of_bind Heq. by apply (document_not_shard o q sid k).
  - cbn. rewrite zw_new_entries. constructor.
Qed.

Lemma run_ops_snoc ops o w w' :
  run_ops ops start = (w, Ok tt) → run_op o w = (w', Ok tt) → run_ops (ops ++ [o]) start = (w', Ok tt).
Proof.
  generalize start. induction ops as [|o' ops IH]; intros w0 Hr Ho; cbn [app run_ops] in *.
  - injection Hr as ->. by eapply run_bind.
  - apply bind_run in Hr as (w1 & [] & Ho' & Hr). eapply run_bind; [exact Ho'|]. by apply IH.
Qed.

(** A run goes on as long as the phases allow it. *)
Lemma run_continues before rest w :
  tools_work → ops_ready (before ++ rest) → run_ops before start = (w, Ok tt) →
  in_phases (bw_phase w) rest = true → ∃ w', run_ops (before ++ rest) start = (w', Ok tt).
Proof.
  intros Hworks Hready. revert before w Hready. induction rest as [|o rest IH]; intros before w Hready Hr Hph.
  { exists w. by rewrite app_nil_r. }
  cbn [in_phases] in Hph. apply andb_true_iff in Hph as [Hle%Z.leb_le Hph].
  pose proof Hready as [Hd Hs Ha]. rewrite bind_app in Hd. cbn [mbind list_bind] in Hd.
  apply NoDup_app in Hd as (_ & Hdis & [Hnd _]%NoDup_app).
  unfold op_streams in Hs. rewrite omap_app in Hs. apply NoDup_app in Hs as (_ & Hsdis & _).
  apply Forall_app in Ha as [Ha [Ho Hrest]%Forall_cons].
  destruct (op_succeeds o w) as [w' Hw']; try done.
  - by apply (run_without_index before).
  - intros p Hp. apply (run_without_document before); [done|by eapply document_path|].
    intros Hin. apply (Hdis p Hin). apply elem_of_app. by left.
  - intros sid lines -> k Hk. apply (run_without_shard before); [done| |done].
    intros Hin. apply (Hsdis sid Hin). left.
  - replace (before ++ o :: rest) with ((before ++ [o]) ++ rest) in * by (by rewrite <-(assoc_L app)).
    apply (IH _ w' Hready); [by apply (run_ops_snoc _ _ w)|]. by apply run_op_phase in Hw' as [_ ->].
Qed.

(** What ran can be finished. *)
Lemma run_finishes ops w level f t rs :
  tools_work → run_ops ops start = (w, Ok tt) → small_run w →
  ∃ w' r, finish level f t rs w = (w', Ok r).
Proof.
  intros Hworks Hr Hsmall. destruct (new_writer_ok bundle_id created_at tool threshold) as [Hl _].
  apply finish_succeeds; try done.
  - eapply (run_ops_keep_all listed); [apply write_entry_listed|done..|exact Hl|exact Hr].
  - by eapply run_without_index.
  - eapply run_without_document; [exact Hr|done|]. apply documents_head. by_compute.
  - eapply run_without_document; [exact Hr|done|]. apply documents_head. by_compute.
Qed.
End finishing.

(** ** Properties *)

(** C12: The phases of the writer are a protocol: with an archive, a compressor and
    serializers that do not fail, and operations that each have what they need
    and share no document and no stream, a sequence of operations on a new
    writer succeeds exactly if it is in the order of the phases; and then the
    bundle can be finished, unless something in it is too large for a canonical
    number. *)
Theorem writer_protocol `{Blake3} `{ZipWriterLaws} `{ZstdEncode} `{JsonPrinter} `{JsonParser}
    ops bundle_id created_at tool threshold :
  tools_work → ops_ready ops →
  let start := with_shard_threshold threshold (new_writer bundle_id created_at tool) in
  (in_phases Records ops = true ↔ ∃ w, run_ops ops start = (w, Ok tt)) ∧
  ∀ w level ts_from ts_to resources, run_ops ops start = (w, Ok tt) → small_run w →
    ∃ w' r, finish level ts_from ts_to resources w = (w', Ok r).
Proof.
  intros Hworks Hready start. split; [split|].
  - intros Hph. by apply (run_continues _ _ _ _ [] ops start).
  - intros [w Hr]. by apply run_ops_in_phases in Hr.
  - intros w level f t rs Hr Hsmall. by eapply run_finishes.
Qed.

Lemma stored_tools_work :
  @tools_work list_zip list_zip_writer list_zip_writer_laws stored_encode empty_printer.
Proof.
  split; try done.
  - intros z p Hp. cbn in *. by rewrite decide_False.
  - intros z bs Hz. cbn in *. destruct z as [|[k v] z _] using rev_ind; [done|]. by rewrite reverse_snoc.
Qed.

Lemma writer_protocol_witness :
  let w := written_run (line_parser None None) in
  ∃ w' r, @finish poly_blake3 list_zip list_zip_writer empty_printer Full None None [] w = (w', Ok r).
Proof.
  destruct (@writer_protocol poly_blake3 list_zip list_zip_writer list_zip_writer_laws stored_encode empty_printer
    (line_parser None None) written_ops (str "b") (str "t") (man_tool demo_manifest) 10 stored_tools_work)
    as [[Hrun _] Hfinish].
  - split; [by_compute|by_compute|]. repeat constructor. exists (line_of <$> written_lines).
    split; [done|]. split; [done|]. split; [done|]. repeat constructor.
  - destruct (Hrun eq_refl) as [w Hw].
    assert (w = written_run (line_parser None None)) as -> by (unfold written_run; by rewrite Hw).
    apply Hfinish; [exact Hw|]. split.
    + by_compute.
    + intros bs [= <-]. done.
    + by_compute.
    + by_compute.
Defined.
