(* ===== verification/Delivery.v ===== *)
(** * Records through a bundle (bundle/src/write.rs, bundle/src/read.rs)

    What the reader delivers of a stream that the writer was given, for every
    sequence of operations that succeeds: its lines, unless the writer left the
    record index out. *)

From Stdlib Require Import Strings.Byte.
From S2P Require Import Prelude Text Errors Hash Json Jcs JcsFacts Record Chain Recorder Checkpoint.
From S2P Require Import Revocation Bundle Anchors Reader Streams Identity Writer Readback Success.

(** The first operation after the records is a vault entry. The writer then goes
    on to the vault without [finish_records], and the index is never written. *)
Fixpoint index_skipped (ops : list op) : bool :=
  match ops with
  | OpRecords _ _ :: ops => index_skipped ops
  | OpVault _ _ :: _ => true
  | _ => false
  end.

(** ** Facts: whether the index is written *)

Section index.
Context `{Blake3} `{ZipWriterLaws} `{ZstdEncode} `{JsonPrinter} `{JsonParser}.

Abbreviation entries w := (zw_entries (bw_zip w)).
Abbreviation keys w := (entries w).*1.

(** A vault entry is not the index. *)
Lemma vault_no_index name bs w w' :
  run_op (OpVault name bs) w = (w', Ok tt) → INDEX ∈ keys w' → INDEX ∈ keys w.
Proof.
  cbn [run_op]. unfold add_vault_entry. intros (w1 & [] & Hr & Ho)%bind_run. unfold require_phase in Hr.
  destruct (_ <? _) in Hr; [done|]. injection Hr as <-. destruct (_ || _) in Ho; [done|].
  apply write_entry_Ok in Ho as (_ & -> & _). cbn [set_phase bw_zip].
  rewrite fmap_app, elem_of_app. by intros [?|?%list_elem_of_singleton].
Qed.

(** Operations in the vault phase are vault entries. *)
Lemma run_op_vault o w w' :
  bw_phase w = Vault → run_op o w = (w', Ok tt) →
  bw_phase w' = Vault ∧ (INDEX ∈ keys w' → INDEX ∈ keys w).
Proof.
  intros Hp Ho. apply run_op_phase in Ho as Hph. destruct Hph as [Hle Hp']. rewrite Hp in Hle.
  destruct o; cbn in Hle; try lia. split; [done|]. by eapply vault_no_index.
Qed.

Lemma run_ops_vault os w w' :
  bw_phase w = Vault → run_ops os w = (w', Ok tt) →
  bw_phase w' = Vault ∧ (INDEX ∈ keys w' → INDEX ∈ keys w).
Proof.
  revert w; induction os as [|o os IH]; intros w Hp; [by intros [= <-]|].
  cbn [run_ops]. intros (w1 & [] & Ho & Hr)%bind_run.
  apply run_op_vault in Ho as [Hp1 Hi1]; [|done]. apply IH in Hr as [Hp2 Hi2]; [|done]. auto.
Qed.

(** An operation after the records other than a vault entry writes the index. *)
Lemma run_op_closes o w w' :
  bw_phase w = Records → run_op o w = (w', Ok tt) →
  match o with OpRecords _ _ | OpVault _ _ => True | _ => INDEX ∈ keys w' end.
Proof.
  intros Hp Ho. assert (indexed w) as Hw by (intros Hr; rewrite Hp in Hr; cbn in Hr; lia).
  apply (run_op_indexed _ _ _ _ Hw) in Ho as Hi. apply run_op_phase in Ho as [_ Hp'].
  destruct o; try done; apply Hi; rewrite Hp'; cbn; lia.
Qed.

(** In the records phase the index is not written yet. *)
Lemma records_no_index w : bw_phase w = Records → index_final w → INDEX ∉ keys w.
Proof. by intros Hp Hx ([k bs] & [= <-] & [_ Hn]%Hx)%list_elem_of_fmap. Qed.

(** Whether a run from the records phase on ends without the index: if a vault
    entry is its first operation after the records, then it never gets one. *)
Lemma run_ops_index_skipped os w w' :
  bw_phase w = Records → index_final w → run_ops os w = (w', Ok tt) →
  if index_skipped os then bw_phase w' = Vault ∧ INDEX ∉ keys w'
  else bw_phase w' = Records ∨ INDEX ∈ keys w'.
Proof.
  revert w; induction os as [|o os IH]; intros w Hp Hx; [intros [= <-]; by left|].
  cbn [run_ops]. intros (w1 & [] & Ho & Hr)%bind_run.
  apply run_op_phase in Ho as Hph. destruct Hph as [_ Hp1].
  pose proof (run_op_closes _ _ _ Hp Ho) as Hc.
  assert (index_final w1) as Hx1 by (eapply (run_ops_index [o]); [exact Hx|by eapply run_bind]).
  apply run_ops_later in Hr as Hlat. destruct Hlat as [Hsub _].
  assert (INDEX ∈ keys w1 → INDEX ∈ keys w') as Hkeep.
  { intros (e & -> & He)%list_elem_of_fmap. apply list_elem_of_fmap. exists e. auto. }
  destruct o; cbn [index_skipped op_phase] in *; try (right; by apply Hkeep).
  - by apply (IH w1).
  - apply run_ops_vault in Hr as [Hp2 Hi2]; [|done]. split; [done|]. intros Hin%Hi2%(vault_no_index _ _ _ _ Ho).
    by apply (records_no_index w).
Qed.

(** Whether a finished bundle lists the index, by the operations. *)
Lemma finished_index_iff os w0 w level f t rs w' m h a :
  bw_phase w0 = Records → listed w0 → index_final w0 → run_ops os w0 = (w, Ok tt) →
  finish level f t rs w = (w', Ok (m, h, a)) →
  if index_skipped os then read_entry a INDEX = Err (MissingEntry INDEX)
  else INDEX ∈ ce_path <$> man_contents m.
Proof.
  intros Hp Hl Hx Hr Hf. apply (run_ops_keep_all listed) in Hr as Hl'; [|apply write_entry_listed|done..].
  destruct (finish_reads _ _ _ _ _ _ _ _ _ Hl' Hf) as (w1 & Hc & Hpaths & Hread).
  apply run_ops_index_skipped in Hr; [|done..]. destruct (index_skipped os).
  - destruct Hr as [Hv Hni]. apply close_records_over in Hc as ->; [|by rewrite Hv].
    apply Hread; [done|]. rewrite Hpaths, not_elem_of_app. split; [done|].
    by intros Heq%list_elem_of_singleton.
  - apply close_indexed in Hc; [|done]. rewrite Hpaths. apply elem_of_app. by left.
Qed.
End index.

(** ** A bundle without an index *)

Definition skipped_ops : list op :=
  [OpRecords (str "S") ((λ l, Ok (line_of l)) <$> written_lines); OpVault (str "blob") [x02]].

Definition skipped_writer : @BundleWriter list_zip list_zip_writer :=
  (@run_ops poly_blake3 list_zip list_zip_writer stored_encode empty_printer written_parser skipped_ops
    (with_shard_threshold 10 (new_writer (str "b") (str "t") (man_tool demo_manifest)))).1.

(** ** Properties *)

(** C11: Records survive the bundle: after a sequence of operations that
    succeeds, the reader delivers for a stream exactly the lines that the first
    [add_stream_records] for it was given, in order and across shards of any
    size, if the lines are not empty and hold no newline and the parser reads the
    printed index back. One case is different: if the operation after the last
    records is a vault entry, then the bundle has no record index, and the reader
    reports it as missing and delivers nothing. Either way the stream and the
    number of its lines are in the scope of the manifest. *)
Theorem stream_round_trip `{Blake3} `{ZipWriterLaws} `{ZstdApi} `{ZstdEncode, !ZstdLaws}
    `{JsonPrinter} `{JsonParser} os1 os2 sid lines bundle_id created_at tool threshold
    level ts_from ts_to resources w w' m h a :
  run_ops (os1 ++ OpRecords sid ((λ l, Ok (line_of l)) <$> lines) :: os2)
    (with_shard_threshold threshold (new_writer bundle_id created_at tool)) = (w, Ok tt) →
  finish level ts_from ts_to resources w = (w', Ok (m, h, a)) →
  (∀ ls, OpRecords sid ls ∉ os1) → Forall valid_line lines → index_parses (bw_index w) →
  let count := foldl (λ c _, u64_add c 1) 0 lines in
  stream_lines {| br_zip := a; br_manifest := m |} sid =
    (if index_skipped os2 then ([], Err (MissingEntry INDEX)) else (lines, Ok count)) ∧
  ∃ sc, sc ∈ bs_streams (man_scope m) ∧ ss_stream_id sc = sid ∧ ss_record_count sc = count.
Proof.
  intros Hr Hf Hno Hv Hp count. destruct (new_writer_ok bundle_id created_at tool threshold) as [Hl Hx].
  apply run_ops_app in Hr as Hr'. destruct Hr' as (w1 & Hr1 & Hr2).
  apply run_ops_index in Hr1 as Hx1; [|done].
  apply (run_ops_keep_all listed) in Hr1 as Hl1; [|apply write_entry_listed|done..].
  pose proof Hr2 as Ho. cbn [run_ops] in Ho. apply bind_run in Ho as (w2 & [] & Ho & _).
  apply run_op_phase in Ho as [Hle _].
  assert (bw_phase w1 = Records) as Hph by (by destruct (bw_phase w1); cbn in Hle; try lia).
  pose proof (finished_index_iff _ _ _ _ _ _ _ _ _ _ _ Hph Hl1 Hx1 Hr2 Hf) as Hi. cbn [index_skipped] in Hi.
  split; [|by apply (stream_scope _ _ _ _ _ _ _ _ _ _ _ _ _ _ _ _ _ Hr Hf)].
  destruct (index_skipped os2).
  - unfold stream_lines, read_stream_records, record_index. cbn [br_zip]. by rewrite Hi.
  - by eapply stream_back.
Qed.

Lemma stream_round_trip_witness :
  (@stream_lines list_zip stored_zstd written_parser
    (@Build_BundleReader list_zip written_bundle.2 written_bundle.1.1) (str "S")).1 = written_lines ∧
  ∃ w' m h a, @finish poly_blake3 list_zip list_zip_writer empty_printer Full None None []
      skipped_writer = (w', Ok (m, h, a)) ∧
    (@stream_lines list_zip stored_zstd written_parser (@Build_BundleReader list_zip a m) (str "S")).1 = [].
Proof.
  split.
  - assert (∃ w', @finish poly_blake3 list_zip list_zip_writer empty_printer Full None None []
      (written_run written_parser) = (w', Ok written_bundle)) as [w' Hf]
      by (eexists; vm_compute; reflexivity).
    destruct (@stream_round_trip poly_blake3 list_zip list_zip_writer list_zip_writer_laws stored_zstd
      stored_encode stored_zstd_laws empty_printer written_parser [] (drop 1 written_ops) (str "S")
      written_lines (str "b") (str "t") (man_tool demo_manifest) 10 Full None None []
      (written_run written_parser) w' written_bundle.1.1 written_bundle.1.2 written_bundle.2)
      as [Hl _]; [vm_compute; reflexivity|exact Hf| | | |by rewrite Hl].
    + intros ls Hin. by apply not_elem_of_nil in Hin.
    + by_compute.
    + intros bs _. vm_compute. reflexivity.
  - assert (∃ w' m h a, @finish poly_blake3 list_zip list_zip_writer empty_printer Full None None []
      skipped_writer = (w', Ok (m, h, a))) as (w' & m & h & a & Hf)
      by (do 4 eexists; vm_compute; reflexivity).
    exists w', m, h, a. split; [exact Hf|].
    destruct (@stream_round_trip poly_blake3 list_zip list_zip_writer list_zip_writer_laws stored_zstd
      stored_encode stored_zstd_laws empty_printer written_parser [] (drop 1 skipped_ops) (str "S")
      written_lines (str "b") (str "t") (man_tool demo_manifest) 10 Full None None []
      skipped_writer w' m h a) as [Hl _]; [vm_compute; reflexivity|exact Hf| | | |by rewrite Hl].
    + intros ls Hin. by apply not_elem_of_nil in Hin.
    + by_compute.
    + intros bs _. vm_compute. reflexivity.
Defined.
