(* ===== verification/Engine.v ===== *)
(** * The verification engine (verify/src/engine.rs: [verify_bundle])

    The seven phases in their order. The human-readable texts of the findings
    are left out, the findings themselves are not. *)

From Stdlib Require Import Strings.Byte.
From S2P Require Import Prelude Text Errors Hash Merkle Json Jcs JcsFacts Record Chain Keys.
From S2P Require Import Checkpoint Revocation Certs Bundle Anchors Report Reader Tsa Ctx Streams.
From S2P Require Import Identity Attest Anchoring Writer.

(** The version of the verifier at build time. *)
Class VerifierVersion := verifier_version : rstring.

(** [chrono::Utc::now().timestamp()]. *)
Class SystemClock := clock_now : Z.

(** The time of a run: pinned by the options, or the clock. *)
Definition run_time `{SystemClock} (opts : VerifyOptions) : Z :=
  default clock_now (vo_now_unix opts).

(** [map.keys().next_back()] of a [BTreeMap<u64, _>]. *)
Definition max_key {V} (m : gmap Z V) : option Z := foldl raise None (map_to_list m).*1.

(** [pinned.into_iter().chain(countersigned).max()]. *)
Definition max_option (a b : option Z) : option Z :=
  match a, b with
  | Some x, Some y => Some (Z.max x y)
  | Some x, None => Some x
  | None, b => b
  end.

Section engine.
Context `{Blake3} `{Sha256} `{Ed25519} `{X509} `{!SpkiPem} `{EmbeddedRoots} `{UlidApi} `{ChronoApi}
  `{TsaApi} `{ZipApi} `{ZstdApi} `{JsonParser} `{VerifierVersion} `{SystemClock}.

(** Phase 1: schema and container integrity. *)
Definition check_container (reader : BundleReader) : Checked unit :=
  _ ← when (negb (bool_decide (man_schema_version (br_manifest reader) = BUNDLE_SCHEMA_VERSION)))
        (add Warning "schema_version_unknown");
  match verify_content_hashes reader with
  | Ok unlisted => each (λ _, add Error "unlisted_entry") unlisted
  | Err _ => add Error "content_hash_mismatch"
  end.

(** The signature of the revocation list, in phase 2. *)
Definition check_revocation_list (revocations : option SignedRevocationList)
    (console_keys : gmap rstring verifying_key) : Checked unit :=
  match revocations with
  | Some rev =>
    let verified := any_value (λ k, is_ok (srl_verify rev k)) console_keys in
    if negb verified && negb (map_is_empty console_keys) then
      add Error "revocation_list_signature_invalid"
    else when (map_is_empty console_keys) (add Warning "revocation_list_unverifiable")
  | None => mret tt
  end.

(** What phase 2 hands to the later phases. *)
Record Trust := {
  tr_certs : gmap rstring ValidatedCert;
  tr_console_keys : gmap rstring verifying_key;
  tr_revocations : option SignedRevocationList;
}.

(** Phase 2: roots, certificates, Console keys, revocations. *)
Definition establish_trust (reader : BundleReader) (opts : VerifyOptions) : Checked Trust :=
  let id := res_ok (identity reader) in
  roots ← select_roots opts (bi_roots <$> id);
  certs ← build_cert_map (bi_certs_pem <$> id) roots.1 (run_time opts);
  keys ← resolve_console_keys opts (bi_roots <$> id) roots.1;
  let revocations := i ← id; bi_revocations i in
  _ ← check_revocation_list revocations keys;
  _ ← when (negb (String.eqb roots.2 "")) (add Info "root_source");
  mret {| tr_certs := certs; tr_console_keys := keys; tr_revocations := revocations |}.

(** Phases 3 and 4: one iteration of the loop over the streams in scope. *)
Definition chain_stream (reader : BundleReader) (per_stream : PerStream) (scope : StreamScope)
    : Checked PerStream :=
  data ← verify_stream_chain reader (ss_stream_id scope);
  mret (bt_insert (ss_stream_id scope)
    {| st_chain := data; st_cps := CheckpointData_default |} per_stream).

(** Phase 5: one iteration of the loop over the entries of the map. *)
Definition checkpoint_stream (reader : BundleReader) (trust : Trust) (e : rstring * StreamData)
    : Checked (rstring * StreamData) :=
  let '(stream_id, data) := e in
  match stream_checkpoints reader stream_id with
  | Err _ => _ ← add_at Warning "checkpoints_missing" stream_id None; mret e
  | Ok c =>
    cps ← verify_checkpoints stream_id (st_hashes_by_seq (st_chain data)) (tr_certs trust)
      (tr_revocations trust) (tr_console_keys trust) (scs_checkpoints c) (st_cps data);
    mret (stream_id, {| st_chain := st_chain data; st_cps := cps |})
  end.

(** A loop over the entries of a map that updates each of them. *)
Fixpoint map_checked {A B} (f : A → Checked B) (l : list A) : Checked (list B) :=
  match l with
  | [] => mret []
  | x :: l => y ← f x; ys ← map_checked f l; mret (y :: ys)
  end.

(** Phase 7: what a stream adds to the totals. *)
Definition prove_stream (p : Proven) (d : StreamData) : Proven :=
  let records := Z.of_nat (size (st_hashes_by_seq (st_chain d))) in
  let span := match st_ts_min (st_chain d), st_ts_max (st_chain d) with
              | Some min, Some max =>
                (keep_best str_ltb (pv_span_from p) min,
                 keep_best (λ a b, str_ltb b a) (pv_span_to p) max)
              | _, _ => (pv_span_from p, pv_span_to p)
              end in
  {| pv_records := u64_add (pv_records p) records; pv_streams := u64_add (pv_streams p) 1;
     pv_span_from := span.1; pv_span_to := span.2; pv_earliest_anchor := pv_earliest_anchor p;
     pv_attested_records :=
       u64_add (pv_attested_records p) (Z.of_nat (size (st_attested_seqs (st_cps d))));
     pv_anchored_records :=
       u64_add (pv_anchored_records p) (Z.of_nat (size (st_anchored_seqs (st_cps d)))) |}.

(** (a) A link to a checkpoint that is not in the bundle. *)
Definition check_links (stream_id : rstring) (d : CheckpointData) : Checked unit :=
  each (λ link, when (negb (bool_decide (link.2 ∈ st_checkpoint_note_hashes d)))
                  (add_at Error "checkpoint_chain_broken" stream_id None))
    (st_checkpoint_links d).

(** (b) A pinned or countersigned extent that the bundle does not reach. *)
Definition check_extent (opts : VerifyOptions) (stream_id : rstring) (d : StreamData) : Checked unit :=
  match max_option (vo_expected_high_water opts !! stream_id)
          (st_countersigned_high_water (st_cps d)) with
  | Some hw =>
    when (match max_key (st_hashes_by_seq (st_chain d)) with Some m => m <? hw | None => true end)
      (add_at Error "truncation_detected" stream_id None)
  | None => mret tt
  end.

(** Phase 7: the findings of one stream. *)
Definition cover_stream (opts : VerifyOptions) (e : rstring * StreamData) : Checked unit :=
  let '(stream_id, d) := e in
  let total := Z.of_nat (size (st_hashes_by_seq (st_chain d))) in
  let unattested := Z.max 0 (total - Z.of_nat (size (st_attested_seqs (st_cps d)))) in
  _ ← when (0 <? unattested) (add_at Warning "unattested_tail" stream_id None);
  _ ← check_links stream_id (st_cps d);
  _ ← check_extent opts stream_id d;
  _ ← when (match vo_expected_high_water opts !! stream_id, st_countersigned_high_water (st_cps d) with
            | None, None => 0 <? total
            | _, _ => false
            end) (add_at Warning "tail_completeness_unproven" stream_id None);
  _ ← when (0 <? st_coverage_gap_count (st_chain d))
        (add_at Warning "coverage_gaps_recorded" stream_id None);
  each (λ _, add_at Info "segment_no_clean_end" stream_id None)
    (st_segments_without_end (st_chain d)).

Definition set_earliest (e : option rstring) (p : Proven) : Proven :=
  {| pv_records := pv_records p; pv_streams := pv_streams p; pv_span_from := pv_span_from p;
     pv_span_to := pv_span_to p; pv_earliest_anchor := e;
     pv_attested_records := pv_attested_records p; pv_anchored_records := pv_anchored_records p |}.

(** All the phases: the findings, and the streams with the earliest anchor. *)
Definition run_phases (reader : BundleReader) (opts : VerifyOptions)
    : Checked (PerStream * option rstring) :=
  _ ← check_container reader;
  trust ← establish_trust reader opts;
  chains ← fold_checked (chain_stream reader) [] (bs_streams (man_scope (br_manifest reader)));
  checkpointed ← map_checked (checkpoint_stream reader trust) chains;
  let proofs := default {| ap_batches := []; ap_daily := [] |} (res_ok (anchor_proofs reader)) in
  anchored ← verify_anchors reader (tr_console_keys trust) proofs checkpointed;
  _ ← each (cover_stream opts) anchored.1;
  mret anchored.

Definition verify_bundle (reader : BundleReader) (opts : VerifyOptions) : VReport :=
  let m := run_phases reader opts in
  {| rp_result := compute_result (found m);
     rp_bundle_id := man_bundle_id (br_manifest reader);
     rp_manifest_hash := default (str "unavailable") (res_ok (manifest_hash reader));
     rp_tool := {| tv_verifier := verifier_version;
                   tv_bundle_schema := man_schema_version (br_manifest reader) |};
     rp_proven := set_earliest (outcome m).2
       (foldl prove_stream Proven_default (outcome m).1.*2);
     rp_findings := found m; rp_limits := STANDING_LIMITS |}.
End engine.

(** ** Facts: ordered maps *)

Lemma str_ltb_trans a b c : str_ltb a b = true → str_ltb b c = true → str_ltb a c = true.
Proof.
  unfold str_ltb. destruct (slice_cmp (b2z <$> as_bytes a) (b2z <$> as_bytes b)) eqn:Hab; try done.
  destruct (slice_cmp (b2z <$> as_bytes b) (b2z <$> as_bytes c)) eqn:Hbc; try done.
  by rewrite (slice_cmp_trans _ _ _ Hab Hbc).
Qed.

(** No later key is smaller. *)
Definition in_order (ks : list rstring) : Prop :=
  StronglySorted (λ a b, str_ltb b a = false) ks ∧ NoDup ks.

Lemma bt_insert_keys {V} k (v : V) m x : x ∈ (bt_insert k v m).*1 ↔ x = k ∨ x ∈ m.*1.
Proof.
  induction m as [|[k' v'] m IH]; cbn; [by rewrite list_elem_of_singleton, elem_of_nil; naive_solver|].
  case_decide as Hk; [subst; rewrite !fmap_cons, !elem_of_cons; cbn; naive_solver|].
  destruct (str_ltb k k'); cbn; rewrite !elem_of_cons, ?IH; naive_solver.
Qed.

Lemma bt_insert_in_order {V} k (v : V) m : in_order m.*1 → in_order (bt_insert k v m).*1.
Proof.
  unfold in_order. induction m as [|[k' v'] m IH]; cbn.
  { intros _. split; repeat constructor. by intros ?%not_elem_of_nil. }
  intros [[Hs Hall]%StronglySorted_inv [Hni Hnd]%NoDup_cons].
  case_decide as Hk; [subst; by split; constructor|].
  destruct (str_ltb k k') eqn:Hlt; cbn.
  - assert (Forall (λ b, str_ltb b k = false) (k' :: m.*1)) as Hk'.
    { rewrite Forall_forall in Hall. apply Forall_forall. intros b Hb. apply not_true_iff_false.
      intros Hbk. pose proof (str_ltb_trans _ _ _ Hbk Hlt) as Hbk'.
      apply elem_of_cons in Hb as [->|Hb].
      - unfold str_ltb in Hbk'. by rewrite (proj2 (slice_cmp_eq _ _) eq_refl) in Hbk'.
      - by rewrite (Hall b Hb) in Hbk'. }
    split; [constructor; [by constructor|exact Hk']|]. constructor; [|by constructor].
    intros [?|Hin]%elem_of_cons; [done|]. rewrite Forall_forall in Hall.
    by rewrite (Hall k Hin) in Hlt.
  - destruct (IH (conj Hs Hnd)) as [Hs' Hnd']. split; constructor; [done|..|done].
    + apply Forall_forall. intros b [->|Hb]%bt_insert_keys; [done|].
      rewrite Forall_forall in Hall. by apply Hall.
    + by intros [?|?]%bt_insert_keys.
Qed.

(** ** Facts: the largest key *)

Lemma foldl_raise_ge acc l h :
  (∃ m, foldl raise acc l = Some m ∧ h ≤ m) ↔ (∃ x, x ∈ l ∧ h ≤ x) ∨ ∃ m, acc = Some m ∧ h ≤ m.
Proof.
  revert acc; induction l as [|x l IH]; intros acc; cbn.
  - split; [by right|]. intros [(x & ?%not_elem_of_nil & _)|?]; done.
  - rewrite IH, raise_ge. setoid_rewrite elem_of_cons. clear. split.
    + intros [(y & Hy & Hh)|[Hh|Hm]]; eauto.
    + intros [(y & [->|Hy] & Hh)|Hm]; eauto.
Qed.

Lemma max_key_reaches {V} (m : gmap Z V) h :
  (match max_key m with Some k => k <? h | None => true end) = false →
  ∃ k v, h ≤ k ∧ m !! k = Some v.
Proof.
  intros Hm. destruct (max_key m) as [k|] eqn:Hk; [|done]. apply Z.ltb_ge in Hm.
  destruct (proj1 (foldl_raise_ge None (map_to_list m).*1 h)) as [(x & Hx & Hle)|(? & ? & _)]; [|..|done].
  { exists k. done. }
  apply list_elem_of_fmap in Hx as ([x' v] & -> & Hin%elem_of_map_to_list). by exists x', v.
Qed.

Lemma max_option_ge a b x : a = Some x ∨ b = Some x → ∃ m, max_option a b = Some m ∧ x ≤ m.
Proof.
  destruct a as [y|], b as [z|]; cbn; intros [Heq|Heq]; simplify_eq; eexists; (split; [done|lia]).
Qed.

Lemma max_key_ge {V} (m : gmap Z V) s v : m !! s = Some v → ∃ k, max_key m = Some k ∧ s ≤ k.
Proof.
  intros Hs. apply foldl_raise_ge. left. exists s. split; [|lia].
  apply list_elem_of_fmap. exists (s, v). split; [done|]. by apply elem_of_map_to_list.
Qed.

Lemma max_option_origin a b m : max_option a b = Some m → a = Some m ∨ b = Some m.
Proof.
  destruct a as [x|], b as [y|]; cbn; intros [= <-]; auto. destruct (Z.max_spec x y) as [[_ ->]|[_ ->]]; auto.
Qed.

(** ** Facts: loops that update every entry *)

Lemma map_checked_outcome {A B} (f : A → Checked B) l :
  outcome (map_checked f l) = (λ x, outcome (f x)) <$> l.
Proof. induction l as [|x l IH]; [done|]. cbn [map_checked]. rewrite !outcome_bind, IH. done. Qed.

Lemma map_checked_reports {A B} F (f : A → Checked B) l :
  reports F (map_checked f l) ↔ Forall (λ x, reports F (f x)) l.
Proof.
  induction l as [|x l IH]; cbn [map_checked].
  - split; [constructor|intros _; apply reports_ret].
  - rewrite !reports_bind, Forall_cons, IH. split; [naive_solver|]. intros []. split_and!; [done..|apply reports_ret].
Qed.

(** ** Facts: the streams of a run *)

Section engine_facts.
Context `{Blake3} `{Sha256} `{Ed25519} `{X509} `{!SpkiPem} `{EmbeddedRoots} `{UlidApi} `{ChronoApi}
  `{TsaApi} `{ZipApi} `{ZstdApi} `{JsonParser} `{VerifierVersion} `{SystemClock}.
Context (reader : BundleReader) (opts : VerifyOptions).

Abbreviation scopes := (bs_streams (man_scope (br_manifest reader))).
Abbreviation trust := (outcome (establish_trust reader opts)).

(** The data of a stream after the chain pass and after the checkpoint pass. *)
Definition chain_data (sid : rstring) : ChainData := outcome (verify_stream_chain reader sid).

Definition chain_entry (sid : rstring) : rstring * StreamData :=
  (sid, {| st_chain := chain_data sid; st_cps := CheckpointData_default |}).

Definition checkpoints_of (sid : rstring) : list BundleCheckpoint :=
  match stream_checkpoints reader sid with Ok c => scs_checkpoints c | Err _ => [] end.

Definition checkpoint_data (sid : rstring) : CheckpointData :=
  outcome (verify_checkpoints sid (st_hashes_by_seq (chain_data sid)) (tr_certs trust)
    (tr_revocations trust) (tr_console_keys trust) (checkpoints_of sid) CheckpointData_default).

Lemma bt_insert_entries sid m :
  m = chain_entry <$> m.*1 →
  bt_insert sid (chain_entry sid).2 m = chain_entry <$> (bt_insert sid (chain_entry sid).2 m).*1.
Proof.
  induction m as [|[k v] m IH]; intros Hm; cbn; [done|]. cbn in Hm. injection Hm as Hv Hm.
  case_decide; [subst; cbn; by f_equal|]. destruct (str_ltb sid k); cbn.
  - subst v. by rewrite <-Hm.
  - subst v. cbn in IH. by rewrite <-IH.
Qed.

Lemma chains_entries :
  let m := fold_checked (chain_stream reader) [] scopes in
  outcome m = chain_entry <$> (outcome m).*1 ∧ in_order (outcome m).*1 ∧
  (∀ sid, sid ∈ (outcome m).*1 ↔ sid ∈ ss_stream_id <$> scopes).
Proof.
  cbv zeta. split; [|split].
  - apply (fold_checked_inv (λ ps, ps = chain_entry <$> ps.*1)); [done|].
    intros ps sc _ Hps. cbn. by apply (bt_insert_entries (ss_stream_id sc)).
  - apply (fold_checked_inv (λ ps, in_order ps.*1)); [by split; constructor|].
    intros ps sc _. apply bt_insert_in_order.
  - intros sid.
    rewrite (fold_checked_collect (λ ps, sid ∈ ps.*1) (λ sc, sid = ss_stream_id sc)).
    + rewrite elem_of_nil, list_elem_of_fmap. naive_solver.
    + intros ps sc _. cbn. apply bt_insert_keys.
Qed.

Lemma checkpoint_entry sid :
  outcome (checkpoint_stream reader trust (chain_entry sid)) =
    (sid, {| st_chain := chain_data sid; st_cps := checkpoint_data sid |}) ∧
  (clean (checkpoint_stream reader trust (chain_entry sid)) ↔
   clean (verify_checkpoints sid (st_hashes_by_seq (chain_data sid)) (tr_certs trust)
     (tr_revocations trust) (tr_console_keys trust) (checkpoints_of sid) CheckpointData_default)).
Proof.
  unfold checkpoint_stream, chain_entry, checkpoint_data, checkpoints_of.
  destruct (stream_checkpoints reader sid) as [c|].
  2: { split; [done|]. split; intros _; by repeat constructor. }
  rewrite outcome_bind, clean_bind. split; [done|]. split; [by intros []|]. by split; [|constructor].
Qed.

(** The streams of a run, in the order of the map. *)
Definition stream_ids : list rstring := (outcome (fold_checked (chain_stream reader) [] scopes)).*1.

Definition checkpointed : PerStream :=
  (λ sid, (sid, {| st_chain := chain_data sid; st_cps := checkpoint_data sid |})) <$> stream_ids.

Definition bundle_proofs : AnchorProofs :=
  default {| ap_batches := []; ap_daily := [] |} (res_ok (anchor_proofs reader)).

Lemma checkpointed_keys : checkpointed.*1 = stream_ids.
Proof. unfold checkpointed. rewrite <-list_fmap_compose. by rewrite list_fmap_id. Qed.

Lemma run_outcome :
  outcome (run_phases reader opts) =
    outcome (verify_anchors reader (tr_console_keys trust) bundle_proofs checkpointed).
Proof.
  unfold run_phases. rewrite !outcome_bind. cbn [outcome mret checked_ret].
  destruct chains_entries as (Hps & _ & _). cbv zeta in Hps.
  rewrite map_checked_outcome, Hps, <-list_fmap_compose. f_equal. unfold checkpointed, bundle_proofs.
  f_equal. apply list_fmap_ext. intros i sid _. cbn [compose]. by destruct (checkpoint_entry sid) as [-> _].
Qed.

Lemma run_anchored :
  Forall2 (anchors_to (anchored_by reader checkpointed (ap_batches bundle_proofs))) checkpointed
    (outcome (run_phases reader opts)).1.
Proof. rewrite run_outcome. apply anchors_exactly. Qed.

(** The entries at the end of a run. *)
Lemma run_entries e :
  e ∈ (outcome (run_phases reader opts)).1 →
  e.1 ∈ ss_stream_id <$> scopes ∧ st_chain e.2 = chain_data e.1 ∧
  ∃ a, st_cps e.2 = set_anchored a (checkpoint_data e.1) ∧
    ∀ s, s ∈ a ↔ s ∈ st_anchored_seqs (checkpoint_data e.1) ∨
      anchored_by reader checkpointed (ap_batches bundle_proofs) e.1 (checkpoint_data e.1) s.
Proof.
  destruct e as [k d]. intros He.
  destruct (anchors_to_elem _ _ _ _ run_anchored He) as (e0 & He0 & Hk & Hc & a & Ha & Hs).
  apply list_elem_of_fmap in He0 as (sid & -> & Hsid). cbn in *. subst k.
  split; [by apply chains_entries|]. split; [done|]. by exists a.
Qed.

(** Every stream in scope has an entry. *)
Lemma run_streams sid :
  sid ∈ ss_stream_id <$> scopes → ∃ d, (sid, d) ∈ (outcome (run_phases reader opts)).1.
Proof.
  intros Hsid. pose proof (anchors_to_keys _ _ _ run_anchored) as Hk.
  rewrite checkpointed_keys in Hk. apply chains_entries in Hsid. fold stream_ids in Hsid.
  rewrite <-Hk in Hsid. apply list_elem_of_fmap in Hsid as ([k d] & -> & Hin). eauto.
Qed.

(** A run reports what its parts report. *)
Lemma run_reports F :
  reports F (run_phases reader opts) ↔
  reports F (check_container reader) ∧ reports F (establish_trust reader opts) ∧
  (∀ sid, sid ∈ ss_stream_id <$> scopes → reports F (verify_stream_chain reader sid)) ∧
  (∀ sid, sid ∈ ss_stream_id <$> scopes →
     reports F (checkpoint_stream reader trust (chain_entry sid))) ∧
  reports F (verify_anchors reader (tr_console_keys trust) bundle_proofs checkpointed) ∧
  (∀ e, e ∈ (outcome (run_phases reader opts)).1 → reports F (cover_stream opts e)).
Proof.
  rewrite run_outcome. unfold run_phases. rewrite !reports_bind. cbv zeta.
  rewrite (fold_checked_reports F (λ _, True)
    (λ scope, reports F (verify_stream_chain reader (ss_stream_id scope)))); [|done|].
  2: { intros ps scope _ _. split; [|done]. unfold chain_stream. rewrite reports_bind.
       split; [by intros []|intros ?; by split; [|apply reports_ret]]. }
  assert (outcome (map_checked (checkpoint_stream reader trust)
    (outcome (fold_checked (chain_stream reader) [] scopes))) = checkpointed) as ->.
  { destruct chains_entries as (Hps & _ & _). cbv zeta in Hps. rewrite map_checked_outcome, Hps, <-list_fmap_compose.
    apply list_fmap_ext. intros i sid _. cbn [compose]. by destruct (checkpoint_entry sid) as [-> _]. }
  fold bundle_proofs. rewrite reports_each, !Forall_forall, map_checked_reports.
  destruct chains_entries as (Hps & _ & Hkeys). cbv zeta in Hps, Hkeys. rewrite Hps.
  rewrite Forall_fmap, Forall_forall. cbn [compose].
  setoid_rewrite list_elem_of_fmap. setoid_rewrite list_elem_of_fmap in Hkeys.
  split.
  - intros (Hc & Ht & Hch & Hcp & Ha & Hcov & _). split_and!; try done; [naive_solver|].
    intros sid Hsid. by apply Hcp, Hkeys.
  - intros (Hc & Ht & Hch & Hcp & Ha & Hcov). split_and!; try done; [naive_solver| |apply reports_ret].
    intros sid Hsid. by apply Hcp, Hkeys.
Qed.

(** It reports no error exactly if none of its parts does. *)
Lemma container_clean : clean (check_container reader) ↔ verify_content_hashes reader = Ok [].
Proof.
  unfold check_container. rewrite clean_bind.
  assert (clean (when (negb (bool_decide (man_schema_version (br_manifest reader) = BUNDLE_SCHEMA_VERSION)))
    (add Warning "schema_version_unknown"))) as Hw by (apply clean_when; intros _; by apply clean_add).
  destruct (verify_content_hashes reader) as [[|n ns]|].
  - split; [done|]. intros _. by split; [|constructor].
  - split; [|done]. intros [_ [Hn _]%clean_each%Forall_cons]. by apply clean_add in Hn.
  - split; [|done]. intros [_ Hn]. by apply clean_add in Hn.
Qed.

Lemma run_clean_iff :
  clean (run_phases reader opts) ↔
  verify_content_hashes reader = Ok [] ∧ clean (establish_trust reader opts) ∧
  (∀ sid, sid ∈ ss_stream_id <$> scopes → clean (verify_stream_chain reader sid)) ∧
  (∀ sid, sid ∈ ss_stream_id <$> scopes →
     clean (verify_checkpoints sid (st_hashes_by_seq (chain_data sid)) (tr_certs trust)
       (tr_revocations trust) (tr_console_keys trust) (checkpoints_of sid) CheckpointData_default)) ∧
  clean (verify_anchors reader (tr_console_keys trust) bundle_proofs checkpointed) ∧
  (∀ e, e ∈ (outcome (run_phases reader opts)).1 → clean (cover_stream opts e)).
Proof.
  rewrite <-container_clean. setoid_rewrite <-(λ sid, proj2 (checkpoint_entry sid)). apply run_reports.
Qed.

(** What a run without error findings has gone through. *)
Lemma run_clean :
  clean (run_phases reader opts) →
  verify_content_hashes reader = Ok [] ∧ clean (establish_trust reader opts) ∧
  (∀ sid, sid ∈ ss_stream_id <$> scopes →
     clean (verify_stream_chain reader sid) ∧
     clean (verify_checkpoints sid (st_hashes_by_seq (chain_data sid)) (tr_certs trust)
       (tr_revocations trust) (tr_console_keys trust) (checkpoints_of sid) CheckpointData_default) ∧
     ∃ d, (sid, d) ∈ (outcome (run_phases reader opts)).1 ∧ clean (cover_stream opts (sid, d))).
Proof.
  intros (Hcont & Htrust & Hch & Hcp & _ & Hcov)%run_clean_iff. split_and!; try done.
  intros sid Hsid. destruct (run_streams sid Hsid) as (d & Hd). eauto 10.
Qed.

Lemma cover_clean sid d :
  clean (cover_stream opts (sid, d)) → clean (check_links sid (st_cps d)) ∧ clean (check_extent opts sid d).
Proof.
  unfold cover_stream. cbv zeta. intros [_ [Hl [He _]%clean_bind]%clean_bind]%clean_bind. done.
Qed.

Lemma extent_reached sid d :
  clean (check_extent opts sid d) ↔
  ∀ hw, vo_expected_high_water opts !! sid = Some hw ∨
        st_countersigned_high_water (st_cps d) = Some hw →
    ∃ s h, hw ≤ s ∧ st_hashes_by_seq (st_chain d) !! s = Some h.
Proof.
  unfold check_extent. split.
  - intros Hc hw (m & Hm & Hle)%max_option_ge. rewrite Hm, clean_when in Hc.
    destruct (max_key_reaches (st_hashes_by_seq (st_chain d)) m) as (k & v & Hk & Hv).
    + apply not_true_iff_false. intros Hb. by apply Hc, clean_add_at in Hb.
    + exists k, v. split; [lia|done].
  - intros He. destruct (max_option _ _) as [m|] eqn:Hm; [|constructor]. apply clean_when. intros Hb. exfalso.
    apply max_option_origin in Hm. destruct (He m Hm) as (s & h & Hs & Hh).
    destruct (max_key_ge _ _ _ Hh) as (k & Hk & Hle). rewrite Hk in Hb. lia.
Qed.

Lemma links_closed sid d :
  clean (check_links sid d) ↔
  ∀ id prev, (id, prev) ∈ st_checkpoint_links d → prev ∈ st_checkpoint_note_hashes d.
Proof.
  unfold check_links. rewrite clean_each, Forall_forall. split.
  - intros Hc id prev Hin. specialize (Hc _ Hin). rewrite clean_when, clean_add_at in Hc. cbn [snd] in Hc.
    apply dec_stable. intros Hn. apply Hc; [|done]. by apply negb_true_iff, bool_decide_eq_false.
  - intros Hl [id prev] Hin. apply clean_when. intros Hn%negb_true_iff%bool_decide_eq_false.
    destruct Hn. by eapply Hl.
Qed.

(** The revocation list that checkpoints are checked against is the bundle's. *)
Lemma trust_revocations : tr_revocations trust = i ← res_ok (identity reader); bi_revocations i.
Proof. done. Qed.

(** The certificates that checkpoints are checked against are validated. *)
Lemma trust_certs fp cert :
  tr_certs trust !! fp = Some cert →
  ∃ pem inter,
    validate_chain pem inter (join [10] (outcome (select_roots opts
      (bi_roots <$> res_ok (identity reader)))).1) (run_time opts) = Ok cert ∧
    vc_fingerprint cert = fp.
Proof.
  unfold establish_trust. cbv zeta. rewrite !outcome_bind. cbn [outcome mret checked_ret tr_certs].
  intros (pem & inter & _ & Hv & Hf)%cert_map_lookup. eauto.
Qed.
End engine_facts.

(** Documents are parsed at their Rust types: the sequences and the size in a
    checkpoint note are [u64]. *)
Class ParserTypes `{JsonParser} : Prop :=
  parse_checkpoints_u64 : ∀ bs c, parse_stream_checkpoints bs = Some c →
    Forall (λ bc, wf_struct (sc_note (bc_checkpoint bc)) = true) (scs_checkpoints c).

Section typed_facts.
Context `{Blake3} `{Sha256} `{Ed25519} `{X509} `{!SpkiPem} `{EmbeddedRoots} `{UlidApi} `{ChronoApi}
  `{TsaApi} `{ZipApi} `{ZstdApi} `{JsonParser, !ParserTypes} `{VerifierVersion} `{SystemClock}.
Context (reader : BundleReader) (opts : VerifyOptions).

Lemma checkpoints_of_wf sid :
  Forall (λ bc, wf_struct (sc_note (bc_checkpoint bc)) = true) (checkpoints_of reader sid).
Proof.
  unfold checkpoints_of, stream_checkpoints.
  destruct (_ ≫= _) as [c|] eqn:Hc; [|constructor]. ok_inv. by eapply parse_checkpoints_u64.
Qed.

(** Attested sequences are present, anchored ones are attested. *)
Lemma entry_nested e :
  e ∈ (outcome (run_phases reader opts)).1 →
  st_attested_seqs (st_cps e.2) ⊆ dom (st_hashes_by_seq (st_chain e.2)) ∧
  st_anchored_seqs (st_cps e.2) ⊆ st_attested_seqs (st_cps e.2).
Proof.
  intros (_ & Hc & a & Ha & Hs)%run_entries. rewrite Hc, Ha.
  cbn [set_anchored st_attested_seqs st_anchored_seqs]. split.
  - intros s Hat. apply pass_attested in Hat as [Hat|Hn]; [|by apply not_elem_of_empty in Hn
      |apply checkpoints_of_wf].
    destruct Hat as (bc & _ & _ & (hs & Hin & _) & Hr).
    destruct (hashes_in_lookup _ _ _ _ _ Hin Hr) as (h & Hh & _). by eapply elem_of_dom_2.
  - intros s [Hn|[? _]]%Hs; [|done]. unfold checkpoint_data in Hn.
    rewrite pass_anchored in Hn by apply checkpoints_of_wf. by apply not_elem_of_empty in Hn.
Qed.

(** A stream of a run without error findings reaches every pinned and every
    countersigned extent. *)
Lemma run_extent scope hw :
  rp_result (verify_bundle reader opts) ≠ Fail →
  scope ∈ bs_streams (man_scope (br_manifest reader)) →
  vo_expected_high_water opts !! ss_stream_id scope = Some hw ∨
  (∃ bc, bc ∈ checkpoints_of reader (ss_stream_id scope) ∧
     countersigned (tr_console_keys (outcome (establish_trust reader opts))) bc hw) →
  ∃ s h, hw ≤ s ∧ st_hashes_by_seq (chain_data reader (ss_stream_id scope)) !! s = Some h.
Proof.
  intros (_ & _ & Hst)%clean_not_Fail%run_clean Hsc Hhw.
  destruct (Hst (ss_stream_id scope)) as (_ & Hcps & d & Hd & Hcov); [apply list_elem_of_fmap; by exists scope|].
  apply run_entries in Hd as (_ & Hc & a & Ha & _). apply cover_clean in Hcov as [_ Hext].
  cbn [fst snd] in *. rewrite extent_reached in Hext. rewrite <-Hc. destruct Hhw as [Hpin|(bc & Hbc & Hcs)].
  - apply Hext. by left.
  - destruct (pass_clean _ _ _ _ _ _ (checkpoints_of_wf _) _ Hcps bc Hbc)
      as (_ & _ & Hr & _). destruct (Hr hw Hcs) as (m & Hm & Hle).
    destruct (Hext m) as (s & h & Hs & Hh); [right; by rewrite Ha|].
    exists s, h. split; [lia|done].
Qed.
End typed_facts.

(** ** The specification of a bundle that does not fail *)

Section bundle_spec.
Context `{Blake3, !Blake3Len} `{Sha256, !Sha256Len} `{Ed25519} `{X509} `{!SpkiPem} `{EmbeddedRoots}
  `{UlidApi} `{ChronoApi} `{TsaApi} `{ZipApi} `{ZstdApi} `{JsonParser, !ParserTypes}
  `{VerifierVersion} `{SystemClock}.
Context (reader : BundleReader) (opts : VerifyOptions).

Abbreviation trust := (outcome (establish_trust reader opts)).
Abbreviation ident := (res_ok (identity reader)).
Abbreviation roots := (outcome (select_roots opts (bi_roots <$> ident))).1.

(** There is a root, the certificates parse, Console keys are supplied or
    attested, and a Console key signed the revocations, if there is one. *)
Definition trust_ok : Prop :=
  roots ≠ [] ∧ (∀ i, ident = Some i → is_ok (parse_pem_chain (bi_certs_pem i)) = true) ∧
  console_keys_ok opts (bi_roots <$> ident) roots ∧
  ∀ i rev, ident = Some i → bi_revocations i = Some rev →
    tr_console_keys trust = ∅ ∨
    ∃ kid k, tr_console_keys trust !! kid = Some k ∧ srl_verify rev k = Ok tt.

(** The predecessor that a checkpoint names is in the bundle. *)
Definition linked_ok (sid : rstring) : Prop :=
  ∀ bc prev, bc ∈ checkpoints_of reader sid →
    cn_prev_checkpoint_hash (sc_note (bc_checkpoint bc)) = Some prev →
    ∃ bc', bc' ∈ checkpoints_of reader sid ∧ note_hash (sc_note (bc_checkpoint bc')) = Ok prev.

(** The stream reaches every extent that is pinned or countersigned for it. *)
Definition extent_ok (sid : rstring) : Prop :=
  ∀ hw, vo_expected_high_water opts !! sid = Some hw ∨
    (∃ bc, bc ∈ checkpoints_of reader sid ∧ countersigned (tr_console_keys trust) bc hw) →
  ∃ s h, hw ≤ s ∧ st_hashes_by_seq (chain_data reader sid) !! s = Some h.

Definition stream_ok (sid : rstring) : Prop :=
  (∃ vs, stream_intact reader sid (chain_data reader sid) vs) ∧
  checkpoints_ok sid (st_hashes_by_seq (chain_data reader sid)) (tr_certs trust)
    (tr_revocations trust) (tr_console_keys trust) (checkpoints_of reader sid) ∧
  linked_ok sid ∧ extent_ok sid.

Definition bundle_ok : Prop :=
  verify_content_hashes reader = Ok [] ∧ trust_ok ∧
  (∀ scope, scope ∈ bs_streams (man_scope (br_manifest reader)) → stream_ok (ss_stream_id scope)) ∧
  anchors_ok reader (tr_console_keys trust) (checkpointed reader opts) (bundle_proofs reader).

Lemma revocation_list_clean revs keys :
  clean (check_revocation_list revs keys) ↔
  ∀ rev, revs = Some rev → keys = ∅ ∨ ∃ kid k, keys !! kid = Some k ∧ srl_verify rev k = Ok tt.
Proof.
  unfold check_revocation_list. destruct revs as [rev|]; [|by split; [|constructor]].
  assert (any_value (λ k, is_ok (srl_verify rev k)) keys = true ↔
    ∃ kid k, keys !! kid = Some k ∧ srl_verify rev k = Ok tt) as Hany
    by (rewrite any_value_true; by setoid_rewrite is_ok_unit).
  destruct (any_value _ keys) eqn:Ha, (map_is_empty keys) eqn:He; cbn [negb andb].
  all: rewrite ?clean_when, ?clean_add; try apply map_is_empty_true in He.
  - split; [|done]. intros _ _ [= <-]. by left.
  - split; [|done]. intros _ ? [= <-]. right. by apply Hany.
  - split; [|done]. intros _ ? _. by left.
  - split; [done|]. intros Hok _. destruct (Hok rev eq_refl) as [Hn|Hex].
    + apply map_is_empty_true in Hn. congruence.
    + apply Hany in Hex. congruence.
Qed.

Lemma trust_clean : clean (establish_trust reader opts) ↔ trust_ok.
Proof.
  unfold trust_ok.
  assert (tr_console_keys trust = outcome (resolve_console_keys opts (bi_roots <$> ident) roots)) as -> by done.
  unfold establish_trust. cbv zeta. rewrite !clean_bind, resolve_keys_clean, revocation_list_clean.
  rewrite select_roots_clean. cbn [outcome mret checked_ret].
  assert (∀ b, clean (when b (add Info "root_source"))) as Hinfo
    by (intros; apply clean_when; intros _; by apply clean_add).
  split.
  - intros (Hr & Hc & Hk & Hrev & _). rewrite (cert_map_clean _ _ _ Hr) in Hc. split_and!; try done.
    + intros i Hi. apply Hc. by rewrite Hi.
    + intros i rev Hi Hrv. apply Hrev. by rewrite Hi.
  - intros (Hr & Hc & Hk & Hrev). split_and!; try done; [|..|apply clean_ret].
    + apply cert_map_clean; [done|]. intros pem (i & Hi & ->)%fmap_Some. by apply Hc.
    + intros rev (i & Hi & Hrv)%bind_Some. by eapply Hrev.
Qed.

(** The tests of phase 7 decide the last two parts, as the entries at the end
    of a run carry the data of the checkpoint pass. *)
Section covered_stream.
Context (sid : rstring) (d : StreamData) (a : gset Z).
Context (Hchain : st_chain d = chain_data reader sid)
  (Hcps : st_cps d = set_anchored a (checkpoint_data reader opts sid)).
Context (Hok : checkpoints_ok sid (st_hashes_by_seq (chain_data reader sid)) (tr_certs trust)
  (tr_revocations trust) (tr_console_keys trust) (checkpoints_of reader sid)).

Lemma checkpoint_pass bc :
  bc ∈ checkpoints_of reader sid →
  (∀ h, countersigned (tr_console_keys trust) bc h →
     reaches h (checkpoint_data reader opts sid)) ∧
  (∀ h, note_hash (sc_note (bc_checkpoint bc)) = Ok h →
     h ∈ st_checkpoint_note_hashes (checkpoint_data reader opts sid)) ∧
  (∀ p, cn_prev_checkpoint_hash (sc_note (bc_checkpoint bc)) = Some p →
     (cn_checkpoint_id (sc_note (bc_checkpoint bc)), p) ∈
       st_checkpoint_links (checkpoint_data reader opts sid)).
Proof.
  pose proof (checkpoints_of_wf reader sid) as Hwf. intros Hbc.
  pose proof (proj2 (pass_clean_iff _ _ _ _ _ _ Hwf CheckpointData_default) Hok) as Hc.
  by destruct (pass_clean _ _ _ _ _ _ Hwf _ Hc bc Hbc) as (_ & _ & ? & ? & ?).
Qed.

Lemma linked_clean : clean (check_links sid (st_cps d)) ↔ linked_ok sid.
Proof.
  pose proof (checkpoints_of_wf reader sid) as Hwf. rewrite links_closed, Hcps. unfold linked_ok.
  cbn [set_anchored st_checkpoint_links st_checkpoint_note_hashes]. split.
  - intros Hl bc prev Hbc Hp. apply (checkpoint_pass bc Hbc), Hl in Hp.
    apply pass_notes_origin in Hp as [(bc' & Hbc' & _ & Hn)|Hp]; [by exists bc'| |done].
    by apply not_elem_of_empty in Hp.
  - intros Hl i prev Hin. apply pass_links_origin in Hin as [(bc & Hbc & Hp)|Hin]; [|..|done].
    + destruct (Hl bc prev Hbc Hp) as (bc' & Hbc' & Hn). by apply (checkpoint_pass bc' Hbc').
    + by apply not_elem_of_nil in Hin.
Qed.

Lemma extent_clean : clean (check_extent opts sid d) ↔ extent_ok sid.
Proof.
  pose proof (checkpoints_of_wf reader sid) as Hwf. rewrite extent_reached, Hcps, Hchain. unfold extent_ok.
  cbn [set_anchored st_countersigned_high_water]. split.
  - intros He hw [Hp|(bc & Hbc & Hcs)]; [by apply He; left|].
    destruct (proj1 (checkpoint_pass bc Hbc) hw Hcs) as (m & Hm & Hle).
    destruct (He m) as (s & h & Hs & Hh); [by right|]. exists s, h. split; [lia|done].
  - intros He hw [Hp|Hm]; [apply He; by left|].
    assert (reaches hw (checkpoint_data reader opts sid)) as Hr by (exists hw; split; [exact Hm|lia]).
    apply pass_reaches_origin in Hr as [(bc & Hbc & _ & h' & Hcs & Hle)|(m & Hn & _)]; [|done..].
    destruct (He h') as (s & h & Hs & Hh); [right; by exists bc|]. exists s, h. split; [lia|done].
Qed.

Lemma cover_clean_iff : clean (cover_stream opts (sid, d)) ↔ linked_ok sid ∧ extent_ok sid.
Proof.
  unfold cover_stream. cbv zeta. rewrite !clean_bind, linked_clean, extent_clean.
  assert (∀ b c st, clean (when b (add_at Warning c st None))) as Hw
    by (intros; apply clean_when; intros _; by apply clean_add_at).
  split; [naive_solver|]. intros []. split_and!; try done; try apply Hw.
  apply clean_each, Forall_forall. intros x _. by apply clean_add_at.
Qed.
End covered_stream.

(** A run reports no error exactly if the bundle meets the specification. *)
Lemma run_ok : clean (run_phases reader opts) ↔ bundle_ok.
Proof.
  rewrite run_clean_iff, trust_clean, anchors_clean. unfold bundle_ok.
  setoid_rewrite list_elem_of_fmap.
  assert (∀ sid, clean (verify_checkpoints sid (st_hashes_by_seq (chain_data reader sid))
    (tr_certs trust) (tr_revocations trust) (tr_console_keys trust) (checkpoints_of reader sid)
    CheckpointData_default) ↔ checkpoints_ok sid (st_hashes_by_seq (chain_data reader sid))
    (tr_certs trust) (tr_revocations trust) (tr_console_keys trust) (checkpoints_of reader sid)) as Hcp.
  { intros sid. apply pass_clean_iff, checkpoints_of_wf. }
  split.
  - intros (Hc & Ht & Hch & Hps & Ha & Hcov). split_and!; try done. intros scope Hsc.
    assert (checkpoints_ok (ss_stream_id scope) _ _ _ _ _) as Hok by (apply Hcp, Hps; eauto).
    destruct (run_streams reader opts (ss_stream_id scope)) as (d & Hd); [apply list_elem_of_fmap; eauto|].
    pose proof (Hcov _ Hd) as Hcv. apply run_entries in Hd as (_ & Hchain & a & Ha' & _).
    cbn [fst snd] in *. rewrite (cover_clean_iff _ _ a) in Hcv by done.
    split; [|by split]. apply stream_chain_intact, Hch. eauto.
  - intros (Hc & Ht & Hs & Ha). split_and!; try done.
    + intros sid (scope & -> & Hsc). destruct (Hs scope Hsc) as [(vs & Hi) _]. by eapply intact_clean.
    + intros sid (scope & -> & Hsc). apply Hcp. by destruct (Hs scope Hsc) as (_ & ? & _).
    + intros [sid d] He. apply run_entries in He as (Hsid & Hchain & a & Ha' & _). cbn [fst snd] in *.
      apply list_elem_of_fmap in Hsid as (scope & -> & Hsc). destruct (Hs scope Hsc) as (_ & Hok & Hl & Hx).
      by apply (cover_clean_iff _ _ a).
Qed.
End bundle_spec.

(** ** Facts: totals *)

Definition total (f : StreamData → nat) (ds : list StreamData) : Z :=
  foldr (λ d acc, Z.of_nat (f d) + acc) 0 ds.

Lemma total_mono f g ds : (∀ d, d ∈ ds → (f d ≤ g d)%nat) → 0 ≤ total f ds ≤ total g ds.
Proof.
  unfold total. induction ds as [|d ds IH]; intros Hle; cbn; [lia|].
  destruct IH as [? ?]; [intros; apply Hle; by right|]. pose proof (Hle d ltac:(left)). lia.
Qed.

Lemma prove_totals p ds :
  is_u64 (pv_records p) = true → is_u64 (pv_attested_records p) = true →
  is_u64 (pv_anchored_records p) = true →
  is_u64 (pv_streams p) = true →
  let q := foldl prove_stream p ds in
  pv_records q = wrap_u64 (pv_records p + total (λ d, size (st_hashes_by_seq (st_chain d))) ds) ∧
  pv_attested_records q =
    wrap_u64 (pv_attested_records p + total (λ d, size (st_attested_seqs (st_cps d))) ds) ∧
  pv_anchored_records q =
    wrap_u64 (pv_anchored_records p + total (λ d, size (st_anchored_seqs (st_cps d))) ds) ∧
  pv_streams q = wrap_u64 (pv_streams p + Z.of_nat (length ds)).
Proof.
  cbv zeta. revert p; induction ds as [|d ds IH]; intros p H1' H2' H3' H4'; cbn [foldl total foldr].
  { rewrite !Z.add_0_r, !wrap_u64_id by done. done. }
  destruct (IH (prove_stream p d)) as (-> & -> & -> & ->); [apply wrap_u64_range..|].
  unfold prove_stream, u64_add, wrap_u64, total.
  cbn [pv_records pv_attested_records pv_anchored_records pv_streams length].
  rewrite !Zplus_mod_idemp_l, <-!Z.add_assoc, Nat2Z.inj_succ, <-Z.add_1_l. done.
Qed.

Lemma total_same f g ds : (∀ d, d ∈ ds → f d = g d) → total f ds = total g ds.
Proof.
  unfold total. induction ds as [|d ds IH]; intros Hf; cbn; [done|].
  rewrite (Hf d) by left. by rewrite IH by (intros; apply Hf; by right).
Qed.

(** ** What a report proves of a bundle that meets the specification *)

Section proven_spec.
Context `{Blake3, !Blake3Len} `{Sha256, !Sha256Len} `{Ed25519} `{X509} `{!SpkiPem} `{EmbeddedRoots}
  `{UlidApi} `{ChronoApi} `{TsaApi} `{ZipApi} `{ZstdApi} `{JsonParser, !ParserTypes}
  `{VerifierVersion} `{SystemClock}.
Context (reader : BundleReader) (opts : VerifyOptions) (Hok : bundle_ok reader opts).

Abbreviation note bc := (sc_note (bc_checkpoint bc)).
Abbreviation hashes sid := (st_hashes_by_seq (chain_data reader sid)).
Abbreviation batches := (ap_batches (bundle_proofs reader)).

Lemma stream_checked sid : sid ∈ stream_ids reader → stream_ok reader opts sid.
Proof.
  intros Hsid. apply chains_entries, list_elem_of_fmap in Hsid as (sc & -> & Hsc). by apply Hok.
Qed.

(** Every record of the stream is in the range of a checkpoint, all the
    records of which are in the bundle. *)
Definition covers (sid : rstring) : Prop :=
  ∀ s h, hashes sid !! s = Some h → ∃ bc, bc ∈ checkpoints_of reader sid ∧
    cn_seq_from (note bc) ≤ s ≤ cn_seq_to (note bc) ∧
    is_Some (hashes_in (hashes sid) (cn_seq_from (note bc)) (cn_seq_to (note bc))).

(** Every checkpoint of the stream is named, and no other by that name, in an
    inclusion of a batch with a time-stamp token. *)
Definition timestamped (sid : rstring) : Prop :=
  ∀ bc, bc ∈ checkpoints_of reader sid →
    (∃ batch inc, batch ∈ batches ∧ is_Some (ab_tsr_file batch) ∧ inc ∈ ab_checkpoints batch ∧
       ci_checkpoint_id inc = cn_checkpoint_id (note bc)) ∧
    ∀ sid' bc', sid' ∈ stream_ids reader → bc' ∈ checkpoints_of reader sid' →
      cn_checkpoint_id (note bc') = cn_checkpoint_id (note bc) → sid' = sid ∧ note bc' = note bc.

Lemma checkpoint_attested sid bc s :
  sid ∈ stream_ids reader → bc ∈ checkpoints_of reader sid →
  is_Some (hashes_in (hashes sid) (cn_seq_from (note bc)) (cn_seq_to (note bc))) →
  cn_seq_from (note bc) ≤ s ≤ cn_seq_to (note bc) →
  s ∈ st_attested_seqs (checkpoint_data reader opts sid).
Proof.
  intros Hsid Hbc [hs Hhs] Hs. apply pass_attested; [apply checkpoints_of_wf|]. left. exists bc.
  destruct (stream_checked sid Hsid) as (_ & [Hall _] & _). destruct (Hall bc Hbc) as (Ha & Hr & _).
  split_and!; try done; try apply Hs. exists hs. split; [done|]. apply Hr; [done|lia].
Qed.

(** The checkpoint is found in its stream, with its range. *)
Lemma checkpoint_found sid bc :
  sid ∈ stream_ids reader → bc ∈ checkpoints_of reader sid →
  (∀ sid' bc', sid' ∈ stream_ids reader → bc' ∈ checkpoints_of reader sid' →
     cn_checkpoint_id (note bc') = cn_checkpoint_id (note bc) → sid' = sid ∧ note bc' = note bc) →
  (∃ digest, find_checkpoint (cn_checkpoint_id (note bc)) (checkpointed reader opts) = Some (sid, digest)) ∧
  st_valid_checkpoint_ranges (checkpoint_data reader opts sid) !! cn_checkpoint_id (note bc) =
    Some (cn_seq_from (note bc), cn_seq_to (note bc)).
Proof.
  intros Hsid Hbc Huniq. destruct (stream_checked sid Hsid) as (_ & Hcp & _).
  pose proof (checkpoints_of_wf reader) as Hwf.
  destruct (pass_known _ _ _ _ _ _ (Hwf sid) CheckpointData_default bc
    (proj2 (pass_clean_iff _ _ _ _ _ _ (Hwf sid) _) Hcp) Hbc) as [Hd [r Hr]].
  change (outcome _) with (checkpoint_data reader opts sid) in Hd, Hr. split.
  - destruct (find_checkpoint_exists (cn_checkpoint_id (note bc)) (checkpointed reader opts) sid
      {| st_chain := chain_data reader sid; st_cps := checkpoint_data reader opts sid |}) as [[sid' x] Hf];
      [apply list_elem_of_fmap; by exists sid|done|].
    exists x. rewrite Hf. apply find_checkpoint_Some in Hf as (data & Hin & Hx).
    apply list_elem_of_fmap in Hin as (k & [= <- ->] & Hk). cbn [st_cps] in Hx.
    apply pass_notes_origin in Hx as [(bc' & Hbc' & _ & Hid & _)|Hn]; [|by cbn in Hn; rewrite lookup_empty in Hn|done].
    by destruct (Huniq _ _ Hk Hbc' Hid) as [-> _].
  - rewrite Hr. apply pass_notes_origin in Hr as [(bc' & Hbc' & _ & Hid & ->)|Hn];
      [|by cbn in Hn; rewrite lookup_empty in Hn|done].
    by destruct (Huniq _ _ Hsid Hbc' Hid) as [_ ->].
Qed.

Lemma checkpoint_anchored sid s :
  sid ∈ stream_ids reader → timestamped sid → s ∈ st_attested_seqs (checkpoint_data reader opts sid) →
  anchored_by reader (checkpointed reader opts) batches sid (checkpoint_data reader opts sid) s.
Proof.
  intros Hsid Ht Hs. split; [done|].
  apply pass_attested in Hs as [(bc & Hbc & _ & _ & Hr)|Hn];
    [|by apply not_elem_of_empty in Hn|apply checkpoints_of_wf].
  destruct (Ht bc Hbc) as [(batch & inc & Hb & [path Hp] & Hinc & Hid) Huniq]. exists batch. split; [done|].
  destruct (checkpoint_found sid bc Hsid Hbc Huniq) as [[leaf Hf] Hv]. rewrite <-Hid in Hf, Hv.
  destruct Hok as (_ & _ & _ & Hbs & _). destruct (Hbs batch Hb) as (root & Hroot & Hsha & Hincs & Htok).
  destruct (Hincs inc Hinc) as [Hvi Hleaf]. destruct (Htok path Hp) as (bs & t & Hbytes & Hver).
  exists inc, root, leaf, (cn_seq_from (note bc)), (cn_seq_to (note bc)), path, bs, t.
  split_and!; try done; [by eapply Hleaf|apply Hr..].
Qed.

(** The entries at the end of a run. *)
Lemma entry_attested e :
  e ∈ (outcome (run_phases reader opts)).1 → covers e.1 →
  st_attested_seqs (st_cps e.2) = dom (st_hashes_by_seq (st_chain e.2)).
Proof.
  intros He Hc. apply set_eq. intros s. split; [apply (entry_nested _ _ _ He)|].
  apply run_entries in He as (Hsid & -> & a & -> & _). intros [h Hh]%elem_of_dom.
  destruct (Hc s h Hh) as (bc & Hbc & Hs & Hin). cbn [set_anchored st_attested_seqs].
  eapply checkpoint_attested; [|exact Hbc|exact Hin|exact Hs]. by apply chains_entries.
Qed.

Lemma entry_anchored e :
  e ∈ (outcome (run_phases reader opts)).1 → timestamped e.1 →
  st_anchored_seqs (st_cps e.2) = st_attested_seqs (st_cps e.2).
Proof.
  intros He Ht. apply set_eq. intros s. split; [apply (entry_nested _ _ _ He)|].
  apply run_entries in He as (Hsid & _ & a & -> & Ha). cbn [set_anchored st_attested_seqs st_anchored_seqs].
  intros Hs. apply Ha. right. apply checkpoint_anchored; [by apply chains_entries|done..].
Qed.

Lemma run_total :
  total (λ d, size (st_hashes_by_seq (st_chain d))) (outcome (run_phases reader opts)).1.*2 =
    Z.of_nat (sum_list_with (λ sid, size (hashes sid)) (stream_ids reader)).
Proof.
  rewrite <-(checkpointed_keys reader opts), <-(anchors_to_keys _ _ _ (run_anchored reader opts)).
  assert (∀ e, e ∈ (outcome (run_phases reader opts)).1 → st_chain e.2 = chain_data reader e.1) as Hc
    by (intros e He; by apply run_entries in He as (_ & ? & _)).
  revert Hc. generalize (outcome (run_phases reader opts)).1 as es.
  induction es as [|e es IH]; intros Hc; [done|]. cbn. rewrite (Hc e) by left.
  change (foldr _ 0 es.*2) with (total (λ d, size (st_hashes_by_seq (st_chain d))) es.*2).
  rewrite IH by (intros; apply Hc; by right). lia.
Qed.

(** The totals of the report, over the streams in scope. *)
Lemma report_totals :
  let p := rp_proven (verify_bundle reader opts) in
  let ds := (outcome (run_phases reader opts)).1.*2 in
  pv_records p = wrap_u64 (total (λ d, size (st_hashes_by_seq (st_chain d))) ds) ∧
  pv_streams p = wrap_u64 (Z.of_nat (length (stream_ids reader))) ∧
  ((∀ sid, sid ∈ stream_ids reader → covers sid) → pv_attested_records p = pv_records p) ∧
  ((∀ sid, sid ∈ stream_ids reader → timestamped sid) → pv_anchored_records p = pv_attested_records p).
Proof.
  intros p ds. destruct (prove_totals Proven_default ds) as (Hr & Ha & Hn & Hs); [done..|].
  cbn in Hr, Ha, Hn, Hs. subst p.
  cbn [rp_proven verify_bundle set_earliest pv_records pv_attested_records pv_anchored_records pv_streams].
  fold ds. rewrite Hr, Ha, Hn, Hs. split; [done|]. split; [|split].
  - do 2 f_equal. unfold ds. rewrite length_fmap. rewrite <-(length_fmap fst).
    by rewrite (anchors_to_keys _ _ _ (run_anchored reader opts)), checkpointed_keys.
  - intros Hc. f_equal. apply total_same. intros d (e & -> & He)%list_elem_of_fmap.
    rewrite entry_attested; [apply size_dom|done|]. apply Hc, chains_entries. by apply run_entries in He as [? _].
  - intros Hc. f_equal. apply total_same. intros d (e & -> & He)%list_elem_of_fmap.
    rewrite entry_anchored; [done|done|]. apply Hc, chains_entries. by apply run_entries in He as [? _].
Qed.
End proven_spec.

(** ** A concrete bundle

    The two records of the demo stream, checkpointed with the key of the demo
    leaf certificate, countersigned by the attested Console key and anchored. *)

Definition bundle_records : list EvRecord :=
  Eval vm_compute in
  match @append_all poly_blake3 text_ulid (@genesis poly_blake3 text_ulid (str "S")) two_records with
  | Ok (_, rs) => rs
  | Err _ => []
  end.

Definition bundle_checkpoint : BundleCheckpoint :=
  Eval vm_compute in
  let note := default empty_note (res_ok (@build_note_linked poly_blake3 (str "cp") bundle_records
    (str "2000") (@blake3_hex poly_blake3 (byte_str "LINli")) None)) in
  {| bc_checkpoint := default {| sc_note := note; sc_signature := [] |}
       (res_ok (@sign_note poly_blake3 toy_ed25519 note (replicate 32 x6c)));
     bc_countersignature := res_ok (@cs_create poly_blake3 toy_ed25519 (str "cp") (str "2001")
       (str "k1") (Some 1) (byte_str "console")) |}.

Definition bundle_batch : AnchorBatch :=
  Eval vm_compute in
  match @build_batch poly_blake3 poly_sha256 (str "b1") (str "2002")
    [(str "cp", @blake3_raw poly_blake3 (@signed_bytes _ CheckpointNote_serialize
      (sc_note (bc_checkpoint bundle_checkpoint))))] true with
  | Ok b => {| ab_batch_id := ab_batch_id b; ab_created_at := ab_created_at b;
               ab_root_blake3 := ab_root_blake3 b; ab_root_sha256 := ab_root_sha256 b;
               ab_tsr_file := Some (str "b1.tsr"); ab_qualified := true;
               ab_checkpoints := ab_checkpoints b |}
  | Err _ => demo_batch
  end.

Definition bundle_files : list (rstring * bytes) :=
  Eval vm_compute in
  [(str "records/index.json", byte_str "{}"); (str "shard", two_raws ≫= λ v, jcs_line v ++ [x0a]);
   (str "checkpoints/S.json", byte_str "{}"); (str "anchors/proofs.json", byte_str "{}");
   (str "b1.tsr", default [] (res_ok (hex_decode "root_sha256" (ab_root_sha256 bundle_batch))));
   (str "identity/certs.pem", as_bytes demo_certs_pem); (str "identity/roots.json", byte_str "{}")].

Definition bundle_manifest : Manifest :=
  Eval vm_compute in
  {| man_schema_version := str "1"; man_bundle_id := str "b"; man_created_at := str "t";
     man_tool := man_tool demo_manifest; man_scope := man_scope demo_manifest;
     man_contents := (λ f, {| ce_path := f.1; ce_blake3 := @blake3_hex poly_blake3 f.2;
                              ce_bytes := Z.of_nat (length f.2) |}) <$> bundle_files |}.

Definition bundle_parser : JsonParser :=
  {| parse_value bs := find (λ v, bool_decide (to_jcs_bytes v = Ok bs)) two_raws;
     parse_manifest _ := Some bundle_manifest; parse_record_index _ := Some demo_index;
     parse_stream_checkpoints _ :=
       Some {| scs_stream_id := str "S"; scs_checkpoints := [bundle_checkpoint] |};
     parse_anchor_proofs _ := Some {| ap_batches := [bundle_batch]; ap_daily := [] |};
     parse_revocations _ := None; parse_roots _ := Some demo_roots_file |}.

Lemma bundle_parser_types : @ParserTypes bundle_parser.
Proof. intros bs c [= <-]. repeat constructor. Qed.

Definition bundle_reader : @BundleReader list_zip :=
  Eval vm_compute in
  @Build_BundleReader list_zip ((str "manifest.json", byte_str "{}") :: bundle_files) bundle_manifest.

Definition bundle_report : VReport :=
  @verify_bundle poly_blake3 poly_sha256 toy_ed25519 pem_x509 text_spki (str "") text_ulid
    millis_chrono toy_tsa list_zip stored_zstd bundle_parser (str "0.1.0") 5 bundle_reader demo_opts.

(** It passes without a warning. *)
Lemma bundle_passes : rp_result bundle_report = Pass.
Proof. vm_compute. reflexivity. Qed.

Lemma bundle_not_Fail : rp_result bundle_report ≠ Fail.
Proof. by rewrite bundle_passes. Qed.

Definition demo_scope : StreamScope :=
  {| ss_stream_id := str "S"; ss_seq_from := 0; ss_seq_to := 1; ss_record_count := 2 |}.

(** ** Properties *)

(** C1: The verdict decides the specification: a bundle does not fail exactly if
    its contents are those of the manifest and nothing else, its identity is in
    order, every stream in scope is an intact chain with checkpoints in order
    that are linked and reach every pinned or countersigned extent, and its
    anchors are in order. So nothing that the specification excludes passes, and
    nothing that meets it fails. *)
Theorem verdict_iff `{Blake3, !Blake3Len} `{Sha256, !Sha256Len} `{Ed25519} `{X509} `{!SpkiPem}
    `{EmbeddedRoots} `{UlidApi} `{ChronoApi} `{TsaApi} `{ZipApi} `{ZstdApi}
    `{JsonParser, !ParserTypes} `{VerifierVersion} `{SystemClock} reader opts :
  rp_result (verify_bundle reader opts) ≠ Fail ↔ bundle_ok reader opts.
Proof. rewrite <-run_ok. apply clean_not_Fail. Qed.

Lemma verdict_iff_witness :
  @bundle_ok poly_blake3 poly_sha256 toy_ed25519 pem_x509 text_spki (str "") text_ulid millis_chrono
    toy_tsa list_zip stored_zstd bundle_parser 5 bundle_reader demo_opts.
Proof.
  apply (@verdict_iff poly_blake3 poly_blake3_len poly_sha256 poly_sha256_len toy_ed25519 pem_x509
    text_spki (str "") text_ulid millis_chrono toy_tsa list_zip stored_zstd bundle_parser
    bundle_parser_types (str "0.1.0") 5 bundle_reader demo_opts). exact bundle_not_Fail.
Defined.

(** A bundle that does not fail is intact: if the verdict is not Fail, then
    every entry of the manifest is in the archive with its hash and size and
    nothing is in the archive that the manifest does not list, and every stream
    in scope was read to its end as a chain of records that carry their own
    hash, belong to the stream and link to their predecessors. *)
Theorem passing_bundle_intact `{Blake3} `{Sha256} `{Ed25519} `{X509} `{!SpkiPem} `{EmbeddedRoots}
    `{UlidApi} `{ChronoApi} `{TsaApi} `{ZipApi} `{ZstdApi} `{JsonParser} `{VerifierVersion} `{SystemClock}
    reader opts :
  rp_result (verify_bundle reader opts) ≠ Fail →
  verify_content_hashes reader = Ok [] ∧
  ∀ scope, scope ∈ bs_streams (man_scope (br_manifest reader)) →
    ∃ vs, stream_intact reader (ss_stream_id scope) (chain_data reader (ss_stream_id scope)) vs.
Proof.
  intros (Hcont & _ & Hst)%clean_not_Fail%run_clean. split; [done|]. intros sc Hsc.
  apply stream_chain_intact. apply Hst. apply list_elem_of_fmap. by exists sc.
Qed.

Lemma passing_bundle_intact_witness :
  @verify_content_hashes poly_blake3 list_zip bundle_reader = Ok [] ∧
  ∃ vs, @stream_intact poly_blake3 text_ulid millis_chrono list_zip stored_zstd bundle_parser
    bundle_reader (str "S") (@chain_data poly_blake3 text_ulid millis_chrono list_zip stored_zstd
    bundle_parser bundle_reader (str "S")) vs.
Proof.
  destruct (@passing_bundle_intact poly_blake3 poly_sha256 toy_ed25519 pem_x509 text_spki (str "")
    text_ulid millis_chrono toy_tsa list_zip stored_zstd bundle_parser (str "0.1.0") 5 bundle_reader
    demo_opts bundle_not_Fail) as [Hc Hs].
  split; [exact Hc|]. apply (Hs demo_scope). left.
Defined.

(** C5: Truncation does not pass: if the verdict is not Fail, then a stream in
    scope holds a record at or beyond the extent that the operator pinned for
    it, and at or beyond every high-water mark that a Console key countersigned
    on one of its checkpoints. *)
Theorem passing_bundle_extent `{Blake3} `{Sha256} `{Ed25519} `{X509} `{!SpkiPem} `{EmbeddedRoots}
    `{UlidApi} `{ChronoApi} `{TsaApi} `{ZipApi} `{ZstdApi} `{JsonParser, !ParserTypes}
    `{VerifierVersion} `{SystemClock} reader opts scope hw :
  rp_result (verify_bundle reader opts) ≠ Fail →
  scope ∈ bs_streams (man_scope (br_manifest reader)) →
  vo_expected_high_water opts !! ss_stream_id scope = Some hw ∨
  (∃ bc, bc ∈ checkpoints_of reader (ss_stream_id scope) ∧
     countersigned (tr_console_keys (outcome (establish_trust reader opts))) bc hw) →
  ∃ s h, hw ≤ s ∧ st_hashes_by_seq (chain_data reader (ss_stream_id scope)) !! s = Some h.
Proof. apply run_extent. Qed.

Lemma passing_bundle_extent_witness :
  ∃ s h, 1 ≤ s ∧ st_hashes_by_seq (@chain_data poly_blake3 text_ulid millis_chrono list_zip
    stored_zstd bundle_parser bundle_reader (str "S")) !! s = Some h.
Proof.
  apply (@passing_bundle_extent poly_blake3 poly_sha256 toy_ed25519 pem_x509 text_spki (str "")
    text_ulid millis_chrono toy_tsa list_zip stored_zstd bundle_parser bundle_parser_types
    (str "0.1.0") 5 bundle_reader demo_opts demo_scope 1 bundle_not_Fail); [left|].
  left. reflexivity.
Defined.

(** C6: The checkpoints of a bundle that does not fail: each is for its stream
    and signed by a certificate that validates against the selected trust roots;
    no entry of the bundle's revocation list that names this certificate takes
    effect at or before the time of the checkpoint, where both times parse (the
    code compares no other times, so a checkpoint whose time does not parse
    passes whatever the list says); if it names a predecessor, then a checkpoint
    with that note hash is in the bundle too, so no interior checkpoint is
    missing; and no two of them cover the same non-empty range with different
    roots. *)
Theorem passing_bundle_checkpoints `{Blake3} `{Sha256} `{Ed25519} `{X509} `{!SpkiPem}
    `{EmbeddedRoots} `{UlidApi} `{ChronoApi} `{TsaApi} `{ZipApi} `{ZstdApi}
    `{JsonParser, !ParserTypes} `{VerifierVersion} `{SystemClock} reader opts scope bc :
  let sid := ss_stream_id scope in
  let note := sc_note (bc_checkpoint bc) in
  rp_result (verify_bundle reader opts) ≠ Fail →
  scope ∈ bs_streams (man_scope (br_manifest reader)) → bc ∈ checkpoints_of reader sid →
  cn_stream_id note = sid ∧
  (∃ cert pem inter, sc_verify (bc_checkpoint bc) (vc_public_key cert) = Ok tt ∧
     validate_chain pem inter (join [10] (outcome (select_roots opts
       (bi_roots <$> res_ok (identity reader)))).1) (run_time opts) = Ok cert ∧
     vc_fingerprint cert = cn_recorder_cert_fingerprint note) ∧
  (∀ i rev e at_ effective, identity reader = Ok i → bi_revocations i = Some rev →
     e ∈ rl_revocations (srl_list rev) →
     re_cert_fingerprint e = cn_recorder_cert_fingerprint note →
     parse_wall (cn_ts_wall note) = Ok at_ → parse_wall (re_effective_at e) = Ok effective →
     datetime_geb at_ effective = false) ∧
  (∀ prev, cn_prev_checkpoint_hash note = Some prev →
     ∃ bc', bc' ∈ checkpoints_of reader sid ∧ note_hash (sc_note (bc_checkpoint bc')) = Ok prev) ∧
  (∀ bc', bc' ∈ checkpoints_of reader sid →
     let note' := sc_note (bc_checkpoint bc') in
     (cn_seq_from note, cn_seq_to note) = (cn_seq_from note', cn_seq_to note') →
     cn_seq_from note ≤ cn_seq_to note → cn_merkle_root note = cn_merkle_root note').
Proof.
  intros sid note (_ & _ & Hst)%clean_not_Fail%run_clean Hsc Hbc.
  destruct (Hst sid) as (_ & Hcps & d & Hd & Hcov); [apply list_elem_of_fmap; by exists scope|].
  pose proof (checkpoints_of_wf reader sid) as Hwf.
  destruct (pass_clean _ _ _ _ _ _ Hwf _ Hcps bc Hbc)
    as ((Hs & cert & Hcert & Hver & Hrev) & _ & _ & _ & Hl).
  split; [done|]. split_and!.
  - apply trust_certs in Hcert as (pem & inter & Hv & Hf). by exists cert, pem, inter.
  - intros i rev e at_ eff Hi Hrv He Hfp Hat Heff.
    assert (is_revoked_at rev (cn_recorder_cert_fingerprint note) at_ = false) as Hno.
    { apply Hrev; [|done]. by rewrite trust_revocations, Hi. }
    apply not_true_iff_false. intros Hge. apply not_true_iff_false in Hno. apply Hno.
    apply is_revoked_at_iff. eauto 10.
  - intros prev Hprev. apply run_entries in Hd as (_ & _ & a & Ha & _).
    apply cover_clean in Hcov as [Hlk _]. cbn [fst snd] in *. rewrite Ha in Hlk.
    rewrite links_closed in Hlk. pose proof (Hlk _ _ (Hl prev Hprev)) as Hin.
    apply pass_notes_origin in Hin as [(bc' & Hbc' & _ & Hn)|Hin]; [by exists bc'| |done].
    by apply not_elem_of_empty in Hin.
  - intros bc' Hbc'. apply pass_clean_iff in Hcps as [_ Hff]; [|done]. by apply Hff.
Qed.

Lemma passing_bundle_checkpoints_witness :
  cn_stream_id (sc_note (bc_checkpoint bundle_checkpoint)) = str "S".
Proof.
  apply (@passing_bundle_checkpoints poly_blake3 poly_sha256 toy_ed25519 pem_x509 text_spki (str "")
    text_ulid millis_chrono toy_tsa list_zip stored_zstd bundle_parser bundle_parser_types
    (str "0.1.0") 5 bundle_reader demo_opts demo_scope bundle_checkpoint bundle_not_Fail); left.
Defined.

(** C22: The totals of a report are nested: anchored records are attested and
    attested records are in the bundle, stream by stream, and the printed
    counts are the totals (as long as the records are fewer than 2^64). *)
Theorem proven_counts_nested `{Blake3} `{Sha256} `{Ed25519} `{X509} `{!SpkiPem} `{EmbeddedRoots}
    `{UlidApi} `{ChronoApi} `{TsaApi} `{ZipApi} `{ZstdApi} `{JsonParser, !ParserTypes}
    `{VerifierVersion} `{SystemClock} reader opts :
  let p := rp_proven (verify_bundle reader opts) in
  let ds := (outcome (run_phases reader opts)).1.*2 in
  (∀ d, d ∈ ds → st_anchored_seqs (st_cps d) ⊆ st_attested_seqs (st_cps d) ∧
     st_attested_seqs (st_cps d) ⊆ dom (st_hashes_by_seq (st_chain d))) ∧
  (total (λ d, size (st_hashes_by_seq (st_chain d))) ds ≤ u64_max →
   pv_records p = total (λ d, size (st_hashes_by_seq (st_chain d))) ds ∧
   pv_anchored_records p ≤ pv_attested_records p ≤ pv_records p).
Proof.
  intros p ds. assert (∀ d, d ∈ ds → st_anchored_seqs (st_cps d) ⊆ st_attested_seqs (st_cps d) ∧
     st_attested_seqs (st_cps d) ⊆ dom (st_hashes_by_seq (st_chain d))) as Hn.
  { intros d Hd. apply list_elem_of_fmap in Hd as (e & -> & [? ?]%entry_nested). done. }
  split; [done|]. intros Hmax.
  destruct (prove_totals Proven_default ds) as (Hr & Hat & Han & _); [done..|]. cbn in Hr, Hat, Han.
  pose proof (total_mono (λ d, size (st_anchored_seqs (st_cps d)))
    (λ d, size (st_attested_seqs (st_cps d))) ds) as H1'.
  pose proof (total_mono (λ d, size (st_attested_seqs (st_cps d)))
    (λ d, size (st_hashes_by_seq (st_chain d))) ds) as H2'.
  destruct H1' as [? ?]; [intros d Hd; apply subseteq_size, (Hn d Hd)|].
  destruct H2' as [? ?]; [intros d Hd; rewrite <-size_dom; apply subseteq_size, (Hn d Hd)|].
  subst p. cbn [rp_proven verify_bundle set_earliest pv_records pv_attested_records pv_anchored_records].
  fold ds. rewrite Hr, Hat, Han, !wrap_u64_id by (apply is_u64_spec; lia). lia.
Qed.

Lemma proven_counts_nested_witness :
  pv_anchored_records (rp_proven bundle_report) ≤ pv_attested_records (rp_proven bundle_report).
Proof.
  destruct (@proven_counts_nested poly_blake3 poly_sha256 toy_ed25519 pem_x509 text_spki (str "")
    text_ulid millis_chrono toy_tsa list_zip stored_zstd bundle_parser bundle_parser_types
    (str "0.1.0") 5 bundle_reader demo_opts) as [_ Hp].
  destruct Hp as [_ [Hle _]]; [by_compute|exact Hle].
Defined.
