(* ===== verification/Pass.v ===== *)
(** * Passing without a warning

    When the verdict is Pass and not PassWithFindings: the warnings of every
    phase of engine.rs, and the specification that a run without errors and
    warnings decides. *)

From Stdlib Require Import Strings.Byte.
From S2P Require Import Prelude Text Errors Hash Merkle Json Record Chain Keys Checkpoint Revocation.
From S2P Require Import Certs Bundle Anchors Report Reader Tsa Ctx Streams Identity Attest Anchoring Writer Engine.

(** ** Computations without warnings *)

Definition calm {A} (m : Checked A) : Prop := reports (λ f, fd_severity f ≠ Warning) m.

Lemma calm_bind {A B} (m : Checked A) (f : A → Checked B) :
  calm (m ≫= f) ↔ calm m ∧ calm (f (outcome m)).
Proof. apply reports_bind. Qed.

Lemma calm_ret {A} (a : A) : calm (mret a).
Proof. constructor. Qed.

Lemma calm_add s c : calm (add s c) ↔ s ≠ Warning.
Proof. unfold calm, reports. cbn. by rewrite Forall_singleton. Qed.

Lemma calm_add_at s c st q : calm (add_at s c st q) ↔ s ≠ Warning.
Proof. unfold calm, reports. cbn. by rewrite Forall_singleton. Qed.

Lemma calm_when b m : calm (when b m) ↔ (b = true → calm m).
Proof. apply reports_when. Qed.

Lemma calm_each {A} (f : A → Checked unit) l : calm (each f l) ↔ Forall (λ x, calm (f x)) l.
Proof. apply reports_each. Qed.

Lemma fold_checked_calm {S A} (P : A → Prop) (f : S → A → Checked S) s l :
  (∀ s x, x ∈ l → calm (f s x) ↔ P x) → calm (fold_checked f s l) ↔ ∀ x, x ∈ l → P x.
Proof. intros Hf. apply (fold_checked_reports _ (λ _, True)); [done|]. intros; split; [by apply Hf|done]. Qed.

Lemma fold_checked_calm_all {S A} (f : S → A → Checked S) s l :
  (∀ s x, x ∈ l → calm (f s x)) → calm (fold_checked f s l).
Proof. intros Hf. apply (fold_checked_calm (λ _, True)); [|done]. intros t x Hx. split; [done|]. intros _. by apply Hf. Qed.

Lemma warning_uncalm {A} class (a : A) : ¬ calm (_ ← add Warning class; mret a).
Proof. intros [Hc _]%calm_bind. by apply calm_add in Hc. Qed.

Lemma warning_at_uncalm {A} class st q (a : A) : ¬ calm (_ ← add_at Warning class st q; mret a).
Proof. intros [Hc _]%calm_bind. by apply calm_add_at in Hc. Qed.

Lemma calm_when_warning b c : calm (when b (add Warning c)) ↔ b = false.
Proof. rewrite calm_when, calm_add. destruct b; split; intros Hn; try done; by destruct (Hn eq_refl). Qed.

Lemma calm_when_warning_at b c st q : calm (when b (add_at Warning c st q)) ↔ b = false.
Proof. rewrite calm_when, calm_add_at. destruct b; split; intros Hn; try done; by destruct (Hn eq_refl). Qed.

Lemma calm_when_error_at b c st q : calm (when b (add_at Error c st q)).
Proof. apply calm_when. intros _. by apply calm_add_at. Qed.

(** A step that reports no warning, whatever it runs into. *)
Ltac calm := repeat (case_match; try done); by repeat constructor.

Lemma compute_result_Pass fs :
  compute_result fs = Pass ↔ no_error fs ∧ Forall (λ f, fd_severity f ≠ Warning) fs.
Proof.
  unfold compute_result, no_error. rewrite !Forall_forall.
  destruct (has_severity Error fs) eqn:He.
  - split; [done|]. intros [Hn _]. apply has_severity_spec in He as (f & Hf & He). by destruct (Hn f Hf).
  - assert (∀ f, f ∈ fs → fd_severity f ≠ Error).
    { intros f Hf Hs. assert (has_severity Error fs = true) by (apply has_severity_spec; eauto). congruence. }
    destruct (has_severity Warning fs) eqn:Hw.
    + split; [done|]. intros [_ Hn]. apply has_severity_spec in Hw as (f & Hf & Hw). by destruct (Hn f Hf).
    + split; [|done]. intros _. split; [done|]. intros f Hf Hs.
      assert (has_severity Warning fs = true) by (apply has_severity_spec; eauto). congruence.
Qed.

(** ** Phases 1 and 2 *)

Section trust.
Context `{Blake3} `{Ed25519} `{X509} `{!SpkiPem} `{EmbeddedRoots}.

(** A root is supplied or embedded; it need not be taken from the bundle. *)
Definition root_supplied (opts : VerifyOptions) : Prop :=
  is_Some (vo_root_pem_override opts) ∨
  is_blank embedded_roots_pem = false ∧ contains (str "BEGIN CERTIFICATE") embedded_roots_pem = true.

Lemma select_roots_calm opts br :
  (outcome (select_roots opts br)).1 ≠ [] → calm (select_roots opts br) ↔ root_supplied opts.
Proof.
  unfold select_roots, root_supplied. destruct (vo_root_pem_override opts) as [pem|].
  { intros _. split; [by left|intros _; apply calm_ret]. }
  destruct (is_blank embedded_roots_pem), (contains _ embedded_roots_pem); cbn [negb andb];
    try (intros _; split; [by right|intros _; apply calm_ret]).
  all: destruct br as [rf|]; [|done]; destruct (rf_roots rf); [done|]; intros _.
  all: split; [intros Hc; by apply warning_uncalm in Hc|intros [[? ?]|[]]; done].
Qed.

(** The bundle has an identity, and each of its certificates has a path to
    the roots. *)
Definition certs_validate (certs_pem : option rstring) (root_pems : list rstring) (now : Z) : Prop :=
  ∃ pem, certs_pem = Some pem ∧ ∀ ders der, parse_pem_chain pem = Ok ders → der ∈ ders →
    is_ok (validate_chain (der_to_pem der) (filter (λ p, p ≠ der_to_pem der) (der_to_pem <$> ders))
      (join [10] root_pems) now) = true.

Lemma cert_map_calm certs_pem root_pems now :
  root_pems ≠ [] → calm (build_cert_map certs_pem root_pems now) ↔ certs_validate certs_pem root_pems now.
Proof.
  intros Hne. unfold build_cert_map, certs_validate. destruct certs_pem as [pem|].
  2: { split; [intros Hc; by apply warning_uncalm in Hc|by intros (? & ? & _)]. }
  destruct root_pems as [|r rs]; [done|]. destruct (parse_pem_chain pem) as [ders|] eqn:Hp.
  2: { split; [|by repeat constructor]. intros _. exists pem. split; [done|]. congruence. }
  rewrite (fold_checked_calm (λ p, is_ok (validate_chain p (filter (λ q, q ≠ p) (der_to_pem <$> ders))
    (join [10] (r :: rs)) now) = true)).
  - setoid_rewrite list_elem_of_fmap. split.
    + intros Hall. exists pem. split; [done|]. intros ds der Hds Hder. assert (ds = ders) as -> by congruence. apply Hall. eauto.
    + intros (p & [= <-] & Hall) x (der & -> & Hder). by apply Hall.
  - intros m p _. unfold map_cert. destruct (validate_chain p _ _ _); cbn [is_ok].
    + split; [done|intros _; apply calm_ret].
    + split; [intros Hc; by apply warning_uncalm in Hc|done].
Qed.

(** Without a supplied Console key, those of the bundle parse and are signed. *)
Definition keys_signed (opts : VerifyOptions) (br : option RootsFile) : Prop :=
  vo_console_key_override opts = None → ∀ rf e, br = Some rf → e ∈ rf_console_keys rf →
    is_ok (vk_from_spki_pem (cks_public_key_pem (ack_statement e))) = true ∧ is_Some (ack_signature e).

Lemma resolve_keys_calm opts br root_pems :
  calm (resolve_console_keys opts br root_pems) ↔ keys_signed opts br.
Proof.
  unfold resolve_console_keys, keys_signed. destruct (vo_console_key_override opts) as [pem|].
  { split; [done|]. intros _. calm. }
  destruct br as [rf|]; [|split; [done|intros _; apply calm_ret]].
  rewrite (fold_checked_calm (λ e,
    is_ok (vk_from_spki_pem (cks_public_key_pem (ack_statement e))) = true ∧ is_Some (ack_signature e))).
  { split; [intros Hall _ ? e [= <-]; apply Hall|]. intros Hall e He. by apply (Hall eq_refl rf). }
  intros m e _. unfold resolve_key. destruct (vk_from_spki_pem _); cbn [is_ok].
  2: { split; [intros Hc; by apply warning_uncalm in Hc|by intros [? _]]. }
  destruct (ack_signature e) as [sg|].
  - split; [intros _; split; [done|by eexists]|]. intros _. calm.
  - split; [|by intros [_ [? ?]]]. intros [Hc _]%calm_bind. by apply calm_add in Hc.
Qed.

Lemma revocation_list_calm revs keys :
  calm (check_revocation_list revs keys) ↔ (is_Some revs → keys ≠ ∅).
Proof.
  unfold check_revocation_list. destruct revs as [rev|]; [|by split; [intros _ [? ?]|intros _; apply calm_ret]].
  assert (map_is_empty keys = true ↔ keys = ∅) as He by apply map_is_empty_true.
  destruct (map_is_empty keys).
  - rewrite andb_false_r, calm_when_warning. split; [done|]. intros Hne. destruct Hne; [by eexists|by apply He].
  - rewrite andb_true_r. split; [intros _ _ Hk; by apply He in Hk|]. intros _. case_match; by repeat constructor.
Qed.
End trust.

(** ** Phases 3 and 4 *)

Section chain.
Context `{Blake3} `{UlidApi} `{ChronoApi} `{ZipApi} `{ZstdApi} `{JsonParser}.

(** Every record links to its predecessor: no segment opens with the break
    sentinel. *)
Fixpoint unbroken (prev : option RecordView) (vs : list RecordView) : Prop :=
  match vs with
  | [] => True
  | v :: vs =>
    match prev with Some p => rv_prev_hash v = rv_record_hash p | None => True end ∧ unbroken (Some v) vs
  end.

(** The recorder reported no gap in its coverage; the count is a [u64]. *)
Definition gaps (raws : list value) : nat :=
  length (filter (λ v, default [] (get_str "record_type" v) = str "coverage_gap") raws).

Lemma collect_gaps raws d :
  is_u64 (st_coverage_gap_count d) = true →
  st_coverage_gap_count (foldl (λ d v, collect v d) d raws) =
    wrap_u64 (st_coverage_gap_count d + Z.of_nat (gaps raws)).
Proof.
  unfold gaps. revert d; induction raws as [|v raws IH]; intros d Hd; cbn [foldl].
  - cbn. by rewrite Z.add_0_r, wrap_u64_id.
  - rewrite filter_cons. cbn [collect st_coverage_gap_count] in *. rewrite IH; cbn [collect st_coverage_gap_count].
    + case_decide; [|done]. cbn [length]. unfold u64_add, wrap_u64. rewrite Zplus_mod_idemp_l. f_equal. lia.
    + case_decide; [apply wrap_u64_range|done].
Qed.

(** A chain without breaks and gaps. *)
Definition chain_complete (r : BundleReader) (sid : rstring) : Prop :=
  ∃ lines raws vs, (stream_lines r sid).1 = lines ∧
    Forall2 (λ l v, parse_value l = Some v) lines raws ∧ Forall2 self_hashed raws vs ∧
    unbroken None vs ∧ wrap_u64 (Z.of_nat (gaps raws)) = 0.

Lemma link_findings_calm sid seq p v :
  follows_or_break p v →
  Forall (λ f, calm (add_at (chain_finding_severity f) (classify_chain_finding f) sid seq)) (link_findings p v) ↔
  rv_prev_hash v = rv_record_hash p.
Proof.
  intros (_ & _ & Hl & _). unfold link_findings, same_segment. case_decide; [by split; [|constructor]|].
  destruct Hl as [|[Hs Hb]]; [done|]. rewrite bool_decide_eq_false_2 by done. rewrite Hb. cbn [negb andb].
  rewrite Forall_singleton, calm_add_at. done.
Qed.

Lemma on_lines_calm sid s lines raws vs :
  sv_inv (sl_verifier s) → Forall2 (λ l v, parse_value l = Some v) lines raws →
  Forall2 self_hashed raws vs → Forall (λ v, rv_stream_id v = sv_stream_id (sl_verifier s)) vs →
  linked_or_broken (sv_prev (sl_verifier s)) (sv_genesis (sl_verifier s)) vs →
  calm (fold_checked (on_line sid) s lines) ↔ unbroken (sv_prev (sl_verifier s)) vs.
Proof.
  intros Hinv Hp. revert s vs Hinv. induction Hp as [|l raw lines raws Hl Hp IH]; intros s vs Hinv Hsh Hsid Hlk.
  { inversion Hsh. split; [done|]. intros _. apply calm_ret. }
  apply Forall2_cons_inv_l in Hsh as (v & vs' & Hv & Hsh & ->). apply Forall_cons in Hsid as [Hs Hsid].
  destruct Hlk as [Hstep Hlk]. destruct (verify_next_allowed _ _ _ Hinv Hv Hs Hstep) as (fs & Hn & _ & Hinv' & ->).
  cbn [fold_checked unbroken]. rewrite calm_bind.
  assert (sl_verifier (outcome (on_line sid s l)) = advance (sl_verifier s) v) as Hsv
    by (unfold on_line; by rewrite Hl, Hn).
  rewrite (IH _ vs'); rewrite ?Hsv; try done. cbn [advance sv_prev].
  assert (calm (on_line sid s l) ↔
    match sv_prev (sl_verifier s) with Some p => rv_prev_hash v = rv_record_hash p | None => True end) as ->; [|done].
  unfold on_line. rewrite Hl, Hn, calm_bind, calm_each.
  destruct (sv_prev (sl_verifier s)) as [p|].
  - rewrite link_findings_calm by done. split; [by intros []|intros ?; split; [done|apply calm_ret]].
  - split; [done|]. intros _. split; [constructor|apply calm_ret].
Qed.

(** The chain pass over an intact stream: when it warns of a break, and how
    many gaps it leaves for the last phase to warn of. *)
Lemma chain_warnings r sid d vs lines raws :
  stream_intact r sid d vs → (stream_lines r sid).1 = lines →
  Forall2 (λ l v, parse_value l = Some v) lines raws →
  (calm (verify_stream_chain r sid) ↔ unbroken None vs) ∧
  st_coverage_gap_count (outcome (verify_stream_chain r sid)) = wrap_u64 (Z.of_nat (gaps raws)).
Proof.
  intros Hint Hlines Hp'. pose proof (intact_clean _ _ _ _ Hint) as Hclean.
  destruct Hint as (u & count & lines' & raws' & Hu & Hl & Hp & Hsh & Hsid & Hlk & _).
  rewrite Hl in Hlines. cbn [fst] in Hlines. subst lines'. pose proof (parsed_values _ _ _ Hp' Hp) as ->.
  revert Hclean. unfold verify_stream_chain. destruct (new_verifier sid) as [sv|] eqn:Hn.
  2: { unfold new_verifier in Hn. by rewrite Hu in Hn. }
  apply new_verifier_Ok in Hn as (Hinv & Hprev & Hs & u' & Hu' & Hg). assert (u' = u) as -> by congruence.
  rewrite read_stream_records_run by done. rewrite run_callback_fold, Hl. cbn [fst snd].
  intros [Hc _]%clean_bind. apply clean_bind in Hc as [_ Hc]. cbn [outcome mret checked_ret] in Hc.
  destruct (on_lines_clean _ _ _ Hc) as (raws & _ & _ & Hp'' & _ & _ & Hd).
  pose proof (parsed_values _ _ _ Hp'' Hp) as ->.
  rewrite !calm_bind, !outcome_bind. cbn [is_ok negb when outcome mret checked_ret finish_chain st_coverage_gap_count].
  rewrite Hd, collect_gaps by done. cbn [start_loop sl_data ChainData_default st_coverage_gap_count].
  rewrite Z.add_0_l. split; [|done].
  rewrite (on_lines_calm sid (start_loop sv) lines raws' vs); cbn [start_loop sl_verifier]; rewrite ?Hprev, ?Hs, ?Hg; try done.
  split; [by intros [[_ ?] _]|]. intros ?. split_and!; try done; apply calm_ret.
Qed.

Lemma chain_calm r sid vs :
  stream_intact r sid (outcome (verify_stream_chain r sid)) vs →
  calm (verify_stream_chain r sid) ∧ (0 <? st_coverage_gap_count (outcome (verify_stream_chain r sid))) = false ↔
  chain_complete r sid.
Proof.
  intros Hint.
  assert (∀ z, (0 <? wrap_u64 z) = false ↔ wrap_u64 z = 0) as Hpos.
  { intros z. rewrite Z.ltb_ge. pose proof (wrap_u64_range z) as Hr%is_u64_spec. lia. }
  destruct (Hint) as (u & count & lines & raws & _ & Hl & Hp & Hsh & _).
  assert ((stream_lines r sid).1 = lines) as Hlines by (by rewrite Hl).
  destruct (chain_warnings _ _ _ _ _ _ Hint Hlines Hp) as [-> ->]. rewrite Hpos.
  split; [intros []; by exists lines, raws, vs|].
  intros (ls & rs & ws & <- & Hp' & Hsh' & Hb & Hg). rewrite Hlines in Hp'.
  pose proof (parsed_values _ _ _ Hp' Hp) as ->. by pose proof (self_hashed_views _ _ _ Hsh' Hsh) as ->.
Qed.
End chain.

(** ** Phases 5 and 6 *)

Section checkpoints.
Context `{Blake3} `{Ed25519} `{ChronoApi}.
Context (sid : rstring) (hashes : gmap Z rstring) (certs : gmap rstring ValidatedCert)
  (revs : option SignedRevocationList) (keys : gmap rstring verifying_key).

(** There is a Console key for the countersignature, if there is one. *)
Definition cs_checkable (bc : BundleCheckpoint) : Prop :=
  keys = ∅ → bc_countersignature bc = None.

Lemma check_countersignature_calm bc d :
  calm (check_countersignature sid keys bc d) ↔ cs_checkable bc.
Proof.
  unfold check_countersignature, cs_checkable. destruct (bc_countersignature bc) as [cs|].
  2: { split; [done|]. intros _. by repeat constructor. }
  destruct (any_value (λ k, is_ok (cs_verify cs k)) keys) eqn:Ha.
  { split; [|intros _; apply calm_ret]. intros _ ->. by apply any_value_true in Ha as (? & ? & ? & _). }
  assert (map_is_empty keys = true ↔ keys = ∅) as He by apply map_is_empty_true. destruct (map_is_empty keys).
  - split; [intros Hc; by apply warning_at_uncalm in Hc|]. intros Hn. by specialize (Hn (proj1 He eq_refl)).
  - split; [intros _ Hk; by apply He in Hk|]. intros _. by repeat constructor.
Qed.

Lemma check_root_calm sc d : calm (check_root sid hashes sc d).
Proof. unfold check_root. calm. Qed.

Lemma pass_calm cps d :
  Forall (λ bc, wf_struct (sc_note (bc_checkpoint bc)) = true) cps → checkpoints_ok sid hashes certs revs keys cps →
  calm (verify_checkpoints sid hashes certs revs keys cps d) ↔ ∀ bc, bc ∈ cps → cs_checkable bc.
Proof.
  intros Hwf [Hok _]. unfold verify_checkpoints. rewrite calm_bind.
  rewrite (fold_checked_calm cs_checkable); [split; [by intros []|intros ?; split; [done|apply calm_ret]]|].
  intros st bc Hbc. destruct (Hok bc Hbc) as (Ha & Hr & _). rewrite Forall_forall in Hwf. pose proof (Hwf bc Hbc) as Hw.
  unfold verify_checkpoint. cbv zeta. rewrite (proj2 (admission_None _ _ _ _) Ha).
  assert (∀ n rs, calm (each (λ r, when (forks n r) (add_at Error "chain_fork_detected" sid None)) rs)) as Hf
    by (intros; apply calm_each, Forall_true; intros; apply calm_when_error_at).
  rewrite !calm_bind, (root_ok_passes _ _ _ _ Hw (admitted_safe _ _ _ _ Hw Ha) Hr). cbn [negb].
  rewrite calm_bind, check_countersignature_calm. split; [by intros (_ & _ & ? & _)|].
  intros Hc. split_and!; [apply Hf|apply check_root_calm|done|]. case_match; apply calm_ret.
Qed.
End checkpoints.

Section anchors.
Context `{Blake3, !Blake3Len} `{Sha256, !Sha256Len} `{Ed25519} `{TsaApi} `{ZipApi}.
Context (reader : BundleReader) (keys : gmap rstring verifying_key) (ps : PerStream).

Lemma check_batch_calm st batch :
  batch_ok reader ps batch → calm (check_batch reader st batch) ↔ is_Some (ab_tsr_file batch).
Proof.
  intros (root & Hroot & Hsha & _ & Htok). unfold check_batch. rewrite Hroot, decide_False by (rewrite Hsha; auto).
  rewrite calm_bind. split.
  - intros [_ Hc]. unfold check_token in Hc. destruct (ab_tsr_file batch); [done|]. by apply warning_uncalm in Hc.
  - intros [path Hp]. split.
    + apply fold_checked_calm_all. intros acc inc _. unfold check_inclusion. calm.
    + unfold check_token. rewrite Hp. calm.
Qed.

Lemma check_day_calm earliest day : calm (check_day reader keys earliest day).
Proof.
  unfold check_day. case_match; [|by repeat constructor]. case_decide; [by repeat constructor|]. apply calm_bind. split.
  - unfold check_day_signature. repeat (case_match; [|apply calm_ret]). apply calm_when. intros _. by apply calm_add.
  - unfold check_qts. calm.
Qed.

Lemma anchors_calm proofs :
  anchors_ok reader keys ps proofs →
  calm (verify_anchors reader keys proofs ps) ↔ ∀ batch, batch ∈ ap_batches proofs → is_Some (ab_tsr_file batch).
Proof.
  intros [Hb _]. unfold verify_anchors. rewrite !calm_bind.
  rewrite (fold_checked_calm (λ batch, is_Some (ab_tsr_file batch)))
    by (intros st batch Hin; by apply check_batch_calm, Hb).
  split; [by intros []|]. intros Hc. split_and!; [done| |apply calm_ret].
  apply fold_checked_calm_all. intros. apply check_day_calm.
Qed.
End anchors.

(** ** The verdict *)

Section verdict.
Context `{Blake3, !Blake3Len} `{Sha256, !Sha256Len} `{Ed25519} `{X509} `{!SpkiPem} `{EmbeddedRoots}
  `{UlidApi} `{ChronoApi} `{TsaApi} `{ZipApi} `{ZstdApi} `{JsonParser, !ParserTypes}
  `{VerifierVersion} `{SystemClock}.
Context (reader : BundleReader) (opts : VerifyOptions).

Abbreviation trust := (outcome (establish_trust reader opts)).
Abbreviation ident := (res_ok (identity reader)).
Abbreviation roots := (outcome (select_roots opts (bi_roots <$> ident))).1.
Abbreviation hashes sid := (st_hashes_by_seq (chain_data reader sid)).

(** The trust does not rest on the bundle alone, and nothing of its identity
    is left aside. *)
Definition trust_complete : Prop :=
  root_supplied opts ∧ certs_validate (bi_certs_pem <$> ident) roots (run_time opts) ∧
  keys_signed opts (bi_roots <$> ident) ∧ (is_Some (tr_revocations trust) → tr_console_keys trust ≠ ∅).

(** The end of the stream is pinned or countersigned, unless it is empty. *)
Definition extent_claimed (sid : rstring) : Prop :=
  hashes sid ≠ ∅ → is_Some (vo_expected_high_water opts !! sid) ∨
    ∃ bc hw, bc ∈ checkpoints_of reader sid ∧ countersigned (tr_console_keys trust) bc hw.

(** A stream without breaks and gaps whose checkpoints are there and cover all
    of it, with countersignatures that can be checked, up to a claimed extent. *)
Definition stream_complete (sid : rstring) : Prop :=
  chain_complete reader sid ∧ is_ok (stream_checkpoints reader sid) = true ∧
  (∀ bc, bc ∈ checkpoints_of reader sid → cs_checkable (tr_console_keys trust) bc) ∧
  covers reader sid ∧ extent_claimed sid.

Definition bundle_complete : Prop :=
  man_schema_version (br_manifest reader) = BUNDLE_SCHEMA_VERSION ∧ trust_complete ∧
  (∀ scope, scope ∈ bs_streams (man_scope (br_manifest reader)) → stream_complete (ss_stream_id scope)) ∧
  ∀ batch, batch ∈ ap_batches (bundle_proofs reader) → is_Some (ab_tsr_file batch).

Lemma container_calm :
  calm (check_container reader) ↔ man_schema_version (br_manifest reader) = BUNDLE_SCHEMA_VERSION.
Proof.
  unfold check_container. rewrite calm_bind, calm_when_warning, negb_false_iff, bool_decide_eq_true.
  split; [by intros []|]. intros Hv. split; [done|]. destruct (verify_content_hashes reader); [|by repeat constructor].
  apply calm_each, Forall_true. intros _. by apply calm_add.
Qed.

Lemma trust_calm : roots ≠ [] → calm (establish_trust reader opts) ↔ trust_complete.
Proof.
  intros Hne. unfold trust_complete.
  assert (tr_console_keys trust = outcome (resolve_console_keys opts (bi_roots <$> ident) roots)) as -> by done.
  rewrite trust_revocations.
  unfold establish_trust. cbv zeta. rewrite !calm_bind.
  rewrite (select_roots_calm _ _ Hne), (cert_map_calm _ _ _ Hne), resolve_keys_calm, revocation_list_calm.
  assert (∀ b, calm (when b (add Info "root_source"))) as Hinfo by (intros; apply calm_when; intros _; by apply calm_add).
  split; [naive_solver|]. intros (? & ? & ? & ?). split_and!; try done. apply calm_ret.
Qed.

Section complete.
Context (Hok : bundle_ok reader opts).

Lemma checkpoints_calm sid :
  sid ∈ ss_stream_id <$> bs_streams (man_scope (br_manifest reader)) →
  calm (checkpoint_stream reader trust (chain_entry reader sid)) ↔
  is_ok (stream_checkpoints reader sid) = true ∧
  ∀ bc, bc ∈ checkpoints_of reader sid → cs_checkable (tr_console_keys trust) bc.
Proof.
  intros Hsid. assert (sid ∈ stream_ids reader) as Hin by (by apply chains_entries).
  destruct (stream_checked reader opts Hok sid Hin) as (_ & Hcp & _). pose proof (checkpoints_of_wf reader sid) as Hwf.
  pose proof (pass_calm _ _ _ _ _ _ CheckpointData_default Hwf Hcp) as Hpass. revert Hpass.
  unfold checkpoint_stream, chain_entry, checkpoints_of. destruct (stream_checkpoints reader sid) as [c|].
  - intros Hpass. rewrite calm_bind. cbn [is_ok st_chain st_cps]. rewrite Hpass.
    split; [by intros []|]. intros []. split; [done|apply calm_ret].
  - intros _. split; [intros Hc; by apply warning_at_uncalm in Hc|by intros []].
Qed.

(** Counting the attested sequences tells whether the checkpoints cover all. *)
Lemma attested_covers e :
  e ∈ (outcome (run_phases reader opts)).1 →
  (size (st_hashes_by_seq (st_chain e.2)) ≤ size (st_attested_seqs (st_cps e.2)))%nat ↔ covers reader e.1.
Proof.
  intros He. split.
  - intros Hle. destruct (entry_nested reader opts e He) as [Hsub _].
    assert (st_attested_seqs (st_cps e.2) ≡ dom (st_hashes_by_seq (st_chain e.2))) as Heq.
    { apply set_subseteq_size_equiv; [done|]. by rewrite size_dom. }
    apply run_entries in He as (_ & Hc & a & Ha & _). intros s h Hh%elem_of_dom_2.
    rewrite <-Hc, <-Heq, Ha in Hh. cbn [set_anchored st_attested_seqs] in Hh.
    apply pass_attested in Hh as [(bc & Hbc & _ & (hs & Hhs & _) & Hr)|Hn];
      [|by apply not_elem_of_empty in Hn|apply checkpoints_of_wf]. exists bc. split_and!; try done; apply Hr.
  - intros Hc. rewrite (entry_attested reader opts Hok e He Hc). by rewrite size_dom.
Qed.

Lemma high_water_claimed sid :
  sid ∈ stream_ids reader →
  is_Some (st_countersigned_high_water (checkpoint_data reader opts sid)) ↔
  ∃ bc hw, bc ∈ checkpoints_of reader sid ∧ countersigned (tr_console_keys trust) bc hw.
Proof.
  intros Hsid. split.
  - intros [m Hm]. assert (reaches m (checkpoint_data reader opts sid)) as Hr by (exists m; split; [done|lia]).
    apply pass_reaches_origin in Hr as [(bc & Hbc & _ & h' & Hcs & _)|(? & Hn & _)]; [eauto|done|apply checkpoints_of_wf].
  - intros (bc & hw & Hbc & Hcs). destruct (stream_checked reader opts Hok sid Hsid) as (_ & Hcp & _).
    destruct (proj1 (checkpoint_pass reader opts sid Hcp bc Hbc) hw Hcs) as (m & Hm & _). by exists m.
Qed.

Lemma cover_calm e :
  e ∈ (outcome (run_phases reader opts)).1 →
  calm (cover_stream opts e) ↔
  covers reader e.1 ∧ extent_claimed e.1 ∧ (0 <? st_coverage_gap_count (chain_data reader e.1)) = false.
Proof.
  intros He. rewrite <-(attested_covers e He). apply run_entries in He as (Hsid & Hc & a & Ha & _).
  apply chains_entries in Hsid. pose proof (high_water_claimed _ Hsid) as Hhw. destruct e as [sid d].
  cbn [fst snd] in *. unfold cover_stream, extent_claimed. cbv zeta. rewrite <-Hhw, <-Hc.
  assert (st_countersigned_high_water (checkpoint_data reader opts sid) = st_countersigned_high_water (st_cps d))
    as -> by (by rewrite Ha).
  rewrite !calm_bind, !calm_when_warning_at.
  assert (∀ links : CheckpointData, calm (check_links sid links)) as Hlinks
    by (intros; apply calm_each, Forall_true; intros; apply calm_when_error_at).
  assert (calm (check_extent opts sid d)) as Hext
    by (unfold check_extent; destruct (max_option _ _); [apply calm_when_error_at|apply calm_ret]).
  assert (calm (each (λ _ : rstring, add_at Info "segment_no_clean_end" sid None) (st_segments_without_end (st_chain d))))
    as Hend by (apply calm_each, Forall_true; intros; by apply calm_add_at).
  assert ((0 <? Z.max 0 (Z.of_nat (size (st_hashes_by_seq (st_chain d))) -
    Z.of_nat (size (st_attested_seqs (st_cps d))))) = false ↔
    (size (st_hashes_by_seq (st_chain d)) ≤ size (st_attested_seqs (st_cps d)))%nat) as ->
    by (rewrite Z.ltb_ge; lia).
  assert ((match vo_expected_high_water opts !! sid, st_countersigned_high_water (st_cps d) with
    | None, None => 0 <? Z.of_nat (size (st_hashes_by_seq (st_chain d))) | _, _ => false end) = false ↔
    (st_hashes_by_seq (st_chain d) ≠ ∅ → is_Some (vo_expected_high_water opts !! sid) ∨
      is_Some (st_countersigned_high_water (st_cps d)))) as ->; [|by split; naive_solver].
  destruct (vo_expected_high_water opts !! sid) as [p|]; [split; [intros _ _; left; by eexists|done]|].
  destruct (st_countersigned_high_water (st_cps d)) as [c|]; [split; [intros _ _; right; by eexists|done]|].
  rewrite Z.ltb_ge. rewrite <-map_size_non_empty_iff. split; [lia|]. intros Hn.
  destruct (decide (size (st_hashes_by_seq (st_chain d)) = 0%nat)); [lia|]. by destruct Hn as [[? ?]|[? ?]].
Qed.

Lemma streams_calm :
  (∀ sid, sid ∈ ss_stream_id <$> bs_streams (man_scope (br_manifest reader)) →
     calm (verify_stream_chain reader sid)) ∧
  (∀ sid, sid ∈ ss_stream_id <$> bs_streams (man_scope (br_manifest reader)) →
     calm (checkpoint_stream reader trust (chain_entry reader sid))) ∧
  (∀ e, e ∈ (outcome (run_phases reader opts)).1 → calm (cover_stream opts e)) ↔
  ∀ sid, sid ∈ ss_stream_id <$> bs_streams (man_scope (br_manifest reader)) → stream_complete sid.
Proof.
  assert (∀ sid, sid ∈ ss_stream_id <$> bs_streams (man_scope (br_manifest reader)) →
    calm (verify_stream_chain reader sid) ∧ (0 <? st_coverage_gap_count (chain_data reader sid)) = false ↔
    chain_complete reader sid) as Hchain.
  { intros sid Hsid. destruct (stream_checked reader opts Hok sid) as ((vs & Hint) & _); [by apply chains_entries|].
    by apply (chain_calm _ _ vs). }
  split.
  - intros (Hch & Hcp & Hcov) sid Hsid. destruct (run_streams reader opts sid Hsid) as [d Hd].
    destruct (proj1 (cover_calm _ Hd) (Hcov _ Hd)) as (Hcovers & Hext & Hgap).
    destruct (proj1 (checkpoints_calm _ Hsid) (Hcp _ Hsid)) as [Hdoc Hcs].
    split_and!; try done. by apply Hchain; [|split; [apply Hch|]].
  - intros Hall. split_and!.
    + intros sid Hsid. destruct (Hall sid Hsid) as (Hc & _). by apply Hchain in Hc as [? _].
    + intros sid Hsid. destruct (Hall sid Hsid) as (_ & Hd & Hcs & _). by apply checkpoints_calm.
    + intros e He. pose proof (run_entries _ _ _ He) as [Hsid _].
      destruct (Hall _ Hsid) as (Hc & _ & _ & Hcovers & Hext). apply cover_calm; [done|].
      by apply Hchain in Hc as [_ ?].
Qed.

(** A run that reports no error reports no warning exactly if nothing is
    missing. *)
Lemma run_calm : calm (run_phases reader opts) ↔ bundle_complete.
Proof.
  unfold calm. rewrite run_reports. change (reports _ ?m) with (calm m). unfold bundle_complete.
  assert ((∀ scope, scope ∈ bs_streams (man_scope (br_manifest reader)) → stream_complete (ss_stream_id scope)) ↔
    ∀ sid, sid ∈ ss_stream_id <$> bs_streams (man_scope (br_manifest reader)) → stream_complete sid) as ->.
  { setoid_rewrite list_elem_of_fmap. naive_solver. }
  rewrite <-streams_calm. destruct Hok as (_ & (Hroots & _) & _ & Hanch).
  rewrite container_calm, (trust_calm Hroots), (anchors_calm _ _ _ _ Hanch). tauto.
Qed.
End complete.

Lemma passes_iff : rp_result (verify_bundle reader opts) = Pass ↔ bundle_ok reader opts ∧ bundle_complete.
Proof.
  unfold verify_bundle. cbn [rp_result]. rewrite compute_result_Pass.
  change (no_error (found (run_phases reader opts))) with (clean (run_phases reader opts)).
  change (Forall _ (found (run_phases reader opts))) with (calm (run_phases reader opts)).
  rewrite run_ok. split; intros [Hok Hc]; (split; [done|]); by apply run_calm.
Qed.
End verdict.

(** ** Properties *)

(** C2: The verdict Pass is exact: a bundle passes without a warning exactly if it
    meets the specification of a bundle that does not fail and nothing is
    missing: the schema version is the verifier's; a root is supplied or
    embedded, the bundle's certificates all have a path to it, its Console keys
    parse and are signed; every stream has its checkpoints document, no segment
    break and no coverage gap, checkpoints that cover all its records,
    countersignatures that can be checked, and an extent that is pinned or
    countersigned unless it is empty; and every batch of anchors has a
    time-stamp token. *)
Theorem pass_iff `{Blake3, !Blake3Len} `{Sha256, !Sha256Len} `{Ed25519} `{X509} `{!SpkiPem}
    `{EmbeddedRoots} `{UlidApi} `{ChronoApi} `{TsaApi} `{ZipApi} `{ZstdApi}
    `{JsonParser, !ParserTypes} `{VerifierVersion} `{SystemClock} reader opts :
  rp_result (verify_bundle reader opts) = Pass ↔ bundle_ok reader opts ∧ bundle_complete reader opts.
Proof. apply passes_iff. Qed.

Lemma pass_iff_witness :
  @bundle_complete poly_blake3 toy_ed25519 pem_x509 text_spki (str "") text_ulid millis_chrono
    list_zip stored_zstd bundle_parser 5 bundle_reader demo_opts.
Proof.
  apply (@pass_iff poly_blake3 poly_blake3_len poly_sha256 poly_sha256_len toy_ed25519 pem_x509
    text_spki (str "") text_ulid millis_chrono toy_tsa list_zip stored_zstd bundle_parser
    bundle_parser_types (str "0.1.0") 5 bundle_reader demo_opts). exact bundle_passes.
Defined.
