(* ===== verification/Cli.v ===== *)
(** * The command line (verify/src/main.rs)

    [main] from the parsed arguments to the exit code and to what it prints on
    the standard output, given the messages of the findings. The messages on the
    standard error are left out, and so is the parsing of the arguments, which is
    clap's. A step that returns early from [main] is an error whose value is the
    exit code. *)

From Stdlib Require Import Strings.Byte Decimal DecimalZ.
From S2P Require Import Prelude Text Errors Hash Json Record Chain Keys Checkpoint Certs Bundle.
From S2P Require Import Anchors Report Reader Tsa Ctx Streams Identity Attest Anchoring Engine.

(** [std::fs]: the text of a file, and a file opened as a source of an archive;
    the inner [None] is a file that is no zip archive. *)
Class FileSystem `{ZipApi} := {
  read_to_string : rstring → option rstring;
  open_file : rstring → option (option archive);
}.

(** [serde_json::to_string_pretty] on the report. *)
Class ReportPrinter := report_json : VReport → option rstring.

Record Args := {
  ar_bundle : rstring;
  ar_root : option rstring;
  ar_console_key : option rstring;
  ar_expect_high_water : list rstring;
  ar_json : bool;
}.

(** ** Strings *)

(** [s.split_once(sep)]: at the first occurrence. *)
Fixpoint split_once (sep : char) (s : rstring) : option (rstring * rstring) :=
  match s with
  | [] => None
  | c :: s => if c =? sep then Some ([], s) else
      p ← split_once sep s; Some (c :: p.1, p.2)
  end.

Fixpoint trim_start (s : rstring) : rstring :=
  match s with c :: t => if is_whitespace c then trim_start t else s | [] => [] end.

(** [s.trim()]. *)
Definition trim (s : rstring) : rstring := reverse (trim_start (reverse (trim_start s))).

Definition is_digit (c : char) : bool := (48 <=? c) && (c <=? 57).

(** The loop of [u64::from_str]: [None] on another character or on overflow. *)
Fixpoint parse_digits (acc : Z) (s : rstring) : option Z :=
  match s with
  | [] => Some acc
  | c :: s =>
    if is_digit c && is_u64 (10 * acc + (c - 48)) then parse_digits (10 * acc + (c - 48)) s else None
  end.

(** [s.parse::<u64>()]: an optional plus sign and at least one digit. *)
Definition parse_u64 (s : rstring) : option Z :=
  match s with
  | [] => None
  | c :: t =>
    if c =? 43 then match t with [] => None | _ => parse_digits 0 t end else parse_digits 0 s
  end.

(** ** [main] *)

Definition usage_error : Z := 30.

(** One [--expect-high-water STREAM_ID=SEQ]. *)
Definition parse_pin (spec : rstring) : option (rstring * Z) :=
  p ← split_once 61 spec; seq ← parse_u64 (trim p.2); Some (trim p.1, seq).

Fixpoint expected_high_water (acc : gmap rstring Z) (specs : list rstring)
    : result Z (gmap rstring Z) :=
  match specs with
  | [] => mret acc
  | spec :: specs => pin ← ok_or (parse_pin spec) 2; expected_high_water (<[pin.1 := pin.2]> acc) specs
  end.

Section main.
Context `{Blake3} `{Sha256} `{Ed25519} `{X509} `{!SpkiPem} `{EmbeddedRoots} `{UlidApi} `{ChronoApi}
  `{TsaApi} `{ZipApi} `{ZstdApi} `{JsonParser} `{VerifierVersion} `{SystemClock} `{!FileSystem}
  `{ReportPrinter}.

Definition read_opt_file (path : option rstring) : result Z (option rstring) :=
  match path with
  | None => Ok None
  | Some p => Some <$> ok_or (read_to_string p) usage_error
  end.

Definition open_reader (path : rstring) : result Z BundleReader :=
  file ← ok_or (open_file path) usage_error;
  map_err (λ _, usage_error) (open_bundle file).

(** The body of [main] up to the report that is printed. *)
Definition run_main (args : Args) : result Z VReport :=
  root_pem_override ← read_opt_file (ar_root args);
  console_key_override ← read_opt_file (ar_console_key args);
  reader ← open_reader (ar_bundle args);
  pins ← expected_high_water ∅ (ar_expect_high_water args);
  let report := verify_bundle reader
    {| vo_root_pem_override := root_pem_override; vo_console_key_override := console_key_override;
       vo_now_unix := None; vo_expected_high_water := pins |} in
  if ar_json args then _ ← ok_or (report_json report) usage_error; mret report else mret report.

(** The exit code of the process, cast to [u8]. *)
Definition main (args : Args) : Z :=
  match run_main args with Ok report => exit_code report mod 256 | Err code => code end.

(** What the process prints on the standard output; [messages] are the texts of
    the findings. *)
Definition main_stdout (messages : VReport → list rstring) (args : Args) : rstring :=
  match run_main args with
  | Ok report =>
    if ar_json args then line (default [] (report_json report))
    else render_text report (messages report)
  | Err _ => []
  end.
End main.

(** ** Facts: numbers *)

Definition digits_value (acc : Z) (s : rstring) : Z := foldl (λ a c, 10 * a + (c - 48)) acc s.

Lemma is_digit_spec c : is_digit c = true ↔ 48 ≤ c ≤ 57.
Proof. unfold is_digit. lia. Qed.

Lemma digits_value_ge acc s : 0 ≤ acc → Forall (λ c, is_digit c = true) s → acc ≤ digits_value acc s.
Proof.
  intros Hacc Hs. revert acc Hacc; induction Hs as [|c s Hc _ IH]; intros acc Hacc; cbn; [lia|].
  apply is_digit_spec in Hc. specialize (IH (10 * acc + (c - 48))). unfold digits_value in IH. lia.
Qed.

(** The checks for overflow on the way are the check of the value at the end. *)
Lemma parse_digits_spec acc s z :
  0 ≤ acc ≤ u64_max →
  parse_digits acc s = Some z ↔
    Forall (λ c, is_digit c = true) s ∧ digits_value acc s = z ∧ is_u64 z = true.
Proof.
  revert acc; induction s as [|c s IH]; intros acc Hacc; cbn.
  - split; [intros [= <-]; split_and!; [done..|by apply is_u64_spec]|by intros (_ & -> & _)].
  - rewrite Forall_cons. destruct (is_digit c) eqn:Hc; cbn; [|naive_solver].
    apply is_digit_spec in Hc. destruct (is_u64 (10 * acc + (c - 48))) eqn:Hu.
    + apply is_u64_spec in Hu. rewrite (IH _ Hu). unfold digits_value. naive_solver.
    + split; [done|]. intros ([_ Hs] & Hz & Hzu). apply is_u64_spec in Hzu.
      pose proof (digits_value_ge (10 * acc + (c - 48)) s ltac:(lia) Hs) as Hge.
      unfold digits_value in Hge. rewrite <-not_true_iff_false, is_u64_spec in Hu. lia.
Qed.

Lemma parse_u64_Some s z :
  parse_u64 s = Some z ↔
    ∃ ds, ds ≠ [] ∧ (s = ds ∨ s = 43 :: ds) ∧ Forall (λ c, is_digit c = true) ds ∧
      digits_value 0 ds = z ∧ is_u64 z = true.
Proof.
  assert (∀ ds, parse_digits 0 ds = Some z ↔
    Forall (λ c, is_digit c = true) ds ∧ digits_value 0 ds = z ∧ is_u64 z = true) as Hds
    by (intros; by apply parse_digits_spec).
  unfold parse_u64. destruct s as [|c t]; [naive_solver|]. case_match eqn:Hc.
  - apply Z.eqb_eq in Hc as ->. destruct t as [|d t]; rewrite ?Hds.
    + split; [done|]. intros (ds & Hne & [<-|[= <-]] & Hd & _); [|done]. by inversion Hd.
    + split; [intros Hp; exists (d :: t); naive_solver|].
      intros (ds & _ & [<-|[= <-]] & Hd & Hv); [by inversion Hd|done].
  - apply Z.eqb_neq in Hc. rewrite Hds. split; [intros Hp; exists (c :: t); naive_solver|].
    intros (ds & _ & [<-|[= ? _]] & Hd); done.
Qed.

Lemma digits_value_acc u p :
  digits_value (Z.pos p) (b2z <$> uint_bytes u) = Z.pos (Pos.of_uint_acc u p).
Proof. revert p; induction u as [|u IH|u IH|u IH|u IH|u IH|u IH|u IH|u IH|u IH|u IH]; intros p; [done|..];
  cbn [uint_bytes Pos.of_uint_acc]; rewrite fmap_cons; unfold digits_value in *; cbn [foldl];
  rewrite <-IH; f_equal; cbn; lia. Qed.

Lemma digits_value_uint u : digits_value 0 (b2z <$> uint_bytes u) = Z.of_uint u.
Proof.
  unfold Z.of_uint. induction u as [|u IH|u _|u _|u _|u _|u _|u _|u _|u _|u _]; [done|exact IH|..];
    cbn [uint_bytes Pos.of_uint]; rewrite fmap_cons; apply digits_value_acc.
Qed.

Lemma parse_u64_dec_bytes z :
  parse_u64 (b2z <$> dec_bytes z) = if is_u64 z then Some z else None.
Proof.
  pose proof (DecimalZ.of_to z) as Hz. pose proof (dec_bytes_nonempty z) as Hne.
  unfold dec_bytes in *. destruct (Z.to_int z) as [u|u] eqn:Hu; cbn [Z.of_int] in Hz.
  - assert (Forall (λ c, is_digit c = true) (b2z <$> uint_bytes u)) as Hd.
    { apply Forall_fmap. eapply Forall_impl; [apply uint_bytes_digits|]. intros b. apply is_digit_spec. }
    rewrite <-digits_value_uint in Hz. apply option_eq; intros y. rewrite parse_u64_Some. split.
    + intros (ds & _ & [<-|Hs] & _ & Hv & Hy); [|by rewrite Hs in Hd; inversion Hd].
      rewrite Hz in Hv. subst y. by rewrite Hy.
    + destruct (is_u64 z) eqn:Hy; [|done]. intros [= <-]. exists (b2z <$> uint_bytes u).
      split_and!; [by intros ?%fmap_nil_inv|by left|done..].
  - assert (is_u64 z = false) as ->.
    { apply not_true_iff_false. intros [Hpos _]%is_u64_spec. rewrite <-Hz in Hpos.
      destruct z as [|p|p]; [discriminate Hu..|]. lia. }
    rewrite fmap_cons. destruct (parse_u64 _) as [y|] eqn:Hp; [|done].
    apply parse_u64_Some in Hp as (ds & _ & [<-|[= ?]] & Hd & _). by inversion Hd.
Qed.

(** ** Facts: pins *)

Lemma expected_high_water_Ok acc specs pins :
  expected_high_water acc specs = Ok pins →
  ∃ ps, Forall2 (λ spec p, parse_pin spec = Some p) specs ps ∧
    pins = foldl (λ m p, <[p.1 := p.2]> m) acc ps.
Proof.
  revert acc; induction specs as [|spec specs IH]; intros acc; cbn.
  - intros [= <-]. by exists [].
  - intros (pin & Hpin%ok_or_Ok & (ps & Hps & ->)%IH)%bind_Ok. exists (pin :: ps).
    split; [by constructor|done].
Qed.

Lemma expected_high_water_total acc specs :
  match expected_high_water acc specs with
  | Ok _ => Forall (λ spec, is_Some (parse_pin spec)) specs
  | Err code => code = 2 ∧ Exists (λ spec, parse_pin spec = None) specs
  end.
Proof.
  revert acc; induction specs as [|spec specs IH]; intros acc; cbn; [constructor|].
  destruct (parse_pin spec) as [pin|] eqn:Hpin; cbn; [|by split; [|left]].
  specialize (IH (<[pin.1 := pin.2]> acc)). destruct (expected_high_water _ specs).
  - constructor; [by eexists|done].
  - split; [apply IH|right; apply IH].
Qed.

(** The last pin of a stream counts. *)
Lemma foldl_insert_last (ps : list (rstring * Z)) acc sid seq post :
  sid ∉ post.*1 →
  foldl (λ (m : gmap rstring Z) p, <[p.1 := p.2]> m) acc (ps ++ (sid, seq) :: post) !! sid = Some seq.
Proof.
  intros Hni. rewrite foldl_app. cbn. generalize (foldl (λ (m : gmap rstring Z) p, <[p.1 := p.2]> m) acc ps).
  intros m. assert ((<[sid := seq]> m) !! sid = Some seq) as Hm by apply lookup_insert_eq.
  revert Hm. generalize (<[sid := seq]> m) as m'. clear m. induction post as [|p post IH]; [done|].
  intros m' Hm. rewrite fmap_cons, not_elem_of_cons in Hni. destruct Hni as [Hne Hni]. cbn.
  apply IH; [done|]. by rewrite lookup_insert_ne.
Qed.

(** [spec] is the last argument that pins the stream. *)
Definition last_pin (specs : list rstring) (sid : rstring) (seq : Z) : Prop :=
  ∃ pre spec post, specs = pre ++ spec :: post ∧ parse_pin spec = Some (sid, seq) ∧
    Forall (λ later, fst <$> parse_pin later ≠ Some sid) post.

Lemma last_pin_lookup specs pins sid seq :
  expected_high_water ∅ specs = Ok pins → last_pin specs sid seq → pins !! sid = Some seq.
Proof.
  intros (ps & Hps & ->)%expected_high_water_Ok (pre & spec & post & -> & Hpin & Hpost).
  apply Forall2_app_inv_l in Hps as (ps1 & ps2 & _ & Hps & ->).
  apply Forall2_cons_inv_l in Hps as (p & ps3 & Hp & Hps & ->). simplify_eq.
  apply foldl_insert_last. intros ((sid' & seq') & -> & Hin)%list_elem_of_fmap.
  apply list_elem_of_lookup in Hin as (i & Hi).
  destruct (Forall2_lookup_r _ _ _ _ _ Hps Hi) as (later & Hl & Hpl).
  apply (Forall_lookup_1 _ _ _ _ Hpost Hl). by rewrite Hpl.
Qed.

(** ** Facts: exits *)

Section exits.
Context `{Blake3} `{Sha256} `{Ed25519} `{X509} `{!SpkiPem} `{EmbeddedRoots} `{UlidApi} `{ChronoApi}
  `{TsaApi} `{ZipApi} `{ZstdApi} `{JsonParser} `{VerifierVersion} `{SystemClock} `{!FileSystem}
  `{ReportPrinter}.

(** The files that the arguments name can be read. *)
Definition inputs (args : Args) : result Z (option rstring * option rstring * BundleReader) :=
  root ← read_opt_file (ar_root args); key ← read_opt_file (ar_console_key args);
  reader ← open_reader (ar_bundle args); mret (root, key, reader).

Definition options (root key : option rstring) (pins : gmap rstring Z) : VerifyOptions :=
  {| vo_root_pem_override := root; vo_console_key_override := key; vo_now_unix := None;
     vo_expected_high_water := pins |}.

Lemma read_opt_file_error path code : read_opt_file path = Err code → code = usage_error.
Proof. unfold read_opt_file. destruct path as [p|]; [destruct (read_to_string p)|]; cbn; congruence. Qed.

Lemma open_reader_error path code : open_reader path = Err code → code = usage_error.
Proof.
  unfold open_reader. destruct (open_file path) as [file|]; cbn; [|congruence].
  destruct (open_bundle file); cbn; congruence.
Qed.

Lemma inputs_error args code : inputs args = Err code → code = usage_error.
Proof.
  unfold inputs. destruct (read_opt_file (ar_root args)) eqn:Hr; cbn.
  - destruct (read_opt_file (ar_console_key args)) eqn:Hk; cbn.
    + destruct (open_reader (ar_bundle args)) eqn:Ho; cbn; [done|].
      intros [= <-]. by eapply open_reader_error.
    + intros [= <-]. by eapply read_opt_file_error.
  - intros [= <-]. by eapply read_opt_file_error.
Qed.

Lemma run_main_inputs args :
  run_main args =
    i ← inputs args; pins ← expected_high_water ∅ (ar_expect_high_water args);
    let report := verify_bundle i.2 (options i.1.1 i.1.2 pins) in
    if ar_json args then _ ← ok_or (report_json report) usage_error; mret report else mret report.
Proof.
  unfold run_main, inputs. destruct (read_opt_file (ar_root args)), (read_opt_file (ar_console_key args)),
    (open_reader (ar_bundle args)); done.
Qed.

Lemma exit_code_cases r : exit_code r mod 256 = exit_code r.
Proof. unfold exit_code. by case_match. Qed.

(** How [main] ends. *)
Lemma main_cases args :
  match inputs args with
  | Err _ => main args = 30
  | Ok (root, key, reader) =>
    match expected_high_water ∅ (ar_expect_high_water args) with
    | Err _ => main args = 2
    | Ok pins =>
      let report := verify_bundle reader (options root key pins) in
      main args = if ar_json args && negb (bool_decide (is_Some (report_json report))) then 30
                  else exit_code report
    end
  end.
Proof.
  unfold main. rewrite run_main_inputs. destruct (inputs args) as [[[root key] reader]|code] eqn:Hi.
  - cbn. pose proof (expected_high_water_total ∅ (ar_expect_high_water args)) as Hp.
    destruct (expected_high_water _ _) as [pins|code]; [|by destruct Hp].
    cbn. destruct (ar_json args); [destruct (report_json _)|]; cbn; rewrite ?exit_code_cases; done.
  - cbn. by apply inputs_error in Hi.
Qed.

(** Something is printed unless the process ends with 2 or 30. *)
Lemma main_prints messages args : main_stdout messages args = [] ↔ main args = 2 ∨ main args = 30.
Proof.
  unfold main_stdout, main. destruct (run_main args) as [report|code] eqn:Hr.
  - rewrite exit_code_cases. unfold exit_code, line. split; [|case_match; lia].
    destruct (ar_json args); [by intros [_ ?]%app_eq_nil|]. unfold render_text, line.
    by intros [[_ ?]%app_eq_nil _]%app_eq_nil.
  - split; [|done]. intros _. rewrite run_main_inputs in Hr.
    destruct (inputs args) as [[[root key] reader]|code'] eqn:Hi; [|injection Hr as <-; right; by eapply inputs_error].
    pose proof (expected_high_water_total ∅ (ar_expect_high_water args)) as Hp. cbn in Hr.
    destruct (expected_high_water _ _) as [pins|code']; [|injection Hr as <-; left; apply Hp].
    cbn in Hr. destruct (ar_json args); [|done]. destruct (report_json _); [done|]. injection Hr as <-. by right.
Qed.

(** The fourth line of the text is the verdict that the exit code stands for,
    unless the bundle's name has newlines. *)
Lemma main_prints_verdict messages args report :
  run_main args = Ok report → ar_json args = false →
  10 ∉ title_text report → 10 ∉ rp_manifest_hash report →
  text_lines (main_stdout messages args) !! 3%nat = Some (str "RESULT: " ++ verdict_text (rp_result report)) ∧
  main args = exit_code report.
Proof.
  intros Hr Hj Ht Hm. unfold main_stdout, main. rewrite Hr, Hj, exit_code_cases.
  split; [by apply result_line|done].
Qed.

(** What an exit code of 0 or 10 stands for. *)
Lemma passing_run args :
  main args = 0 ∨ main args = 10 →
  ∃ root key reader pins,
    open_reader (ar_bundle args) = Ok reader ∧
    expected_high_water ∅ (ar_expect_high_water args) = Ok pins ∧
    rp_result (verify_bundle reader (options root key pins)) ≠ Fail.
Proof.
  intros Hexit. pose proof (main_cases args) as Hm.
  destruct (inputs args) as [[[root key] reader]|code] eqn:Hi; [|lia].
  destruct (expected_high_water _ _) as [pins|] eqn:Hp; [|lia]. cbv zeta in Hm.
  exists root, key, reader, pins. split_and!; [|done|].
  - unfold inputs in Hi. ok_inv. by simplify_eq.
  - intros Hf. rewrite Hm in Hexit. case_match; [lia|]. unfold exit_code in Hexit. rewrite Hf in Hexit. lia.
Qed.
End exits.

Lemma verdict_codes r : exit_code r ∈ [0; 10; 11] ∧ exit_code r ≠ 2.
Proof. unfold exit_code. by destruct (rp_result r); (split; [set_solver|]). Qed.

(** ** Properties *)

(** [u64] parsing: exactly the nonempty digit strings, after an optional
    plus sign, whose value fits 64 bits are accepted, with that value, so
    neither overflow nor another character is ever let through; and the decimal
    printing of an integer parses back to it exactly if the integer is a [u64]. *)
Theorem parse_u64_spec s z :
  (parse_u64 s = Some z ↔
    ∃ ds, ds ≠ [] ∧ (s = ds ∨ s = 43 :: ds) ∧ Forall (λ c, 48 ≤ c ≤ 57) ds ∧
      foldl (λ a c, 10 * a + (c - 48)) 0 ds = z ∧ z ≤ u64_max) ∧
  parse_u64 (b2z <$> dec_bytes z) = if is_u64 z then Some z else None.
Proof.
  split.
  - rewrite parse_u64_Some. apply exist_proper. intros ds. setoid_rewrite is_digit_spec.
    rewrite is_u64_spec. split; [naive_solver|]. intros (Hne & Hs & Hd & <- & Hle). split_and!; try done.
    apply (digits_value_ge 0 ds); [done|]. eapply Forall_impl; [exact Hd|]. intros c. apply is_digit_spec.
  - apply parse_u64_dec_bytes.
Qed.

(** C33: The exit codes. The process ends with 0, 10, 11, 2 or 30: with 30 if a
    named file or the bundle cannot be read, with 2 exactly if these can and some
    pin has no equals sign or no [u64] after it, and otherwise, unless a JSON
    report cannot be printed, with the code of the report of the bundle, verified
    at the clock's time with the override files and the pins of the arguments.
    Nothing is printed on the standard output exactly with 2 and 30. *)
Theorem exit_codes `{Blake3} `{Sha256} `{Ed25519} `{X509} `{!SpkiPem} `{EmbeddedRoots} `{UlidApi}
    `{ChronoApi} `{TsaApi} `{ZipApi} `{ZstdApi} `{JsonParser} `{VerifierVersion} `{SystemClock}
    `{!FileSystem} `{ReportPrinter} args :
  main args ∈ [0; 10; 11; 2; 30] ∧
  (∀ code, inputs args = Err code → main args = 30) ∧
  (main args = 2 ↔ ∃ i spec, inputs args = Ok i ∧ spec ∈ ar_expect_high_water args ∧
                             parse_pin spec = None) ∧
  (∀ messages, main_stdout messages args = [] ↔ main args = 2 ∨ main args = 30) ∧
  ∀ root key reader pins,
    inputs args = Ok (root, key, reader) →
    expected_high_water ∅ (ar_expect_high_water args) = Ok pins →
    let report := verify_bundle reader (options root key pins) in
    main args = exit_code report ∨ (ar_json args = true ∧ report_json report = None ∧ main args = 30).
Proof.
  pose proof (λ messages, main_prints messages args) as Hpr. pose proof (main_cases args) as Hm.
  destruct (inputs args) as [[[root key] reader]|code].
  2: { rewrite Hm. split_and!; [set_solver|done| |by intros; rewrite Hpr, Hm|done].
     split; [done|]. by intros (? & ? & ? & _). }
  pose proof (expected_high_water_total ∅ (ar_expect_high_water args)) as Hp.
  destruct (expected_high_water _ _) as [pins|code].
  - cbv zeta in Hm. destruct (verdict_codes (verify_bundle reader (options root key pins))) as [Hin Hne].
    split_and!; [|done|split|done|].
    + rewrite Hm. case_match; [set_solver|]. set_solver.
    + rewrite Hm. by case_match.
    + intros (_ & spec & _ & Hs & Hn). rewrite Forall_forall in Hp. destruct (Hp spec Hs). congruence.
    + intros root' key' reader' pins' [= <- <- <-] [= <-]. cbv zeta. rewrite Hm.
      destruct (ar_json args), (report_json _); cbn; auto.
  - rewrite Hm. destruct Hp as [_ (spec & Hs & Hn)%Exists_exists].
    split_and!; [set_solver|done| |by intros; rewrite Hpr, Hm|done]. split; [|done]. intros _. eauto.
Qed.

(** C34: Pins are enforced end to end: if the process exits with 0 or 10, then the
    bundle could be opened, its entries are intact and all listed, and every
    stream in scope that some argument pins holds a record at or beyond the
    sequence in the last such argument. *)
Theorem pins_enforced `{Blake3} `{Sha256} `{Ed25519} `{X509} `{!SpkiPem} `{EmbeddedRoots} `{UlidApi}
    `{ChronoApi} `{TsaApi} `{ZipApi} `{ZstdApi} `{JsonParser, !ParserTypes} `{VerifierVersion}
    `{SystemClock} `{!FileSystem} `{ReportPrinter} args :
  main args = 0 ∨ main args = 10 →
  ∃ reader, open_reader (ar_bundle args) = Ok reader ∧
    verify_content_hashes reader = Ok [] ∧
    ∀ scope hw, scope ∈ bs_streams (man_scope (br_manifest reader)) →
      last_pin (ar_expect_high_water args) (ss_stream_id scope) hw →
      ∃ s h, hw ≤ s ∧ st_hashes_by_seq (chain_data reader (ss_stream_id scope)) !! s = Some h.
Proof.
  intros Hexit. destruct (passing_run args Hexit) as (root & key & reader & pins & Ho & Hp & Hpass).
  exists reader. split; [done|]. split.
  - by apply clean_not_Fail, run_clean in Hpass as [? _].
  - intros scope hw Hsc Hl. eapply run_extent; [exact Hpass|done|]. left. by eapply last_pin_lookup.
Qed.

(** ** Example *)

Definition demo_files : @FileSystem list_zip :=
  {| read_to_string p := if decide (p = str "root.pem") then Some demo_root_pem else None;
     open_file p := if decide (p = str "a.seal") then Some (Some (br_zip bundle_reader)) else None |}.

Definition demo_args : Args :=
  {| ar_bundle := str "a.seal"; ar_root := Some (str "root.pem"); ar_console_key := None;
     ar_expect_high_water := [str "S=0"; str " S = +1"]; ar_json := false |}.

Lemma demo_main_0 :
  @main poly_blake3 poly_sha256 toy_ed25519 pem_x509 text_spki (str "") text_ulid millis_chrono
    toy_tsa list_zip stored_zstd bundle_parser (str "0.1.0") 5 demo_files (λ _, None) demo_args = 0.
Proof. vm_compute. reflexivity. Qed.

Lemma pins_enforced_witness :
  ∃ s h, 1 ≤ s ∧ st_hashes_by_seq (@chain_data poly_blake3 text_ulid millis_chrono list_zip
    stored_zstd bundle_parser bundle_reader (str "S")) !! s = Some h.
Proof.
  destruct (@pins_enforced poly_blake3 poly_sha256 toy_ed25519 pem_x509 text_spki (str "") text_ulid
    millis_chrono toy_tsa list_zip stored_zstd bundle_parser bundle_parser_types (str "0.1.0") 5
    demo_files (λ _, None) demo_args (or_introl demo_main_0)) as (reader & Hr & _ & Hpins).
  assert (reader = bundle_reader) as ->.
  { enough (@Ok Z _ reader = Ok bundle_reader) by congruence. rewrite <-Hr. vm_compute. reflexivity. }
  apply (Hpins demo_scope); [left|].
  exists [str "S=0"], (str " S = +1"), []. split_and!; [reflexivity|vm_compute; reflexivity|constructor].
Defined.
