(* ===== verification/Export.v ===== *)
(** * From the recorder to the exit code

    The components put together: an honest recorder's streams and checkpoints,
    exported by the bundle writer with the certificates that were issued for
    it, are accepted by the verifier. *)

From Stdlib Require Import Strings.Byte.
From S2P Require Import Prelude Text Errors Hash Merkle Json Jcs JcsFacts Record Chain Keys.
From S2P Require Import Checkpoint Revocation Certs Bundle Anchors Report Reader Tsa Ctx Streams.
From S2P Require Import Identity Issue Attest Honest Anchoring Writer Readback Engine Pass Cli.

Section export.
Context `{Blake3, !Blake3Len} `{Sha256, !Sha256Len} `{Ed25519, !Ed25519Laws} `{!Pkcs8}
  `{!SpkiPem, !KeyPemLaws} `{X509, !PemLaws} `{Rcgen} `{!DnName, !RcgenLaws} `{EmbeddedRoots}
  `{UlidApi, !UlidLaws} `{ChronoApi} `{TsaApi} `{ZipWriterLaws} `{ZstdApi}
  `{ZstdEncode, !ZstdLaws} `{JsonPrinter} `{JsonParser, !ParserTypes} `{VerifierVersion} `{SystemClock}.

(** ** Honest exports *)

(** A stream of the export: its lines are those of a recorded stream, its
    checkpoints are the recorder's, made while the certificate was not revoked,
    and no pin is beyond its end. *)
Definition honest_stream (key : signing_key) (fp : rstring) (ckey : signing_key)
    (revs : option SignedRevocationList) (pins : gmap rstring Z) (ops : list op)
    (sid : rstring) (ls : list (BResult bytes)) : Prop :=
  ∃ u final lines cps,
    sid = ulid_to_string u ∧ recorded u final ∧ ls = (λ l, Ok (line_of l)) <$> lines ∧
    Forall valid_line lines ∧ Forall2 (λ l r, parse_value l = Some (to_value r)) lines final ∧
    OpCheckpoints sid cps ∈ ops ∧ honest_checkpoints final key fp ckey cps ∧
    (∀ bc rev ts, bc ∈ cps → revs = Some rev →
       parse_wall (cn_ts_wall (sc_note (bc_checkpoint bc))) = Ok ts → is_revoked_at rev fp ts = false) ∧
    (∀ hw, pins !! sid = Some hw → 0 ≤ hw < Z.of_nat (length final)).

(** The digest of every checkpoint of the export with that id. *)
Definition exported_leaf (ops : list op) (id : rstring) (digest : bytes) : Prop :=
  ∀ sid cps bc, OpCheckpoints sid cps ∈ ops → bc ∈ cps →
    cn_checkpoint_id (sc_note (bc_checkpoint bc)) = id →
    ∃ jcs, struct_to_jcs_bytes (sc_note (bc_checkpoint bc)) = Ok jcs ∧ digest = blake3_raw jcs.

(** A token of the export and where it is put. *)
Definition exported_token (ops : list op) (path : rstring) (bs : bytes) : Prop :=
  (∃ id, OpToken id bs ∈ ops ∧ path = str "anchors/rfc3161/" ++ id ++ str ".tsr") ∨
  (∃ day, OpQts day bs ∈ ops ∧ path = str "anchors/qts/" ++ day ++ str ".der").

(** A run of the writer that exports honest streams, each once, with the
    recorder's certificate chain, a revocation list of the Console, if any, and
    the Console's anchors of the checkpoints. *)
Record honest_run (key : signing_key) (fp : rstring) (ckey : signing_key) (root_pem : rstring)
    (t : Z) (pins : gmap rstring Z) (ops : list op) : Prop := {
  hr_streams_once : NoDup (op_streams ops);
  hr_parses : Forall op_parses ops;
  hr_identity : ∃ certs_pem revs roots, OpIdentity certs_pem revs roots ∈ ops ∧
    (∀ c r ro, OpIdentity c r ro ∈ ops → r = revs) ∧
    certified key fp root_pem certs_pem t ∧
    (∀ rev, revs = Some rev → ∃ l kid, srl_create l kid ckey = Ok rev) ∧
    ∀ sid ls, OpRecords sid ls ∈ ops → honest_stream key fp ckey revs pins ops sid ls;
  hr_anchors : ∀ proofs, OpProofs proofs ∈ ops →
    honest_proofs (exported_leaf ops) (exported_token ops) ckey proofs;
}.

(** The records of an operation and of an export. *)
Definition op_records (o : op) : nat :=
  match o with OpRecords _ ls => length ls | _ => 0%nat end.

Definition exported_records (ops : list op) : nat := sum_list_with op_records ops.

(** Every record is in the range of an exported checkpoint of its stream. *)
Definition checkpoints_cover (ops : list op) : Prop :=
  ∀ sid ls s, OpRecords sid ls ∈ ops → 0 ≤ s < Z.of_nat (length ls) →
    ∃ cps bc, OpCheckpoints sid cps ∈ ops ∧ bc ∈ cps ∧
      cn_seq_from (sc_note (bc_checkpoint bc)) ≤ s ≤ cn_seq_to (sc_note (bc_checkpoint bc)).

(** Every exported checkpoint, and no other by its id, is in a batch that has
    a time-stamp token. *)
Definition checkpoints_timestamped (ops : list op) : Prop :=
  ∀ sid cps bc, OpCheckpoints sid cps ∈ ops → bc ∈ cps →
    (∃ proofs batch inc, OpProofs proofs ∈ ops ∧ batch ∈ ap_batches proofs ∧
       is_Some (ab_tsr_file batch) ∧ inc ∈ ab_checkpoints batch ∧
       ci_checkpoint_id inc = cn_checkpoint_id (sc_note (bc_checkpoint bc))) ∧
    ∀ sid' cps' bc', OpCheckpoints sid' cps' ∈ ops → bc' ∈ cps' →
      cn_checkpoint_id (sc_note (bc_checkpoint bc')) = cn_checkpoint_id (sc_note (bc_checkpoint bc)) →
      sid' = sid ∧ sc_note (bc_checkpoint bc') = sc_note (bc_checkpoint bc).

(** Nothing is missing from the export: its checkpoints cover its records, the
    end of every stream is pinned or countersigned, no line reports a gap in the
    coverage, and every batch of anchors has a time-stamp token. *)
Record complete_run (pins : gmap rstring Z) (ops : list op) : Prop := {
  cr_covered : checkpoints_cover ops;
  cr_extent : ∀ sid ls, OpRecords sid ls ∈ ops → ls ≠ [] → is_Some (pins !! sid) ∨
    ∃ cps bc cs hw, OpCheckpoints sid cps ∈ ops ∧ bc ∈ cps ∧ bc_countersignature bc = Some cs ∧
      csn_stream_high_water_seq (cs_note cs) = Some hw;
  cr_no_gap : ∀ sid ls l v, OpRecords sid ls ∈ ops → Ok (line_of l) ∈ ls → parse_value l = Some v →
    get_str "record_type" v ≠ Some (str "coverage_gap");
  cr_timestamped : ∀ proofs batch, OpProofs proofs ∈ ops → batch ∈ ap_batches proofs →
    is_Some (ab_tsr_file batch);
}.

Context (key : signing_key) (fp : rstring) (ckey : signing_key) (root_pem ckey_pem : rstring).
Context (ops : list op) (bundle_id created_at : rstring) (tool : ToolInfo) (threshold : Z).
Context (level : ExportLevel) (ts_from ts_to : option rstring) (resources : list rstring).
Context (w w' : BundleWriter) (m : Manifest) (h : rstring) (a : archive).
Context (Hrun : run_ops ops (with_shard_threshold threshold (new_writer bundle_id created_at tool))
  = (w, Ok tt)).
Context (Hfinish : finish level ts_from ts_to resources w = (w', Ok (m, h, a))).
Context (Hindex : index_parses (bw_index w)).
Context (opts : VerifyOptions).
Context (Hroot : vo_root_pem_override opts = Some root_pem).
Context (Hckey : vo_console_key_override opts = Some ckey_pem).
Context (Hspki : vk_to_spki_pem (public_key ckey) = Ok ckey_pem).
Context (Hhonest : honest_run key fp ckey root_pem (run_time opts) (vo_expected_high_water opts) ops).

Abbreviation reader := {| br_zip := a; br_manifest := m |}.
Abbreviation entries w := (zw_entries (bw_zip w)).
Abbreviation trust := (outcome (establish_trust reader opts)).

Lemma op_parsed o : o ∈ ops → op_parses o.
Proof. intros Ho. pose proof (hr_parses _ _ _ _ _ _ _ Hhonest) as Hp. rewrite Forall_forall in Hp. auto. Qed.

Lemma op_written o : o ∈ ops → op_writes o (entries w).
Proof. intros Ho. by eapply run_ops_writes. Qed.

Lemma exported_read p bs : (p, bs) ∈ entries w → read_entry a p = Ok bs.
Proof. by eapply finished_read. Qed.

(** ** What the reader finds *)

Lemma exported_document sid cps :
  OpCheckpoints sid cps ∈ ops →
  stream_checkpoints reader sid = Ok {| scs_stream_id := sid; scs_checkpoints := cps |}.
Proof. by eapply finished_document, hr_parses. Qed.

Lemma exported_checkpoints sid cps :
  OpCheckpoints sid cps ∈ ops → checkpoints_of reader sid = cps.
Proof. intros Ho. unfold checkpoints_of. by rewrite (exported_document _ _ Ho). Qed.

Lemma exported_identity certs revs roots :
  OpIdentity certs revs roots ∈ ops → (∀ c r ro, OpIdentity c r ro ∈ ops → r = revs) →
  identity reader = Ok {| bi_certs_pem := certs; bi_revocations := revs; bi_roots := roots |}.
Proof. by eapply finished_identity, hr_parses. Qed.

Lemma proofs_path o :
  str "anchors/proofs.json" ∈ op_paths o → ∃ proofs, o = OpProofs proofs.
Proof.
  intros Hin. destruct o as [| | | |proofs|c [rev|] ro|]; cbn [op_paths] in Hin;
    rewrite ?elem_of_cons, ?elem_of_nil in Hin; destruct_or?; try discriminate; try done. by exists proofs.
Qed.

Lemma exported_batches proofs : OpProofs proofs ∈ ops → bundle_proofs reader = proofs.
Proof.
  intros Ho. destruct (op_written _ Ho) as (bs & Hp & Hin). pose proof (op_parsed _ Ho _ Hp) as Hd.
  unfold bundle_proofs, anchor_proofs. cbn [br_zip]. rewrite (exported_read _ _ Hin).
  cbn [mbind result_bind]. by rewrite Hd.
Qed.

(** The anchors of the bundle are exported ones, if there are any. *)
Lemma exported_anchors :
  (∃ proofs, OpProofs proofs ∈ ops ∧ bundle_proofs reader = proofs) ∨
  bundle_proofs reader = {| ap_batches := []; ap_daily := [] |}.
Proof.
  destruct (decide (str "anchors/proofs.json" ∈ ops ≫= op_paths)) as [Hin|Hno].
  - apply list_elem_of_bind in Hin as (o & [proofs ->]%proofs_path & Ho). left. exists proofs.
    by rewrite (exported_batches _ Ho).
  - right. unfold bundle_proofs, anchor_proofs. cbn [br_zip].
    erewrite finished_missing; [done|exact Hrun|exact Hfinish|done|by_compute|exact Hno].
Qed.

Lemma exported_proofs :
  honest_proofs (exported_leaf ops) (exported_token ops) ckey (bundle_proofs reader).
Proof.
  destruct exported_anchors as [(proofs & Ho & ->)| ->]; [by eapply hr_anchors|by split; constructor].
Qed.

Lemma exported_token_read path bs : exported_token ops path bs → entry_bytes reader path = Ok bs.
Proof.
  intros [(id & Ho & ->)|(day & Ho & ->)]; apply op_written in Ho; by apply exported_read.
Qed.

(** ** What the verifier makes of it *)

(** The digests that the checkpoint pass collects are those of the export. *)
Lemma exported_digest :
  (∀ sid ls, OpRecords sid ls ∈ ops → ∃ cps, OpCheckpoints sid cps ∈ ops) →
  ∀ id sid data d d', (sid, data) ∈ checkpointed reader opts →
    st_checkpoint_digests (st_cps data) !! id = Some d → exported_leaf ops id d' → d = d'.
Proof.
  intros Hcps id sid data d d' Hin Hd Hl.
  apply list_elem_of_fmap in Hin as (sid' & [= <- ->] & Hsid). cbn [st_cps] in Hd.
  assert (∃ cps, OpCheckpoints sid cps ∈ ops) as (cps & Ho).
  { destruct (chains_entries reader) as (_ & _ & Hscopes). cbv zeta in Hscopes.
    apply Hscopes, list_elem_of_fmap in Hsid as (sc & -> & Hsc).
    destruct (finished_scope _ _ _ _ _ _ _ _ _ _ _ _ _ _ Hrun Hfinish sc Hsc) as (ls & Hls). eauto. }
  unfold checkpoint_data in Hd. rewrite (exported_checkpoints _ _ Ho) in Hd.
  pose proof (checkpoints_of_wf reader sid) as Hwf. rewrite (exported_checkpoints _ _ Ho) in Hwf.
  apply pass_notes_origin in Hd as [(bc & Hbc & _ & Hid & jcs & Hj & ->)|Hn];
    [|by cbn in Hn; rewrite lookup_empty in Hn|done].
  destruct (Hl sid cps bc Ho Hbc Hid) as (jcs' & Hj' & ->). congruence.
Qed.

Section identified.
Context (certs_pem : rstring) (revs : option SignedRevocationList) (roots : RootsFile).
Context (Hid : OpIdentity certs_pem revs roots ∈ ops)
  (Honce : ∀ c r ro, OpIdentity c r ro ∈ ops → r = revs)
  (Hcert : certified key fp root_pem certs_pem (run_time opts))
  (Hrevs : ∀ rev, revs = Some rev → ∃ l kid, srl_create l kid ckey = Ok rev).

Lemma exported_keys : tr_console_keys trust = {[ str "override" := public_key ckey ]}.
Proof.
  change (outcome (resolve_console_keys opts (bi_roots <$> res_ok (identity reader))
    (outcome (select_roots opts (bi_roots <$> res_ok (identity reader)))).1) =
    {[ str "override" := public_key ckey ]}).
  unfold resolve_console_keys. rewrite Hckey. unfold vk_to_spki_pem in Hspki. unfold vk_from_spki_pem.
  apply ok_or_Ok in Hspki as Hk. by rewrite (ed_spki_pem _ _ Hk).
Qed.

Lemma exported_revocations : tr_revocations trust = revs.
Proof.
  by rewrite trust_revocations, (exported_identity _ _ _ Hid Honce).
Qed.

Lemma exported_certs :
  ∃ cert, tr_certs trust !! fp = Some cert ∧
    ed_vk_as_bytes (vc_public_key cert) = ed_vk_as_bytes (ed_public key).
Proof.
  change (tr_certs trust) with (outcome (build_cert_map (bi_certs_pem <$> res_ok (identity reader))
    (outcome (select_roots opts (bi_roots <$> res_ok (identity reader)))).1 (run_time opts))).
  rewrite (exported_identity _ _ _ Hid Honce). unfold select_roots. rewrite Hroot. by apply certified_mapped.
Qed.

Lemma exported_trust : trust_ok reader opts.
Proof.
  destruct (certified_mapped _ _ _ _ _ Hcert) as ((ders & Hparse & _) & _).
  unfold trust_ok. rewrite (exported_identity _ _ _ Hid Honce). unfold select_roots. rewrite Hroot.
  split_and!; [done|intros i [= <-]; cbn [bi_certs_pem]; by rewrite Hparse| |].
  - unfold console_keys_ok. rewrite Hckey. unfold vk_from_spki_pem.
    pose proof Hspki as Hk%ok_or_Ok. by rewrite (ed_spki_pem _ _ Hk).
  - intros i rev [= <-] Hr. right. exists (str "override"), (public_key ckey).
    rewrite exported_keys. split; [apply lookup_singleton_eq|].
    destruct (Hrevs _ Hr) as (l & kid & Hc). unfold srl_create in Hc.
    apply bind_Ok in Hc as (sg & Hs & Heq). injection Heq as <-. by apply verify_sign_jcs.
Qed.

(** The chain of a stream of the bundle. *)
Lemma exported_chain u final lines :
  OpRecords (ulid_to_string u) ((λ l, Ok (line_of l)) <$> lines) ∈ ops → recorded u final →
  Forall valid_line lines → Forall2 (λ l r, parse_value l = Some (to_value r)) lines final →
  stream_intact reader (ulid_to_string u) (chain_data reader (ulid_to_string u)) (view_of <$> final) ∧
  ulid_to_string u ∈ ss_stream_id <$> bs_streams (man_scope m) ∧
  ∃ count, stream_lines reader (ulid_to_string u) = (lines, Ok count).
Proof.
  intros Hls Hrec Hvalid Hlines. assert (INDEX ∈ (entries w).*1) as Hidx.
  { eapply run_ops_identity; [|exact Hid|exact Hrun]. intros [Hle _]. cbn in Hle. lia. }
  destruct (finished_lines _ _ _ _ _ _ _ _ _ _ _ _ _ _ Hrun Hfinish _ _ Hls
    (hr_streams_once _ _ _ _ _ _ _ Hhonest) Hvalid Hidx Hindex) as [[count Hl] Hsc].
  split_and!; [by eapply recorded_intact|done|by exists count].
Qed.

(** A stream of the bundle, with its records and checkpoints. *)
Lemma exported_stream sid ls :
  OpRecords sid ls ∈ ops → honest_stream key fp ckey revs (vo_expected_high_water opts) ops sid ls →
  stream_ok reader opts sid.
Proof.
  intros Hls (u & final & lines & cps & -> & Hrec & -> & Hvalid & Hlines & Hocps & Hcps & Hnrev & Hpins).
  destruct (recorded_spec _ _ Hrec) as (Hall & Hseq & _).
  assert (Forall (λ r, rec_stream_id r = ulid_to_string u) final) as Hsid
    by (eapply Forall_impl; [exact Hall|by intros r []]).
  destruct (exported_chain u final lines Hls Hrec Hvalid Hlines) as [Hint _].
  pose proof (intact_hashes _ _ _ _ Hint) as Hh.
  destruct exported_certs as (cert & Hc & Hk).
  pose proof (exported_checkpoints _ _ Hocps) as Hcp.
  assert (∃ kid, tr_console_keys trust !! kid = Some (ed_public ckey)) as Hkid.
  { exists (str "override"). rewrite exported_keys. apply lookup_singleton_eq. }
  unfold stream_ok, linked_ok, extent_ok. rewrite Hh, Hcp, exported_revocations.
  split_and!.
  - by exists (view_of <$> final).
  - by eapply (honest_checkpoints_ok _ final).
  - intros bc prev Hbc Hp. destruct (Hcps bc Hbc) as (_ & _ & Hprev). by apply Hprev.
  - intros hw [Hpin|(bc & Hbc & Hcs)].
    + destruct (Hpins hw Hpin) as [Hge Hlt]. destruct (lookup_lt_is_Some_2 final (Z.to_nat hw)) as [r Hr]; [lia|].
      exists hw, (rec_record_hash r). split; [lia|]. rewrite <-(Z2Nat.id hw) by done. by apply recorded_hash.
    + by eapply (honest_high_water _ final).
Qed.

(** It has the hashes of its records, and its checkpoints cover these if the
    exported checkpoints do. *)
Lemma exported_stream_proven sid ls :
  OpRecords sid ls ∈ ops → honest_stream key fp ckey revs (vo_expected_high_water opts) ops sid ls →
  size (st_hashes_by_seq (chain_data reader sid)) = length ls ∧
  sid ∈ ss_stream_id <$> bs_streams (man_scope m) ∧
  (∃ cps, OpCheckpoints sid cps ∈ ops) ∧
  (checkpoints_cover ops → covers reader sid).
Proof.
  intros Hls (u & final & lines & cps & -> & Hrec & -> & Hvalid & Hlines & Hocps & Hcps & _).
  destruct (recorded_spec _ _ Hrec) as (Hall & Hseq & _).
  assert (Forall (λ r, rec_stream_id r = ulid_to_string u) final) as Hsid
    by (eapply Forall_impl; [exact Hall|by intros r []]).
  destruct (exported_chain u final lines Hls Hrec Hvalid Hlines) as (Hint & Hsc & _).
  pose proof (intact_hashes _ _ _ _ Hint) as Hh. unfold covers. rewrite Hh.
  assert (length ((λ l, Ok (line_of l) : BResult bytes) <$> lines) = length final) as Hlen
    by (rewrite length_fmap; by eapply Forall2_length).
  split_and!; [by rewrite recorded_size, Hlen|done|eauto|].
  intros Hcov s x Hs%elem_of_dom_2. rewrite recorded_dom in Hs by done.
  apply elem_of_list_to_set, elem_of_seqZ in Hs.
  destruct (Hcov _ _ s Hls) as (cps' & bc & Hocps' & Hbc & Hr); [rewrite Hlen; lia|].
  pose proof (exported_checkpoints _ _ Hocps') as Hcp. rewrite (exported_checkpoints _ _ Hocps) in Hcp. subst cps'.
  rewrite (exported_checkpoints _ _ Hocps). exists bc. split; [done|]. split; [done|].
  destruct (Hcps bc Hbc) as ((id & pre & batch & post & ts & prev & Hf & Hn & _) & _).
  destruct (checkpoint_run _ _ Hseq Hsid _ _ _ _ _ _ _ _ Hf Hn) as (_ & _ & _ & ->). by eexists.
Qed.
(** If nothing is missing from the export, then nothing is missing from the
    stream. *)
Lemma exported_stream_complete sid ls :
  OpRecords sid ls ∈ ops → honest_stream key fp ckey revs (vo_expected_high_water opts) ops sid ls →
  complete_run (vo_expected_high_water opts) ops → stream_complete reader opts sid.
Proof.
  intros Hls Hst [Hcovered Hextent Hgap _].
  destruct (exported_stream_proven _ _ Hls Hst) as (Hsize & _ & _ & Hcov).
  destruct Hst as (u & final & lines & cps & -> & Hrec & -> & Hvalid & Hlines & Hocps & Hcps & _).
  destruct (exported_chain u final lines Hls Hrec Hvalid Hlines) as (Hint & _ & count & Hl).
  assert (tr_console_keys trust ≠ ∅) as Hkeys by (rewrite exported_keys; apply map_non_empty_singleton).
  split_and!.
  - apply (chain_calm _ _ _ Hint).
    destruct (chain_warnings _ _ _ _ lines (to_value <$> final) Hint) as [_ ->]; [by rewrite Hl|by apply Forall2_fmap_r|].
    split; [unfold calm, reports; by erewrite recorded_silent|].
    enough (gaps (to_value <$> final) = 0%nat) as -> by done. unfold gaps.
    rewrite filter_none; [done|]. intros v (r & -> & [k Hk]%list_elem_of_lookup)%list_elem_of_fmap.
    destruct (Forall2_lookup_r _ _ _ _ _ Hlines Hk) as (l & Hlk & Hp).
    assert (get_str "record_type" (to_value r) ≠ Some (str "coverage_gap")) as Hr.
    { eapply Hgap; [exact Hls| |exact Hp]. apply list_elem_of_fmap. exists l. split; [done|]. by eapply list_elem_of_lookup_2. }
    intros Heq. apply Hr. destruct (get_str "record_type" (to_value r)) as [t|]; [by f_equal|done].
  - by rewrite (exported_document _ _ Hocps).
  - intros bc _ Hk. by destruct Hkeys.
  - by apply Hcov.
  - intros Hne. rewrite (exported_checkpoints _ _ Hocps). destruct (Hextent _ _ Hls) as [Hpin|(cps' & bc & cs & hw & Ho & Hbc & Hc & Hhw)].
    + intros Hnil. rewrite Hnil in Hsize. by apply map_size_empty_inv in Hsize.
    + by left.
    + right. exists bc, hw. pose proof (exported_checkpoints _ _ Ho) as Heq.
      rewrite (exported_checkpoints _ _ Hocps) in Heq. subst cps'. split; [done|].
      exists cs, (str "override"), (public_key ckey). rewrite exported_keys. split_and!; [done|apply lookup_singleton_eq| |done].
      destruct (Hcps bc Hbc) as (_ & Hcs & _). destruct (Hcs cs Hc) as (received & kid & hw' & Hcr & _).
      unfold cs_create in Hcr. apply bind_Ok in Hcr as (sg & Hsg & Heq). injection Heq as <-.
      by apply verify_sign_jcs.
Qed.

Lemma exported_trust_complete : trust_complete reader opts.
Proof.
  destruct (certified_mapped _ _ _ _ _ Hcert) as ((ders & Hparse & Hall) & _). unfold trust_complete.
  rewrite (exported_identity _ _ _ Hid Honce), exported_keys. unfold select_roots. rewrite Hroot. split_and!.
  - left. by eexists.
  - exists certs_pem. split; [done|]. intros ds der Hds Hder. assert (ds = ders) as -> by congruence. by apply Hall.
  - unfold keys_signed. by rewrite Hckey.
  - intros _. apply map_non_empty_singleton.
Qed.
End identified.

Lemma exported_ok : bundle_ok reader opts.
Proof.
  destruct (hr_identity _ _ _ _ _ _ _ Hhonest) as (certs & revs & roots & Hid & Honce & Hc & Hr & Hst).
  split_and!.
  - by eapply finished_verifies.
  - by eapply exported_trust.
  - intros sc Hsc. destruct (finished_scope _ _ _ _ _ _ _ _ _ _ _ _ _ _ Hrun Hfinish sc Hsc) as (ls & Hls).
    eapply exported_stream; eauto.
  - assert (∃ kid, tr_console_keys trust !! kid = Some (ed_public ckey)) as Hkid.
    { exists (str "override"). rewrite exported_keys. apply lookup_singleton_eq. }
    eapply (honest_proofs_ok (exported_leaf ops) (exported_token ops) ckey reader _ _
      exported_token_read); [|exact Hkid|exact exported_proofs].
    intros id sid d d' (data & Hin & Hd)%find_checkpoint_Some Hl.
    eapply exported_digest; [|exact Hin|exact Hd|exact Hl].
    intros sid' ls Hls.
    by destruct (Hst sid' ls Hls) as (u & f & l & cps & -> & _ & _ & _ & _ & Hc' & _); eauto.
Qed.

Lemma exported_complete : complete_run (vo_expected_high_water opts) ops → bundle_complete reader opts.
Proof.
  destruct (hr_identity _ _ _ _ _ _ _ Hhonest) as (certs & revs & roots & Hid & Honce & Hc & Hr & Hst).
  intros Hcr. split_and!.
  - by eapply finished_schema.
  - by eapply exported_trust_complete.
  - intros sc Hsc. destruct (finished_scope _ _ _ _ _ _ _ _ _ _ _ _ _ _ Hrun Hfinish sc Hsc) as (ls & Hls).
    eapply exported_stream_complete; eauto.
  - intros batch. destruct exported_anchors as [(proofs & Ho & ->)| ->]; [by apply (cr_timestamped _ _ Hcr)|].
    by intros ?%not_elem_of_nil.
Qed.

(** ** What the report says of it *)

Lemma exported_streams : stream_ids reader ≡ₚ op_streams ops.
Proof.
  destruct (hr_identity _ _ _ _ _ _ _ Hhonest) as (certs & revs & roots & Hid & Honce & Hc & Hr & Hst).
  destruct (chains_entries reader) as (_ & [_ Hnd] & Hids). apply NoDup_Permutation.
  - exact Hnd.
  - exact (hr_streams_once _ _ _ _ _ _ _ Hhonest).
  - intros sid. etrans; [apply Hids|]. rewrite elem_of_op_streams. split.
    + intros (sc & -> & Hsc)%list_elem_of_fmap. by eapply finished_scope.
    + intros [ls Hls]. by destruct (exported_stream_proven _ _ _ Hid _ _ Hls (Hst _ _ Hls)) as (_ & ? & _).
Qed.

Lemma exported_total :
  total (λ d, size (st_hashes_by_seq (st_chain d))) (outcome (run_phases reader opts)).1.*2 =
    Z.of_nat (exported_records ops).
Proof.
  destruct (hr_identity _ _ _ _ _ _ _ Hhonest) as (certs & revs & roots & Hid & Honce & Hc & Hr & Hst).
  rewrite run_total, exported_streams. f_equal. unfold exported_records, op_streams.
  assert (∀ o, o ∈ ops → op_records o = match op_stream o with
    | Some sid => size (st_hashes_by_seq (chain_data reader sid)) | None => 0%nat end) as Hsize.
  { intros [sid ls| | | | | |] Ho; try done. cbn [op_records op_stream].
    by destruct (exported_stream_proven _ _ _ Hid _ _ Ho (Hst _ _ Ho)) as (-> & _). }
  clear -Hsize. induction ops as [|o os IH]; [done|]. cbn. rewrite (Hsize o) by left.
  destruct (op_stream o); cbn; rewrite IH by (intros; apply Hsize; by right); done.
Qed.

Lemma exported_proven :
  let p := rp_proven (verify_bundle reader opts) in
  pv_records p = wrap_u64 (Z.of_nat (exported_records ops)) ∧
  pv_streams p = wrap_u64 (Z.of_nat (length (op_streams ops))) ∧
  (checkpoints_cover ops → pv_attested_records p = pv_records p) ∧
  (checkpoints_timestamped ops → pv_anchored_records p = pv_attested_records p).
Proof.
  intros p. destruct (hr_identity _ _ _ _ _ _ _ Hhonest) as (certs & revs & roots & Hid & Honce & Hc & Hr & Hst).
  destruct (report_totals reader opts exported_ok) as (Hrec & Hstr & Hat & Han). fold p in Hrec, Hstr, Hat, Han.
  assert (∀ sid, sid ∈ stream_ids reader → ∃ ls, OpRecords sid ls ∈ ops) as Hop
    by (intros sid; rewrite exported_streams; apply elem_of_op_streams).
  assert (∀ sid, sid ∈ stream_ids reader → OpCheckpoints sid (checkpoints_of reader sid) ∈ ops) as Hcps.
  { intros sid [ls Hls]%Hop.
    destruct (exported_stream_proven _ _ _ Hid _ _ Hls (Hst _ _ Hls)) as (_ & _ & (cps & Ho) & _).
    by rewrite (exported_checkpoints _ _ Ho). }
  split_and!.
  - by rewrite Hrec, exported_total.
  - by rewrite Hstr, exported_streams.
  - intros Hcov. apply Hat. intros sid [ls Hls]%Hop.
    by apply (exported_stream_proven _ _ _ Hid _ _ Hls (Hst _ _ Hls)).
  - intros Ht. apply Han. intros sid Hsid bc Hbc. destruct (Ht _ _ _ (Hcps sid Hsid) Hbc)
      as [(proofs & batch & inc & Ho & Hb & Hts & Hinc & Hci) Huniq]. split.
    + exists batch, inc. by rewrite (exported_batches _ Ho).
    + intros sid' bc' Hsid' Hbc'. by apply (Huniq _ _ _ (Hcps sid' Hsid')).
Qed.
End export.

(** ** A concrete export

    The recorder of the concrete certificate authority appends the two records,
    checkpoints each of them, and the Console countersigns the second checkpoint
    and revokes the certificate later on. *)

Definition export_records : list EvRecord := Eval vm_compute in bundle_records.
Definition export_key : bytes := byte_str "rec".
Definition export_console : bytes := byte_str "console".

Definition export_fp : rstring :=
  Eval vm_compute in or_empty (@cert_fingerprint poly_blake3 authority_x509 example_pem).

Definition export_checkpoint (id : rstring) (rs : list EvRecord) (prev : option rstring)
    : SignedCheckpoint :=
  let note := default empty_note
    (res_ok (@build_note_linked poly_blake3 id rs (str "2000") export_fp prev)) in
  default {| sc_note := note; sc_signature := [] |}
    (res_ok (@sign_note poly_blake3 toy_ed25519 note export_key)).

Definition export_first : SignedCheckpoint :=
  Eval vm_compute in export_checkpoint (str "c1") (take 1 export_records) None.

Definition export_second : SignedCheckpoint :=
  Eval vm_compute in export_checkpoint (str "c2") (drop 1 export_records)
    (res_ok (@note_hash poly_blake3 (sc_note export_first))).

Definition export_checkpoints : list BundleCheckpoint :=
  Eval vm_compute in
  [{| bc_checkpoint := export_first; bc_countersignature := None |};
   {| bc_checkpoint := export_second;
      bc_countersignature := res_ok (@cs_create poly_blake3 toy_ed25519 (str "c2") (str "2001")
        (str "k1") (Some 1) export_console) |}].

Definition export_list : RevocationList :=
  {| rl_updated_at := str "3001";
     rl_revocations := [{| re_cert_fingerprint := export_fp; re_effective_at := str "3000";
                           re_reason := str "rotation" |}] |}.

Definition export_revocations : SignedRevocationList :=
  Eval vm_compute in
  default {| srl_list := export_list; srl_console_key_id := []; srl_signature := [] |}
    (res_ok (@srl_create poly_blake3 toy_ed25519 export_list (str "k1") export_console)).

Definition export_leaves : list (rstring * bytes) :=
  Eval vm_compute in
  [(str "c1", @blake3_raw poly_blake3 (@signed_bytes _ CheckpointNote_serialize (sc_note export_first)));
   (str "c2", @blake3_raw poly_blake3 (@signed_bytes _ CheckpointNote_serialize (sc_note export_second)))].

Definition export_root : bytes := Eval vm_compute in @merkle_root poly_blake3 export_leaves.*2.
Definition export_token : bytes := Eval vm_compute in @sha256_raw poly_sha256 export_root.
Definition export_tsr : rstring := Eval vm_compute in str "anchors/rfc3161/b1.tsr".

Definition export_batch : AnchorBatch :=
  Eval vm_compute in
  default demo_batch (with_tsr_file (Some export_tsr) <$>
    res_ok (@build_batch poly_blake3 poly_sha256 (str "b1") (str "2002") export_leaves true)).

Definition unsigned_export_day : DailyRoot :=
  Eval vm_compute in
  let root := @merkle_root poly_blake3 [export_root] in
  {| dr_day := str "2026-01-01"; dr_root_blake3 := hex_encode root;
     dr_root_sha256 := @sha256_hex poly_sha256 root; dr_prev_day_hash := None;
     dr_batch_roots := [hex_encode export_root]; dr_qts_file := None; dr_signature := None;
     dr_console_key_id := Some (str "k1") |}.

Definition export_day : DailyRoot :=
  Eval vm_compute in
  {| dr_day := dr_day unsigned_export_day; dr_root_blake3 := dr_root_blake3 unsigned_export_day;
     dr_root_sha256 := dr_root_sha256 unsigned_export_day; dr_prev_day_hash := None;
     dr_batch_roots := dr_batch_roots unsigned_export_day; dr_qts_file := None;
     dr_signature := res_ok (@sign_jcs poly_blake3 toy_ed25519 _ _ export_console unsigned_export_day);
     dr_console_key_id := Some (str "k1") |}.

Definition export_proofs : AnchorProofs := {| ap_batches := [export_batch]; ap_daily := [export_day] |}.

Definition export_certs : rstring := Eval vm_compute in example_pem ++ example_tenant_pem.
Definition export_ders : list bytes :=
  Eval vm_compute in default [] (res_ok (mapM (@first_der authority_x509) [example_pem; example_tenant_pem])).
Definition no_roots : RootsFile := {| rf_roots := []; rf_console_keys := [] |}.

Definition export_lines : list bytes := Eval vm_compute in jcs_line <$> two_raws.

Definition export_ops : list op :=
  [OpRecords (str "S") ((λ l, Ok (line_of l)) <$> export_lines);
   OpCheckpoints (str "S") export_checkpoints; OpToken (str "b1") export_token; OpProofs export_proofs;
   OpIdentity export_certs (Some export_revocations) no_roots; OpVault (str "blob") [x02]].

(** Which operation of this export is meant. *)
Ltac in_export_ops H :=
  unfold export_ops in H; rewrite !elem_of_cons, elem_of_nil in H; destruct_or?; by simplify_eq.

(** The documents of this export; a line is read with and without its end. *)
Definition export_parser (m : option Manifest) (i : option RecordIndex) : JsonParser :=
  {| parse_value bs := find (λ v, bool_decide (jcs_line v = bs ∨ line_of (jcs_line v) = bs)) two_raws;
     parse_manifest _ := m; parse_record_index _ := i;
     parse_stream_checkpoints _ :=
       Some {| scs_stream_id := str "S"; scs_checkpoints := export_checkpoints |};
     parse_anchor_proofs _ := Some export_proofs;
     parse_revocations _ := Some export_revocations; parse_roots _ := Some no_roots |}.

Lemma export_parser_types m i : @ParserTypes (export_parser m i).
Proof. intros bs c [= <-]. repeat constructor. Qed.

Definition export_run (p : JsonParser) : @BundleWriter list_zip list_zip_writer :=
  (@run_ops poly_blake3 list_zip list_zip_writer stored_encode empty_printer p export_ops
    (with_shard_threshold 10 (new_writer (str "b") (str "t") (man_tool demo_manifest)))).1.

Definition export_index : RecordIndex := Eval vm_compute in bw_index (export_run (export_parser None None)).

Definition export_bundle : Manifest * rstring * list (rstring * bytes) :=
  Eval vm_compute in
  match (@finish poly_blake3 list_zip list_zip_writer empty_printer Full None None []
    (export_run (export_parser None None))).2 with
  | Ok b => b
  | Err _ => (demo_manifest, [], [])
  end.

Definition exported_parser : JsonParser := export_parser (Some export_bundle.1.1) (Some export_index).

Definition export_files : @FileSystem list_zip :=
  {| read_to_string p :=
       if decide (p = str "root.pem") then Some example_root_pem
       else if decide (p = str "console.pem") then Some (chars export_console) else None;
     open_file p :=
       if decide (p = str "a.seal") then Some (Some (export_bundle.2 : @archive list_zip)) else None |}.

Definition export_args : Args :=
  {| ar_bundle := str "a.seal"; ar_root := Some (str "root.pem");
     ar_console_key := Some (str "console.pem"); ar_expect_high_water := [str "S=1"];
     ar_json := true |}.

Definition export_pins : gmap rstring Z := {[ str "S" := 1 ]}.

Lemma authority_pem : @PemLaws authority_x509.
Proof. intros der bs. apply read_der_to_pem. Qed.

Lemma export_certified :
  @certified poly_blake3 toy_ed25519 toy_pkcs8 authority_x509 authority authority_names export_key
    export_fp example_root_pem export_certs 300000.
Proof.
  exists (byte_str "root"), (str "O"), (byte_str "ten"), (str "T"), (str "R"), ROOT_VALIDITY_DAYS,
    TENANT_CA_VALIDITY_DAYS, RECORDER_CERT_VALIDITY_DAYS, 100000, 150000, 200000, example_tenant_pem,
    example_request, example_pem, export_ders.
  split_and!; [by_compute..|by repeat constructor|by eexists|by_compute|by_compute].
Qed.

Lemma export_recorded : @recorded poly_blake3 text_ulid millis_chrono (str "S") export_records.
Proof.
  assert (∃ h, @append_all poly_blake3 text_ulid (@genesis poly_blake3 text_ulid (str "S")) two_records =
    Ok (h, export_records)) as [h Hh] by (eexists; vm_compute; reflexivity).
  exists two_records, h. split_and!; [exact Hh|vm_compute; reflexivity|by repeat constructor].
Qed.

Lemma export_checkpointed :
  @honest_checkpoints poly_blake3 toy_ed25519 export_records export_key export_fp export_console
    export_checkpoints.
Proof.
  intros bc [->|[->|Hn%not_elem_of_nil]%elem_of_cons]%elem_of_cons; [..|done]; split_and!.
  - exists (str "c1"), [], (take 1 export_records), (drop 1 export_records), (str "2000"), None.
    split_and!; by_compute.
  - by intros cs [=].
  - by intros prev [=].
  - exists (str "c2"), (take 1 export_records), (drop 1 export_records), [], (str "2000"),
      (res_ok (@note_hash poly_blake3 (sc_note export_first))).
    split_and!; by_compute.
  - intros cs [= <-]. exists (str "2001"), (str "k1"), (Some 1). split; [by_compute|by intros z [= <-]].
  - intros prev [= <-]. eexists. split; [left|by_compute].
Qed.

Lemma export_anchored :
  @honest_proofs poly_blake3 poly_sha256 toy_ed25519 toy_tsa (@exported_leaf poly_blake3 export_ops)
    (exported_token export_ops) export_console export_proofs.
Proof.
  split; repeat constructor.
  - exists (str "b1"), (str "2002"), export_leaves, true,
      (with_tsr_file None export_batch), (Some export_tsr).
    split_and!; [vm_compute; reflexivity|vm_compute; reflexivity| |].
    + unfold export_leaves. rewrite !Forall_cons, Forall_nil. split_and!; try done; intros sid cps bc Ho Hbc.
      all: assert (cps = export_checkpoints) as ->
        by in_export_ops Ho.
      all: unfold export_checkpoints in Hbc; rewrite !elem_of_cons, elem_of_nil in Hbc.
      all: destruct Hbc as [->|[->|[]]]; intros [=]; eexists; (split; [vm_compute; reflexivity|by_compute]).
    + intros path [= <-]. exists export_token. eexists. split; [|vm_compute; reflexivity].
      left. exists (str "b1"). split; [|by_compute]. do 2 right. left.
  - exists [export_root]. split_and!; [by_compute..| |done].
    intros sg [= <-]. by_compute.
Qed.

Lemma export_honest :
  @honest_run poly_blake3 poly_sha256 toy_ed25519 toy_pkcs8 authority_x509 authority authority_names
    text_ulid millis_chrono toy_tsa empty_printer exported_parser export_key export_fp
    export_console example_root_pem 300000 export_pins export_ops.
Proof.
  split.
  - by_compute.
  - unfold export_ops. rewrite !Forall_cons, Forall_nil. by split_and!.
  - exists export_certs, (Some export_revocations), no_roots. split_and!.
    + do 4 right. left.
    + intros c r ro Hin. by in_export_ops Hin.
    + exact export_certified.
    + intros rev [= <-]. exists export_list, (str "k1"). by_compute.
    + intros sid ls Hin. assert (sid = str "S" ∧ ls = (λ l, Ok (line_of l)) <$> export_lines) as [-> ->]
        by in_export_ops Hin.
      exists (str "S"), export_records, export_lines, export_checkpoints. split_and!.
      * done.
      * exact export_recorded.
      * done.
      * by_compute.
      * repeat constructor; vm_compute; reflexivity.
      * right. left.
      * exact export_checkpointed.
      * intros bc rev ts Hbc [= <-].
        unfold export_checkpoints in Hbc. rewrite !elem_of_cons, elem_of_nil in Hbc.
        destruct_or?; subst; try done;
          intros [= <-]; vm_compute; reflexivity.
      * intros hw Hhw. unfold export_pins in Hhw. apply lookup_singleton_Some in Hhw as [_ <-].
        split; vm_compute; congruence.
  - intros proofs Hin. assert (proofs = export_proofs) as ->
      by in_export_ops Hin.
    exact export_anchored.
Qed.

Lemma export_covers : checkpoints_cover export_ops.
Proof.
  intros sid ls s Ho Hs. assert (sid = str "S" ∧ ls = (λ l, Ok (line_of l)) <$> export_lines) as [-> ->]
    by in_export_ops Ho.
  change (length ((λ l, Ok (line_of l) : BResult bytes) <$> export_lines)) with 2%nat in Hs.
  exists export_checkpoints. unfold export_checkpoints.
  destruct (decide (s = 0)) as [->|]; eexists; (split; [right; left|]).
  - split; [left|]. cbn. lia.
  - split; [right; left|]. cbn. lia.
Qed.

Lemma export_timestamped : checkpoints_timestamped export_ops.
Proof.
  intros sid cps bc Ho Hbc. assert (sid = str "S" ∧ cps = export_checkpoints) as [-> ->] by in_export_ops Ho.
  split.
  - assert (Exists (λ inc, ci_checkpoint_id inc = cn_checkpoint_id (sc_note (bc_checkpoint bc)))
      (ab_checkpoints export_batch)) as (inc & Hinc & Hid)%Exists_exists.
    { unfold export_checkpoints in Hbc. rewrite !elem_of_cons, elem_of_nil in Hbc.
      destruct Hbc as [->|[->|[]]]; [left|right; left]; vm_compute; reflexivity. }
    exists export_proofs, export_batch, inc. split; [do 3 right; left|]. split; [left|]. split; [by eexists|done].
  - intros sid' cps' bc' Ho' Hbc'.
    assert (sid' = str "S" ∧ cps' = export_checkpoints) as [-> ->] by in_export_ops Ho'.
    unfold export_checkpoints in Hbc, Hbc'. rewrite !elem_of_cons, elem_of_nil in Hbc, Hbc'.
    destruct Hbc as [->|[->|[]]], Hbc' as [->|[->|[]]]; intros [=]; done.
Qed.

Lemma export_complete : @complete_run exported_parser export_pins export_ops.
Proof.
  split.
  - exact export_covers.
  - intros sid ls Ho _. left. assert (sid = str "S") as -> by in_export_ops Ho. by eexists.
  - intros sid ls l v Ho _ Hp%find_some. destruct Hp as [Hv _]. apply list_elem_of_In in Hv.
    revert v Hv. apply Forall_forall. by_compute.
  - intros proofs batch Ho Hb. assert (proofs = export_proofs) as -> by in_export_ops Ho.
    unfold export_proofs in Hb. cbn [ap_batches] in Hb. apply list_elem_of_singleton in Hb as ->. by eexists.
Qed.

(** ** The run of the command line *)

Lemma run_main_report `{Blake3} `{Sha256} `{Ed25519} `{X509} `{!SpkiPem} `{EmbeddedRoots} `{UlidApi}
    `{ChronoApi} `{TsaApi} `{ZipApi} `{ZstdApi} `{JsonParser} `{VerifierVersion} `{SystemClock}
    `{!FileSystem} `{ReportPrinter} args root_file root_pem key_file key_pem pins a reader :
  open_file (ar_bundle args) = Some (Some a) → open_bundle (Some a) = Ok reader →
  ar_root args = Some root_file → read_to_string root_file = Some root_pem →
  ar_console_key args = Some key_file → read_to_string key_file = Some key_pem →
  expected_high_water ∅ (ar_expect_high_water args) = Ok pins →
  (∀ r, is_Some (report_json r)) →
  run_main args = Ok (verify_bundle reader (options (Some root_pem) (Some key_pem) pins)).
Proof.
  intros Hfile Hopen Har Hroot Hak Hkey Hpins Hjson.
  rewrite run_main_inputs. unfold inputs, read_opt_file, open_reader.
  rewrite Har, Hak, Hfile. cbn -[open_bundle verify_bundle]. rewrite Hroot, Hkey, Hopen.
  cbn -[verify_bundle]. rewrite Hpins. cbn -[verify_bundle].
  destruct (Hjson (verify_bundle reader (options (Some root_pem) (Some key_pem) pins))) as [js Hjs].
  rewrite Hjs. by case_match.
Qed.

(** ** Properties *)

(** C3: An honest export is accepted. Let a recorder append records to its
    streams and checkpoint runs of them with a key whose certificate chain ends
    in the root; let the Console countersign checkpoints, anchor them in batches
    and days with time-stamp tokens, and revoke certificates, none before a
    checkpoint that it signed; and let the writer export it all, with documents
    that parse back. Then the verifier that is given the archive, the root, the
    Console's key and pins within the streams exits with 0 or 10, and its report
    names the manifest hash that the writer returned. It exits with 0, without a
    warning, if the checkpoints cover the records, the end of every stream is
    pinned or countersigned, no line reports a gap in the coverage and every
    batch has a token. *)
Theorem honest_export_accepted `{Blake3, !Blake3Len} `{Sha256, !Sha256Len} `{Ed25519, !Ed25519Laws}
    `{!Pkcs8} `{!SpkiPem, !KeyPemLaws} `{X509, !PemLaws} `{Rcgen} `{!DnName, !RcgenLaws} `{EmbeddedRoots}
    `{UlidApi, !UlidLaws} `{ChronoApi} `{TsaApi} `{ZipWriterLaws} `{ZstdApi} `{ZstdEncode, !ZstdLaws}
    `{JsonPrinter} `{JsonParser, !ParserTypes} `{VerifierVersion} `{SystemClock} `{!FileSystem}
    `{ReportPrinter} key fp ckey root_pem ckey_pem ops bundle_id created_at tool threshold level
    ts_from ts_to resources w w' m h a args root_file key_file pins :
  honest_run key fp ckey root_pem clock_now pins ops →
  run_ops ops (with_shard_threshold threshold (new_writer bundle_id created_at tool)) = (w, Ok tt) →
  finish level ts_from ts_to resources w = (w', Ok (m, h, a)) →
  index_parses (bw_index w) → manifest_parses m →
  vk_to_spki_pem (public_key ckey) = Ok ckey_pem →
  open_file (ar_bundle args) = Some (Some a) →
  ar_root args = Some root_file → read_to_string root_file = Some root_pem →
  ar_console_key args = Some key_file → read_to_string key_file = Some ckey_pem →
  expected_high_water ∅ (ar_expect_high_water args) = Ok pins →
  (∀ r, is_Some (report_json r)) →
  (main args = 0 ∨ main args = 10) ∧ (complete_run pins ops → main args = 0) ∧
  ∃ report, run_main args = Ok report ∧ rp_result report ≠ Fail ∧ rp_manifest_hash report = h.
Proof.
  intros Hhonest Hrun Hfin Hindex Hman Hspki Hfile Har Hroot Hak Hkey Hpins Hjson.
  destruct (finished_opens _ _ _ _ _ _ _ _ _ _ _ _ _ _ Hrun Hfin Hman) as [Hopen Hhash].
  set (reader := {| br_zip := a; br_manifest := m |}) in *.
  set (opts := options (Some root_pem) (Some ckey_pem) pins).
  assert (bundle_ok reader opts) as Hok by (by eapply (exported_ok key fp ckey root_pem ckey_pem)).
  assert (rp_result (verify_bundle reader opts) ≠ Fail) as Hres by (by apply clean_not_Fail, run_ok).
  assert (run_main args = Ok (verify_bundle reader opts)) as Hmain by (by eapply run_main_report).
  unfold main. rewrite Hmain, exit_code_cases. unfold exit_code. split; [|split].
  - by destruct (rp_result _); auto.
  - intros Hcr. assert (bundle_complete reader opts) as Hcomplete
      by (by eapply (exported_complete key fp ckey root_pem ckey_pem)).
    by rewrite (proj2 (passes_iff reader opts) (conj Hok Hcomplete)).
  - eexists. split_and!; [done|done|]. unfold verify_bundle. cbn [rp_manifest_hash]. by rewrite Hhash.
Qed.

Abbreviation export_main := (@main poly_blake3 poly_sha256 toy_ed25519 authority_x509 toy_spki (str "")
  text_ulid millis_chrono toy_tsa list_zip stored_zstd exported_parser (str "0.1.0") 300000 export_files
  (λ _, Some [])).

Lemma honest_export_accepted_witness : export_main export_args = 0.
Proof.
  assert (∃ w', @finish poly_blake3 list_zip list_zip_writer empty_printer Full None None []
    (export_run exported_parser) = (w', Ok export_bundle)) as [w' Hf]
    by (eexists; vm_compute; reflexivity).
  apply (@honest_export_accepted poly_blake3 poly_blake3_len poly_sha256 poly_sha256_len toy_ed25519
    toy_ed25519_laws toy_pkcs8 toy_spki toy_pem_laws authority_x509 authority_pem authority
    authority_names authority_laws (str "") text_ulid text_ulid_laws millis_chrono toy_tsa list_zip
    list_zip_writer list_zip_writer_laws stored_zstd stored_encode stored_zstd_laws empty_printer
    exported_parser (export_parser_types _ _) (str "0.1.0") 300000 export_files (λ _, Some [])
    export_key export_fp export_console example_root_pem (chars export_console) export_ops (str "b")
    (str "t") (man_tool demo_manifest) 10 Full None None [] (export_run exported_parser) w'
    export_bundle.1.1 export_bundle.1.2 export_bundle.2 export_args (str "root.pem")
    (str "console.pem") export_pins export_honest).
  - vm_compute. reflexivity.
  - exact Hf.
  - intros bs _. vm_compute. reflexivity.
  - intros bs _. reflexivity.
  - reflexivity.
  - reflexivity.
  - reflexivity.
  - reflexivity.
  - reflexivity.
  - reflexivity.
  - by_compute.
  - intros r. by eexists.
  - exact export_complete.
Defined.

(** C4: The report of an honest export counts all of it. In the situation of the
    previous theorem the report proves as many streams as were exported and as
    many records as their lines (modulo 2^64); if every record is in the range of
    an exported checkpoint, then it says that all the records are attested; and
    if every exported checkpoint is named, unambiguously, in a batch with a
    time-stamp token, then it says that all the attested records are anchored. *)
Theorem honest_export_proven `{Blake3, !Blake3Len} `{Sha256, !Sha256Len} `{Ed25519, !Ed25519Laws}
    `{!Pkcs8} `{!SpkiPem, !KeyPemLaws} `{X509, !PemLaws} `{Rcgen} `{!DnName, !RcgenLaws} `{EmbeddedRoots}
    `{UlidApi, !UlidLaws} `{ChronoApi} `{TsaApi} `{ZipWriterLaws} `{ZstdApi} `{ZstdEncode, !ZstdLaws}
    `{JsonPrinter} `{JsonParser, !ParserTypes} `{VerifierVersion} `{SystemClock} `{!FileSystem}
    `{ReportPrinter} key fp ckey root_pem ckey_pem ops bundle_id created_at tool threshold level
    ts_from ts_to resources w w' m h a args root_file key_file pins :
  honest_run key fp ckey root_pem clock_now pins ops →
  run_ops ops (with_shard_threshold threshold (new_writer bundle_id created_at tool)) = (w, Ok tt) →
  finish level ts_from ts_to resources w = (w', Ok (m, h, a)) →
  index_parses (bw_index w) → manifest_parses m →
  vk_to_spki_pem (public_key ckey) = Ok ckey_pem →
  open_file (ar_bundle args) = Some (Some a) →
  ar_root args = Some root_file → read_to_string root_file = Some root_pem →
  ar_console_key args = Some key_file → read_to_string key_file = Some ckey_pem →
  expected_high_water ∅ (ar_expect_high_water args) = Ok pins →
  (∀ r, is_Some (report_json r)) →
  ∃ report, run_main args = Ok report ∧
    let p := rp_proven report in
    pv_records p = wrap_u64 (Z.of_nat (exported_records ops)) ∧
    pv_streams p = wrap_u64 (Z.of_nat (length (op_streams ops))) ∧
    (checkpoints_cover ops → pv_attested_records p = pv_records p) ∧
    (checkpoints_timestamped ops → pv_anchored_records p = pv_attested_records p).
Proof.
  intros Hhonest Hrun Hfin Hindex Hman Hspki Hfile Har Hroot Hak Hkey Hpins Hjson.
  destruct (finished_opens _ _ _ _ _ _ _ _ _ _ _ _ _ _ Hrun Hfin Hman) as [Hopen _].
  eexists. split; [by eapply run_main_report|]. by eapply (exported_proven key fp ckey root_pem ckey_pem).
Qed.

Abbreviation export_run_main := (@run_main poly_blake3 poly_sha256 toy_ed25519 authority_x509 toy_spki (str "")
  text_ulid millis_chrono toy_tsa list_zip stored_zstd exported_parser (str "0.1.0") 300000 export_files
  (λ _, Some [])).

Lemma honest_export_proven_witness :
  ∃ report, export_run_main export_args = Ok report ∧ pv_records (rp_proven report) = 2 ∧
    pv_attested_records (rp_proven report) = 2 ∧ pv_anchored_records (rp_proven report) = 2.
Proof.
  assert (∃ w', @finish poly_blake3 list_zip list_zip_writer empty_printer Full None None []
    (export_run exported_parser) = (w', Ok export_bundle)) as [w' Hf]
    by (eexists; vm_compute; reflexivity).
  destruct (@honest_export_proven poly_blake3 poly_blake3_len poly_sha256 poly_sha256_len toy_ed25519
    toy_ed25519_laws toy_pkcs8 toy_spki toy_pem_laws authority_x509 authority_pem authority
    authority_names authority_laws (str "") text_ulid text_ulid_laws millis_chrono toy_tsa list_zip
    list_zip_writer list_zip_writer_laws stored_zstd stored_encode stored_zstd_laws empty_printer
    exported_parser (export_parser_types _ _) (str "0.1.0") 300000 export_files (λ _, Some [])
    export_key export_fp export_console example_root_pem (chars export_console) export_ops (str "b")
    (str "t") (man_tool demo_manifest) 10 Full None None [] (export_run exported_parser) w'
    export_bundle.1.1 export_bundle.1.2 export_bundle.2 export_args (str "root.pem")
    (str "console.pem") export_pins export_honest) as (report & Hr & Hrec & _ & Hat & Han).
  - vm_compute. reflexivity.
  - exact Hf.
  - intros bs _. vm_compute. reflexivity.
  - intros bs _. reflexivity.
  - reflexivity.
  - reflexivity.
  - reflexivity.
  - reflexivity.
  - reflexivity.
  - reflexivity.
  - by_compute.
  - intros r. by eexists.
  - exists report. split; [exact Hr|]. rewrite (Han export_timestamped), (Hat export_covers), Hrec.
    by_compute.
Defined.
