(* ===== verification/Scenarios.v ===== *)
(** * Tampering with a recorded stream (the tests of the evidence crate)

    What the verifier of chain.rs reports when the records of a stream are
    changed, removed, reordered or added to, for every stream and position; and
    the unit tests of chain.rs and record.rs and the property tests of lib.rs,
    as functions that pass or panic, which pass for every hash function, clock
    and ULID. Where a test relies on two hashes to differ, that is a hypothesis
    of its theorem. *)

From Stdlib Require Import Strings.Byte.
From S2P Require Import Prelude Text Errors Hash Json Jcs JcsFacts Record Chain Recorder Reader.

(** ** The findings of a record *)

Section findings.
Context `{Blake3} `{UlidApi} `{ChronoApi}.

(** What [verify_next] reports of a record with that hash. *)
Definition findings_of (sv : StreamVerifier) (v : RecordView) (computed : rstring) : list ChainFinding :=
  push_if (negb (bool_decide (rv_stream_id v = sv_stream_id sv)))
    (StreamMismatch (rv_seq v) (rv_stream_id v)) ++
  push_if (negb (bool_decide (computed = rv_record_hash v)))
    (RecordHashMismatch (rv_seq v) (rv_record_hash v) computed) ++
  match sv_prev sv with
  | None => genesis_findings (sv_genesis sv) v
  | Some prev =>
    seq_findings prev v ++ link_findings prev v ++ mono_findings prev v ++
    wall_findings (sv_prev_wall_ms sv) prev v
  end.

(** A record that the verifier can take in: its integers are [u64]s and it can
    be hashed. *)
Definition verifiable (r : EvRecord) : Prop :=
  is_u64 (rec_seq r) = true ∧ is_u64 (rec_ts_mono_ns r) = true ∧ is_ok (compute_hash r) = true.

Lemma verify_next_record sv r c :
  verifiable r → compute_hash r = Ok c →
  verify_next sv (to_value r) = Ok (advance sv (view_of r), findings_of sv (view_of r) c).
Proof.
  intros (Hs & Hm & _) Hc. unfold verify_next. rewrite from_value_record by done. cbn [mbind result_bind].
  change (compute_hash_of_value (to_value r)) with (compute_hash r). by rewrite Hc.
Qed.

Lemma verify_stream_app sv l1 l2 :
  verify_stream sv (l1 ++ l2) =
    ('(s1, f1) ← verify_stream sv l1; '(s2, f2) ← verify_stream s1 l2; mret (s2, f1 ++ f2)).
Proof.
  revert sv; induction l1 as [|x l1 IH]; intros sv; cbn [verify_stream app].
  - cbn. by destruct (verify_stream sv l2) as [[]|].
  - destruct (verify_next sv x) as [[s f]|]; [|done]. cbn. rewrite IH.
    destruct (verify_stream s l1) as [[s1 f1]|]; [|done]. cbn.
    destruct (verify_stream s1 l2) as [[s2 f2]|]; [|done]. cbn. by rewrite app_assoc.
Qed.

Lemma verify_records sv rs :
  Forall verifiable rs → ∃ fs, verify_stream sv (to_value <$> rs) = Ok (advance_all sv (view_of <$> rs), fs).
Proof.
  intros Hrs. revert sv. induction Hrs as [|r rs Hr _ IH]; intros sv; [by eexists|].
  cbn [fmap list_fmap verify_stream]. destruct (compute_hash r) as [c|] eqn:Hc;
    [|by destruct Hr as (_ & _ & Hr); rewrite Hc in Hr].
  rewrite (verify_next_record _ _ c) by done. cbn [mbind result_bind].
  destruct (IH (advance sv (view_of r))) as [fs ->]. by eexists.
Qed.

(** The findings of a record in the middle are among those of the stream. *)
Lemma verify_records_at sv pre r post :
  Forall verifiable (pre ++ r :: post) →
  ∃ c fs, compute_hash r = Ok c ∧
    verify_stream sv (to_value <$> pre ++ r :: post) =
      Ok (advance_all sv (view_of <$> pre ++ r :: post), fs) ∧
    findings_of (advance_all sv (view_of <$> pre)) (view_of r) c ⊆ fs.
Proof.
  intros [Hpre [Hr Hpost]%Forall_cons]%Forall_app.
  destruct (compute_hash r) as [c|] eqn:Hc; [|by destruct Hr as (_ & _ & Hr); rewrite Hc in Hr].
  destruct (verify_records sv pre Hpre) as [f1 Hf1].
  destruct (verify_records (advance (advance_all sv (view_of <$> pre)) (view_of r)) post Hpost) as [f2 Hf2].
  exists c. eexists. split; [done|]. rewrite !fmap_app, !fmap_cons, verify_stream_app, Hf1.
  cbn [mbind result_bind verify_stream]. rewrite (verify_next_record _ _ c) by done.
  cbn [mbind result_bind]. rewrite Hf2. cbn [mbind result_bind mret result_ret]. split.
  - unfold advance_all. by rewrite foldl_app.
  - intros f Hf. apply elem_of_app. right. apply elem_of_app. by left.
Qed.
End findings.

(** ** Tests

    A test passes or panics, as a step of it may. *)

Abbreviation Test := (option unit).

Definition unwrap {E A} (r : result E A) : option A := res_ok r.

Definition ensure (b : bool) : Test := if b then Some tt else None.

(** ["..".repeat(n)]. *)
Definition repeat_str (s : string) (n : nat) : rstring := mjoin (replicate n (str s)).

Section chain_tests.
Context `{Blake3} `{UlidApi, !UlidParts} `{ChronoApi}.

(** The samples from [0] that are appended from genesis. *)
Definition chain_samples (stream segment : ulid) (n : Z) : option (list EvRecord) :=
  snd <$> unwrap (append_all (genesis stream) (sample_unchained stream segment <$> seqZ 0 n)).

(** chain.rs *)

Definition chained (n : Z) : option (ulid * list EvRecord) :=
  let stream := ulid_from_parts 7 7 in
  records ← chain_samples stream (ulid_from_parts 7 8) n;
  mret (stream, records).

Definition verify_all (stream : ulid) (records : list EvRecord) : option (list ChainFinding) :=
  v ← unwrap (new_verifier (ulid_to_string stream));
  res ← unwrap (verify_stream v (to_value <$> records));
  mret res.2.

Definition clean_chain_verifies : Test :=
  '(stream, records) ← chained 50;
  findings ← verify_all stream records;
  ensure (bool_decide (findings = [])).

(** [record.action.target_resource = target]. *)
Definition set_target_resource (target : rstring) (r : EvRecord) : EvRecord :=
  {| rec_schema_version := rec_schema_version r; rec_record_id := rec_record_id r;
     rec_stream_id := rec_stream_id r; rec_segment_id := rec_segment_id r; rec_seq := rec_seq r;
     rec_ts_wall := rec_ts_wall r; rec_ts_mono_ns := rec_ts_mono_ns r;
     rec_record_type := rec_record_type r; rec_recorder := rec_recorder r;
     rec_subject := rec_subject r;
     rec_action := {| act_integration := act_integration (rec_action r);
                      act_operation := act_operation (rec_action r);
                      act_verb_class := act_verb_class (rec_action r);
                      act_target_resource := target;
                      act_resource_labels := act_resource_labels (rec_action r) |};
     rec_action_detail := rec_action_detail r; rec_payload_commitment := rec_payload_commitment r;
     rec_payload_ref := rec_payload_ref r; rec_verdict := rec_verdict r;
     rec_approval_ref := rec_approval_ref r; rec_links := rec_links r;
     rec_prev_hash := rec_prev_hash r; rec_record_hash := rec_record_hash r |}.

Definition hash_mismatch_at (seq : Z) (f : ChainFinding) : bool :=
  match f with RecordHashMismatch s _ _ => s =? seq | _ => false end.

Definition tampered_field_detected : Test :=
  '(stream, records) ← chained 10;
  r ← records !! 4%nat;
  findings ← verify_all stream (<[4%nat := set_target_resource (str "db:tampered") r]> records);
  ensure (existsb (hash_mismatch_at 4) findings).

Definition missing_before (seq : Z) (f : ChainFinding) : bool :=
  match f with
  | LinkBroken s _ _ => s =? seq
  | SeqGapInSegment _ _ found => found =? seq
  | _ => false
  end.

(** [Vec::remove], which panics out of range. *)
Definition vec_remove {A} (i : nat) (l : list A) : option (list A) :=
  _ ← l !! i; mret (delete i l).

(** [slice::swap], likewise. *)
Definition vec_swap {A} (i j : nat) (l : list A) : option (list A) :=
  x ← l !! i; y ← l !! j; mret (<[j := x]> (<[i := y]> l)).

Definition deleted_record_detected : Test :=
  '(stream, records) ← chained 10;
  records ← vec_remove 5 records;
  findings ← verify_all stream records;
  ensure (existsb (missing_before 6) findings).

Definition reordered_records_detected : Test :=
  '(stream, records) ← chained 10;
  records ← vec_swap 3 4 records;
  findings ← verify_all stream records;
  ensure (negb (bool_decide (findings = []))).

Definition broken_link_at (seq : Z) (f : ChainFinding) : bool :=
  match f with LinkBroken s _ _ => s =? seq | _ => false end.

Definition forged_tail_detected : Test :=
  '(stream, records) ← chained 5;
  r ← records !! 4%nat;
  '(forged, _) ← unwrap (finalize (set_link 5 (repeat_str "ab" 32) r));
  findings ← verify_all stream (records ++ [forged]);
  ensure (existsb (broken_link_at 5) findings).

Definition is_genesis_violation (f : ChainFinding) : bool :=
  match f with GenesisViolation _ _ => true | _ => false end.

Definition genesis_rule_enforced : Test :=
  let stream := ulid_from_parts 7 7 in
  let r := sample_unchained stream (ulid_from_parts 7 8) 0 in
  '(r, _) ← unwrap (finalize (set_link 0 (repeat_str "aa" 32) r));
  findings ← verify_all stream [r];
  ensure (existsb is_genesis_violation findings).
End chain_tests.

(** ** Facts: what tampering leads to *)

Lemma elem_of_push_if {A} b (f : A) : f ∈ push_if b f ↔ b = true.
Proof. destruct b; cbn; rewrite ?list_elem_of_singleton, ?elem_of_nil; done. Qed.

Section tampering.
Context `{Blake3, !Blake3Len} `{UlidApi, !UlidLaws} `{ChronoApi}.

(** [verify_all] succeeds on records that can be hashed, and reports of each
    of them what follows from its place. *)
Lemma verify_all_at u pre r post :
  Forall verifiable (pre ++ r :: post) →
  ∃ sv c fs, new_verifier (ulid_to_string u) = Ok sv ∧ compute_hash r = Ok c ∧
    verify_all u (pre ++ r :: post) = Some fs ∧
    findings_of (advance_all sv (view_of <$> pre)) (view_of r) c ⊆ fs.
Proof.
  intros Hall. destruct (new_verifier (ulid_to_string u)) as [sv|] eqn:Hn;
    [|unfold new_verifier in Hn; by rewrite ulid_parse_to_string in Hn].
  destruct (verify_records_at sv pre r post Hall) as (c & fs & Hc & Hv & Hf).
  exists sv, c, fs. split_and!; try done. unfold verify_all. rewrite Hn.
  cbn [unwrap res_ok mbind option_bind]. by rewrite Hv.
Qed.

(** Records that a head of the stream accepted within one segment. *)
Definition segment_run (u : ulid) (segment : rstring) (rs : list EvRecord) : Prop :=
  (∃ h, head_run u h rs) ∧
  Forall (λ r, rec_segment_id r = segment ∧ is_u64 (rec_ts_mono_ns r) = true) rs.

Context (u : ulid) (segment : rstring) (rs : list EvRecord) (Hrun : segment_run u segment rs).

Lemma run_placed i r : rs !! i = Some r → record_placed u rs i r.
Proof. destruct Hrun as [[h Hh] _]. apply head_run_ok in Hh as (_ & _ & _ & Hall). apply Hall. Qed.

(** The records are numbered from zero. *)
Lemma run_seqs : rec_seq <$> rs = seqZ 0 (Z.of_nat (length rs)).
Proof.
  apply list_eq. intros i. rewrite list_lookup_fmap. destruct (rs !! i) as [r|] eqn:Hi.
  - destruct (run_placed i r Hi) as (Hs & _). cbn. rewrite Hs. apply lookup_lt_Some in Hi.
    symmetry. apply lookup_seqZ. lia.
  - apply lookup_ge_None in Hi. symmetry. cbn. apply lookup_ge_None. rewrite length_seqZ. lia.
Qed.

Lemma run_segment r : r ∈ rs → rec_segment_id r = segment.
Proof. destruct Hrun as [_ Hs]. rewrite Forall_forall in Hs. intros Hr. by apply Hs. Qed.

Lemma run_verifiable : Forall verifiable rs.
Proof.
  destruct Hrun as [_ Hs]. apply Forall_lookup. intros i r Hi.
  destruct (run_placed i r Hi) as (Hseq & Hsafe & _ & _ & Hc & _). split_and!.
  - rewrite Hseq. apply is_u64_spec. unfold MAX_SAFE_INTEGER, u64_max in *. lia.
  - rewrite Forall_lookup in Hs. by apply (Hs i).
  - by rewrite Hc.
Qed.

(** A record in the place of another: if it claims the same hash, then the
    change is found there. *)
Lemma replaced_record i r r' :
  rs !! i = Some r → verifiable r' → rec_record_hash r' = rec_record_hash r →
  wf_record r = true → wf_record r' = true → record_core r' ≠ record_core r →
  collision_free_on blake3_hash [hash_input (to_value r'); hash_input (to_value r)] →
  ∃ fs c, verify_all u (<[i := r']> rs) = Some fs ∧
    RecordHashMismatch (rec_seq r') (rec_record_hash r) c ∈ fs.
Proof.
  intros Hi Hv' Heq Hw Hw' Hne Hcf. pose proof run_verifiable as Hall.
  rewrite insert_take_drop by (by eapply lookup_lt_Some).
  assert (Forall verifiable (take i rs ++ r' :: drop (S i) rs)) as Hall'
    by (apply Forall_app; split; [by apply Forall_take|constructor; [done|by apply Forall_drop]]).
  destruct (verify_all_at u _ _ _ Hall') as (sv & c & fs & _ & Hc & Hva & Hf).
  exists fs, c. split; [done|]. apply Hf. unfold findings_of. apply elem_of_app. right.
  apply elem_of_app. left. cbn [view_of rv_record_hash rv_seq]. rewrite Heq. apply elem_of_push_if.
  apply negb_true_iff, bool_decide_eq_false. intros ->. apply Hne.
  apply (compute_hash_inj r' r (rec_record_hash r)); try done. by apply run_placed in Hi as (_ & _ & _ & _ & ? & _).
Qed.

(** What is reported of a record with some record of its segment before it. *)
Lemma neighbours pre p r post :
  Forall verifiable (pre ++ p :: r :: post) →
  ∃ fs, verify_all u (pre ++ p :: r :: post) = Some fs ∧
    seq_findings (view_of p) (view_of r) ++ link_findings (view_of p) (view_of r) ⊆ fs.
Proof.
  intros Hall. replace (pre ++ p :: r :: post) with ((pre ++ [p]) ++ r :: post) in * by (by rewrite <-app_assoc).
  destruct (verify_all_at u _ _ _ Hall) as (sv & c & fs & _ & _ & Hva & Hf).
  exists fs. split; [done|]. etrans; [|exact Hf]. unfold findings_of.
  rewrite fmap_app. change (view_of <$> [p]) with [view_of p]. rewrite advance_all_prev.
  intros f Hf'. rewrite !elem_of_app in *. tauto.
Qed.

(** A record that is removed from between two others leaves a gap. *)
Lemma removed_record pre p x r post :
  rs = pre ++ p :: x :: r :: post →
  ∃ fs, verify_all u (pre ++ p :: r :: post) = Some fs ∧
    SeqGapInSegment segment (rec_seq p + 1) (rec_seq r) ∈ fs.
Proof.
  intros Hrs. pose proof run_verifiable as Hall.
  assert (Forall verifiable (pre ++ p :: r :: post)) as Hall'.
  { revert Hall. rewrite Hrs, !Forall_app, !Forall_cons. clear. tauto. }
  destruct (neighbours pre p r post Hall') as (fs & Hva & Hf). exists fs. split; [done|].
  apply Hf, elem_of_app. left.
  assert (rs !! length pre = Some p) as Hp by (rewrite Hrs; by apply list_lookup_middle).
  assert (rs !! (length pre + 2)%nat = Some r) as Hr.
  { rewrite Hrs, lookup_app_r by lia. by replace (length pre + 2 - length pre)%nat with 2%nat by lia. }
  pose proof (run_placed _ _ Hp) as (Hsp & _). pose proof (run_placed _ _ Hr) as (Hsr & Hmax & _).
  unfold seq_findings, same_segment. cbn [view_of rv_seq rv_segment_id].
  rewrite (run_segment p), (run_segment r) by (by eapply list_elem_of_lookup_2).
  rewrite bool_decide_true by done. unfold u64_add. rewrite wrap_u64_id
    by (apply is_u64_spec; unfold u64_max, MAX_SAFE_INTEGER in *; lia).
  destruct (Z.leb_spec (rec_seq r) (rec_seq p)); [lia|]. apply elem_of_push_if.
  destruct (Z.eqb_spec (rec_seq r) (rec_seq p + 1)); [lia|done].
Qed.

(** Two neighbours that are swapped are out of order. *)
Lemma swapped_records pre x y post :
  rs = pre ++ x :: y :: post →
  ∃ fs, verify_all u (pre ++ y :: x :: post) = Some fs ∧ SeqNotMonotonic (rec_seq y) (rec_seq x) ∈ fs.
Proof.
  intros Hrs. pose proof run_verifiable as Hall.
  assert (Forall verifiable (pre ++ y :: x :: post)) as Hall'.
  { revert Hall. rewrite Hrs, !Forall_app, !Forall_cons. clear. tauto. }
  destruct (neighbours pre y x post Hall') as (fs & Hva & Hf). exists fs. split; [done|].
  apply Hf, elem_of_app. left.
  assert (rs !! length pre = Some x) as Hx by (rewrite Hrs; by apply list_lookup_middle).
  assert (rs !! (length pre + 1)%nat = Some y) as Hy.
  { rewrite Hrs, lookup_app_r by lia. by replace (length pre + 1 - length pre)%nat with 1%nat by lia. }
  pose proof (run_placed _ _ Hx) as (Hsx & _). pose proof (run_placed _ _ Hy) as (Hsy & _).
  unfold seq_findings. cbn [view_of rv_seq]. destruct (Z.leb_spec (rec_seq x) (rec_seq y)); [left|lia].
Qed.

(** A record of the segment that is added with another link is found. *)
Lemma added_record r p :
  last rs = Some p → verifiable r → rec_segment_id r = segment →
  rec_prev_hash r ≠ rec_record_hash p →
  ∃ fs, verify_all u (rs ++ [r]) = Some fs ∧
    LinkBroken (rec_seq r) (rec_record_hash p) (rec_prev_hash r) ∈ fs.
Proof.
  intros [pre Hrs]%last_Some Hr Hs Hne. pose proof run_verifiable as Hall.
  rewrite Hrs, <-app_assoc. cbn [app].
  assert (Forall verifiable (pre ++ [p; r])) as Hall'.
  { revert Hall Hr. rewrite Hrs, !Forall_app, !Forall_cons, Forall_nil. clear. tauto. }
  destruct (neighbours pre p r [] Hall') as (fs & Hva & Hf). exists fs. split; [done|].
  apply Hf, elem_of_app. right. unfold link_findings, same_segment.
  cbn [view_of rv_prev_hash rv_record_hash rv_segment_id rv_seq]. rewrite decide_False by done.
  rewrite (run_segment p), Hs by (rewrite Hrs; apply elem_of_app; right; left).
  rewrite bool_decide_true by done. left.
Qed.
End tampering.

(** A first record with sequence 0 and another link than genesis is found. *)
Lemma false_genesis `{Blake3} `{UlidApi, !UlidLaws} `{ChronoApi} u r :
  verifiable r → rec_seq r = 0 → rec_prev_hash r ≠ genesis_prev_hash u →
  ∃ fs, verify_all u [r] = Some fs ∧ GenesisViolation (rec_prev_hash r) (genesis_prev_hash u) ∈ fs.
Proof.
  intros Hr Hs Hne. destruct (verify_all_at u [] r [] (proj2 (Forall_singleton _ r) Hr)) as (sv & c & fs & Hn & _ & Hva & Hf).
  exists fs. split; [done|]. apply Hf. unfold findings_of. rewrite !elem_of_app. right; right.
  apply new_verifier_Ok in Hn as (_ & Hp & _ & w & Hw & Hg). rewrite ulid_parse_to_string in Hw. injection Hw as <-.
  cbn [fmap list_fmap advance_all foldl]. rewrite Hp. unfold genesis_findings.
  cbn [view_of rv_seq rv_prev_hash]. rewrite Hg, Hs. cbn [Z.eqb andb]. apply elem_of_push_if.
  by apply negb_true_iff, bool_decide_eq_false.
Qed.

(** ** Facts: chains of samples *)

Section samples.
Context `{Blake3, !Blake3Len} `{UlidApi, !UlidLaws, !UlidParts} `{ChronoApi}.

Lemma append_all_run u h rs0 rs h' rs' :
  head_run u h rs0 → append_all h rs = Ok (h', rs') → head_run u h' (rs0 ++ rs').
Proof.
  revert h rs0 rs'; induction rs as [|r rs IH]; intros h rs0 rs' Hr Ha.
  - injection Ha as <- <-. by rewrite app_nil_r.
  - apply append_all_cons in Ha as (h1 & r1 & rs1 & Hap & Ha & ->).
    rewrite cons_middle, app_assoc. eapply IH; [|exact Ha]. by eapply run_append.
Qed.

(** A record that was appended: linked and hashed, otherwise as it was. *)
Definition appended (r r' : EvRecord) : Prop :=
  ∃ s prev hash, is_u64 s = true ∧ r' = set_record_hash hash (set_link s prev r).

Lemma append_all_appended h rs h' rs' : append_all h rs = Ok (h', rs') → Forall2 appended rs rs'.
Proof.
  revert h rs'; induction rs as [|r rs IH]; intros h rs' Ha; [injection Ha as <- <-; constructor|].
  apply append_all_cons in Ha as (h1 & r1 & rs1 & Hap & Ha & ->). constructor; [|by eapply IH].
  apply append_Ok in Hap as (_ & hash & _ & _ & -> & _). exists (next_seq h), (ch_head_hash h), hash.
  split; [apply next_seq_u64|done].
Qed.

Context (stream segment : ulid).

(** Up to sixty samples are appended. *)
Lemma chain_samples_run n :
  0 ≤ n ≤ 60 →
  ∃ rs, chain_samples stream segment n = Some rs ∧ Z.of_nat (length rs) = n ∧
    segment_run stream (ulid_to_string segment) rs ∧
    Forall2 (λ i r, appended (sample_unchained stream segment i) r) (seqZ 0 n) rs.
Proof.
  intros Hn. set (samples := sample_unchained stream segment <$> seqZ 0 n).
  assert (Forall (fits stream) samples) as Hfit.
  { apply Forall_fmap, Forall_forall. intros i Hi%elem_of_seqZ. apply sample_fits. lia. }
  destruct (append_all_succeeds (genesis stream) samples Hfit) as (h & rs & Ha).
  { unfold samples. rewrite length_fmap, length_seqZ. cbn. unfold MAX_SAFE_INTEGER. lia. }
  pose proof (append_all_appended _ _ _ _ Ha) as Hap. exists rs. split_and!.
  - unfold chain_samples. fold samples. by rewrite Ha.
  - apply Forall2_length in Hap. unfold samples in Hap. rewrite length_fmap, length_seqZ in Hap. lia.
  - split; [exists h; exact (append_all_run _ _ [] _ _ _ (run_genesis _) Ha)|].
    apply Forall_lookup. intros i r Hi. destruct (Forall2_lookup_r _ _ _ _ _ Hap Hi) as (x & Hx & s & p & c & _ & ->).
    unfold samples in Hx. apply list_lookup_fmap_Some in Hx as (k & -> & _). split; [done|]. apply wrap_u64_range.
  - unfold samples in Hap. by rewrite Forall2_fmap_l in Hap.
Qed.

Lemma appended_sample n rs i r :
  Forall2 (λ i r, appended (sample_unchained stream segment i) r) (seqZ 0 n) rs → rs !! i = Some r →
  ∃ s prev hash, is_u64 s = true ∧ Z.of_nat i < n ∧
    r = set_record_hash hash (set_link s prev (sample_unchained stream segment (Z.of_nat i))).
Proof.
  intros Hap Hi. destruct (Forall2_lookup_r _ _ _ _ _ Hap Hi) as (x & Hx & s & p & c & Hs & ->).
  apply lookup_seqZ in Hx as [-> Hlt]. by exists s, p, c.
Qed.

(** The numbers of a sample fit whatever its place in the stream. *)
Lemma sample_recordable i s prev hash :
  0 ≤ i < 60 →
  let r := set_record_hash hash (set_link s prev (sample_unchained stream segment i)) in
  numbers_typed r = true ∧ recordable r = true.
Proof. intros Hi. by destruct (sample_fits stream segment i Hi) as (_ & ? & ?). Qed.

(** A record of safe numbers can be linked anywhere and hashed. *)
Lemma relinked r s prev :
  numbers_typed r = true → recordable r = true → 0 ≤ s ≤ MAX_SAFE_INTEGER →
  ∃ r' hash, finalize (set_link s prev r) = Ok (r', hash) ∧ verifiable r' ∧
    r' = set_record_hash hash (set_link s prev r).
Proof.
  intros Ht Hr Hs. assert (is_u64 s = true) as Hu by (apply is_u64_spec; unfold u64_max, MAX_SAFE_INTEGER in *; lia).
  pose proof (finalize_succeeds (set_link s prev r)) as Hf.
  rewrite safe_record, Hr, (proj2 (Z.leb_le s MAX_SAFE_INTEGER)) in Hf by (done || lia).
  destruct (finalize (set_link s prev r)) as [[r' hash]|] eqn:Hfin; [|done]. exists r', hash.
  apply finalize_Ok in Hfin as [Hc ->]. split; [done|]. split; [|done]. split_and!; [done| |].
  - by apply andb_true_iff in Ht as [? _].
  - by rewrite compute_hash_set_hash, Hc.
Qed.

Lemma retargeted_verifiable t r :
  numbers_typed r = true → recordable r = true → 0 ≤ rec_seq r ≤ MAX_SAFE_INTEGER →
  verifiable (set_target_resource t r).
Proof.
  intros Ht Hr Hs. destruct (relinked (set_target_resource t r) (rec_seq r) (rec_prev_hash r) Ht Hr Hs)
    as (f & hash & _ & (H1' & H2' & Hv) & Hf).
  rewrite Hf in H1', H2', Hv. rewrite compute_hash_set_hash in Hv. by destruct r.
Qed.
End samples.

(** ** Facts: the text of a sample *)

Lemma hash_text_valid h : Forall (λ c, is_lower_hex c = true) h → valid_str h = true.
Proof.
  intros Hh. apply forallb_Forall. eapply Forall_impl; [exact Hh|]. intros c. unfold is_lower_hex, valid_char. lia.
Qed.

Lemma two_digits_valid z : valid_str (two_digits z) = true.
Proof.
  apply forallb_Forall, Forall_app. split; [by apply Forall_replicate|].
  apply Forall_fmap. eapply Forall_impl; [apply dec_bytes_chars|]. intros b [->|Hb]; [done|].
  unfold compose, valid_char. lia.
Qed.

Lemma wf_u64 z : is_u64 z = true → wf_value (u64_value z) = true.
Proof. intros [? ?]%is_u64_spec. cbn. unfold i64_min in *. lia. Qed.

(** [record.subject.human_principal = None]. *)
Definition without_principal (r : EvRecord) : EvRecord :=
  {| rec_schema_version := rec_schema_version r; rec_record_id := rec_record_id r;
     rec_stream_id := rec_stream_id r; rec_segment_id := rec_segment_id r; rec_seq := rec_seq r;
     rec_ts_wall := rec_ts_wall r; rec_ts_mono_ns := rec_ts_mono_ns r;
     rec_record_type := rec_record_type r; rec_recorder := rec_recorder r;
     rec_subject := {| sub_agent_kind := sub_agent_kind (rec_subject r);
                       sub_agent_session := sub_agent_session (rec_subject r);
                       sub_human_principal := None;
                       sub_attribution := sub_attribution (rec_subject r);
                       sub_source := sub_source (rec_subject r) |};
     rec_action := rec_action r; rec_action_detail := rec_action_detail r;
     rec_payload_commitment := rec_payload_commitment r; rec_payload_ref := rec_payload_ref r;
     rec_verdict := rec_verdict r; rec_approval_ref := rec_approval_ref r; rec_links := rec_links r;
     rec_prev_hash := rec_prev_hash r; rec_record_hash := rec_record_hash r |}.

Section text.
Context `{UlidApi, !UlidParts} (stream segment : ulid) (Hvalid : ∀ u, valid_str (ulid_to_string u) = true).

(** The members of a record that was made from a sample, one by one. *)
Ltac wf_member :=
  lazymatch goal with
  | |- wf_value (u64_value _) = true => apply wf_u64; first [done|apply wrap_u64_range]
  | Hv : ∀ u, valid_str (ulid_to_string u) = true |- wf_value (String (ulid_to_string _)) = true =>
    exact (Hv _)
  | |- wf_value (String (_ ++ two_digits ?z ++ _)) = true =>
    cbn [wf_value]; unfold valid_str; rewrite !forallb_app, (two_digits_valid z : forallb _ _ = true);
    vm_compute; reflexivity
  | |- wf_value (String _) = true => first [assumption|vm_compute; reflexivity]
  | Hv : ∀ u, valid_str (ulid_to_string u) = true |- wf_value (to_value {| ri_recorder_id := _ |}) = true =>
    apply wf_object; split_and!; [by_compute|by repeat constructor|];
    repeat (apply Forall_cons; split); try apply Forall_nil_2; first [exact (Hv _)|vm_compute; reflexivity]
  | |- wf_value (to_value {| act_integration := _ |}) = true =>
    apply wf_object; split_and!; [by_compute|by repeat constructor|];
    repeat (apply Forall_cons; split); try apply Forall_nil_2; first [assumption|vm_compute; reflexivity]
  | |- _ => vm_compute; reflexivity
  end.

Ltac wf_sample :=
  unfold wf_record; rewrite !andb_true_iff; split_and!; [done|apply wrap_u64_range|done|];
  match goal with |- wf_value (to_value ?r) = true =>
    change (to_value r) with (Object (record_fields r)); apply wf_object end;
  split_and!; [apply record_fields_NoDup| |]; unfold record_fields;
  cbn [set_target_resource without_principal set_record_hash set_link sample_unchained rec_schema_version
    rec_record_id rec_stream_id rec_segment_id rec_seq rec_ts_wall rec_ts_mono_ns rec_record_type rec_recorder
    rec_subject rec_action rec_action_detail rec_payload_commitment rec_payload_ref rec_verdict
    rec_approval_ref rec_links rec_prev_hash rec_record_hash opt_field fmap option_fmap option_map app];
  repeat (apply Forall_cons; split); try apply Forall_nil_2; cbn [fst snd]; wf_member.

(** Of a record with the members of a sample, but any target, link and hash. *)
Lemma wf_sample_value i s p c target :
  is_u64 s = true → valid_str p = true → valid_str c = true → valid_str target = true →
  wf_record (set_target_resource target (set_record_hash c (set_link s p (sample_unchained stream segment i)))) = true.
Proof. intros Hs Hp Hc Ht. wf_sample. Qed.

Lemma wf_sample_without i s p c :
  is_u64 s = true → valid_str p = true → valid_str c = true →
  wf_record (without_principal (set_record_hash c (set_link s p (sample_unchained stream segment i)))) = true.
Proof. intros Hs Hp Hc. wf_sample. Qed.
End text.

(** ** The tests of chain.rs pass *)

Section chain_tests_pass.
Context `{Blake3, !Blake3Len} `{UlidApi, !UlidLaws, !UlidParts} `{ChronoApi}.

Lemma existsb_elem {A} (f : A → bool) x l : x ∈ l → f x = true → existsb f l = true.
Proof. intros Hx Hf. apply existsb_exists. exists x. split; [by apply list_elem_of_In|done]. Qed.

(** The wall times of the samples are a second apart. *)
Definition noon_parses : Prop := ∃ noon, ∀ i, 0 ≤ i < 60 → ∃ t,
  parse_from_rfc3339 (str "2026-08-11T12:00:" ++ two_digits i ++ str ".000Z") = Some t ∧
  timestamp_millis t = noon + 1000 * i.

Lemma samples_verify stream segment n :
  noon_parses → 0 ≤ n ≤ 60 →
  ∃ rs, chain_samples stream segment n = Some rs ∧ Z.of_nat (length rs) = n ∧ verify_all stream rs = Some [] ∧
    rec_seq <$> rs = seqZ 0 n.
Proof.
  intros [noon Hnoon] Hn.
  destruct (sample_stream_verifies noon Hnoon stream segment n Hn) as (h & rs & sv & sv' & Ha & Hnew & Hv & Hseq).
  exists rs. split_and!; [unfold chain_samples; by rewrite Ha| | |done].
  - apply (f_equal length) in Hseq. rewrite length_fmap, length_seqZ in Hseq. lia.
  - unfold verify_all. rewrite Hnew. cbn [unwrap res_ok mbind option_bind]. by rewrite Hv.
Qed.

Theorem clean_chain_passes : noon_parses → clean_chain_verifies = Some tt.
Proof.
  intros Hnoon. destruct (samples_verify (ulid_from_parts 7 7) (ulid_from_parts 7 8) 50 Hnoon) as (rs & Hrs & _ & Hv & _); [lia|].
  unfold clean_chain_verifies, chained. rewrite Hrs. cbn [mbind option_bind mret option_ret]. by rewrite Hv.
Qed.

Theorem deleted_record_passes : deleted_record_detected = Some tt.
Proof.
  destruct (chain_samples_run (ulid_from_parts 7 7) (ulid_from_parts 7 8) 10) as (rs & Hrs & Hlen & Hrun & _); [lia|].
  unfold deleted_record_detected, chained. rewrite Hrs. cbn [mbind option_bind mret option_ret].
  do 10 (destruct rs as [|? rs]; [done|]). destruct rs; [|cbn in Hlen; lia].
  change (vec_remove 5 _) with (Some [e; e0; e1; e2; e3; e5; e6; e7; e8]). cbn [mbind option_bind].
  destruct (removed_record _ _ _ Hrun [e; e0; e1; e2] e3 e4 e5 [e6; e7; e8] eq_refl) as (fs & Hva & Hf).
  cbn [app] in Hva. rewrite Hva. cbn [mbind option_bind]. unfold ensure. rewrite (existsb_elem _ _ _ Hf); [done|].
  destruct (run_placed _ _ _ Hrun 6%nat e5 eq_refl) as [-> _]. done.
Qed.

Theorem reordered_records_pass : reordered_records_detected = Some tt.
Proof.
  destruct (chain_samples_run (ulid_from_parts 7 7) (ulid_from_parts 7 8) 10) as (rs & Hrs & Hlen & Hrun & _); [lia|].
  unfold reordered_records_detected, chained. rewrite Hrs. cbn [mbind option_bind mret option_ret].
  do 10 (destruct rs as [|? rs]; [done|]). destruct rs; [|cbn in Hlen; lia].
  change (vec_swap 3 4 _) with (Some [e; e0; e1; e3; e2; e4; e5; e6; e7; e8]). cbn [mbind option_bind].
  destruct (swapped_records _ _ _ Hrun [e; e0; e1] e2 e3 [e4; e5; e6; e7; e8] eq_refl) as (fs & Hva & Hf).
  cbn [app] in Hva. rewrite Hva. cbn [mbind option_bind]. by destruct fs; [apply not_elem_of_nil in Hf|].
Qed.

(** The last hash is not the one that the forged record links to. *)
Theorem forged_tail_passes :
  (∀ rs r, chain_samples (ulid_from_parts 7 7) (ulid_from_parts 7 8) 5 = Some rs → last rs = Some r →
     rec_record_hash r ≠ repeat_str "ab" 32) →
  forged_tail_detected = Some tt.
Proof.
  intros Hne. destruct (chain_samples_run (ulid_from_parts 7 7) (ulid_from_parts 7 8) 5) as (rs & Hrs & Hlen & Hrun & Hap); [lia|].
  specialize (Hne rs). unfold forged_tail_detected, chained. rewrite Hrs. cbn [mbind option_bind mret option_ret].
  destruct (lookup_lt_is_Some_2 rs 4) as [r Hr]; [lia|]. rewrite Hr. cbn [mbind option_bind].
  assert (last rs = Some r) as Hlast by (rewrite last_lookup; by replace (length rs) with 5%nat by lia).
  assert (numbers_typed r = true ∧ recordable r = true) as [Ht Hrec].
  { destruct (appended_sample _ _ _ _ _ _ Hap Hr) as (s & p & c & _ & _ & ->). by apply sample_recordable. }
  destruct (relinked r 5 (repeat_str "ab" 32) Ht Hrec) as (f & c & -> & Hv & Hf); [unfold MAX_SAFE_INTEGER; lia|].
  cbn [unwrap res_ok mbind option_bind].
  destruct (added_record _ _ _ Hrun f r Hlast Hv) as (fs & -> & Hin).
  - rewrite Hf. exact (run_segment _ _ _ Hrun r (list_elem_of_lookup_2 _ _ _ Hr)).
  - rewrite Hf. cbn. intros Heq. by apply (Hne r Hrs Hlast).
  - cbn [mbind option_bind]. unfold ensure. rewrite (existsb_elem _ _ _ Hin); [done|]. by rewrite Hf.
Qed.

Theorem genesis_rule_passes :
  genesis_prev_hash (ulid_from_parts 7 7) ≠ repeat_str "aa" 32 → genesis_rule_enforced = Some tt.
Proof.
  intros Hne. unfold genesis_rule_enforced. cbv zeta.
  destruct (sample_fits (ulid_from_parts 7 7) (ulid_from_parts 7 8) 0) as (_ & Ht & Hrec); [lia|].
  destruct (relinked _ 0 (repeat_str "aa" 32) Ht Hrec) as (f & c & -> & Hv & Hf); [unfold MAX_SAFE_INTEGER; lia|].
  cbn [unwrap res_ok mbind option_bind].
  destruct (false_genesis (ulid_from_parts 7 7) f Hv) as (fs & -> & Hin); [by rewrite Hf|rewrite Hf; by apply not_eq_sym|].
  cbn [mbind option_bind]. unfold ensure. by rewrite (existsb_elem _ _ _ Hin).
Qed.

(** BLAKE3 does not collide on the record and its tampered version. *)
Theorem tampered_field_passes :
  (∀ u, valid_str (ulid_to_string u) = true) →
  (∀ rs r, chain_samples (ulid_from_parts 7 7) (ulid_from_parts 7 8) 10 = Some rs → rs !! 4%nat = Some r →
     collision_free_on blake3_hash
       [hash_input (to_value (set_target_resource (str "db:tampered") r)); hash_input (to_value r)]) →
  tampered_field_detected = Some tt.
Proof.
  intros Hvalid Hcf. destruct (chain_samples_run (ulid_from_parts 7 7) (ulid_from_parts 7 8) 10)
    as (rs & Hrs & Hlen & Hrun & Hap); [lia|].
  specialize (Hcf rs). unfold tampered_field_detected, chained. rewrite Hrs. cbn [mbind option_bind mret option_ret].
  destruct (lookup_lt_is_Some_2 rs 4) as [r Hr]; [lia|]. specialize (Hcf r Hrs Hr). rewrite Hr. cbn [mbind option_bind].
  destruct (appended_sample _ _ _ _ _ _ Hap Hr) as (s & p & c & Hs & _ & Heq).
  destruct (run_placed _ _ _ Hrun 4%nat r Hr) as (Hseq & _ & _ & _ & Hc & [_ Hp%hash_text_valid] & [_ Hh%hash_text_valid]).
  assert (numbers_typed r = true ∧ recordable r = true) as [Ht Hrec] by (rewrite Heq; by apply sample_recordable).
  assert (0 ≤ rec_seq r ≤ MAX_SAFE_INTEGER) as Hsafe by (rewrite Hseq; unfold MAX_SAFE_INTEGER; lia).
  destruct (replaced_record _ _ _ Hrun 4 r (set_target_resource (str "db:tampered") r) Hr)
    as (fs & c' & -> & Hin); try done.
  - by apply retargeted_verifiable.
  - rewrite Heq in Hp, Hh |- *. by apply (wf_sample_value _ _ Hvalid 4 s p c (str "db:prod-main")).
  - rewrite Heq in Hp, Hh |- *. by apply (wf_sample_value _ _ Hvalid 4).
  - intros Hcore. apply (f_equal (λ x, act_target_resource (rec_action x))) in Hcore. by rewrite Heq in Hcore.
  - cbn [mbind option_bind]. unfold ensure. rewrite (existsb_elem _ _ _ Hin); [done|].
    cbn [hash_mismatch_at set_target_resource rec_seq]. by rewrite Hseq.
Qed.
End chain_tests_pass.

(** ** Tampering with a line of the export *)

(** A value in the place of [v] that is not a record, or that claims the same
    hash with another content, or another hash with the same content. *)
Definition one_sided (v v' : value) : Prop :=
  ∀ w, from_value v' = Ok w →
    (value_get (str "record_hash") v' = value_get (str "record_hash") v ∧
     canonical (hashed_value v') ≠ canonical (hashed_value v)) ∨
    (value_get (str "record_hash") v' ≠ value_get (str "record_hash") v ∧ hash_input v' = hash_input v).

Section lines.
Context `{Blake3} `{UlidApi} `{ChronoApi} `{JsonParser}.

(** The findings over the lines of a stream, and the lines that do not parse;
    a record that the verifier refuses counts as a finding. *)
Fixpoint count_findings (sv : StreamVerifier) (lines : list bytes) : Z * Z :=
  match lines with
  | [] => (0, 0)
  | line :: lines =>
    match parse_value line with
    | Some v =>
      match verify_next sv v with
      | Ok (sv, fs) => let '(f, p) := count_findings sv lines in (Z.of_nat (length fs) + f, p)
      | Err _ => let '(f, p) := count_findings sv lines in (1 + f, p)
      end
    | None => let '(f, p) := count_findings sv lines in (f, 1 + p)
    end
  end.

Lemma count_nonneg sv lines : 0 ≤ (count_findings sv lines).1 ∧ 0 ≤ (count_findings sv lines).2.
Proof.
  revert sv; induction lines as [|l lines IH]; intros sv; cbn; [lia|].
  destruct (parse_value l) as [v|].
  2: { specialize (IH sv). destruct (count_findings sv lines). cbn in *. lia. }
  destruct (verify_next sv v) as [[sv' fs]|].
  - specialize (IH sv'). destruct (count_findings sv' lines). cbn in *. lia.
  - specialize (IH sv). destruct (count_findings sv lines). cbn in *. lia.
Qed.

(** A line that cannot pass is counted wherever it is. *)
Lemma bad_line_counted sv pre l post :
  (∀ sv v, parse_value l = Some v → ∀ sv' fs, verify_next sv v = Ok (sv', fs) → fs ≠ []) →
  0 < (count_findings sv (pre ++ l :: post)).1 ∨ 0 < (count_findings sv (pre ++ l :: post)).2.
Proof.
  intros Hbad. revert sv; induction pre as [|x pre IH]; intros sv; cbn [app count_findings].
  - destruct (parse_value l) as [v|] eqn:Hv.
    2: { pose proof (count_nonneg sv post). destruct (count_findings sv post). cbn in *. lia. }
    destruct (verify_next sv v) as [[sv' fs]|] eqn:Hn.
    + specialize (Hbad sv v eq_refl sv' fs Hn). pose proof (count_nonneg sv' post).
      destruct fs, (count_findings sv' post); cbn in *; [done|lia].
    + pose proof (count_nonneg sv post). destruct (count_findings sv post). cbn in *. lia.
  - destruct (parse_value x) as [v|].
    2: { specialize (IH sv). destruct (count_findings sv (pre ++ l :: post)). cbn in *. lia. }
    destruct (verify_next sv v) as [[sv' fs]|].
    + specialize (IH sv'). destruct (count_findings sv' (pre ++ l :: post)). cbn in *. lia.
    + specialize (IH sv). destruct (count_findings sv (pre ++ l :: post)). cbn in *. lia.
Qed.

(** A value with a one-sided change never passes. *)
Lemma one_sided_found v v' h :
  wf_value v = true → wf_value v' = true → compute_hash_of_value v = Ok h →
  value_get (str "record_hash") v = Some (String h) → one_sided v v' →
  collision_free_on blake3_hash [hash_input v'; hash_input v] →
  ∀ sv sv' fs, verify_next sv v' = Ok (sv', fs) → fs ≠ [].
Proof.
  intros Hw Hw' Hc Hh Hone Hcf sv sv' fs Hn. unfold verify_next in Hn. cbv zeta in Hn.
  apply bind_Ok in Hn as (w & Hw1 & (c & Hc' & Heq)%bind_Ok). injection Heq as _ <-.
  apply view_record_hash in Hw1 as Hrh. intros [_ [Hnil%push_if_nil _]%app_nil]%app_nil.
  apply negb_false_iff, bool_decide_eq_true in Hnil as ->.
  destruct (Hone w Hw1) as [[Hsame Hne]|[Hne Hsame]]; rewrite Hrh, Hh in *.
  - apply Hne. injection Hsame as Hsame. rewrite Hsame in Hc'. by eapply value_hash_binds.
  - apply compute_hash_input in Hc as [_ ->], Hc' as [_ Heq]. rewrite Hsame in Heq. by rewrite Heq in Hne.
Qed.
End lines.

(** ** The property tests of lib.rs *)

(** A byte with one bit changed. *)
Definition flip_bit (bit : Z) (b : byte) : byte := z2b (Z.lxor (b2z b) (Z.shiftl 1 bit)).

Section lib_tests.
Context `{Blake3} `{UlidApi, !UlidParts} `{ChronoApi} `{JsonParser}.

Definition build_chain (n : Z) : option (ulid * list EvRecord) :=
  let stream := ulid_from_parts 42 42 in
  records ← chain_samples stream (ulid_from_parts 42 43) n;
  mret (stream, records).

(** The loop over the records, each without a finding. *)
Fixpoint all_silent (sv : StreamVerifier) (records : list EvRecord) : Test :=
  match records with
  | [] => mret tt
  | r :: records =>
    '(sv, findings) ← unwrap (verify_next sv (to_value r));
    _ ← ensure (bool_decide (findings = []));
    all_silent sv records
  end.

Definition round_trip_chain_always_verifies (n : Z) : Test :=
  '(stream, records) ← build_chain n;
  verifier ← unwrap (new_verifier (ulid_to_string stream));
  all_silent verifier records.

Definition any_single_bit_flip_is_detected (record_idx byte_pos : nat) (bit : Z) : Test :=
  '(stream, records) ← build_chain 10;
  lines ← mapM (λ r, unwrap (to_ndjson_line r)) records;
  line ← lines !! record_idx;
  _ ← ensure (bool_decide (1 < length line)%nat);
  let pos := (byte_pos mod (length line - 1))%nat in
  b ← line !! pos;
  let lines := <[record_idx := <[pos := flip_bit bit b]> line]> lines in
  verifier ← unwrap (new_verifier (ulid_to_string stream));
  let '(findings, parse_failures) := count_findings verifier lines in
  ensure ((0 <? findings) || (0 <? parse_failures)).
End lib_tests.

Section lib_tests_pass.
Context `{Blake3, !Blake3Len} `{UlidApi, !UlidLaws, !UlidParts} `{ChronoApi} `{JsonParser}.

Lemma silent_stream sv rs sv' : verify_stream sv (to_value <$> rs) = Ok (sv', []) → all_silent sv rs = Some tt.
Proof.
  revert sv; induction rs as [|r rs IH]; intros sv Hv; [done|]. cbn [fmap list_fmap verify_stream] in Hv.
  apply bind_Ok in Hv as ([s1 fs] & Hn & Hv). apply bind_Ok in Hv as ([s2 gs] & Hv & Heq).
  injection Heq as -> [-> ->]%app_nil. cbn [all_silent]. rewrite Hn. cbn. by eapply IH.
Qed.

Theorem round_trip_chain_passes n :
  noon_parses → 1 ≤ n < 40 → round_trip_chain_always_verifies n = Some tt.
Proof.
  intros [noon Hnoon] Hn. destruct (sample_stream_verifies noon Hnoon (ulid_from_parts 42 42) (ulid_from_parts 42 43) n)
    as (h & rs & sv & sv' & Ha & Hnew & Hv & _); [lia|].
  unfold round_trip_chain_always_verifies, build_chain, chain_samples. rewrite Ha.
  cbn [unwrap res_ok fmap option_fmap option_map snd mbind option_bind mret option_ret]. rewrite Hnew.
  cbn [unwrap res_ok mbind option_bind]. by eapply silent_stream.
Qed.

Lemma verifiable_line r : verifiable r → ∃ bs, to_ndjson_line r = Ok (bs ++ [x0a]) ∧ bs ≠ [].
Proof.
  intros (_ & _ & Hc). unfold to_ndjson_line.
  pose proof (write_value_outcome (to_value r)) as Ho.
  destruct (write_value (to_value r)) as [bs|] eqn:Hw.
  - exists bs. split; [unfold to_jcs_bytes; by rewrite Hw|].
    change (to_value r) with (Object (record_fields r)) in Hw. cbn [write_value] in Hw.
    apply bind_Ok in Hw as (body & _ & Heq). by injection Heq as <-.
  - destruct Ho as [_ Hs]. pose proof (finalize_succeeds r) as Hf. rewrite Hs in Hf.
    unfold finalize in Hf. by destruct (compute_hash r).
Qed.

(** The flipped line does not parse, or to a value that is changed on one side
    of its hash; and BLAKE3 does not collide on it and the record. *)
Theorem bit_flip_passes record_idx byte_pos bit :
  (∀ u, valid_str (ulid_to_string u) = true) → (record_idx < 10)%nat →
  (∀ rs r line pos b v, chain_samples (ulid_from_parts 42 42) (ulid_from_parts 42 43) 10 = Some rs →
     rs !! record_idx = Some r → to_ndjson_line r = Ok line → line !! pos = Some b →
     parse_value (<[pos := flip_bit bit b]> line) = Some v →
     wf_value v = true ∧ one_sided (to_value r) v ∧
     collision_free_on blake3_hash [hash_input v; hash_input (to_value r)]) →
  any_single_bit_flip_is_detected record_idx byte_pos bit = Some tt.
Proof.
  intros Hvalid Hidx Hflip. destruct (chain_samples_run (ulid_from_parts 42 42) (ulid_from_parts 42 43) 10)
    as (rs & Hrs & Hlen & Hrun & Hap); [lia|].
  unfold any_single_bit_flip_is_detected, build_chain. rewrite Hrs. cbn [mbind option_bind mret option_ret].
  pose proof (run_verifiable _ _ _ Hrun) as Hall.
  assert (∃ lines, mapM (λ r, unwrap (to_ndjson_line r)) rs = Some lines) as [lines Hlines].
  { apply mapM_is_Some_2. eapply Forall_impl; [exact Hall|]. intros r (bs & Hb & _)%verifiable_line.
    exists (bs ++ [x0a]). cbn beta. by rewrite Hb. }
  rewrite Hlines. apply mapM_Some in Hlines. cbn [mbind option_bind].
  destruct (lookup_lt_is_Some_2 rs record_idx) as [r Hr]; [lia|].
  destruct (Forall2_lookup_l _ _ _ _ _ Hlines Hr) as (line & Hline & Hl). rewrite Hline. cbn [mbind option_bind].
  assert (to_ndjson_line r = Ok line) as Hl' by (unfold unwrap in Hl; by destruct (to_ndjson_line r); simplify_eq/=).
  rewrite Forall_lookup in Hall. pose proof (Hall _ _ Hr) as Hv.
  destruct (verifiable_line r Hv) as (bs & Hbs & Hne). assert (line = bs ++ [x0a]) as Heq by congruence.
  assert (1 < length line)%nat as Hlt by (rewrite Heq, length_app; destruct bs; [done|cbn; lia]).
  unfold ensure at 1. rewrite bool_decide_true by done. cbn [mbind option_bind]. cbv zeta.
  set (pos := (byte_pos mod (length line - 1))%nat).
  assert (pos < length line)%nat as Hp
    by (unfold pos; pose proof (Nat.mod_upper_bound byte_pos (length line - 1)); lia).
  destruct (lookup_lt_is_Some_2 line pos Hp) as [b Hb]. rewrite Hb. cbn [mbind option_bind].
  destruct (new_verifier _) as [sv|] eqn:Hn; [|unfold new_verifier in Hn; by rewrite ulid_parse_to_string in Hn].
  cbn [unwrap res_ok mbind option_bind].
  rewrite insert_take_drop by (by eapply lookup_lt_Some).
  match goal with |- context [count_findings sv (?pre ++ ?l :: ?post)] =>
    pose proof (bad_line_counted sv pre l post) as Hc; destruct (count_findings sv (pre ++ l :: post)) end.
  unfold ensure. cbn [fst snd] in Hc.
  enough (0 < z ∨ 0 < z0) as Hz by (replace ((0 <? z) || (0 <? z0)) with true by lia; done).
  apply Hc. intros sv0 v Hpv. destruct (Hflip rs r line pos b v Hrs Hr Hl' Hb Hpv) as (Hw & Hone & Hcf).
  destruct (run_placed _ _ _ Hrun _ r Hr) as (_ & _ & _ & _ & Hh & [_ Ht1%hash_text_valid] & [_ Ht2%hash_text_valid]).
  apply (one_sided_found (to_value r) v (rec_record_hash r)); try done.
  - destruct (appended_sample _ _ _ _ _ _ Hap Hr) as (s & p & c & Hs & _ & ->).
    pose proof (wf_sample_value (ulid_from_parts 42 42) (ulid_from_parts 42 43) Hvalid (Z.of_nat record_idx) s p c (str "db:prod-main") Hs Ht1 Ht2 eq_refl) as Hwf.
    unfold wf_record in Hwf. by apply andb_true_iff in Hwf as [_ Hwf].
  - exact (record_get_record_hash r).
Qed.
End lib_tests_pass.

(** ** The tests of record.rs *)

Section record_tests.
Context `{Blake3} `{UlidApi, !UlidParts}.

(** The helper [sample_record] of these tests. *)
Definition sample_finalized (seq : Z) (prev_hash : rstring) : option EvRecord :=
  fst <$> unwrap (finalize (set_link seq prev_hash
    (sample_unchained (ulid_from_parts 1 1) (ulid_from_parts 1 2) seq))).

Definition hash_is_stable_and_excludes_itself : Test :=
  r ← sample_finalized 0 (genesis_prev_hash (ulid_from_parts 1 1));
  recomputed ← unwrap (compute_hash r);
  _ ← ensure (bool_decide (rec_record_hash r = recomputed));
  again ← unwrap (compute_hash (set_record_hash (repeat_str "ff" 32) r));
  ensure (bool_decide (again = recomputed)).

(** The three mutations: the target, the sequence, the principal. *)
Definition mutations (r : EvRecord) : list EvRecord :=
  [set_target_resource (str "db:other") r; set_link 1 (rec_prev_hash r) r; without_principal r].

Definition any_field_mutation_changes_hash : Test :=
  r ← sample_finalized 0 (genesis_prev_hash (ulid_from_parts 1 1));
  baseline ← unwrap (compute_hash r);
  hashes ← mapM (λ m, unwrap (compute_hash m)) (mutations r);
  ensure (forallb (λ h, negb (bool_decide (h = baseline))) hashes).
End record_tests.

(** The derived orders of the enums, by the place of the constructors. *)
Definition decision_rank (d : VDecision) : Z :=
  match d with Allow => 0 | Warn => 1 | RequireApproval => 2 | Block => 3 end.
Definition risk_class_rank (c : RiskClass) : Z :=
  match c with Low => 0 | Medium => 1 | High => 2 | Critical => 3 end.

Definition decisions_and_risks_order : Test :=
  _ ← ensure (decision_rank RequireApproval <? decision_rank Block);
  _ ← ensure (decision_rank Warn <? decision_rank RequireApproval);
  _ ← ensure (decision_rank Allow <? decision_rank Warn);
  ensure (risk_class_rank Low <? risk_class_rank Critical).

Lemma decisions_and_risks_pass : decisions_and_risks_order = Some tt.
Proof. reflexivity. Qed.

Section record_tests_pass.
Context `{Blake3, !Blake3Len} `{UlidApi, !UlidLaws, !UlidParts} `{ChronoApi}.

Lemma sample_finalized_ok s prev :
  0 ≤ s < 60 →
  ∃ r hash, sample_finalized s prev = Some r ∧ compute_hash r = Ok hash ∧ rec_record_hash r = hash ∧
    r = set_record_hash hash (set_link s prev (sample_unchained (ulid_from_parts 1 1) (ulid_from_parts 1 2) s)).
Proof.
  intros Hs. destruct (sample_fits (ulid_from_parts 1 1) (ulid_from_parts 1 2) s Hs) as (_ & Ht & Hr).
  destruct (relinked _ s prev Ht Hr) as (r & hash & Hf & _ & ->); [unfold MAX_SAFE_INTEGER; lia|].
  eexists _, hash. split; [unfold sample_finalized; by rewrite Hf|].
  apply finalize_Ok in Hf as [Hc _]. cbn [fst]. by rewrite compute_hash_set_hash.
Qed.

Theorem stable_hash_passes : hash_is_stable_and_excludes_itself = Some tt.
Proof.
  destruct (sample_finalized_ok 0 (genesis_prev_hash (ulid_from_parts 1 1))) as (r & hash & Hr & Hc & Hh & _); [lia|].
  unfold hash_is_stable_and_excludes_itself. rewrite Hr. cbn [mbind option_bind].
  rewrite Hc. cbn [unwrap res_ok mbind option_bind]. unfold ensure. rewrite bool_decide_true by done.
  cbn [mbind option_bind]. rewrite compute_hash_set_hash, Hc. cbn [unwrap res_ok mbind option_bind].
  by rewrite bool_decide_true.
Qed.

(** BLAKE3 does not collide on the record and its mutations. *)
Theorem field_mutation_passes :
  (∀ u, valid_str (ulid_to_string u) = true) →
  (∀ r m, sample_finalized 0 (genesis_prev_hash (ulid_from_parts 1 1)) = Some r → m ∈ mutations r →
     collision_free_on blake3_hash [hash_input (to_value m); hash_input (to_value r)]) →
  any_field_mutation_changes_hash = Some tt.
Proof.
  intros Hvalid Hcf.
  destruct (sample_finalized_ok 0 (genesis_prev_hash (ulid_from_parts 1 1))) as (r & hash & Hr & Hc & Hh & Heq); [lia|].
  specialize (Hcf r). unfold any_field_mutation_changes_hash. rewrite Hr. cbn [mbind option_bind]. rewrite Hc.
  cbn [unwrap res_ok mbind option_bind].
  assert (Forall (λ m, wf_record m = true ∧ verifiable m ∧ record_core m ≠ record_core r) (mutations r) ∧
    wf_record r = true) as [Hall Hwf].
  { destruct (compute_hash_text _ _ Hc) as [_ Hv%hash_text_valid].
    assert (valid_str (genesis_prev_hash (ulid_from_parts 1 1)) = true) as Hg by apply valid_str_hex.
    destruct (sample_fits (ulid_from_parts 1 1) (ulid_from_parts 1 2) 0) as (_ & Ht & Hrec); [lia|].
    unfold mutations. rewrite Heq. rewrite !Forall_cons, Forall_nil. split_and!; try done.
    - by apply (wf_sample_value _ _ Hvalid 0).
    - by apply (wf_sample_value _ _ Hvalid 0 1 _ hash (str "db:prod-main")).
    - by apply wf_sample_without.
    - by apply (wf_sample_value _ _ Hvalid 0 0 _ hash (str "db:prod-main")). }
  assert (∃ hs, mapM (λ m, unwrap (compute_hash m)) (mutations r) = Some hs) as [hs Hhs].
  { apply mapM_is_Some_2. eapply Forall_impl; [exact Hall|]. intros m (_ & (_ & _ & Hm) & _).
    destruct (compute_hash m) as [h|] eqn:Hm2; [|done]. exists h. cbn beta. by rewrite Hm2. }
  rewrite Hhs. cbn [mbind option_bind]. unfold ensure.
  enough (forallb (λ h, negb (bool_decide (h = hash))) hs = true) as -> by done.
  apply forallb_Forall. apply mapM_Some in Hhs. apply Forall_lookup. intros i h Hi.
  destruct (Forall2_lookup_r _ _ _ _ _ Hhs Hi) as (m & Hm & Hmh). apply negb_true_iff, bool_decide_eq_false. intros ->.
  apply list_elem_of_lookup_2 in Hm as Hin. rewrite Forall_forall in Hall. destruct (Hall m Hin) as (Hw & _ & Hne).
  apply Hne, (compute_hash_inj m r hash); try done; [by apply Hcf|]. unfold unwrap in Hmh.
  by destruct (compute_hash m); simplify_eq/=.
Qed.
End record_tests_pass.

(** ** The tests, run

    On the concrete hash, with ULIDs that are the text of their parts, and a
    clock that reads the seconds of a sample's wall time. *)

Definition text_parts : @UlidParts text_ulid :=
  λ ms random, (b2z <$> dec_bytes ms) ++ str "-" ++ (b2z <$> dec_bytes random).

Definition face_chrono : ChronoApi :=
  {| datetime := Z;
     parse_from_rfc3339 s :=
       tens ← s !! 17%nat; units ← s !! 18%nat; mret (1000 * (10 * (tens - 48) + (units - 48)));
     timestamp_millis t := t; datetime_geb := Z.geb |}.

Lemma face_noon : @noon_parses face_chrono.
Proof.
  exists 0. intros i Hi. exists (1000 * i). split; [|done].
  assert (∃ k, i = Z.of_nat k ∧ (k < 60)%nat) as (k & -> & Hk) by (exists (Z.to_nat i); lia). clear Hi.
  do 60 (destruct k as [|k]; [vm_compute; reflexivity|]). lia.
Qed.

Example evidence_tests_run :
  Forall (eq (Some tt))
    [@clean_chain_verifies poly_blake3 text_ulid text_parts face_chrono;
     @tampered_field_detected poly_blake3 text_ulid text_parts face_chrono;
     @deleted_record_detected poly_blake3 text_ulid text_parts face_chrono;
     @reordered_records_detected poly_blake3 text_ulid text_parts face_chrono;
     @forged_tail_detected poly_blake3 text_ulid text_parts face_chrono;
     @genesis_rule_enforced poly_blake3 text_ulid text_parts face_chrono;
     @round_trip_chain_always_verifies poly_blake3 text_ulid text_parts face_chrono 39;
     @hash_is_stable_and_excludes_itself poly_blake3 text_ulid text_parts;
     @any_field_mutation_changes_hash poly_blake3 text_ulid text_parts].
Proof. vm_compute. repeat constructor. Qed.
