(* ===== verification/FormatTests.v ===== *)
(** * The unit tests of the formats (hash.rs, jcs.rs, merkle.rs, projection.rs)

    The tests of these files as functions that pass or panic, in the manner of
    Scenarios. They pass for every hash function; where a test relies on two
    hashes to differ, that is a hypothesis of its theorem. *)

From Stdlib Require Import Strings.Byte Floats.SpecFloat.
From S2P Require Import Prelude Text Errors Hash Merkle Json Jcs JcsFacts Record Chain Recorder Projection Reader Scenarios.

(** [assert!(r.is_err())]. *)
Definition ensure_err {E A} (r : result E A) : Test := ensure (negb (is_ok r)).

(** [assert_eq!(x, y)]. *)
Definition ensure_eq {A} `{EqDecision A} (x y : A) : Test := ensure (bool_decide (x = y)).

(** A [for] loop over a list in a test. *)
Definition for_each {A} (l : list A) (f : A → Test) : Test :=
  foldr (λ x rest, _ ← f x; rest) (Some tt) l.

Lemma for_each_passes {A} (l : list A) f : (∀ x, x ∈ l → f x = Some tt) → for_each l f = Some tt.
Proof.
  induction l as [|x l IH]; intros Hf; [done|]. cbn. rewrite Hf by left. cbn. apply IH. intros. apply Hf. by right.
Qed.

Lemma ensure_err_passes {E A} (r : result E A) : (∀ a, r ≠ Ok a) → ensure_err r = Some tt.
Proof. destruct r as [a|]; [|done]. intros Hr. by destruct (Hr a). Qed.

Lemma ensure_eq_passes {A} `{EqDecision A} (x : A) : ensure_eq x x = Some tt.
Proof. unfold ensure_eq. by rewrite bool_decide_true. Qed.

(** ** hash.rs *)

Definition hash_hex_round_trip : Test :=
  let bytes := [x00; x01; xab; xff] in
  let h := hex_encode bytes in
  _ ← ensure_eq h (str "0001abff");
  v ← unwrap (hex_decode "t" h);
  _ ← ensure_eq v bytes;
  v ← unwrap (hex_decode "t" (str "0001ABFF"));
  _ ← ensure_eq v bytes;
  _ ← ensure_err (hex_decode "t" (str "xyz"));
  ensure_err (hex_decode "t" (str "abc")).

Lemma hash_hex_round_trip_passes : hash_hex_round_trip = Some tt.
Proof. vm_compute. reflexivity. Qed.

(** [str::to_lowercase] of ASCII text. *)
Definition to_lowercase (s : rstring) : rstring :=
  (λ c, if (65 <=? c) && (c <=? 90) then c + 32 else c) <$> s.

Definition blake3_known_shape `{Blake3} : Test :=
  let h := blake3_hex (byte_str "sealr") in
  _ ← ensure (str_len h =? 64);
  ensure_eq h (to_lowercase h).

Lemma lower_hex_stays s : Forall (λ c, is_lower_hex c = true) s → to_lowercase s = s.
Proof.
  unfold to_lowercase. induction 1 as [|c s Hc _ IH]; [done|]. cbn. rewrite IH. f_equal.
  unfold is_lower_hex in Hc. destruct (Z.leb_spec 65 c), (Z.leb_spec c 90); cbn; lia.
Qed.

Lemma hex_str_len bs : str_len (hex_encode bs) = 2 * Z.of_nat (length bs).
Proof. unfold str_len. rewrite as_bytes_hex, length_fmap, hex_encode_length. lia. Qed.

Lemma blake3_known_shape_passes `{Blake3, !Blake3Len} : blake3_known_shape = Some tt.
Proof.
  unfold blake3_known_shape, blake3_hex. rewrite hex_str_len, blake3_length. cbn [mbind option_bind].
  change (ensure (_ =? 64)) with (Some tt). cbn [mbind option_bind].
  rewrite lower_hex_stays; [apply ensure_eq_passes|]. eapply Forall_impl; [apply hex_encode_ascii|]. by intros c [].
Qed.

(** ** jcs.rs *)

(** Text in quotation marks. *)
Definition quoted (s : rstring) : rstring := [0x22] ++ s ++ [0x22].

Definition json_int (z : Z) : value := Number (Int z).

Definition jcs (v : value) : option rstring := bs ← unwrap (to_jcs_bytes v); from_utf8 bs.

Definition sorts_keys_and_compacts : Test :=
  let v := Object [(str "b", json_int 2); (str "a", json_int 1);
                   (str "c", Object [(str "z", Null); (str "y", Array [Bool true; Bool false])])] in
  s ← jcs v;
  ensure_eq s (str "{" ++ quoted (str "a") ++ str ":1," ++ quoted (str "b") ++ str ":2," ++ quoted (str "c") ++
    str ":{" ++ quoted (str "y") ++ str ":[true,false]," ++ quoted (str "z") ++ str ":null}}").

Definition escapes_per_rfc8785 : Test :=
  let v := Object [(str "k", String (str "a" ++ [0x22] ++ str "b\c" ++ [0x07; 0x0A; 0x09]))] in
  s ← jcs v;
  ensure_eq s (str "{" ++ quoted (str "k") ++ str ":" ++
    quoted (str "a\" ++ [0x22] ++ str "b\\c\u0007\n\t") ++ str "}").

(** [str::find] of a character: the byte where it starts first. *)
Definition find_char (c : char) (s : rstring) : option Z :=
  '(i, _) ← list_find (λ d, d = c) s; mret (str_len (take i s)).

Definition utf16_key_ordering : Test :=
  let v := Object [([0xE000], json_int 1); ([0x10000], json_int 2)] in
  out ← jcs v;
  pos_supplementary ← find_char 0x10000 out;
  pos_private ← find_char 0xE000 out;
  ensure (pos_supplementary <? pos_private).

(** [1.5] and [10.0]. *)
Definition one_and_a_half : spec_float := Eval vm_compute in binary_normalize 53 1024 3 (-1) false.
Definition ten : spec_float := Eval vm_compute in binary_normalize 53 1024 10 0 false.

Definition rejects_fractions_and_unsafe_integers : Test :=
  let x v := Object [(str "x", Number v)] in
  _ ← ensure_err (to_jcs_bytes (x (Float one_and_a_half)));
  _ ← ensure_err (to_jcs_bytes (x (Int 9007199254740992)));
  s ← jcs (x (Int 9007199254740991));
  _ ← ensure_eq s (str "{" ++ quoted (str "x") ++ str ":9007199254740991}");
  s ← jcs (x (Int (-42)));
  ensure_eq s (str "{" ++ quoted (str "x") ++ str ":-42}").

Definition double_text : rstring := str "{" ++ quoted (str "x") ++ str ": 10.0}".

Definition integral_double_serializes_as_integer `{JsonParser} : Test :=
  v ← parse_value (as_bytes double_text);
  s ← jcs v;
  ensure_eq s (str "{" ++ quoted (str "x") ++ str ":10}").

Definition unicode_passthrough : Test :=
  let text := [0x64; 0xE9; 0x6A; 0xE0] ++ str " vu " ++ [0x2713] in
  s ← jcs (Object [([0x20AC], String text)]);
  ensure_eq s (str "{" ++ quoted [0x20AC] ++ str ":" ++ quoted text ++ str "}").

Lemma jcs_tests_pass :
  Forall (eq (Some tt)) [sorts_keys_and_compacts; escapes_per_rfc8785; utf16_key_ordering;
    rejects_fractions_and_unsafe_integers; unicode_passthrough].
Proof. repeat constructor; vm_compute; reflexivity. Qed.

Lemma integral_double_passes `{JsonParser} :
  parse_value (as_bytes double_text) = Some (Object [(str "x", Number (Float ten))]) →
  integral_double_serializes_as_integer = Some tt.
Proof. intros Hp. unfold integral_double_serializes_as_integer. rewrite Hp. vm_compute. reflexivity. Qed.

(** ** merkle.rs *)

(** [format!("leaf-{i}").into_bytes()] for [i] in [0..n]. *)
Definition test_leaves (n : nat) : list bytes :=
  (λ i, byte_str "leaf-" ++ dec_bytes (Z.of_nat i)) <$> seq 0 n.

Section merkle_tests.
Context `{Blake3}.

Definition single_leaf_root_is_leaf_hash : Test :=
  ensure_eq (merkle_root (test_leaves 1)) (leaf_hash (byte_str "leaf-0")).

Definition known_two_leaf_shape : Test :=
  let expected := node_hash (leaf_hash (byte_str "leaf-0")) (leaf_hash (byte_str "leaf-1")) in
  ensure_eq (merkle_root (test_leaves 2)) expected.

Definition inclusion_proofs_verify_for_all_sizes_and_indices : Test :=
  for_each (seq 1 33) (λ n,
    let l := test_leaves n in
    let root := merkle_root l in
    for_each (seq 0 n) (λ i,
      proof ← unwrap (inclusion_proof l i);
      leaf ← l !! i;
      unwrap (verify_inclusion leaf i n proof root))).

Definition tampered_leaf_fails_verification : Test :=
  let l := test_leaves 7 in
  let root := merkle_root l in
  proof ← unwrap (inclusion_proof l 3);
  ensure_err (verify_inclusion (byte_str "leaf-X") 3 7 proof root).

Definition root_changes_with_any_leaf_change : Test :=
  let l1 := test_leaves 8 in
  let l2 := <[5%nat := byte_str "tampered"]> (test_leaves 8) in
  ensure (negb (bool_decide (hex_encode (merkle_root l1) = hex_encode (merkle_root l2)))).

Lemma single_leaf_passes : single_leaf_root_is_leaf_hash = Some tt.
Proof. apply ensure_eq_passes. Qed.

Lemma two_leaf_passes : known_two_leaf_shape = Some tt.
Proof. apply ensure_eq_passes. Qed.

Theorem inclusion_proofs_pass : inclusion_proofs_verify_for_all_sizes_and_indices = Some tt.
Proof.
  apply for_each_passes. intros n _. apply for_each_passes. intros i [_ Hi]%elem_of_seq.
  assert (length (test_leaves n) = n) as Hlen by (unfold test_leaves; by rewrite length_fmap, length_seq).
  destruct (lookup_lt_is_Some_2 (test_leaves n) i) as [leaf Hl]; [lia|].
  unfold inclusion_proof. rewrite (proj2 (Nat.leb_gt _ _)) by lia. cbn [unwrap res_ok mbind option_bind].
  rewrite Hl. cbn [mbind option_bind]. rewrite <-Hlen at 1. by rewrite path_verifies.
Qed.

(** BLAKE3 does not collide on what is hashed for the root and the proof. *)
Theorem tampered_leaf_passes `{!Blake3Len} :
  collision_free_on blake3_hash
    (merkle_inputs (test_leaves 7) ++ verify_inputs (byte_str "leaf-X") (path (test_leaves 7) 3 [])) →
  tampered_leaf_fails_verification = Some tt.
Proof.
  intros Hcf. unfold tampered_leaf_fails_verification. cbv zeta.
  change (inclusion_proof (test_leaves 7) 3) with (Ok (path (test_leaves 7) 3 []) : Result (list ProofStep)).
  cbn [unwrap res_ok mbind option_bind].
  apply ensure_err_passes. intros [] Hv.
  destruct (verified_leaf (test_leaves 7) (byte_str "leaf-X") 3 7 (path (test_leaves 7) 3 [])) as (i & Hi & _); try done.
  - apply path_siblings. unfold test_leaves. rewrite length_fmap, length_seq. lia.
  - apply list_elem_of_lookup_2 in Hi. revert Hi. by_compute.
Qed.

(** BLAKE3 does not collide on what is hashed for the two roots. *)
Theorem root_change_passes `{!Blake3Len} :
  collision_free_on blake3_hash
    (merkle_inputs (test_leaves 8) ++ merkle_inputs (<[5%nat := byte_str "tampered"]> (test_leaves 8))) →
  root_changes_with_any_leaf_change = Some tt.
Proof.
  intros Hcf. unfold root_changes_with_any_leaf_change, ensure. rewrite bool_decide_false; [done|].
  intros Heq%hex_encode_inj%merkle_root_inj; [|done]. revert Heq. by_compute.
Qed.
End merkle_tests.

(** ** projection.rs *)

(** [record.action.operation = op; record.subject.agent_session = session]. *)
Definition set_operation_session (op session : rstring) (r : EvRecord) : EvRecord :=
  {| rec_schema_version := rec_schema_version r; rec_record_id := rec_record_id r;
     rec_stream_id := rec_stream_id r; rec_segment_id := rec_segment_id r; rec_seq := rec_seq r;
     rec_ts_wall := rec_ts_wall r; rec_ts_mono_ns := rec_ts_mono_ns r;
     rec_record_type := rec_record_type r; rec_recorder := rec_recorder r;
     rec_subject := {| sub_agent_kind := sub_agent_kind (rec_subject r); sub_agent_session := session;
                       sub_human_principal := sub_human_principal (rec_subject r);
                       sub_attribution := sub_attribution (rec_subject r);
                       sub_source := sub_source (rec_subject r) |};
     rec_action := {| act_integration := act_integration (rec_action r); act_operation := op;
                      act_verb_class := act_verb_class (rec_action r);
                      act_target_resource := act_target_resource (rec_action r);
                      act_resource_labels := act_resource_labels (rec_action r) |};
     rec_action_detail := rec_action_detail r;
     rec_payload_commitment := rec_payload_commitment r; rec_payload_ref := rec_payload_ref r;
     rec_verdict := rec_verdict r; rec_approval_ref := rec_approval_ref r; rec_links := rec_links r;
     rec_prev_hash := rec_prev_hash r; rec_record_hash := rec_record_hash r |}.

(** [s.ends_with(c)]. *)
Definition ends_with (c : char) (s : rstring) : bool := bool_decide (list.last s = Some c).

Definition hostile_operation : rstring :=
  str "evil" ++ [0x0D; 0x0A] ++ str "Inject: header" ++ [0x00; 0x1B] ++ str "[31m".

Definition hostile_strings_sanitized `{Blake3} `{UlidApi, !UlidParts} : Test :=
  let r := sample_unchained (ulid_from_parts 1 1) (ulid_from_parts 1 2) 0 in
  '(r, _) ← unwrap (finalize (set_operation_session hostile_operation (repeat_str "x" 2000) r));
  let proj := console_safe r in
  let session := sub_agent_session (csr_subject proj) in
  _ ← ensure_eq (act_operation (csr_action proj)) (str "evilInject: header[31m");
  _ ← ensure (Z.of_nat (length session) <=? MAX_PROJECTED_STRING + 1);
  ensure (ends_with ELLIPSIS session).

Definition sanitize_respects_char_boundaries : Test :=
  let s := mjoin (replicate 600 [0xE9]) in
  let out := sanitize s MAX_PROJECTED_STRING in
  ensure (ends_with ELLIPSIS out).

Lemma char_boundaries_pass : sanitize_respects_char_boundaries = Some tt.
Proof. vm_compute. reflexivity. Qed.

Lemma finalize_sample `{Blake3} `{UlidApi, !UlidLaws, !UlidParts} r :
  numbers_typed r = true → recordable r = true → rec_seq r = 0 →
  ∃ hash, finalize r = Ok (set_record_hash hash r, hash).
Proof.
  intros Ht Hr Hs. destruct (relinked r 0 (rec_prev_hash r) Ht Hr) as (r' & hash & Hf & _ & Hr'); [unfold MAX_SAFE_INTEGER; lia|].
  exists hash. assert (set_link 0 (rec_prev_hash r) r = r) as Heq by (rewrite <-Hs; by destruct r).
  rewrite Heq in Hf, Hr'. by rewrite Hf, Hr'.
Qed.

Theorem hostile_strings_pass `{Blake3} `{UlidApi, !UlidLaws, !UlidParts} : hostile_strings_sanitized = Some tt.
Proof.
  unfold hostile_strings_sanitized. cbv zeta.
  destruct (sample_fits (ulid_from_parts 1 1) (ulid_from_parts 1 2) 0) as (_ & Ht & Hr); [lia|].
  destruct (finalize_sample (set_operation_session hostile_operation (repeat_str "x" 2000)
    (sample_unchained (ulid_from_parts 1 1) (ulid_from_parts 1 2) 0))) as (hash & ->); done.
Qed.
