(* ===== verification/OpsTests.v ===== *)
(** * The unit tests of the signed documents (keys.rs, commitment.rs,
    revocation.rs, checkpoint.rs, certs.rs, anchors.rs)

    The tests of these files as functions that pass or panic, in the manner of
    Scenarios; keys and salts are drawn from the random source. They pass for
    every hash function, signature scheme, clock and certificate library with
    the documented laws. That a signature is not accepted for what was not
    signed, and that two hashes differ, are hypotheses about the inputs of the
    test. *)

From Stdlib Require Import Strings.Byte.
From S2P Require Import Prelude Text Errors Hash Merkle Json Jcs JcsFacts Record Chain Recorder Keys.
From S2P Require Import Checkpoint Revocation Commitment Certs Bundle Anchors Report Reader Tsa Ctx Streams.
From S2P Require Import Identity Issue Scenarios FormatTests.

(** ** Facts: signatures over other documents *)

Section rejected.
Context `{Blake3, !Blake3Len} `{Ed25519}.

Lemma not_forged_signed {A} `{Serialize A} k (x : A) sg ctx ds :
  not_forged k sg ds → verify_jcs k x sg ctx = Ok tt → blake3_raw (signed_bytes x) ∈ ds.
Proof.
  intros Hnf (bs & Hbs & (s & Hs & _ & Hver)%verify_digest_Ok)%bind_Ok. unfold signed_bytes. rewrite Hbs.
  by apply (Hnf _ s); [apply blake3_length| |].
Qed.

(** The signature over one document is rejected for another. *)
Lemma other_rejected {A} `{Serialize A} k (x y : A) sg ctx :
  not_forged k sg [blake3_raw (signed_bytes x)] →
  collision_free_on blake3_hash [signed_bytes x; signed_bytes y] → signed_bytes x ≠ signed_bytes y →
  ensure_err (verify_jcs k y sg ctx) = Some tt.
Proof.
  intros Hnf Hcf Hne. apply ensure_err_passes. intros [] Hv.
  apply (not_forged_signed _ _ _ _ _ Hnf), list_elem_of_singleton in Hv.
  apply Hne. apply Hcf; [left|right; left|done].
Qed.

(** The signature of another key is rejected. *)
Lemma stranger_rejected {A} `{Serialize A} k (x : A) sg ctx :
  not_forged k sg [] → ensure_err (verify_jcs k x sg ctx) = Some tt.
Proof.
  intros Hnf. apply ensure_err_passes. intros [] Hv. by apply (not_forged_signed _ _ _ _ _ Hnf), not_elem_of_nil in Hv.
Qed.
End rejected.

(** ** keys.rs *)

(** A [serde_json::Value] is serialized as it is. *)
Global Instance value_serialize : Serialize value := λ v, v.

(** [json!({"a": a, "b": "x"})]. *)
Definition signed_json (a : Z) : value := Object [(str "a", json_int a); (str "b", String (str "x"))].

Section keys_tests.
Context `{Blake3} `{Ed25519} `{!Pkcs8} `{!SpkiPem} `{OsRng} `{!KeyGen}.

Definition keys_sign_verify_round_trip (rng : rng_state) : Test :=
  let '(key, _) := generate rng in
  sig ← unwrap (sign_jcs key (signed_json 1));
  _ ← unwrap (verify_jcs (public_key key) (signed_json 1) sig "test");
  ensure_err (verify_jcs (public_key key) (signed_json 2) sig "test").

Definition pem_round_trips (rng : rng_state) : Test :=
  let '(key, _) := generate rng in
  pem ← unwrap (to_pkcs8_pem key);
  restored ← unwrap (from_pkcs8_pem pem);
  _ ← ensure_eq (verifying_key_hex key) (verifying_key_hex restored);
  vk_pem ← unwrap (vk_to_spki_pem (public_key key));
  vk ← unwrap (vk_from_spki_pem vk_pem);
  ensure_eq (vk_to_hex vk) (verifying_key_hex key).

Definition keys_hex_round_trip (rng : rng_state) : Test :=
  let '(key, _) := generate rng in
  vk ← unwrap (vk_from_hex (verifying_key_hex key));
  ensure_eq (vk_to_hex vk) (verifying_key_hex key).

Theorem sign_verify_passes `{!Blake3Len, !Ed25519Laws} rng :
  (∀ sig, sign_jcs (generate rng).1 (signed_json 1) = Ok sig →
     not_forged (public_key (generate rng).1) sig [blake3_raw (signed_bytes (signed_json 1))]) →
  collision_free_on blake3_hash [signed_bytes (signed_json 1); signed_bytes (signed_json 2)] →
  keys_sign_verify_round_trip rng = Some tt.
Proof.
  intros Hnf Hcf. unfold keys_sign_verify_round_trip. destruct (generate rng) as [key rng'] eqn:Hg. cbn [fst] in Hnf.
  destruct (sign_jcs key (signed_json 1)) as [sig|] eqn:Hs; [|by vm_compute in Hs]. cbn [unwrap res_ok mbind option_bind].
  rewrite (verify_sign_jcs _ _ _ _ Hs). cbn [unwrap res_ok mbind option_bind].
  apply (other_rejected _ (signed_json 1)); [by apply Hnf|done|]. vm_compute. congruence.
Qed.

Theorem pem_round_trips_pass `{!KeyPemLaws} rng :
  is_Some (ed_to_pkcs8_pem (generate rng).1) → is_Some (ed_vk_to_pem (ed_public (generate rng).1)) →
  pem_round_trips rng = Some tt.
Proof.
  unfold pem_round_trips. destruct (generate rng) as [key rng']. intros [pem Hp] [vpem Hv]. cbn [fst] in *.
  unfold to_pkcs8_pem, from_pkcs8_pem, vk_to_spki_pem, vk_from_spki_pem, public_key.
  rewrite Hp, Hv. cbn [ok_or unwrap res_ok mbind option_bind]. rewrite (ed_pkcs8_pem _ _ Hp), (ed_spki_pem _ _ Hv).
  cbn [ok_or unwrap res_ok mbind option_bind]. by rewrite !ensure_eq_passes.
Qed.

Theorem keys_hex_round_trip_passes `{!Ed25519Laws} rng : keys_hex_round_trip rng = Some tt.
Proof.
  unfold keys_hex_round_trip. destruct (generate rng) as [key rng'].
  destruct (decoded_key (ed_public key)) as (v & Hd & Hb). unfold vk_from_hex, vk_to_hex, verifying_key_hex.
  rewrite hex_decode_encode. cbn [mbind result_bind]. rewrite Hd. cbn [unwrap res_ok mbind option_bind].
  rewrite Hb. apply ensure_eq_passes.
Qed.
End keys_tests.

(** ** commitment.rs *)

Section commitment_tests.
Context `{Blake3} `{OsRng}.

Definition commitment_round_trip (rng : rng_state) : Test :=
  let '(salt, rng) := salt_random rng in
  let c := commit (byte_str "DELETE FROM users") salt in
  _ ← ensure (verify_commitment (byte_str "DELETE FROM users") salt c);
  _ ← ensure (negb (verify_commitment (byte_str "DELETE FROM other") salt c));
  let '(salt', _) := salt_random rng in
  ensure (negb (verify_commitment (byte_str "DELETE FROM users") salt' c)).

Definition same_payload_different_salt_different_commitment (rng : rng_state) : Test :=
  let '(salt1, rng) := salt_random rng in
  let c1 := commit (byte_str "SELECT 1") salt1 in
  let '(salt2, _) := salt_random rng in
  let c2 := commit (byte_str "SELECT 1") salt2 in
  ensure (negb (bool_decide (pc_commitment c1 = pc_commitment c2))).

Definition commitment_salt_hex_round_trip (rng : rng_state) : Test :=
  let '(s, _) := salt_random rng in
  restored ← unwrap (salt_from_hex (salt_to_hex s));
  ensure_eq s restored.

(** The salts that a test draws. *)
Definition first_salt (rng : rng_state) : bytes := (salt_random rng).1.
Definition second_salt (rng : rng_state) : bytes := (salt_random (salt_random rng).2).1.

Lemma commitment_differs p s p' s' :
  collision_free_on blake3_hash [s ++ p; s' ++ p'] → s ++ p ≠ s' ++ p' →
  pc_commitment (commit p s) ≠ pc_commitment (commit p' s').
Proof. intros Hcf Hne Heq%blake3_hex_inj. apply Hne, Hcf; [left|right; left|done]. Qed.

Lemma commitment_rejected p s p' s' :
  collision_free_on blake3_hash [s ++ p; s' ++ p'] → s ++ p ≠ s' ++ p' →
  ensure (negb (verify_commitment p' s' (commit p s))) = Some tt.
Proof.
  intros Hcf Hne. unfold ensure. destruct (verify_commitment p' s' (commit p s)) eqn:Hv; [|done].
  apply verify_commitment_iff in Hv. by destruct (commitment_differs p s p' s' Hcf Hne); rewrite Hv.
Qed.

Theorem commitment_round_trip_passes rng :
  first_salt rng ≠ second_salt rng →
  collision_free_on blake3_hash [first_salt rng ++ byte_str "DELETE FROM users";
    first_salt rng ++ byte_str "DELETE FROM other"; second_salt rng ++ byte_str "DELETE FROM users"] →
  commitment_round_trip rng = Some tt.
Proof.
  unfold commitment_round_trip, first_salt, second_salt. destruct (salt_random rng) as [s rng1]. cbn [fst snd].
  destruct (salt_random rng1) as [s' rng2]. cbn [fst]. intros Hne Hcf.
  rewrite (proj2 (verify_commitment_iff _ _ _) eq_refl). cbn [ensure mbind option_bind].
  rewrite (commitment_rejected (byte_str "DELETE FROM users") s (byte_str "DELETE FROM other") s);
    cbn [mbind option_bind].
  - apply commitment_rejected; [eapply collision_free_mono; [|exact Hcf]; set_solver|].
    intros [Heq _]%app_inj_2; [by apply Hne|done].
  - eapply collision_free_mono; [|exact Hcf]. set_solver.
  - intros Heq%app_inv_head. revert Heq. by_compute.
Qed.

Theorem different_salts_pass rng :
  first_salt rng ≠ second_salt rng →
  collision_free_on blake3_hash [first_salt rng ++ byte_str "SELECT 1"; second_salt rng ++ byte_str "SELECT 1"] →
  same_payload_different_salt_different_commitment rng = Some tt.
Proof.
  unfold same_payload_different_salt_different_commitment, first_salt, second_salt.
  destruct (salt_random rng) as [s rng1]. cbn [fst snd]. destruct (salt_random rng1) as [s' rng2]. cbn [fst].
  intros Hne Hcf. unfold ensure. rewrite bool_decide_false; [done|]. apply commitment_differs; [done|].
  intros [Heq _]%app_inj_2; [by apply Hne|done].
Qed.

Theorem salt_hex_passes rng : length (first_salt rng) = 32%nat → commitment_salt_hex_round_trip rng = Some tt.
Proof.
  unfold commitment_salt_hex_round_trip, first_salt. destruct (salt_random rng) as [s rng']. cbn [fst]. intros Hlen.
  unfold salt_from_hex, salt_to_hex. rewrite hex_decode_encode. cbn [mbind result_bind]. rewrite decide_True by done.
  cbn [unwrap res_ok mbind option_bind]. apply ensure_eq_passes.
Qed.
End commitment_tests.

(** ** revocation.rs *)

Section revocation_tests.
Context `{Blake3} `{Ed25519} `{ChronoApi} `{OsRng} `{!KeyGen}.

Definition boundary_list : RevocationList :=
  {| rl_updated_at := str "2026-08-11T00:00:00.000Z";
     rl_revocations := [{| re_cert_fingerprint := repeat_str "ab" 32;
                           re_effective_at := str "2026-08-10T00:00:00.000Z";
                           re_reason := str "key_compromise" |}] |}.

Definition revocation_boundary (rng : rng_state) : Test :=
  let '(key, _) := generate rng in
  signed ← unwrap (srl_create boundary_list (str "k1") key);
  _ ← unwrap (srl_verify signed (public_key key));
  before ← unwrap (parse_wall (str "2026-08-09T00:00:00.000Z"));
  after ← unwrap (parse_wall (str "2026-08-10T00:00:01.000Z"));
  let fp := repeat_str "ab" 32 in
  _ ← ensure (negb (is_revoked_at signed fp before));
  _ ← ensure (is_revoked_at signed fp after);
  ensure (negb (is_revoked_at signed (repeat_str "cd" 32) after)).

Definition untouched_list : RevocationList :=
  {| rl_updated_at := str "2026-08-11T00:00:00.000Z"; rl_revocations := [] |}.

(** [signed.list.revocations.push(e)]. *)
Definition push_revocation (e : RevocationEntry) (s : SignedRevocationList) : SignedRevocationList :=
  {| srl_list := {| rl_updated_at := rl_updated_at (srl_list s);
                    rl_revocations := rl_revocations (srl_list s) ++ [e] |};
     srl_console_key_id := srl_console_key_id s; srl_signature := srl_signature s |}.

Definition pushed_entry : RevocationEntry :=
  {| re_cert_fingerprint := repeat_str "00" 32; re_effective_at := str "2026-08-11T00:00:00.000Z";
     re_reason := str "x" |}.

Definition tampered_list_fails (rng : rng_state) : Test :=
  let '(key, _) := generate rng in
  signed ← unwrap (srl_create untouched_list (str "k1") key);
  ensure_err (srl_verify (push_revocation pushed_entry signed) (public_key key)).

Lemma srl_create_signed l kid key :
  is_ok (struct_to_jcs_bytes l) = true →
  ∃ sg, sign_jcs key l = Ok sg ∧
    srl_create l kid key = Ok {| srl_list := l; srl_console_key_id := kid; srl_signature := sg |}.
Proof. unfold srl_create, sign_jcs. destruct (struct_to_jcs_bytes l) as [bs|]; [|done]. intros _. by eexists. Qed.

(** The clock reads the three times, in their order. *)
Theorem revocation_boundary_passes `{!Ed25519Laws} rng before eff after :
  parse_from_rfc3339 (str "2026-08-09T00:00:00.000Z") = Some before →
  parse_from_rfc3339 (str "2026-08-10T00:00:00.000Z") = Some eff →
  parse_from_rfc3339 (str "2026-08-10T00:00:01.000Z") = Some after →
  datetime_geb before eff = false → datetime_geb after eff = true →
  revocation_boundary rng = Some tt.
Proof.
  intros Hb He Ha Hbe Hae. unfold revocation_boundary. destruct (generate rng) as [key rng'].
  destruct (srl_create_signed boundary_list (str "k1") key) as (sg & Hs & ->); [by_compute|].
  cbn [unwrap res_ok mbind option_bind]. unfold srl_verify. cbn [srl_list srl_signature].
  rewrite (verify_sign_jcs _ _ _ _ Hs). unfold parse_wall. rewrite Hb, Ha.
  cbn [ok_or unwrap res_ok mbind option_bind]. cbv zeta.
  assert (∀ fp at_, is_revoked_at {| srl_list := boundary_list; srl_console_key_id := str "k1"; srl_signature := sg |}
    fp at_ = bool_decide (repeat_str "ab" 32 = fp) && datetime_geb at_ eff) as Hrev.
  { intros fp at_. unfold is_revoked_at, entry_revokes. cbn [srl_list boundary_list rl_revocations existsb
      re_cert_fingerprint re_effective_at]. unfold parse_wall. rewrite He. cbn [ok_or]. by rewrite orb_false_r. }
  rewrite !Hrev, Hbe, Hae. vm_compute. reflexivity.
Qed.

Theorem tampered_list_passes `{!Blake3Len} rng :
  let tampered := {| rl_updated_at := rl_updated_at untouched_list; rl_revocations := [pushed_entry] |} in
  (∀ sig, sign_jcs (generate rng).1 untouched_list = Ok sig →
     not_forged (public_key (generate rng).1) sig [blake3_raw (signed_bytes untouched_list)]) →
  collision_free_on blake3_hash [signed_bytes untouched_list; signed_bytes tampered] →
  tampered_list_fails rng = Some tt.
Proof.
  intros tampered Hnf Hcf. unfold tampered_list_fails. destruct (generate rng) as [key rng']. cbn [fst] in Hnf.
  destruct (srl_create_signed untouched_list (str "k1") key) as (sg & Hs & ->); [by_compute|].
  cbn [unwrap res_ok mbind option_bind]. apply (other_rejected _ untouched_list tampered); [by apply Hnf|done|].
  by_compute.
Qed.
End revocation_tests.

(** ** checkpoint.rs *)

Section checkpoint_tests.
Context `{Blake3} `{Ed25519} `{UlidApi, !UlidParts} `{OsRng} `{!KeyGen}.

Definition checkpoint_chained (n : Z) : option (list EvRecord) :=
  chain_samples (ulid_from_parts 9 9) (ulid_from_parts 9 10) n.

(** [build_note] as the tests call it, with their identifiers. *)
Definition tested_note (id : ulid) (records : list EvRecord) : Result CheckpointNote :=
  build_note (ulid_to_string id) records (str "2026-08-11T12:01:00.000Z") (str "fp").

Definition checkpoint_sign_verify_round_trip (rng : rng_state) : Test :=
  records ← checkpoint_chained 25;
  let '(key, _) := generate rng in
  note ← unwrap (tested_note (ulid_from_parts 2 2) records);
  signed ← unwrap (sign_note note key);
  _ ← unwrap (sc_verify signed (public_key key));
  unwrap (verify_root signed (rec_record_hash <$> records)).

Definition forged_signature_rejected (rng : rng_state) : Test :=
  records ← checkpoint_chained 5;
  let '(key, rng) := generate rng in
  let '(other, _) := generate rng in
  note ← unwrap (tested_note (ulid_from_parts 2 3) records);
  signed ← unwrap (sign_note note other);
  ensure_err (sc_verify signed (public_key key)).

(** [hashes[i] = h], which panics out of range. *)
Definition set_hash (i : nat) (h : rstring) (hashes : list rstring) : option (list rstring) :=
  _ ← hashes !! i; mret (<[i := h]> hashes).

Definition tampered_record_set_fails_root (rng : rng_state) : Test :=
  records ← checkpoint_chained 10;
  let '(key, _) := generate rng in
  note ← unwrap (tested_note (ulid_from_parts 2 4) records);
  signed ← unwrap (sign_note note key);
  hashes ← set_hash 3 (repeat_str "ee" 32) (rec_record_hash <$> records);
  ensure_err (verify_root signed hashes).

Definition non_contiguous_rejected : Test :=
  records ← checkpoint_chained 10;
  records ← vec_remove 4 records;
  ensure_err (tested_note (ulid_from_parts 2 5) records).

Definition countersignature_round_trip (rng : rng_state) : Test :=
  let '(console, rng) := generate rng in
  cs ← unwrap (cs_create (str "cp-1") (str "2026-08-11T12:02:00.000Z") (str "console-key-1") (Some 41) console);
  _ ← unwrap (cs_verify cs (public_key console));
  let '(stranger, _) := generate rng in
  ensure_err (cs_verify cs (public_key stranger)).
End checkpoint_tests.

Section checkpoint_tests_pass.
Context `{Blake3, !Blake3Len} `{Ed25519, !Ed25519Laws} `{UlidApi, !UlidLaws, !UlidParts} `{OsRng} `{!KeyGen}.

(** A document whose numbers are safe is signed. *)
Lemma safe_signed {A} `{Serialize A} key (x : A) :
  safe_value (to_value x) = true → ∃ sg, sign_jcs key x = Ok sg.
Proof.
  intros Hs. unfold sign_jcs, struct_to_jcs_bytes, to_jcs_bytes. pose proof (write_value_outcome (to_value x)) as Ho.
  rewrite Hs in Ho. destruct (write_value (to_value x)) as [bs|]; [by eexists|by destruct Ho].
Qed.

(** A note can be built and signed over the records from genesis on. *)
Lemma run_noted u segment rs id ts fp :
  segment_run u segment rs → rs ≠ [] → Z.of_nat (length rs) ≤ MAX_SAFE_INTEGER →
  ∃ note, build_note id rs ts fp = Ok note ∧ ∀ key, ∃ sc, sign_note note key = Ok sc ∧ sc_note sc = note.
Proof.
  intros Hrun Hne Hsafe. destruct rs as [|first rs']; [done|]. set (rs := first :: rs') in *.
  destruct (last_is_Some rs) as [_ [l Hl]]; [done|].
  pose proof (run_placed _ _ _ Hrun) as Hall.
  destruct (Hall 0%nat first eq_refl) as (Hf & _).
  assert (rs !! pred (length rs) = Some l) as Hlast by (by rewrite <-last_lookup).
  destruct (Hall _ _ Hlast) as (Hs & Hmax & _).
  assert (∃ root, merkle_root_of_record_hashes (rec_record_hash <$> rs) = Ok root) as [root Hroot].
  { eexists. apply root_of_hashes_Ok. exists ((λ r, default [] (res_ok (hex_decode_digest "record_hash" (rec_record_hash r)))) <$> rs).
    split; [|reflexivity]. apply Forall2_fmap, Forall_Forall2_diag, Forall_lookup. intros i r Hi.
    destruct (Hall i r Hi) as (_ & _ & _ & _ & (bs & _ & -> & _)%compute_hash_of_value_Ok & _).
    unfold blake3_hex. by rewrite hex_decode_digest_encode by apply blake3_length. }
  assert (length rs = S (length rs')) as Hlen by done.
  eexists. split.
  - apply build_note_Ok. exists first, l, root. split_and!; [done|done| |done|reflexivity].
    apply contiguous_spec; unfold MAX_SAFE_INTEGER, u64_max in *; lia.
  - intros key. destruct (safe_signed key {| cn_checkpoint_id := id; cn_stream_id := rec_stream_id first;
      cn_segment_id := rec_segment_id first; cn_seq_from := rec_seq first; cn_seq_to := rec_seq l;
      cn_chain_head_hash := rec_record_hash l; cn_merkle_root := root; cn_tree_size := wrap_u64 (Z.of_nat (length rs));
      cn_ts_wall := ts; cn_recorder_cert_fingerprint := fp; cn_prev_checkpoint_hash := None |}) as [sg Hsg].
    + unfold to_value, CheckpointNote_serialize. rewrite safe_object. cbn [forallb app opt_field fmap option_fmap option_map
        snd safe_value cn_seq_from cn_seq_to cn_tree_size cn_prev_checkpoint_hash andb].
      rewrite !safe_u64 by (first [apply wrap_u64_range|apply is_u64_spec; unfold MAX_SAFE_INTEGER, u64_max in *; lia]).
      rewrite wrap_u64_id by (apply is_u64_spec; unfold MAX_SAFE_INTEGER, u64_max in *; lia).
      unfold MAX_SAFE_INTEGER in *. lia.
    + unfold sign_note. rewrite Hsg. by eexists.
Qed.

(** The notes of the tests. *)
Lemma chained_noted n id :
  0 < n ≤ 60 →
  ∃ rs note, checkpoint_chained n = Some rs ∧ Z.of_nat (length rs) = n ∧ tested_note id rs = Ok note ∧
    segment_run (ulid_from_parts 9 9) (ulid_to_string (ulid_from_parts 9 10)) rs ∧
    ∀ key, ∃ sc, sign_note note key = Ok sc ∧ sc_note sc = note.
Proof.
  intros Hn. destruct (chain_samples_run (ulid_from_parts 9 9) (ulid_from_parts 9 10) n) as (rs & Hrs & Hlen & Hrun & _); [lia|].
  destruct (run_noted _ _ _ (ulid_to_string id) (str "2026-08-11T12:01:00.000Z") (str "fp") Hrun)
    as (note & Hnote & Hsign); [by intros ->; cbn in Hlen; lia|unfold MAX_SAFE_INTEGER; lia|].
  by exists rs, note.
Qed.

Lemma noted_root rs id note sc :
  tested_note id rs = Ok note → sc_note sc = note →
  merkle_root_of_record_hashes (rec_record_hash <$> rs) = Ok (cn_merkle_root (sc_note sc)) ∧
  verify_root sc (rec_record_hash <$> rs) = Ok tt.
Proof.
  intros Hn Heq. destruct (built_root (note, rs)) as (Hr & Hl & Hlen).
  - exists (ulid_to_string id), (str "2026-08-11T12:01:00.000Z"), (str "fp"), None. unfold build_note_linked.
    unfold tested_note in Hn. cbn [fst snd]. rewrite Hn. apply build_note_Ok in Hn as (? & ? & ? & _ & _ & _ & _ & ->). done.
  - rewrite Heq. split; [done|]. apply verify_root_Ok. by rewrite Heq.
Qed.

Theorem checkpoint_sign_verify_passes rng : checkpoint_sign_verify_round_trip rng = Some tt.
Proof.
  unfold checkpoint_sign_verify_round_trip. destruct (chained_noted 25 (ulid_from_parts 2 2)) as (rs & note & -> & _ & Hn & _ & Hs); [lia|].
  cbn [mbind option_bind]. destruct (generate rng) as [key rng']. rewrite Hn. cbn [unwrap res_ok mbind option_bind].
  destruct (Hs key) as (sc & Hsc & Heq). rewrite Hsc. cbn [unwrap res_ok mbind option_bind].
  apply bind_Ok in Hsc as (sg & Hsg & Hsc). injection Hsc as <-. unfold sc_verify. cbn [sc_note sc_signature].
  rewrite (verify_sign_jcs _ _ _ _ Hsg). cbn [unwrap res_ok mbind option_bind].
  by destruct (noted_root rs _ note {| sc_note := note; sc_signature := sg |} Hn eq_refl) as [_ ->].
Qed.

(** The signature of the other key is no signature of the key. *)
Theorem forged_signature_passes rng :
  let key := (generate rng).1 in let other := (generate (generate rng).2).1 in
  (∀ note sg, sign_jcs other (note : CheckpointNote) = Ok sg → not_forged (public_key key) sg []) →
  forged_signature_rejected rng = Some tt.
Proof.
  cbv zeta. unfold forged_signature_rejected. destruct (chained_noted 5 (ulid_from_parts 2 3)) as (rs & note & -> & _ & Hn & _ & Hs); [lia|].
  cbn [mbind option_bind]. destruct (generate rng) as [key rng1]. cbn [fst snd]. destruct (generate rng1) as [other rng2].
  cbn [fst]. intros Hnf. rewrite Hn. cbn [unwrap res_ok mbind option_bind].
  destruct (Hs other) as (sc & Hsc & Heq). rewrite Hsc. cbn [unwrap res_ok mbind option_bind].
  apply bind_Ok in Hsc as (sg & Hsg & Hsc). injection Hsc as <-. by apply stranger_rejected, (Hnf note).
Qed.

(** The fourth hash is another, and BLAKE3 does not collide on the two trees. *)
Theorem tampered_set_passes rng :
  (∀ rs, checkpoint_chained 10 = Some rs →
     let hashes := rec_record_hash <$> rs in let tampered := <[3%nat := repeat_str "ee" 32]> hashes in
     hashes !! 3%nat ≠ Some (repeat_str "ee" 32) ∧
     collision_free_on blake3_hash (merkle_inputs (leaves_of hashes) ++ merkle_inputs (leaves_of tampered))) →
  tampered_record_set_fails_root rng = Some tt.
Proof.
  intros Hrs. unfold tampered_record_set_fails_root. destruct (chained_noted 10 (ulid_from_parts 2 4)) as (rs & note & Hc & Hlen & Hn & Hrun & Hs); [lia|].
  destruct (Hrs rs Hc) as [Hne Hcf]. rewrite Hc. cbn [mbind option_bind]. destruct (generate rng) as [key rng'].
  rewrite Hn. cbn [unwrap res_ok mbind option_bind]. destruct (Hs key) as (sc & -> & Heq). cbn [unwrap res_ok mbind option_bind].
  destruct (noted_root rs _ note sc Hn Heq) as [Hroot _]. set (hs := rec_record_hash <$> rs) in *.
  destruct (lookup_lt_is_Some_2 rs 3) as [r Hr]; [lia|].
  assert (hs !! 3%nat = Some (rec_record_hash r)) as Hh by (unfold hs; by rewrite list_lookup_fmap, Hr).
  unfold set_hash. rewrite Hh. cbn [mbind option_bind mret option_ret]. apply ensure_err_passes.
  intros [] (_ & Hroot' & _)%verify_root_Ok. pose proof (same_root_same_leaves _ _ _ Hcf Hroot Hroot') as Hl.
  apply root_of_hashes_Ok in Hroot as (l1 & Hf1 & _), Hroot' as (l2 & Hf2 & _).
  rewrite (leaves_of_Forall2 _ _ Hf1), (leaves_of_Forall2 _ _ Hf2) in Hl. subst l2.
  destruct (Forall2_lookup_l _ _ _ _ _ Hf1 Hh) as (d & Hd & Hd1).
  assert (<[3%nat := repeat_str "ee" 32]> hs !! 3%nat = Some (repeat_str "ee" 32)) as Ht.
  { apply list_lookup_insert_eq. by eapply lookup_lt_Some. }
  destruct (Forall2_lookup_l _ _ _ _ _ Hf2 Ht) as (d' & Hd' & Hd2). rewrite Hd in Hd'. injection Hd' as <-.
  apply Hne. rewrite Hh. f_equal.
  destruct (run_placed _ _ _ Hrun 3%nat r Hr) as (_ & _ & _ & _ & (bs & _ & Hbs & _)%compute_hash_of_value_Ok & _).
  rewrite Hbs in Hd1 |- *. unfold blake3_hex in Hd1. rewrite hex_decode_digest_encode in Hd1 by apply blake3_length.
  injection Hd1 as <-.
  change (hex_decode_digest "record_hash" (repeat_str "ee" 32)) with (Ok (replicate 32 xee) : Result bytes) in Hd2.
  injection Hd2 as Hd2. unfold blake3_hex. rewrite <-Hd2. by vm_compute.
Qed.

Theorem non_contiguous_passes : non_contiguous_rejected = Some tt.
Proof.
  unfold non_contiguous_rejected. destruct (chained_noted 10 (ulid_from_parts 2 5)) as (rs & _ & -> & Hlen & _ & Hrun & _); [lia|].
  do 10 (destruct rs as [|? rs]; [done|]). destruct rs; [|cbn in Hlen; lia].
  cbn [mbind option_bind]. change (vec_remove 4 _) with (Some [e; e0; e1; e2; e4; e5; e6; e7; e8]).
  cbn [mbind option_bind]. unfold tested_note, build_note. cbn [head ok_or mbind result_bind].
  change (default e (last [e; e0; e1; e2; e4; e5; e6; e7; e8])) with e8. cbv zeta.
  destruct (run_placed _ _ _ Hrun 0%nat e eq_refl) as [-> _]. destruct (run_placed _ _ _ Hrun 9%nat e8 eq_refl) as [-> _].
  done.
Qed.

(** The other key does not accept the signature. *)
Theorem countersignature_passes rng :
  let console := (generate rng).1 in let stranger := (generate (generate rng).2).1 in
  (∀ note sg, sign_jcs console (note : CountersignatureNote) = Ok sg → not_forged (public_key stranger) sg []) →
  countersignature_round_trip rng = Some tt.
Proof.
  cbv zeta. unfold countersignature_round_trip. destruct (generate rng) as [console rng1]. cbn [fst snd].
  unfold cs_create. set (note := {| csn_checkpoint_id := _ |}). intros Hnf.
  destruct (safe_signed console note) as [sg Hsg]; [vm_compute; reflexivity|].
  rewrite Hsg. cbn [mbind result_bind mret result_ret unwrap res_ok option_bind]. unfold cs_verify. cbn [cs_note cs_signature].
  rewrite (verify_sign_jcs _ _ _ _ Hsg). cbn [unwrap res_ok mbind option_bind].
  destruct (generate rng1) as [stranger rng2]. cbn [fst] in Hnf. by apply stranger_rejected, (Hnf note).
Qed.
End checkpoint_tests_pass.

(** ** certs.rs

    [now i] is what the clock shows when it is read for the [i]-th time. *)

Section certs_tests.
Context `{Blake3} `{Ed25519} `{!Pkcs8} `{X509} `{Rcgen} `{OsRng} `{!KeyGen} (now : nat → Z).

Definition full_hierarchy_round_trip (rng : rng_state) : Test :=
  let '(root_key, rng) := generate rng in
  root_pem ← unwrap (generate_self_signed_ca (now 0) root_key (str "Sealr Root (test)") ROOT_VALIDITY_DAYS);
  let '(tenant_key, rng) := generate rng in
  tenant_pem ← unwrap (issue_intermediate_ca (now 1) tenant_key (str "Sealr Tenant CA test-tenant")
    TENANT_CA_VALIDITY_DAYS root_key root_pem);
  let '(recorder_key, _) := generate rng in
  csr ← unwrap (generate_csr recorder_key (str "recorder-01ABC"));
  recorder_pem ← unwrap (sign_csr (now 2) csr tenant_key tenant_pem RECORDER_CERT_VALIDITY_DAYS);
  validated ← unwrap (validate_chain recorder_pem [tenant_pem] root_pem (now 3));
  _ ← ensure_eq (vc_subject_common_name validated) (str "recorder-01ABC");
  ensure_eq (vk_to_hex (vc_public_key validated)) (verifying_key_hex recorder_key).

Definition wrong_root_rejected (rng : rng_state) : Test :=
  let '(root_key, rng) := generate rng in
  root_pem ← unwrap (generate_self_signed_ca (now 0) root_key (str "Root A") ROOT_VALIDITY_DAYS);
  let '(other_root_key, rng) := generate rng in
  other_root_pem ← unwrap (generate_self_signed_ca (now 1) other_root_key (str "Root B") ROOT_VALIDITY_DAYS);
  let '(tenant_key, rng) := generate rng in
  tenant_pem ← unwrap (issue_intermediate_ca (now 2) tenant_key (str "CA") TENANT_CA_VALIDITY_DAYS root_key root_pem);
  let '(rec_key, _) := generate rng in
  csr ← unwrap (generate_csr rec_key (str "rec"));
  rec_pem ← unwrap (sign_csr (now 3) csr tenant_key tenant_pem RECORDER_CERT_VALIDITY_DAYS);
  ensure_err (validate_chain rec_pem [tenant_pem] other_root_pem (now 4)).

Definition fingerprint_is_stable (rng : rng_state) : Test :=
  let '(key, _) := generate rng in
  pem ← unwrap (generate_self_signed_ca (now 0) key (str "X") 10);
  first ← unwrap (cert_fingerprint pem);
  second ← unwrap (cert_fingerprint pem);
  ensure_eq first second.
End certs_tests.

(** What the tests expect of rcgen and x509-parser beyond their laws: issuing
    does not fail, the common name of a request is read back from its
    certificate, and names differ if their common names do. *)
Record rcgen_works `{Blake3} `{Ed25519} `{!Pkcs8} `{X509} `{Rcgen} `{!DnName} : Prop := {
  root_issued : ∀ now k cn d, is_ok (generate_self_signed_ca now k cn d) = true;
  tenant_issued : ∀ now k cn d now' pk pcn pd ppem, generate_self_signed_ca now' pk pcn pd = Ok ppem →
    is_ok (issue_intermediate_ca now k cn d pk ppem) = true;
  request_made : ∀ k cn, is_ok (generate_csr k cn) = true;
  request_signed : ∀ now now' k cn d ck ccn cd pk ppem cpem request, generate_csr k cn = Ok request →
    issue_intermediate_ca now' ck ccn cd pk ppem = Ok cpem → is_ok (sign_csr now request ck cpem d) = true;
  name_read : ∀ now k cn d ck cpem request pem der x, generate_csr k cn = Ok request →
    sign_csr now request ck cpem d = Ok pem → first_der pem = Ok der → x509_from_der der = Some x →
    common_name x = cn;
  names_differ : ∀ a b, dn_name (ca_name a) = dn_name (ca_name b) → a = b;
}.

(** The certificate authority of the examples is one that works. *)
Lemma authority_rebuilt (c : issued) :
  is_Some (@params_from_ca_cert_pem authority (@cert_pem authority c)).
Proof.
  unfold params_from_ca_cert_pem, authority, cert_pem.
  rewrite <-(app_nil_r (as_bytes _)), read_der_to_pem. cbn -[to_bits of_bits]. rewrite of_to_bits. by eexists.
Qed.

Lemma authority_der (c : issued) :
  @first_der authority_x509 (der_to_pem (to_bits (issued_cert c))) = Ok (to_bits (issued_cert c)).
Proof.
  pose proof (@parse_issued toy_ed25519 toy_pkcs8 authority_x509 authority authority_names authority_laws c) as Hp.
  change (@parse_pem_chain authority_x509 (der_to_pem (to_bits (issued_cert c))) = Ok [to_bits (issued_cert c)]) in Hp.
  unfold first_der. by rewrite Hp.
Qed.

Lemma authority_works `{Blake3} :
  @rcgen_works _ toy_ed25519 toy_pkcs8 authority_x509 authority authority_names.
Proof.
  split.
  - done.
  - intros now k cn d now' pk pcn pd ppem (kp & _ & (c & _ & [= <-])%bind_Ok)%bind_Ok.
    destruct (authority_rebuilt c) as [p Hp]. unfold issue_intermediate_ca.
    cbn [rcgen_keypair to_pkcs8_pem ed_to_pkcs8_pem toy_pkcs8 ok_or mbind result_bind keypair_from_pkcs8 authority].
    change (ok_or (params_from_ca_cert_pem _) _) with (ok_or (E:=EvidenceError) (@params_from_ca_cert_pem authority (@cert_pem authority c)) (Certificate "parse parent CA")).
    by rewrite Hp.
  - done.
  - intros now now' k cn d ck ccn cd pk ppem cpem request [= <-] Hc.
    apply bind_Ok in Hc as (kp1 & _ & (kp2 & _ & Hc)%bind_Ok).
    apply bind_Ok in Hc as (p & _ & (pc & _ & (c & _ & [= <-])%bind_Ok)%bind_Ok).
    destruct (authority_rebuilt c) as [q Hq]. unfold sign_csr.
    change (@params_from_ca_cert_pem authority (der_to_pem (to_bits (issued_cert c))) = Some q) in Hq. rewrite Hq.
    cbn -[to_bits of_bits as_bytes chars]. rewrite as_bytes_to_bits, of_to_bits. done.
  - intros now k cn d ck cpem request pem der x [= <-] Hs Hder Hx.
    apply bind_Ok in Hs as (kp & _ & (p & _ & (cc & _ & Hs)%bind_Ok)%bind_Ok).
    apply bind_Ok in Hs as (q & Hq%ok_or_Ok & (c & [= <-]%ok_or_Ok & [= <-])%bind_Ok).
    cbn -[to_bits of_bits as_bytes chars] in Hq. rewrite as_bytes_to_bits, of_to_bits in Hq. injection Hq as <-.
    rewrite authority_der in Hder.
    injection Hder as <-. cbn -[to_bits of_bits] in Hx. rewrite of_to_bits in Hx. by injection Hx as <-.
  - done.
Qed.

Section certs_tests_pass.
Context `{Blake3} `{Ed25519, !Ed25519Laws} `{!Pkcs8} `{X509} `{Rcgen} `{!DnName} `{!RcgenLaws} `{OsRng} `{!KeyGen}.
Context (Hworks : rcgen_works) (now : nat → Z).

Lemma unwrap_ok {E A B} (r : result E A) (f : A → option B) b :
  is_ok r = true → (∀ a, r = Ok a → f a = Some b) → (a ← unwrap r; f a) = Some b.
Proof. destruct r as [a|]; [|done]. intros _ Hf. by apply Hf. Qed.

(** The clock moves by less than five minutes during the test. *)
Theorem full_hierarchy_passes rng :
  (∀ i j, now i - now j ≤ 300) → is_Some (asn1_from_timestamp (now 3%nat)) →
  full_hierarchy_round_trip now rng = Some tt.
Proof.
  intros Hclock Ht. unfold full_hierarchy_round_trip. destruct (generate rng) as [rk rng1].
  apply unwrap_ok; [by apply root_issued|]. intros root_pem Hr. destruct (generate rng1) as [tk rng2].
  apply unwrap_ok; [by eapply tenant_issued|]. intros tenant_pem Hten. destruct (generate rng2) as [key rng3].
  apply unwrap_ok; [by apply request_made|]. intros csr Hcsr.
  apply unwrap_ok; [by eapply request_signed|]. intros pem Hpem.
  destruct (issued_hierarchy _ _ _ _ key (str "recorder-01ABC") _ _ _ _ _ _ _ _ _ _ (now 3%nat) Hr Hten Hpem)
    as (tc & c & tx & x & -> & -> & _ & _ & _ & _ & Hv).
  destruct (Hv Hcsr) with (leaf := cert_pem c) (tenant := cert_pem tc) as [(v & Hval & Hkey & _) _]; try apply parse_issued; try done.
  - intros Heq%(names_differ Hworks). by apply (f_equal length) in Heq.
  - pose proof (Hclock 3 0)%nat. pose proof (Hclock 0 3)%nat. pose proof (Hclock 3 1)%nat. pose proof (Hclock 1 3)%nat.
    pose proof (Hclock 3 2)%nat. pose proof (Hclock 2 3)%nat.
    repeat constructor; cbn [validity fst snd]; unfold ROOT_VALIDITY_DAYS, TENANT_CA_VALIDITY_DAYS, RECORDER_CERT_VALIDITY_DAYS; lia.
  - rewrite Hval. cbn [unwrap res_ok mbind option_bind].
    apply validated_path in Hval as (ld & rd & pools & leaf & root & at_ & n & Hld & _ & _ & Hleaf & _ & _ & _ & _ & _ & _ & _ & _ & _ & Hname).
    rewrite Hname, (name_read Hworks _ _ _ _ _ _ _ _ _ _ Hcsr Hpem Hld Hleaf), ensure_eq_passes.
    cbn [mbind option_bind]. unfold vk_to_hex, verifying_key_hex. rewrite Hkey. apply ensure_eq_passes.
Qed.

Theorem wrong_root_passes rng : wrong_root_rejected now rng = Some tt.
Proof.
  unfold wrong_root_rejected. destruct (generate rng) as [rk rng1].
  apply unwrap_ok; [by apply root_issued|]. intros root_pem Hr. destruct (generate rng1) as [ok rng2].
  apply unwrap_ok; [by apply root_issued|]. intros other_pem Ho. destruct (generate rng2) as [tk rng3].
  apply unwrap_ok; [by eapply tenant_issued|]. intros tenant_pem Hten. destruct (generate rng3) as [key rng4].
  apply unwrap_ok; [by apply request_made|]. intros csr Hcsr.
  apply unwrap_ok; [by eapply request_signed|]. intros pem Hpem. apply ensure_err_passes. intros v.
  apply (foreign_root_rejected _ _ _ _ _ _ _ _ _ _ _ _ _ _ _ _ _ _ _ _ _ Hr Hten Hpem Ho).
  change (NoDup ((λ cn, dn_name (ca_name cn)) <$> [str "Root A"; str "CA"; str "Root B"])).
  apply NoDup_fmap_2; [intros a b; apply (names_differ Hworks)|by_compute].
Qed.

Theorem fingerprint_stable_passes rng : fingerprint_is_stable now rng = Some tt.
Proof.
  unfold fingerprint_is_stable. destruct (generate rng) as [key rng1].
  apply unwrap_ok; [by apply root_issued|]. intros pem (c & -> & _)%root_reads.
  unfold cert_fingerprint, first_der. rewrite parse_issued. cbn [mbind result_bind hd_error head ok_or unwrap res_ok option_bind].
  apply ensure_eq_passes.
Qed.
End certs_tests_pass.

(** ** anchors.rs *)

Section anchors_tests.
Context `{Blake3} `{Sha256}.

Definition test_batch_leaves : list (rstring * bytes) :=
  (λ i, (str "cp-" ++ (b2z <$> dec_bytes (Z.of_nat i)), blake3_raw (byte_str "note-" ++ dec_bytes (Z.of_nat i)))) <$>
    seq 0 7.

Definition set_leaf (leaf : rstring) (inc : CheckpointInclusion) : CheckpointInclusion :=
  {| ci_checkpoint_id := ci_checkpoint_id inc; ci_leaf := leaf; ci_leaf_index := ci_leaf_index inc;
     ci_tree_size := ci_tree_size inc; ci_proof := ci_proof inc |}.

Definition batch_inclusion_round_trip : Test :=
  batch ← unwrap (build_batch (str "b1") (str "2026-08-11T12:00:00.000Z") test_batch_leaves false);
  _ ← for_each (ab_checkpoints batch) (λ inc, unwrap (verify_stored_inclusion inc (ab_root_blake3 batch)));
  bad ← ab_checkpoints batch !! 2%nat;
  ensure_err (verify_stored_inclusion (set_leaf (repeat_str "00" 32) bad) (ab_root_blake3 batch)).

(** No digest of a note is zero, and BLAKE3 does not collide on what is hashed
    for the root and the proof. *)
Theorem batch_inclusion_passes `{!Blake3Len} :
  replicate 32 x00 ∉ test_batch_leaves.*2 →
  collision_free_on blake3_hash (merkle_inputs test_batch_leaves.*2 ++
    verify_inputs (replicate 32 x00) (path test_batch_leaves.*2 2 [])) →
  batch_inclusion_round_trip = Some tt.
Proof.
  intros Hzero Hcf. unfold batch_inclusion_round_trip.
  assert (Forall (λ p : rstring * bytes, length p.2 = DIGEST_LEN) test_batch_leaves) as Hlen.
  { unfold test_batch_leaves. apply Forall_fmap, Forall_true. intros i. apply blake3_length. }
  rewrite build_batch_Ok. cbn [unwrap res_ok mbind option_bind ab_checkpoints ab_root_blake3].
  rewrite for_each_passes; cbn [mbind option_bind].
  2: { pose proof (built_inclusions_verify _ Hlen) as Hinc. rewrite Forall_forall in Hinc.
       intros inc Hin. by rewrite (Hinc inc Hin). }
  change ((inclusion_of test_batch_leaves.*2 <$> imap pair test_batch_leaves) !! 2%nat)
    with (Some (inclusion_of test_batch_leaves.*2 (2%nat, (str "cp-2", blake3_raw (byte_str "note-2"))))).
  cbn [mbind option_bind]. apply ensure_err_passes. intros [] Hv.
  unfold verify_stored_inclusion in Hv. cbn [set_leaf inclusion_of ci_leaf ci_proof ci_leaf_index ci_tree_size fst snd] in Hv.
  rewrite hex_decode_digest_encode in Hv by apply merkle_root_length.
  change (hex_decode_digest "inclusion.leaf" (repeat_str "00" 32)) with (Ok (replicate 32 x00) : Result bytes) in Hv.
  cbn [mbind result_bind] in Hv. rewrite to_from_steps in Hv by (apply path_siblings; by compute; lia).
  cbn [mbind result_bind] in Hv. apply verified_leaf in Hv as (i & Hi & _); try done.
  - by apply list_elem_of_lookup_2 in Hi.
  - apply path_siblings. vm_compute. lia.
Qed.
End anchors_tests.
