(* ===== verification/BundleTests.v ===== *)
(** * The tests of the bundle crate (bundle/src/lib.rs)

    The round trip of a bundle over several shards and the determinism of the
    export, as functions that pass or panic, in the manner of Scenarios, and
    that they pass with an archive, a compressor and a serializer that work. *)

From Stdlib Require Import Strings.Byte.
From S2P Require Import Prelude Text Errors Hash Merkle Json Jcs JcsFacts Record Chain Recorder Keys.
From S2P Require Import Checkpoint Revocation Bundle Anchors Reader Streams Identity Writer Readback Success.
From S2P Require Import Scenarios FormatTests OpsTests.

(** [writer.op(..).unwrap()]. *)
Definition wr_unwrap `{Blake3} `{ZipWriterApi} {A} (m : Wr A) (w : BundleWriter) : option (BundleWriter * A) :=
  match m w with (w, Ok a) => Some (w, a) | (_, Err _) => None end.

Section bundle_tests.
Context `{Blake3} `{Ed25519} `{UlidApi, !UlidParts} `{OsRng} `{!KeyGen}.
Context `{ZipWriterApi} `{ZstdApi} `{ZstdEncode} `{JsonPrinter} `{JsonParser}.

Definition test_tool : ToolInfo := {| ti_name := str "sealr-export"; ti_version := str "0.1.0" |}.

Definition make_records (stream segment : ulid) (n : Z) : option (list EvRecord) :=
  chain_samples stream segment n.

Definition test_roots : RootsFile :=
  {| rf_roots := [{| tr_name := str "test-root"; tr_cert_pem := str "PEM" |}]; rf_console_keys := [] |}.

Definition test_certs : rstring :=
  str "-----BEGIN CERTIFICATE-----" ++ nl ++ str "MIIB" ++ nl ++ str "-----END CERTIFICATE-----" ++ nl.

(** The checkpoint that [build_bundle] makes, with fresh keys. *)
Definition test_checkpoint (records : list EvRecord) (rng : rng_state) : option BundleCheckpoint :=
  let '(recorder_key, rng) := generate rng in
  let '(console_key, _) := generate rng in
  note ← unwrap (build_note (ulid_to_string (ulid_from_parts 11 13)) records (str "2026-08-11T12:00:30.000Z")
    (str "fp-test"));
  signed ← unwrap (sign_note note recorder_key);
  cs ← unwrap (cs_create (cn_checkpoint_id (sc_note signed)) (str "2026-08-11T12:00:31.000Z") (str "console-1")
    (Some (cn_seq_to (sc_note signed))) console_key);
  mret {| bc_checkpoint := signed; bc_countersignature := Some cs |}.

Definition add_checkpoint (records : list EvRecord) (sid : rstring) (rng : rng_state) (w : BundleWriter)
    : option BundleWriter :=
  cp ← test_checkpoint records rng;
  '(w, _) ← wr_unwrap (add_stream_checkpoints sid [cp]) w;
  '(w, _) ← wr_unwrap (add_identity test_certs None test_roots) w;
  mret w.

Definition test_writer (shard_threshold : Z) : BundleWriter :=
  with_shard_threshold shard_threshold
    (new_writer (ulid_to_string (ulid_from_parts 11 14)) (str "2026-08-11T13:00:00.000Z") test_tool).

Definition build_bundle (shard_threshold : Z) (records : list EvRecord) (sid : rstring) (with_checkpoint : bool)
    (rng : rng_state) : option (archive * rstring) :=
  lines ← mapM (λ r, unwrap (to_ndjson_line r)) records;
  '(w, _) ← wr_unwrap (add_stream_records sid (Ok <$> lines)) (test_writer shard_threshold);
  w ← (if with_checkpoint then add_checkpoint records sid rng w else Some w);
  '(_, (manifest, hash, cursor)) ← wr_unwrap (finish Metadata None None []) w;
  _ ← ensure (bool_decide (length (bs_streams (man_scope manifest)) = 1%nat));
  mret (cursor, hash).

(** The closure that collects the sequences; it panics on a line without one. *)
Definition push_seq (seen : option (list Z)) (line : bytes) : option (list Z) * BResult unit :=
  ((s ← seen; v ← parse_value line; q ← get_u64 "seq" v; mret (s ++ [q])), Ok tt).

Definition reader_round_trip_with_shards (rng : rng_state) : Test :=
  let stream := ulid_from_parts 21 21 in
  records ← make_records stream (ulid_from_parts 21 22) 10;
  let sid := ulid_to_string stream in
  '(bytes, hash) ← build_bundle 200 records sid true rng;
  _ ← ensure (str_len hash =? 64);
  reader ← unwrap (open_bundle (Some bytes));
  scope ← head (bs_streams (man_scope (br_manifest reader)));
  _ ← ensure_eq (ss_record_count scope) 10;
  read_hash ← unwrap (manifest_hash reader);
  _ ← ensure_eq read_hash hash;
  unlisted ← unwrap (verify_content_hashes reader);
  _ ← ensure_eq unlisted [];
  index ← unwrap (record_index reader);
  entry ← head (idx_streams index);
  _ ← ensure (1 <? Z.of_nat (length (ris_shards entry)));
  let '(seen, n) := read_stream_records reader sid push_seq (Some []) in
  n ← unwrap n;
  _ ← ensure_eq n 10;
  seen ← seen;
  _ ← ensure_eq seen (seqZ 0 10);
  cps ← unwrap (stream_checkpoints reader sid);
  _ ← ensure (bool_decide (length (scs_checkpoints cps) = 1%nat));
  identity ← unwrap (identity reader);
  root ← head (rf_roots (bi_roots identity));
  ensure_eq (tr_name root) (str "test-root").

Definition determinism_same_inputs_same_bytes `{EqDecision archive} (rng : rng_state) : Test :=
  let stream := ulid_from_parts 31 31 in
  records ← make_records stream (ulid_from_parts 31 32) 8;
  let sid := ulid_to_string stream in
  '(a, ha) ← build_bundle 1000000 records sid false rng;
  '(b, hb) ← build_bundle 1000000 records sid false rng;
  _ ← ensure_eq a b;
  ensure_eq ha hb.
End bundle_tests.

(** ** Facts: the lines of the samples *)

Section lines.
Context `{Blake3, !Blake3Len} `{UlidApi, !UlidLaws, !UlidParts} `{JsonParser}.
Context (Hvalid : ∀ u, valid_str (ulid_to_string u) = true).

(** The line of a record without its newline. *)
Definition line_for (r : EvRecord) (l : bytes) : Prop :=
  to_jcs_bytes (to_value r) = Ok l ∧ valid_line l ∧ (200 ≤ length l)%nat.

(** [serde_json] reads the sequence back, with and without the newline. *)
Definition seq_reads (r : EvRecord) : Prop := ∀ l, to_jcs_bytes (to_value r) = Ok l →
  ∃ v, parse_value l = Some v ∧ parse_value (line_of l) = Some v ∧ get_u64 "seq" v = Some (rec_seq r).

Lemma canonical_line v l : wf_value v = true → (0 < text_size v)%nat → write_value v = Ok l → valid_line l.
Proof.
  intros Hwf Hsize Hl. pose proof (write_value_printable _ _ Hwf Hl) as Hp.
  pose proof (write_value_length _ _ Hwf Hl). split; [by intros ->; cbn in *; lia|].
  intros Hin. rewrite Forall_forall in Hp. specialize (Hp _ Hin). by apply Hp.
Qed.

Lemma sample_lines stream segment n rs :
  0 ≤ n ≤ 60 → chain_samples stream segment n = Some rs →
  ∃ ls, Forall2 line_for rs ls ∧ mapM (λ r, unwrap (to_ndjson_line r)) rs = Some (line_of <$> ls).
Proof.
  intros Hn Hrs. destruct (chain_samples_run stream segment n Hn) as (rs' & Hrs' & _ & Hrun & Hap).
  rewrite Hrs in Hrs'. injection Hrs' as <-.
  assert (Forall (λ r, ∃ l, line_for r l) rs) as Hall.
  { apply Forall_lookup. intros i r Hi. destruct (appended_sample _ _ _ _ _ _ Hap Hi) as (s & p & c & Hs & Hlt & Heq).
    destruct (run_placed _ _ _ Hrun i r Hi) as (Hseq & Hsafe & _ & _ & _ & [Hplen Hp%hash_text_valid] & [Hclen Hc%hash_text_valid]).
    destruct (sample_recordable stream segment (Z.of_nat i) s p c) as [Ht Hrec]; [lia|]. rewrite <-Heq in Ht, Hrec.
    assert (is_u64 (rec_seq r) = true) as Hu by (rewrite Heq; exact Hs).
    pose proof (safe_record (rec_seq r) (rec_prev_hash r) r Hu Ht) as Hsv.
    assert (set_link (rec_seq r) (rec_prev_hash r) r = r) as Hid by (by destruct r).
    rewrite Hid, Hrec, (proj2 (Z.leb_le _ _) Hsafe) in Hsv.
    assert (wf_value (to_value r) = true) as Hwf.
    { assert (wf_record r = true) as Hwr.
      { rewrite Heq in Hp, Hc |- *. by apply (wf_sample_value _ _ Hvalid (Z.of_nat i) s p c (str "db:prod-main")). }
      unfold wf_record in Hwr. by apply andb_true_iff in Hwr as [_ ?]. }
    pose proof (write_value_outcome (to_value r)) as Ho. rewrite Hsv in Ho.
    destruct (write_value (to_value r)) as [l|] eqn:Hl; [|by destruct Ho]. exists l.
    assert (200 ≤ text_size (to_value r))%nat as Hsize.
    { rewrite Heq in Hplen, Hclen |- *. cbn [set_record_hash set_link rec_prev_hash rec_record_hash] in Hplen, Hclen.
      cbn. rewrite Hplen, Hclen. lia. }
    split_and!; [done|by apply (canonical_line (to_value r)); [|lia|]|].
    etrans; [exact Hsize|]. by apply write_value_length. }
  apply Forall_exists_Forall2_l in Hall as [ls Hls]. exists ls. split; [done|].
  clear -Hls. induction Hls as [|r l rs ls (Hl & _) _ IH]; [done|].
  assert (unwrap (to_ndjson_line r) = Some (line_of l)) as Hr by (unfold to_ndjson_line; by rewrite Hl).
  cbn [mapM fmap list_fmap]. rewrite Hr. cbn [mbind option_bind]. by rewrite IH.
Qed.
End lines.

(** ** Facts: the bundle that is built *)

(** What the test leaves to the libraries: the documents of its run parse back,
    and nothing in it has 2^53 bytes. *)
Record run_faithful `{Blake3} `{ZipWriterLaws} `{ZstdEncode} `{JsonPrinter} `{JsonParser}
    (ops : list op) (start : BundleWriter) : Prop := {
  rf_lines : ∀ sid ls l, OpRecords sid ls ∈ ops → Ok l ∈ ls → Z.of_nat (length l) ≤ MAX_SAFE_INTEGER;
  rf_small : ∀ w, run_ops ops start = (w, Ok tt) → small_run w;
  rf_index : ∀ w, run_ops ops start = (w, Ok tt) → index_parses (bw_index w);
  rf_manifest : ∀ w w' m h a, run_ops ops start = (w, Ok tt) →
    finish Metadata None None [] w = (w', Ok (m, h, a)) → manifest_parses m;
  rf_documents : Forall op_parses ops;
}.

Section built.
Context `{Blake3, !Blake3Len} `{Ed25519, !Ed25519Laws} `{UlidApi, !UlidLaws, !UlidParts} `{OsRng} `{!KeyGen}.
Context `{ZipWriterLaws} `{ZstdApi} `{ZstdEncode, !ZstdLaws} `{JsonPrinter} `{JsonParser}.
Context (Hworks : tools_work) (Hvalid : ∀ u, valid_str (ulid_to_string u) = true).

Lemma ok_lines (ls : list bytes) : ((λ l, Ok (line_of l) : BResult bytes) <$> ls) = Ok <$> (line_of <$> ls).
Proof. exact (list_fmap_compose line_of Ok ls). Qed.

(** The operations of [build_bundle]. *)
Definition built_ops (sid : rstring) (ls : list bytes) (cp : option BundleCheckpoint) : list op :=
  OpRecords sid ((λ l, Ok (line_of l)) <$> ls) ::
  match cp with
  | Some cp => [OpCheckpoints sid [cp]; OpIdentity test_certs None test_roots]
  | None => []
  end.

Lemma lines_seq ls rs :
  Forall2 line_for rs ls → Forall seq_reads rs → Forall (λ l, is_ok (seq_of l) = true) (line_of <$> ls).
Proof.
  intros Hls Hseq. apply Forall_fmap, Forall_lookup. intros i l Hi.
  destruct (Forall2_lookup_r _ _ _ _ _ Hls Hi) as (r & Hr & Hl' & _).
  rewrite Forall_lookup in Hseq. destruct (Hseq i r Hr l Hl') as (v & _ & Hv & Hq).
  unfold compose, seq_of. rewrite Hv. cbn [ok_or mbind result_bind]. by rewrite Hq.
Qed.

Lemma built_ready sid ls cp rs :
  Forall2 line_for rs ls → rs ≠ [] → Z.of_nat (length rs) < 2 ^ 32 - 1 → Forall seq_reads rs →
  ops_ready (built_ops sid ls cp).
Proof.
  intros Hls Hne Hlen Hseq. split.
  - destruct cp as [cp|]; cbn [built_ops mbind list_bind op_paths app]; [|constructor].
    apply NoDup_cons. split; [|by_compute]. rewrite !not_elem_of_cons. split_and!; try done. by intros ?%not_elem_of_nil.
  - by destruct cp; apply NoDup_singleton.
  - assert (op_ready (OpRecords sid ((λ l, Ok (line_of l)) <$> ls))) as Hop.
    { exists (line_of <$> ls). split; [by rewrite ok_lines|].
      apply Forall2_length in Hls as Hl. split; [by destruct ls, rs|]. split; [rewrite length_fmap; lia|].
      by apply (lines_seq ls rs). }
    destruct cp; repeat constructor; done.
Qed.

(** The checkpoint of the samples. *)
Lemma test_checkpoint_made stream segment n rs rng :
  0 < n ≤ 60 → chain_samples stream segment n = Some rs → is_Some (test_checkpoint rs rng).
Proof.
  intros Hn Hrs. destruct (chain_samples_run stream segment n) as (rs' & Hrs' & Hlen & Hrun & _); [lia|].
  rewrite Hrs in Hrs'. injection Hrs' as <-. unfold test_checkpoint.
  destruct (generate rng) as [key rng1], (generate rng1) as [ckey rng2].
  destruct (run_noted _ _ _ (ulid_to_string (ulid_from_parts 11 13)) (str "2026-08-11T12:00:30.000Z") (str "fp-test") Hrun)
    as (note & Hn' & Hsign); [destruct rs; [cbn in Hlen; lia|done]|unfold MAX_SAFE_INTEGER; lia|].
  rewrite Hn'. cbn [unwrap res_ok mbind option_bind]. destruct (Hsign key) as (sc & -> & Hsc).
  cbn [unwrap res_ok mbind option_bind]. rewrite Hsc. unfold cs_create.
  match goal with |- context [sign_jcs ckey ?x] => destruct (safe_signed ckey x) as [sg ->] end; [|by eexists].
  apply build_note_Ok in Hn' as (f & l & root & _ & Hl & _ & _ & ->). cbn [cn_seq_to cn_checkpoint_id].
  rewrite last_lookup in Hl. destruct (run_placed _ _ _ Hrun _ l Hl) as (Hs & Hmax & _).
  unfold to_value, CountersignatureNote_serialize. rewrite safe_object.
  cbn [forallb app opt_field fmap option_fmap option_map snd safe_value csn_stream_high_water_seq andb].
  rewrite safe_number; [done|]. lia.
Qed.

Lemma ops_without_records ops w w' :
  op_streams ops = [] → run_ops ops w = (w', Ok tt) → bw_index w' = bw_index w.
Proof.
  intros Hno Hr. eapply (run_ops_keeps (λ v, bw_index v = bw_index w) (λ _, False)); [| | | | |done|exact Hr].
  - done.
  - apply close_records_keeps; [|done]. intros p bs v v' u Hv (_ & _ & ->)%write_entry_Ok. done.
  - intros a b _ v v' u Hv. unfold require_phase. case_match; [done|]. by intros [= <- _].
  - intros p bs _ v v' u Hv (_ & _ & ->)%write_entry_Ok. done.
  - intros sid ls Hin. assert (sid ∈ op_streams ops) as Hs by (apply elem_of_op_streams; eauto).
    rewrite Hno in Hs. by apply not_elem_of_nil in Hs.
Qed.

Lemma wr_unwrap_Ok {A} (m : Wr A) w w' x : m w = (w', Ok x) → wr_unwrap m w = Some (w', x).
Proof. unfold wr_unwrap. by intros ->. Qed.

Context (stream segment : ulid) (n : Z) (rs : list EvRecord) (ls : list bytes).
Context (Hn : 0 < n ≤ 60) (Hrs : chain_samples stream segment n = Some rs) (Hlen : Z.of_nat (length rs) = n).
Context (Hls : Forall2 line_for rs ls) (Hmap : mapM (λ r, unwrap (to_ndjson_line r)) rs = Some (line_of <$> ls)).
Context (Hseq : Forall seq_reads rs).
Context (threshold : Z) (with_checkpoint : bool) (rng : rng_state).

Abbreviation sid := (ulid_to_string stream).
Abbreviation ops := (built_ops sid ls (if with_checkpoint then test_checkpoint rs rng else None)).

(** [build_bundle] runs the operations and finishes. *)
Lemma bundle_built :
  run_faithful ops (test_writer threshold) →
  ∃ w w' m h a e, run_ops ops (test_writer threshold) = (w, Ok tt) ∧
    finish Metadata None None [] w = (w', Ok (m, h, a)) ∧
    build_bundle threshold rs sid with_checkpoint rng = Some (a, h) ∧
    idx_streams (bw_index w) = [e] ∧ ris_stream_id e = sid ∧ ris_record_count e = n ∧
    (threshold ≤ 200 → length (ris_shards e) = length ls).
Proof.
  intros Hf. apply Forall2_length in Hls as Hlen2.
  destruct (run_continues (ulid_to_string (ulid_from_parts 11 14)) (str "2026-08-11T13:00:00.000Z") test_tool threshold
    [] ops (test_writer threshold) Hworks) as [w Hw]; [|done|by destruct with_checkpoint, (test_checkpoint rs rng)|].
  { apply (built_ready _ _ _ rs); try done; [by intros ->; cbn in Hlen; lia|lia]. }
  change (run_ops ops (test_writer threshold) = (w, Ok tt)) in Hw.
  destruct (run_finishes (ulid_to_string (ulid_from_parts 11 14)) (str "2026-08-11T13:00:00.000Z") test_tool threshold
    ops w Metadata None None [] Hworks Hw (rf_small _ _ Hf w Hw)) as (w' & [[m h] a] & Hfin).
  pose proof (lines_seq ls rs Hls Hseq) as Hok.
  destruct (records_succeed Hworks sid (line_of <$> ls) (test_writer threshold)) as (w1 & e & Hrec & _ & Hcount & Hshards);
    [done|destruct ls; [cbn in *; lia|done]|rewrite length_fmap; lia|done| |].
  { intros k _. cbn. rewrite zw_new_entries. apply not_elem_of_nil. }
  pose proof Hw as Hw0. unfold built_ops in Hw0. rewrite ok_lines in Hw0. cbn [app run_ops run_op] in Hw0.
  apply bind_run in Hw0 as (w1' & [] & Ho & Hrest). apply bind_run in Ho as (w1'' & e' & Ho & Hu). injection Hu as ->.
  rewrite Hrec in Ho. injection Ho as <- <-.
  apply ops_without_records in Hrest as Hidx; [|by destruct with_checkpoint, (test_checkpoint rs rng)].
  apply add_stream_records_id in Hrec as Hid. destruct Hid as [Hix Hid].
  exists w, w', m, h, a, e. split_and!; try done.
  - unfold build_bundle. rewrite Hmap. cbn [mbind option_bind]. rewrite (wr_unwrap_Ok _ _ _ _ Hrec). cbn [mbind option_bind].
    assert ((if with_checkpoint then add_checkpoint rs sid rng w1 else Some w1) = Some w) as ->.
    { destruct with_checkpoint; [|by injection Hrest as ->]. unfold add_checkpoint.
      destruct (test_checkpoint_made stream segment n rs rng Hn Hrs) as [cp Hcp]. rewrite Hcp in Hrest |- *.
      cbn [mbind option_bind run_ops run_op] in Hrest |- *. apply bind_run in Hrest as (w2 & [] & Hc & Hrest).
      rewrite (wr_unwrap_Ok _ _ _ _ Hc). cbn [mbind option_bind].
      apply bind_run in Hrest as (w3 & [] & Hi & Hrest). injection Hrest as <-. by rewrite (wr_unwrap_Ok _ _ _ _ Hi). }
    cbn [mbind option_bind]. rewrite (wr_unwrap_Ok _ _ _ _ Hfin). cbn [mbind option_bind].
    by rewrite (finished_streams _ _ _ _ _ _ _ _ _ _ _ _ _ _ Hw Hfin), Hidx, Hix.
  - by rewrite Hidx, Hix.
  - rewrite Hcount, length_fmap. lia.
  - intros Hle. rewrite <-(length_fmap line_of ls). apply Hshards. apply Forall_fmap, Forall_lookup. intros i l Hi.
    destruct (Forall2_lookup_r _ _ _ _ _ Hls Hi) as (r & _ & _ & _ & Hsize). unfold compose, line_of.
    split; [by destruct l|]. change (bw_shard_threshold (test_writer threshold)) with threshold.
    assert (Z.of_nat (length (line_of l)) ≤ MAX_SAFE_INTEGER) as Hmax.
    { apply (rf_lines _ _ Hf sid ((λ l, Ok (line_of l)) <$> ls)); [left|].
      apply list_elem_of_fmap. exists l. split; [done|]. by eapply list_elem_of_lookup_2. }
    unfold line_of in *. rewrite length_app in *. cbn [length] in *.
    rewrite wrap_u64_id; [lia|apply is_u64_spec; unfold u64_max, MAX_SAFE_INTEGER in *; lia].
Qed.
End built.

(** ** The tests pass *)

Section bundle_tests_pass.
Context `{Blake3, !Blake3Len} `{Ed25519, !Ed25519Laws} `{UlidApi, !UlidLaws, !UlidParts} `{OsRng} `{!KeyGen}.
Context `{ZipWriterLaws} `{ZstdApi} `{ZstdEncode, !ZstdLaws} `{JsonPrinter} `{JsonParser}.
Context (Hworks : tools_work) (Hvalid : ∀ u, valid_str (ulid_to_string u) = true).

(** The libraries serve the samples of a stream, exported by [build_bundle]. *)
Definition serves (stream segment : ulid) (n threshold : Z) (with_checkpoint : bool) (rng : rng_state) : Prop :=
  ∀ rs ls, make_records stream segment n = Some rs → Forall2 line_for rs ls →
    Forall seq_reads rs ∧
    run_faithful (built_ops (ulid_to_string stream) ls (if with_checkpoint then test_checkpoint rs rng else None))
      (test_writer threshold).

Lemma count_lines {A} (l : list A) c :
  0 ≤ c → c + Z.of_nat (length l) ≤ u64_max → foldl (λ c _, u64_add c 1) c l = c + Z.of_nat (length l).
Proof.
  revert c; induction l as [|x l IH]; intros c Hc Hl; cbn [foldl length] in *; [lia|].
  assert (u64_add c 1 = c + 1) as -> by (apply wrap_u64_id, is_u64_spec; lia). rewrite IH by lia. lia.
Qed.

(** The sequences that the closure collects. *)
Lemma push_seq_lines rs ls acc :
  Forall2 line_for rs ls → Forall seq_reads rs →
  run_lines push_seq (Some acc) ls = Some (acc ++ (rec_seq <$> rs)).
Proof.
  intros Hls. revert acc. induction Hls as [|r l rs ls (Hl & _) _ IH]; intros acc Hseq.
  { cbn. by rewrite app_nil_r. }
  apply Forall_cons in Hseq as [Hr Hseq]. destruct (Hr l Hl) as (v & Hv & _ & Hq).
  unfold run_lines in *. cbn [foldl push_seq fst mbind option_bind]. rewrite Hv. cbn [mbind option_bind].
  rewrite Hq. cbn [mbind option_bind mret option_ret]. rewrite IH by done. by rewrite <-(assoc_L app).
Qed.

Theorem reader_round_trip_passes rng :
  serves (ulid_from_parts 21 21) (ulid_from_parts 21 22) 10 200 true rng →
  reader_round_trip_with_shards rng = Some tt.
Proof.
  intros Hserves. unfold reader_round_trip_with_shards, make_records in *. cbv zeta.
  destruct (chain_samples_run (ulid_from_parts 21 21) (ulid_from_parts 21 22) 10) as (rs & Hrs & Hlen & Hrun & _); [lia|].
  destruct (sample_lines Hvalid (ulid_from_parts 21 21) (ulid_from_parts 21 22) 10 rs) as (ls & Hls & Hmap); [lia|done|].
  destruct (Hserves rs ls Hrs Hls) as [Hseq Hf].
  destruct (bundle_built Hworks (ulid_from_parts 21 21) (ulid_from_parts 21 22) 10 rs ls ltac:(lia) Hrs Hlen Hls Hmap Hseq 200 true rng Hf)
    as (w & w' & m & h & a & e & Hw & Hfin & Hbuild & Hidx & Hid & Hcount & Hshards).
  set (sid := ulid_to_string (ulid_from_parts 21 21)) in *.
  destruct (test_checkpoint_made (ulid_from_parts 21 21) (ulid_from_parts 21 22) 10 rs rng ltac:(lia) Hrs) as [cp Hcp]. rewrite Hcp in *.
  assert (OpIdentity test_certs None test_roots ∈ built_ops sid ls (Some cp)) as Hident by (right; right; left).
  assert (INDEX ∈ (zw_entries (bw_zip w)).*1) as Hix.
  { eapply run_ops_identity; [|exact Hident|exact Hw]. intros [Hle _]. cbn in Hle. lia. }
  rewrite Hrs. cbn [mbind option_bind]. rewrite Hbuild. cbn [mbind option_bind].
  destruct (finished_opens _ _ _ _ _ _ _ _ _ _ _ _ _ _ Hw Hfin (rf_manifest _ _ Hf _ _ _ _ _ Hw Hfin)) as [Hopen Hhash].
  assert (h = blake3_hex (default [] (res_ok (struct_to_jcs_bytes m)))) as Hhex.
  { unfold manifest_hash, jcs_hash in Hhash. cbn [br_manifest] in Hhash.
    destruct (struct_to_jcs_bytes m); [|done]. by injection Hhash as <-. }
  rewrite Hhex at 1. unfold blake3_hex. rewrite hex_str_len, blake3_length.
  change (ensure (2 * Z.of_nat 32 =? 64)) with (Some tt). cbn [mbind option_bind].
  rewrite Hopen. cbn [unwrap res_ok mbind option_bind br_manifest].
  pose proof (finished_streams _ _ _ _ _ _ _ _ _ _ _ _ _ _ Hw Hfin) as Hstreams. rewrite Hidx in Hstreams.
  rewrite Hstreams. cbn [fmap list_fmap head scope_of mbind option_bind ss_record_count]. rewrite Hcount, ensure_eq_passes.
  cbn [mbind option_bind]. rewrite Hhash. cbn [unwrap res_ok mbind option_bind]. rewrite ensure_eq_passes.
  cbn [mbind option_bind]. rewrite (finished_verifies _ _ _ _ _ _ _ _ _ _ _ _ _ _ Hw Hfin).
  cbn [unwrap res_ok mbind option_bind]. rewrite ensure_eq_passes. cbn [mbind option_bind].
  rewrite (finished_index_read _ _ _ _ _ _ _ _ _ _ _ _ _ _ Hw Hfin Hix (rf_index _ _ Hf w Hw)).
  cbn [unwrap res_ok mbind option_bind]. rewrite Hidx. cbn [head mbind option_bind]. rewrite (Hshards ltac:(lia)). apply Forall2_length in Hls as Hlen2.
  rewrite <-Hlen2, Hlen. change (ensure (1 <? 10)) with (Some tt). cbn [mbind option_bind].
  assert (stream_lines {| br_zip := a; br_manifest := m |} sid = (ls, Ok (foldl (λ c _, u64_add c 1) 0 ls))) as Hback.
  { eapply (stream_back [] [OpCheckpoints sid [cp]; OpIdentity test_certs None test_roots]); [exact Hw|exact Hfin|..].
    - intros ? ?%not_elem_of_nil. done.
    - apply Forall_lookup. intros i l Hi. by destruct (Forall2_lookup_r _ _ _ _ _ Hls Hi) as (r & _ & _ & ? & _).
    - eapply finished_index; [exact Hw|exact Hfin|exact Hix].
    - apply (rf_index _ _ Hf w Hw). }
  rewrite read_stream_records_run by done. rewrite Hback. cbn [fst snd unwrap res_ok mbind option_bind].
  rewrite count_lines by (unfold u64_max; lia). rewrite <-Hlen2, Hlen, ensure_eq_passes. cbn [mbind option_bind].
  rewrite (push_seq_lines rs ls []) by done. cbn [mbind option_bind app].
  rewrite (run_seqs _ _ _ Hrun), Hlen.
  rewrite ensure_eq_passes. cbn [mbind option_bind].
  rewrite (finished_document _ _ _ _ _ _ _ _ _ _ _ _ _ _ Hw Hfin (rf_documents _ _ Hf) sid [cp]) by (right; left).
  cbn [unwrap res_ok mbind option_bind scs_checkpoints].
  change (ensure (bool_decide (length [cp] = 1%nat))) with (Some tt). cbn [mbind option_bind].
  rewrite (finished_identity _ _ _ _ _ _ _ _ _ _ _ _ _ _ Hw Hfin (rf_documents _ _ Hf) test_certs None test_roots).
  - cbn [unwrap res_ok mbind option_bind bi_roots test_roots rf_roots head tr_name]. apply ensure_eq_passes.
  - done.
  - intros c r ro Hin. unfold built_ops in Hin. rewrite !elem_of_cons in Hin.
    destruct Hin as [Hin|[Hin|[Hin|Hin]]]; [done|done|by injection Hin|by apply not_elem_of_nil in Hin].
Qed.

Theorem determinism_passes `{EqDecision archive} rng :
  serves (ulid_from_parts 31 31) (ulid_from_parts 31 32) 8 1000000 false rng →
  determinism_same_inputs_same_bytes rng = Some tt.
Proof.
  intros Hserves. unfold determinism_same_inputs_same_bytes, make_records in *. cbv zeta.
  destruct (chain_samples_run (ulid_from_parts 31 31) (ulid_from_parts 31 32) 8) as (rs & Hrs & Hlen & Hrun & _); [lia|].
  destruct (sample_lines Hvalid (ulid_from_parts 31 31) (ulid_from_parts 31 32) 8 rs) as (ls & Hls & Hmap); [lia|done|].
  destruct (Hserves rs ls Hrs Hls) as [Hseq Hf].
  destruct (bundle_built Hworks (ulid_from_parts 31 31) (ulid_from_parts 31 32) 8 rs ls ltac:(lia) Hrs Hlen Hls Hmap Hseq 1000000 false rng Hf)
    as (w & w' & m & h & a & e & _ & _ & Hbuild & _).
  rewrite Hrs. cbn [mbind option_bind]. rewrite Hbuild. cbn [mbind option_bind]. by rewrite !ensure_eq_passes.
Qed.
End bundle_tests_pass.
